(* ===== verification/_CoqProject ===== *)
-Q . S2P
Prelude.v
JsBase.v
JsLong.v
JsWriter.v
ProtoWire.v
WalletMsgs.v
SiteScripts.v
WalletFee.v
WalletPure.v
WalletApp.v
WalletMachine.v
WalletProofs.v
WalletForms.v
WalletOutcome.v
WalletProps.v
GoBase.v
Market.v
MarketProofs.v
PublisherLeases.v
PageToChain.v
GoHash.v
GoSdk.v
Tokenomics.v
TokenDemo.v
Verifiers.v
Nodes.v
RegParams.v
Scores.v
Verification.v
VerificationProofs.v
BankFrame.v
ChainInv.v
Rounds.v
RoundProofs.v
Rewards.v
RewardProofs.v
RoundSteps.v
RoundInv.v
Chain.v
EndBlock.v
Emission.v
Upgrades.v
TokenGenesis.v
Halts.v
ChainProps.v
RoundProps.v
FinalizeTotal.v
RewardsTotal.v
AssignTotal.v
Liveness.v
DemoEnv.v
ChainDemo.v
RoundDemo.v
UpgradeProps.v
NodeProps.v
PageDemo.v
LiveDemo.v
Agent.v
AgentProofs.v
AgentProps.v
Relay.v
RelayProofs.v
RelayProps.v
Daemon.v
DaemonProofs.v
ScheduleInv.v
DaemonProps.v
RelayDemo.v
AgentDemo.v
DaemonDemo.v
ScoreDemo.v
Airdrop.v
AirdropProofs.v
AirdropProps.v
AirdropDemo.v
