(* ===== verification/Prelude.v ===== *)
(** * Content Grid Chain: a verification library

    The program is a Cosmos chain on which owners of websites ("publishers")
    register their domains, verifiers check them in rounds, and publishers lease
    link slots; and a web site whose pages let a visitor do this from a browser
    wallet.  The parts modelled here are the browser code
    ([src/cmd/congrid-site/static/]: [wallet.js], [i18n.js], [language-menu.js] and
    the functions of [wallet-deps.bundle.mjs] that [wallet.js] calls), the four
    modules of the chain: the registry ([src/x/registry/]), the bonds of the
    verifiers ([src/x/verifiers/]), the token's emission ([src/x/tokenomics/]) and
    the nodes ([src/x/nodes/]), its software upgrades ([src/app/upgrades.go]), the
    verifiers' daemon ([src/offchain/verifierd/]), and the airdrop of the site's server
    ([src/cmd/congrid-site/]).  The page builds the four messages of the registry,
    encodes them by hand in protobuf, and gives them to the signing client; the
    registry checks them and keeps the market.  At the end of each block it
    decides the verifications that are due, pays the rounds that are decided out
    of the emission pool, settles the leases that ended and assigns the next
    round to verifiers drawn by their bonds; the first three modules
    share the bank.

    ** The browser code

    - [JsBase], [JsLong], [JsWriter]: strings as UTF-16 units, numbers as doubles,
      [Number] and [String]; the [Long] class of 64-bit integers on 16-bit limbs;
      the protobuf [Writer] and its UTF-8.  Theorems: conversions saturate as
      documented, what is written is what was announced, UTF-8 round trips.
    - [ProtoWire], [WalletMsgs]: a reference decoder of the wire format with the
      field numbers of [tx.proto], and the four codecs [makeMsg*] of [wallet.js].
      Theorems: each encoder followed by the decoder gives the message back.
    - [WalletFee], [WalletPure]: gas prices, decimals and [calculateFee]; the pure
      helpers of [wallet.js] ([isLikelyGridAddress], [toHttpRPC],
      [parseStartDate], ...).  Theorems: the fee is the ceiling of price times
      gas, prices are read exactly, the start of a lease is the typed date and
      never past.
    - [SiteScripts]: Modules [I18n] and [LanguageMenu].
    - [WalletApp]: every asynchronous function of [wallet.js] as a program of a
      free monad ([proc]) that reads and writes the page's state between its
      [await]s.  [WalletMachine]: the event loop, which interleaves the programs
      at their [await]s in any order, as a step relation, and a rely/guarantee
      logic for it with its soundness.  [WalletProofs]: each handler follows the
      protocol of the page.  [WalletForms]: what each form may send, as a rule on the
      form, the clock, the account and the answer of the server that its handler
      found, with its gas limit ([message_valid], [gas_limit]); the handlers keep the
      rules.  [WalletProps]: what follows for every reachable state (only messages
      that keep the rule of their form are signed, with the fee of the configured
      gas price and of the form's gas limit, and a connected account; one load of
      the dependencies at a time; the session is consistent), exactness of the
      fields of the messages, and two ways in which the page misbehaves (Module
      [Runs]).  [WalletOutcome]: every handler ends, and shows a success exactly
      when its transaction went through.

    ** The chain

    - [GoBase], [GoHash], [GoSdk]: byte strings and [strings.TrimSpace], 64-bit
      integers, ordered stores; SHA-256, hexadecimal and big-endian integers; the
      256-bit integers, decimals and coins of the SDK.  Functions of other
      packages (bech32 addresses, URLs, case mapping, big integers from text, the
      rounding of decimals) are the classes [GoEnv], [AddrText] and [DecRounding],
      the bank is the class [BankKeeper], of which the registry's view is the
      class [Bank], and the threshold signatures of drand are the class
      [DrandSuite]; each states the laws the modules rely on, and the theorems
      are proved for every instance.
    - [Tokenomics]: parameters, genesis allocations, the simulation and the keeper
      of the emission pool.  Theorems: allocations add up to the supply, the
      simulation issues the supply linearly ([TokenDemo] applies them).
      [TokenGenesis]: the default genesis, its import and its export, after which the
      pool is funded again ([ScoreDemo]).
    - [Nodes]: the registry of nodes, which is in memory only.  [NodeProps]: its
      records meet their checks, and a listing filed again gives the keeper back.
    - [Verifiers]: the table of bonds, [BondCoins], [UnbondCoins], the messages and
      the genesis; the invariant [bonds_inv], and that the module account covers
      the bonds.
    - [Market]: websites, slots, leases, the messages [RegisterPublisher],
      [CreateSlot], [UpdateSlotStatus], [LeaseSlot], the settlement of ended
      leases, violations, cooldown and the genesis import.  [MarketProofs]: the
      invariant [market_inv], the conservation of escrow, and that settlement and
      refunds go through.
      [PublisherLeases]: the refund of the leases of a publisher.
    - [RegParams]: the parameters of the registry, their checks and the emission of
      a round.  [Scores]: the scores of publishers and verifiers and the split of a
      publisher's reward, which prepare settlements off the chain.  Theorems: a
      split hands out the reward up to the roundings, which are bounded by the least
      score of a verifier and are not small when that is zero, and engagement counts
      at most a third of its weight ([ScoreDemo] applies them).
    - [Verification]: assignments, commits, reveals, the statistics of a round and
      the finalisation of assignments.  [VerificationProofs], [BankFrame],
      [ChainInv]: determinism of the statistics, what finalisation keeps of the
      market and the bank, and the invariant [chain_inv].
    - [Rounds]: the schedule, the drand beacons, the weighted selection of verifiers
      and [assignNewRound].  [RoundProofs]: the draws are proportional to stake, a
      selection has the number asked for, the schedule does not overflow.
    - [Rewards]: the split of a reward and the settlement of a round.
      [RewardProofs]: splits are exact, and what a settlement pays, mints and burns.
      [RoundSteps], [RoundInv]: the effect of each step of the rounds, and the
      invariant [rounds_inv].
    - [Chain]: the operations on one store ([op], [exec], [run]) and the invariant
      [registry_inv].  [EndBlock]: the end of a block as a history of its four
      steps.  [Emission]: an abstract emission ([emits]) that the operations refine.
      [Halts]: a round that cannot be paid makes the end of every block fail.
    - [FinalizeTotal], [RewardsTotal], [AssignTotal]: each step of the end of a block
      goes through under what it needs.  [Liveness]: after any history a block that
      is ready ([block_ready]) ends ([LiveDemo] applies it).
    - [ChainProps]: the theorems on the market and on verification over every
      history of operations (invariant, conservation, determinism), and on each
      operation (settlement, refunds, terms of a lease, who may change a slot or
      own a domain, whose votes count, commitments).  [RoundProps]: the theorems on
      rounds, beacons, rewards, emission and bonds, and three situations in which
      the code loses funds or stops.
    - [Upgrades]: the stored parameters of the registry, its genesis import and
      export, its migrations, and the upgrade handlers over the class
      [ModuleManager], which stands for [RunMigrations] of the SDK.  [UpgradeProps]:
      the migration settles what came before it, rounds that were settled in part
      included ([old_store]), and no later history pays it again, the upgrades keep the registry, and what an export keeps and loses.
    - [DemoEnv], [ChainDemo], [RoundDemo], Module [UpgradeWitness]: a concrete
      environment, a bank and a history on which every hypothesis is met.

    ** From the page to the chain

    - [PageToChain]: the messages as the chain decodes them, and three theorems that
      follow a filled form through the page's checks, its encoder, the decoder and
      the handler of the registry to the stored lease, slot or website.  [PageDemo]
      applies them to a concrete form and market.

    ** The verifier's daemon

    - [Agent]: the daemon of a verifier ([src/offchain/verifierd/]) and the commands it
      runs ([src/cmd/content-grid-d/verifier.go]): what it reads off a page, the result
      it saves, commits to and reveals, and the run of an assignment as a function of
      the answers of the clock, the network and the chain, over any crashes.
      [AgentProofs], [AgentProps]: it never commits to two results, its reveals open its
      commit, and the chain accepts both messages.  [AgentDemo] applies them.
    - [Relay]: which of the active verifiers sends the beacon of a round and when, the
      fetch, the command it runs ([src/cmd/content-grid-d/registry_cli.go]), and the record
      behind the answer to [/readyz].  [RelayProofs], [RelayProps]: all daemons compute one
      order of the relays, a daemon that is alone delivers the beacon and the chain records
      it, and with the defaults the relays from rank two on come too late.  [RelayDemo]
      applies them.
    - [Daemon]: the check of an assignment against the schedule of the chain, the poll, the
      keys in flight, and the runs of [Agent] beside each other over restarts.
      [DaemonProofs]: a history of the daemon, seen from one assignment, is a history of its
      runs.  [ScheduleInv]: every assignment of the chain fits the record of its round.
      [DaemonProps]: the daemon as a whole commits to one result, and a poll takes up all
      of its work and nothing else.  [DaemonDemo] applies them.

    ** The airdrop

    - [Airdrop]: the table of claims and its transitions ([airdrop_store.go]), the form and
      the worker ([airdrop.go]) as a step machine of any number of processes over one
      table, whose calls may fail before or after they took effect.  [AirdropProofs]: how
      rows move, and the invariant [paid_inv].  [AirdropProps]: a site is paid at most once
      and for a request that showed the badge, and a woken worker empties the queue.
      [AirdropDemo] applies them.

    ** Bounds and fuel

    Recursion is structural or on a length that is enough by construction
    ([strip_all], [chunks], [dec_print]: each round consumes a byte or a bit).
    The writer's varints have ten rounds, which 64 bits need.  The theorem
    [handlers_finish] bounds the answers a handler needs by twenty.  Histories of the chain are shorter than 2^64 operations,
    so that its 64-bit counters do not wrap; the fields of messages and times are
    in the range of their Go types.  The worker of the airdrop rests after five steps for
    each claim that waits and four more.  A history is a list of operations; one that
    fails leaves the store as it was, as a failed transaction does.

    ** What is not modelled

    - The rest of the vendored bundle, the wallet extension, the signing client,
      [fetch] and the DOM are the environment of the page: they give any answer
      their interface allows.  Property names that the translation catalog
      inherits from [Object.prototype] are taken as absent.
    - The store keeps records as they are: the JSON encoding of strings that are
      not UTF-8, and the failure to decode what was stored, are left out.
      Iterators see the store as it was when they were opened (the loops write
      only the record they are at).  Events are left out.  A sender of coins is
      never the module's own account, which has no key.
    - The parameters of the registry are an argument of each operation, so that
      changes of parameters between operations are covered; only [Upgrades] stores
      them.  The queries and the printer of the simulation's table are left out.
    - The application wiring but for the upgrade handlers; the command line tools but for
      the commands of a verifier; the pages, templates and storage of the site's server but
      for the airdrop; and the indexer, the DHT and the executor, which are network I/O.
    - Of the daemon: HTTP and JSON, the processes it starts and the fields of its health
      that are only reported.  The fetch of a homepage and the check of its badge, for the
      daemon and for the airdrop, are inputs, and so are the answers of the database beyond
      its table.

    ** What could come next

    The search of similar sites by the indexer, whose answer is an input of [Agent], and
    the parser of the badge. *)

From Stdlib Require Export ZArith Lia.
From stdpp Require Export base list gmap strings numbers.
Open Scope Z_scope.

(** * Results: the code's error paths as values *)

Inductive result (E A : Type) : Type :=
| Ok (a : A)
| Err (e : E).
Arguments Ok {E A} a.
Arguments Err {E A} e.

#[export] Instance result_ret {E} : MRet (result E) := fun A a => Ok a.
#[export] Instance result_bind {E} : MBind (result E) := fun A B f m =>
  match m with Ok a => f a | Err e => Err e end.
#[export] Instance result_fmap {E} : FMap (result E) := fun A B f m =>
  match m with Ok a => Ok (f a) | Err e => Err e end.

Definition is_ok {E A} (r : result E A) : bool :=
  match r with Ok _ => true | Err _ => false end.

(** [guard_err b e] is the code's [if (b) { return e }]. *)
Definition guard_err {E} (b : bool) (e : E) : result E unit :=
  if b then Err e else Ok tt.

Section ResultLemmas.
Context {E A B : Type}.

Lemma bind_Ok_inv (m : result E A) (f : A → result E B) (b : B) :
  (a ← m; f a) = Ok b → ∃ a, m = Ok a ∧ f a = Ok b.
Proof. destruct m; [eauto | done]. Qed.

Lemma guard_err_Ok_inv (b : bool) (e : E) u : guard_err b e = Ok u → b = false.
Proof. by destruct b. Qed.

Lemma guard_pass (b : bool) (e : E) (k : result E A) : b = false → (guard_err b e;; k) = k.
Proof. by intros ->. Qed.
End ResultLemmas.

(** * Machine-width integers *)

(** The value of [z] in an unsigned or a two's-complement signed register of
    [w] bits. *)
Definition uwrap (w z : Z) : Z := z mod 2 ^ w.
Definition swrap (w z : Z) : Z :=
  let m := z mod 2 ^ w in if m <? 2 ^ (w - 1) then m else m - 2 ^ w.

Definition in_s (w z : Z) : Prop := - 2 ^ (w - 1) ≤ z < 2 ^ (w - 1).
Definition in_u (w z : Z) : Prop := 0 ≤ z < 2 ^ w.

Lemma pow2_double w : 0 < w → 2 ^ w = 2 * 2 ^ (w - 1).
Proof. intros H. rewrite <- Z.pow_succ_r by lia. f_equal; lia. Qed.

Lemma pow2_pos w : 0 ≤ w → 0 < 2 ^ w.
Proof. intros. apply Z.pow_pos_nonneg; lia. Qed.

Lemma uwrap_range w z : 0 ≤ w → in_u w (uwrap w z).
Proof. intros. apply Z.mod_pos_bound, pow2_pos; lia. Qed.

Lemma uwrap_small w z : in_u w z → uwrap w z = z.
Proof. intros. by apply Z.mod_small. Qed.

Lemma swrap_range w z : 0 < w → in_s w (swrap w z).
Proof.
  intros Hw. unfold in_s, swrap. pose proof (pow2_double w Hw).
  pose proof (Z.mod_pos_bound z (2 ^ w) (pow2_pos w ltac:(lia))).
  destruct (Z.ltb_spec (z mod 2 ^ w) (2 ^ (w - 1))); lia.
Qed.

Lemma swrap_small w z : 0 < w → in_s w z → swrap w z = z.
Proof.
  intros Hw [Hl Hu]. unfold swrap. pose proof (pow2_double w Hw).
  destruct (decide (0 ≤ z)).
  - rewrite (Z.mod_small z) by lia. by destruct (Z.ltb_spec z (2 ^ (w - 1))); [|lia].
  - rewrite <- (Z_mod_plus_full z 1), (Z.mod_small (z + 1 * 2 ^ w)) by lia.
    destruct (Z.ltb_spec (z + 1 * 2 ^ w) (2 ^ (w - 1))); lia.
Qed.

Lemma uwrap_swrap w z : 0 < w → uwrap w (swrap w z) = uwrap w z.
Proof.
  intros Hw. unfold uwrap, swrap.
  destruct (z mod 2 ^ w <? 2 ^ (w - 1)).
  - by rewrite Z.mod_mod by (pose proof (pow2_pos w); lia).
  - rewrite <- (Z_mod_plus_full _ 1).
    replace (z mod 2 ^ w - 2 ^ w + 1 * 2 ^ w) with (z mod 2 ^ w) by lia.
    by rewrite Z.mod_mod by (pose proof (pow2_pos w); lia).
Qed.

Lemma swrap_uwrap w z : 0 < w → swrap w (uwrap w z) = swrap w z.
Proof.
  intros Hw. unfold uwrap, swrap.
  by rewrite Z.mod_mod by (pose proof (pow2_pos w); lia).
Qed.

Lemma uwrap_eq_swrap_eq w a b : uwrap w a = uwrap w b → swrap w a = swrap w b.
Proof. unfold uwrap, swrap. by intros ->. Qed.

Create HintDb words.
#[export] Hint Resolve uwrap_range swrap_range pow2_pos : words.

(** * Lists of integers *)

Definition sumZ (l : list Z) : Z := foldr Z.add 0 l.

Lemma sumZ_app l k : sumZ (l ++ k) = sumZ l + sumZ k.
Proof. induction l as [|x l IH]; simpl; [done|]. unfold sumZ in *. simpl. lia. Qed.

Lemma sumZ_nonneg l : Forall (λ x, 0 ≤ x) l → 0 ≤ sumZ l.
Proof. induction 1; simpl; lia. Qed.

(** * Boolean checks over lists *)

Lemma forallb_Forall {A} (f : A → bool) l : forallb f l = true ↔ Forall (λ x, f x = true) l.
Proof.
  induction l as [|x l IH]; cbn; [by split|]. rewrite andb_true_iff, IH. split.
  - intros [? ?]. by constructor.
  - intros Hl. by apply Forall_cons_1 in Hl.
Qed.

Lemma mjoin_cons {A} (l : list A) ls : mjoin (l :: ls) = l ++ mjoin ls.
Proof. done. Qed.

(** * Automation shared by the files *)

(** Split a goal on the first [if]/[match] it contains, keeping the equation. *)
Ltac break_match :=
  match goal with
  | |- context [match ?x with _ => _ end] => destruct x eqn:?
  end.

Ltac break_match_in H :=
  match type of H with
  | context [match ?x with _ => _ end] => destruct x eqn:?
  end.

(** Turn the code's boolean comparisons on [Z] into propositions. *)
Ltac zb :=
  repeat match goal with
  | H : (_ =? _)%Z = true |- _ => apply Z.eqb_eq in H
  | H : (_ =? _)%Z = false |- _ => apply Z.eqb_neq in H
  | H : (_ <? _)%Z = true |- _ => apply Z.ltb_lt in H
  | H : (_ <? _)%Z = false |- _ => apply Z.ltb_ge in H
  | H : (_ <=? _)%Z = true |- _ => apply Z.leb_le in H
  | H : (_ <=? _)%Z = false |- _ => apply Z.leb_gt in H
  | H : _ && _ = true |- _ => apply andb_true_iff in H as [? ?]
  | H : _ || _ = false |- _ => apply orb_false_iff in H as [? ?]
  | H : negb _ = true |- _ => apply negb_true_iff in H
  | H : negb _ = false |- _ => apply negb_false_iff in H
  end.
