(* ===== verification/JsBase.v ===== *)
(** JavaScript strings and numbers, as the browser code of
    [src/cmd/congrid-site/static/] uses them.  A string is the list of its
    UTF-16 code units; a number is an IEEE-754 double (a sign, a significand
    and a binary exponent, NaN or an infinity) with the [Number(s)] parser and
    the [String(n)] printer of the language for the integers the code prints. *)

From S2P Require Import Prelude.

Abbreviation jsstr := (list Z).

Definition js (s : string) : jsstr :=
  (λ a, Z.of_N (Ascii.N_of_ascii a)) <$> String.list_ascii_of_string s.
#[global] Arguments js s%_string : simpl never.

(** * Strings *)

(** WhiteSpace and LineTerminator of the language, what [trim] strips. *)
Definition is_ws (c : Z) : bool :=
  (9 <=? c) && (c <=? 13) || (c =? 32) || (c =? 160) || (c =? 5760)
  || (8192 <=? c) && (c <=? 8202) || (c =? 8232) || (c =? 8233)
  || (c =? 8239) || (c =? 8287) || (c =? 12288) || (c =? 65279).

Fixpoint drop_ws (s : jsstr) : jsstr :=
  match s with
  | c :: s' => if is_ws c then drop_ws s' else s
  | [] => []
  end.

Definition trim (s : jsstr) : jsstr := rev (drop_ws (rev (drop_ws s))).

Fixpoint starts_with (p s : jsstr) : bool :=
  match p, s with
  | [], _ => true
  | c :: p', d :: s' => (c =? d) && starts_with p' s'
  | _ :: _, [] => false
  end.

Fixpoint includes (s p : jsstr) : bool :=
  starts_with p s || match s with [] => false | _ :: s' => includes s' p end.

Fixpoint split_on (sep : Z) (s : jsstr) : list jsstr :=
  match s with
  | [] => [[]]
  | c :: s' =>
      if c =? sep then [] :: split_on sep s'
      else match split_on sep s' with
           | w :: ws => (c :: w) :: ws
           | [] => [[c]]
           end
  end.

Definition is_digit (c : Z) : bool := (48 <=? c) && (c <=? 57).
Definition is_lower_alnum (c : Z) : bool := is_digit c || (97 <=? c) && (c <=? 122).

(** [x || d] for a string (or missing) [x]. *)
Definition or_default (x : option jsstr) (d : jsstr) : jsstr :=
  match x with
  | Some (c :: s) => c :: s
  | _ => d
  end.

(** [s.toLowerCase()]: the mapping of a non-ASCII string is the Unicode
    database's; of an ASCII string it is the familiar one. *)
Definition ascii_lower (c : Z) : Z := if (65 <=? c) && (c <=? 90) then c + 32 else c.

Class JsUnicode := {
  toLowerCase : jsstr → jsstr;
  toLowerCase_ascii s : Forall (λ c, 0 ≤ c < 128) s → toLowerCase s = ascii_lower <$> s;
}.

Definition jsunicode_ascii : JsUnicode.
Proof. exact {| toLowerCase := fmap ascii_lower; toLowerCase_ascii s _ := eq_refl |}. Defined.

(** * Decimal printing *)

Fixpoint dec_aux (fuel : nat) (z : Z) (acc : jsstr) : jsstr :=
  match fuel with
  | O => acc
  | S f => if z <? 10 then (48 + z) :: acc
           else dec_aux f (z / 10) ((48 + z mod 10) :: acc)
  end.

(** The decimal digits of a non-negative integer, most significant first. *)
Definition dec_print (z : Z) : jsstr := dec_aux (S (Z.to_nat (Z.log2 z))) z [].

Definition dec_val (s : jsstr) : Z := foldl (λ a c, a * 10 + (c - 48)) 0 s.

(** * Numbers *)

Inductive jsnum : Type :=
| JNaN
| JInf (neg : bool)
| JNum (neg : bool) (m e : Z). (* (-1)^neg * m * 2^e, 0 <= m <= 2^53 *)

(** Quotient rounded to the nearest integer, ties to even. *)
Definition round_half_even (n d : Z) : Z :=
  let q := n / d in
  let r := n mod d in
  if 2 * r <? d then q
  else if d <? 2 * r then q + 1
  else if Z.even q then q else q + 1.

Definition scaled (n d e : Z) : Z * Z :=
  if 0 <=? e then (n, d * 2 ^ e) else (n * 2 ^ (- e), d).

(** The double nearest to [n / d] ([0 < n], [0 < d]). *)
Definition round_pos (neg : bool) (n d : Z) : jsnum :=
  let e0 := Z.log2 n - Z.log2 d - 53 in
  let '(n0, d0) := scaled n d e0 in
  let e1 := Z.max (if n0 / d0 <? 2 ^ 53 then e0 else e0 + 1) (-1074) in
  let '(n1, d1) := scaled n d e1 in
  let m := round_half_even n1 d1 in
  if (971 <? e1) || (e1 =? 971) && (m =? 2 ^ 53) then JInf neg
  else JNum neg m e1.

Definition round_ratio (neg : bool) (n d : Z) : jsnum :=
  if n =? 0 then JNum neg 0 0 else round_pos neg n d.

(** The integer part of the magnitude [m * 2^e]. *)
Definition mag_trunc (m e : Z) : Z := if 0 <=? e then m * 2 ^ e else m / 2 ^ (- e).

Definition num_is_finite (x : jsnum) : bool :=
  match x with JNum _ _ _ => true | _ => false end.

Definition num_is_integer (x : jsnum) : bool :=
  match x with
  | JNum _ m e => (0 <=? e) || (m mod 2 ^ (- e) =? 0)
  | _ => false
  end.

Definition num_is_zero (x : jsnum) : bool :=
  match x with JNum _ m _ => m =? 0 | _ => false end.

(** [x < 0]. *)
Definition num_neg (x : jsnum) : bool :=
  match x with
  | JNaN => false
  | JInf neg => neg
  | JNum neg m _ => neg && negb (m =? 0)
  end.

(** [Math.trunc] of a finite number, as an integer. *)
Definition num_trunc (x : jsnum) : option Z :=
  match x with
  | JNum neg m e => Some (if neg then - mag_trunc m e else mag_trunc m e)
  | _ => None
  end.

(** ** [Number(s)] *)

Fixpoint span_digits (s : jsstr) : jsstr * jsstr :=
  match s with
  | c :: s' => if is_digit c then let '(d, r) := span_digits s' in (c :: d, r) else ([], s)
  | [] => ([], [])
  end.

(** Exponent part: [Some e] when the whole of [s] is an optional exponent. *)
Definition parse_exponent (s : jsstr) : option Z :=
  match s with
  | [] => Some 0
  | c :: s' =>
      if (c =? 101) || (c =? 69) then
        let '(neg, r) := match s' with
                         | 43 :: r => (false, r)
                         | 45 :: r => (true, r)
                         | _ => (false, s')
                         end in
        let '(ds, rest) := span_digits r in
        match ds, rest with
        | _ :: _, [] => Some (if neg then - dec_val ds else dec_val ds)
        | _, _ => None
        end
      else None
  end.

Definition decimal_value (neg : bool) (ds : jsstr) (k : Z) : jsnum :=
  if 0 <=? k then round_ratio neg (dec_val ds * 10 ^ k) 1
  else round_ratio neg (dec_val ds) (10 ^ (- k)).

Definition parse_decimal (neg : bool) (s : jsstr) : jsnum :=
  if bool_decide (s = js "Infinity") then JInf neg
  else
    let '(ds1, r1) := span_digits s in
    let '(ds2, r2) := match r1 with
                      | 46 :: r => span_digits r
                      | _ => ([], r1)
                      end in
    match ds1 ++ ds2, parse_exponent r2 with
    | _ :: _, Some e => decimal_value neg (ds1 ++ ds2) (e - Z.of_nat (length ds2))
    | _, _ => JNaN
    end.

Definition digit_value (c : Z) : Z :=
  if is_digit c then c - 48
  else if (97 <=? c) && (c <=? 122) then c - 87
  else if (65 <=? c) && (c <=? 90) then c - 55
  else 36.

Definition parse_radix (base : Z) (s : jsstr) : jsnum :=
  match s with
  | [] => JNaN
  | _ => if forallb (λ c, digit_value c <? base) s
         then round_ratio false (foldl (λ a c, a * base + digit_value c) 0 s) 1
         else JNaN
  end.

Definition to_number (str : jsstr) : jsnum :=
  match trim str with
  | [] => JNum false 0 0
  | 48 :: c :: r =>
      if (c =? 120) || (c =? 88) then parse_radix 16 r
      else if (c =? 111) || (c =? 79) then parse_radix 8 r
      else if (c =? 98) || (c =? 66) then parse_radix 2 r
      else parse_decimal false (48 :: c :: r)
  | 43 :: r => parse_decimal false r
  | 45 :: r => parse_decimal true r
  | s => parse_decimal false s
  end.

(** ** [String(n)] for an integer-valued number *)

Definition roundZ (v : Z) : option Z := num_trunc (round_ratio false v 1).

(** The candidates with [k] significant digits below and above [x]; the one that
    reads back as [x], the closer one if both do, the even one on a tie. *)
Definition shortest_at (x n k : Z) : option (Z * Z) :=
  let p := n - k in
  let lo := x / 10 ^ p in
  let hi := lo + 1 in
  let lo_ok := bool_decide (roundZ (lo * 10 ^ p) = Some x) in
  let hi_ok := bool_decide (roundZ (hi * 10 ^ p) = Some x) in
  match lo_ok, hi_ok with
  | true, true =>
      let dlo := x - lo * 10 ^ p in
      let dhi := hi * 10 ^ p - x in
      if dlo <? dhi then Some (lo, p)
      else if dhi <? dlo then Some (hi, p)
      else Some (if Z.even lo then lo else hi, p)
  | true, false => Some (lo, p)
  | false, true => Some (hi, p)
  | false, false => None
  end.

Fixpoint shortest (x n k : Z) (fuel : nat) : Z * Z :=
  match fuel with
  | O => (x, 0)
  | S f => match shortest_at x n k with
           | Some r => r
           | None => shortest x n (k + 1) f
           end
  end.

Fixpoint strip_zeros_rev (s : jsstr) : jsstr :=
  match s with
  | 48 :: s' => strip_zeros_rev s'
  | _ => s
  end.

Definition strip_trailing_zeros (s : jsstr) : jsstr := rev (strip_zeros_rev (rev s)).

Definition int_to_string_pos (x : Z) : jsstr :=
  let n := Z.of_nat (length (dec_print x)) in
  let '(s, p) := shortest x n 1 17 in
  let ds := dec_print s in
  let n' := Z.of_nat (length ds) + p in
  let sig := strip_trailing_zeros ds in
  if n' <=? 21 then sig ++ repeat 48 (Z.to_nat (n' - Z.of_nat (length sig)))
  else match sig with
       | [d] => d :: js "e+" ++ dec_print (n' - 1)
       | d :: r => d :: 46 :: r ++ js "e+" ++ dec_print (n' - 1)
       | [] => []
       end.

(** [String(x)] of an integer-valued number. *)
Definition int_to_string (x : jsnum) : jsstr :=
  match num_trunc x with
  | Some z => if z =? 0 then js "0"
              else if z <? 0 then 45 :: int_to_string_pos (- z)
              else int_to_string_pos z
  | None => match x with JNaN => js "NaN" | JInf true => js "-Infinity" | _ => js "Infinity" end
  end.

(** * Decimal printing and reading agree *)

Lemma dec_aux_app fuel z acc : dec_aux fuel z acc = dec_aux fuel z [] ++ acc.
Proof.
  revert z acc. induction fuel as [|f IH]; intros z acc; simpl; [done|].
  destruct (z <? 10); [done|]. rewrite IH, (IH _ [_]), <- app_assoc. done.
Qed.

(** Any fuel above the number of digits gives the same digits. *)
Lemma dec_aux_fuel f1 f2 z : 0 ≤ z < 2 ^ Z.of_nat f1 → z < 2 ^ Z.of_nat f2 →
  (0 < f1)%nat → (0 < f2)%nat → dec_aux f1 z [] = dec_aux f2 z [].
Proof.
  revert f2 z. induction f1 as [|f1 IH]; intros [|f2] z H1 H2 ??; try lia.
  simpl. destruct (Z.ltb_spec z 10); [done|].
  rewrite (dec_aux_app f1), (dec_aux_app f2). f_equal.
  rewrite !Nat2Z.inj_succ, !Z.pow_succ_r in * by lia.
  assert (0 ≤ z / 10 ∧ 2 * (z / 10) ≤ z) by (Z.to_euclidean_division_equations; lia).
  apply IH; destruct f1, f2; simpl in *; lia.
Qed.

Lemma dec_print_fuel f z : 0 ≤ z < 2 ^ Z.of_nat f → (0 < f)%nat →
  dec_print z = dec_aux f z [].
Proof.
  intros Hz Hf. unfold dec_print. apply dec_aux_fuel; try lia.
  rewrite Nat2Z.inj_succ, Z2Nat.id by apply Z.log2_nonneg.
  destruct (decide (z = 0)) as [->|]; [simpl; lia|]. pose proof (Z.log2_spec z); lia.
Qed.

Lemma dec_print_small z : 0 ≤ z < 10 → dec_print z = [48 + z].
Proof. intros. unfold dec_print. simpl. destruct (Z.ltb_spec z 10); [done|lia]. Qed.

Lemma dec_print_step z : 10 ≤ z → dec_print z = dec_print (z / 10) ++ [48 + z mod 10].
Proof.
  intros Hz. set (f := S (Z.to_nat (Z.log2 z))).
  assert (z < 2 ^ Z.of_nat f) as Hf.
  { unfold f. rewrite Nat2Z.inj_succ, Z2Nat.id by apply Z.log2_nonneg.
    pose proof (Z.log2_spec z); lia. }
  assert (0 < f)%nat by lia. clearbody f.
  assert (0 ≤ z / 10 ∧ z / 10 < z) by (Z.to_euclidean_division_equations; lia).
  rewrite (dec_print_fuel (S f) z), (dec_print_fuel f (z / 10)); try lia.
  - simpl. destruct (Z.ltb_spec z 10); [lia|]. by rewrite dec_aux_app.
  - rewrite Nat2Z.inj_succ, Z.pow_succ_r by lia. lia.
Qed.

(** Induction on the decimal digits of a number. *)
Lemma dec_ind (P : Z → Prop) :
  (∀ z, 0 ≤ z < 10 → P z) →
  (∀ z, 10 ≤ z → P (z / 10) → P z) →
  ∀ z, 0 ≤ z → P z.
Proof.
  intros H0 H1 z Hz. refine (Z_lt_induction (λ z, 0 ≤ z → P z) _ z Hz Hz).
  clear z Hz. intros z IH Hz. destruct (decide (z < 10)); [by apply H0|].
  apply H1; [lia|]. apply IH; Z.to_euclidean_division_equations; lia.
Qed.

Lemma dec_val_snoc s c : dec_val (s ++ [c]) = dec_val s * 10 + (c - 48).
Proof. unfold dec_val. by rewrite foldl_app. Qed.

Lemma dec_val_print z : 0 ≤ z → dec_val (dec_print z) = z.
Proof.
  intros Hz. pattern z. revert z Hz. apply dec_ind.
  - intros z Hz. rewrite dec_print_small by done. unfold dec_val. simpl. lia.
  - intros z Hz IH. rewrite dec_print_step, dec_val_snoc, IH by done.
    Z.to_euclidean_division_equations; lia.
Qed.

Lemma is_digit_iff c : is_digit c = true ↔ 48 ≤ c ≤ 57.
Proof. unfold is_digit. rewrite andb_true_iff, !Z.leb_le. done. Qed.

Lemma dec_print_digits z : 0 ≤ z → Forall (λ c, is_digit c = true) (dec_print z).
Proof.
  intros Hz. pattern z. revert z Hz. apply dec_ind.
  - intros z Hz. rewrite dec_print_small by done. repeat constructor. apply is_digit_iff; lia.
  - intros z Hz IH. rewrite dec_print_step by done. apply Forall_app; split; [done|].
    repeat constructor. apply is_digit_iff. pose proof (Z.mod_pos_bound z 10); lia.
Qed.

Lemma dec_val_nonneg s : Forall (λ c, is_digit c = true) s → 0 ≤ dec_val s.
Proof.
  intros Hs. cut (∀ a, 0 ≤ a → 0 ≤ foldl (λ a c, a * 10 + (c - 48)) a s); [intros H; by apply H|].
  induction Hs as [|c s Hc _ IH]; intros a Ha; [done|]. apply is_digit_iff in Hc. apply IH. lia.
Qed.

Lemma dec_print_nonempty z : 0 ≤ z → dec_print z ≠ [].
Proof.
  intros Hz. destruct (decide (z < 10)).
  - by rewrite dec_print_small by lia.
  - rewrite dec_print_step by lia. by intros [_ ?]%app_eq_nil.
Qed.

(** No leading zero, except for zero itself. *)
Lemma dec_print_head z : 0 < z → ∃ c r, dec_print z = c :: r ∧ 49 ≤ c ≤ 57.
Proof.
  intros Hz. assert (0 ≤ z) as Hz' by lia. revert Hz. pattern z. revert z Hz'. apply dec_ind.
  - intros z Hz ?. rewrite dec_print_small by done. exists (48 + z), []. split; [done|lia].
  - intros z Hz IH _. rewrite dec_print_step by done.
    destruct IH as (c & r & -> & Hc); [Z.to_euclidean_division_equations; lia|].
    exists c, (r ++ [48 + z mod 10]). done.
Qed.

Lemma dec_print_pow10 s p : 0 < s → dec_print (s * 10 ^ Z.of_nat p) = dec_print s ++ repeat 48 p.
Proof.
  intros Hs. induction p as [|p IH].
  - simpl. by rewrite Z.mul_1_r, app_nil_r.
  - rewrite Nat2Z.inj_succ, Z.pow_succ_r by lia.
    replace (s * (10 * 10 ^ Z.of_nat p)) with (s * 10 ^ Z.of_nat p * 10) by lia.
    assert (0 < 10 ^ Z.of_nat p) by (apply Z.pow_pos_nonneg; lia).
    rewrite dec_print_step by nia.
    rewrite Z.div_mul, Z_mod_mult, IH by lia.
    by rewrite <- app_assoc, <- repeat_cons.
Qed.

(** * Integers below 2^53 are represented exactly *)

Lemma round_half_even_exact q d : 0 < d → round_half_even (q * d) d = q.
Proof.
  intros Hd. unfold round_half_even. rewrite Z_mod_mult, Z.div_mul by lia.
  destruct (Z.ltb_spec (2 * 0) d); [done|lia].
Qed.

Lemma round_half_even_ge n d : 0 < d → n / d ≤ round_half_even n d.
Proof. intros. unfold round_half_even. repeat case_match; lia. Qed.

(** The exponent [round_pos] chooses for an integer is [log2 v - 52]. *)
Lemma round_pos_int neg v : 0 < v → Z.log2 v < 1000 →
  round_pos neg v 1 =
    let e := Z.log2 v - 52 in
    let '(n1, d1) := scaled v 1 e in
    let m := round_half_even n1 d1 in
    if (971 <? e) || (e =? 971) && (m =? 2 ^ 53) then JInf neg else JNum neg m e.
Proof.
  intros Hv Hlog. pose proof (Z.log2_spec v Hv) as [Hlo Hhi].
  pose proof (Z.log2_nonneg v). unfold round_pos.
  change (Z.log2 1) with 0. rewrite Z.sub_0_r.
  set (e := Z.log2 v - 53) in *.
  assert (2 ^ 53 ≤ (scaled v 1 e).1 / (scaled v 1 e).2) as Hq.
  { unfold scaled. destruct (Z.leb_spec 0 e); cbn [fst snd].
    - apply Z.div_le_lower_bound; [rewrite Z.mul_1_l; apply pow2_pos; lia|].
      rewrite Z.mul_1_l, <- Z.pow_add_r by lia.
      by replace (e + 53) with (Z.log2 v) by lia.
    - rewrite Z.div_1_r. replace 53 with (Z.log2 v + - e) by lia.
      rewrite Z.pow_add_r by lia. pose proof (pow2_pos (- e)). nia. }
  destruct (scaled v 1 e) as [n0 d0] eqn:E0. cbn [fst snd] in Hq.
  destruct (Z.ltb_spec (n0 / d0) (2 ^ 53)); [lia|].
  rewrite (Z.max_l (e + 1) (-1074)) by lia.
  by replace (e + 1) with (Z.log2 v - 52) by lia.
Qed.

Lemma roundZ_exact v : 0 < v < 2 ^ 53 → roundZ v = Some v.
Proof.
  intros Hv. unfold roundZ, round_ratio. destruct (Z.eqb_spec v 0); [lia|].
  assert (Z.log2 v < 53) as Hlog by (apply Z.log2_lt_pow2; lia).
  rewrite round_pos_int by lia. cbv zeta. pose proof (Z.log2_nonneg v).
  unfold scaled. destruct (Z.leb_spec 0 (Z.log2 v - 52)).
  - replace (Z.log2 v - 52) with 0 by lia. change (1 * 2 ^ 0) with 1.
    pose proof (round_half_even_exact v 1) as Hr.
    rewrite Z.mul_1_r in Hr. rewrite Hr by lia. cbn. by rewrite Z.mul_1_r.
  - pose proof (round_half_even_exact (v * 2 ^ (- (Z.log2 v - 52))) 1) as Hr.
    rewrite Z.mul_1_r in Hr. rewrite Hr by lia.
    replace (971 <? Z.log2 v - 52) with false by (symmetry; apply Z.ltb_ge; lia).
    replace (Z.log2 v - 52 =? 971) with false by (symmetry; apply Z.eqb_neq; lia).
    cbn [orb andb num_trunc]. unfold mag_trunc.
    destruct (Z.leb_spec 0 (Z.log2 v - 52)); [lia|].
    rewrite Z.div_mul; [done|]. pose proof (pow2_pos (- (Z.log2 v - 52))); lia.
Qed.

Lemma roundZ_large v w : 2 ^ 53 ≤ v → Z.log2 v < 1000 → roundZ v = Some w → 2 ^ 53 ≤ w.
Proof.
  intros Hv Hlog. unfold roundZ, round_ratio. destruct (Z.eqb_spec v 0); [lia|].
  assert (53 ≤ Z.log2 v) by (apply Z.log2_le_pow2; lia).
  pose proof (Z.log2_spec v ltac:(lia)) as [Hlo _].
  rewrite round_pos_int by lia. cbv zeta. unfold scaled.
  destruct (Z.leb_spec 0 (Z.log2 v - 52)); [|lia]. rewrite Z.mul_1_l.
  set (e := Z.log2 v - 52) in *.
  pose proof (round_half_even_ge v (2 ^ e) (pow2_pos e ltac:(lia))) as Hr.
  assert (2 ^ 52 ≤ v / 2 ^ e).
  { apply Z.div_le_lower_bound; [apply pow2_pos; lia|].
    rewrite <- Z.pow_add_r by lia. by replace (e + 52) with (Z.log2 v) by lia. }
  case_match; [done|]. cbn [num_trunc]. unfold mag_trunc.
  destruct (Z.leb_spec 0 e); [|lia]. intros [= <-].
  assert (2 ^ 1 ≤ 2 ^ e) by (apply Z.pow_le_mono_r; lia).
  change (2 ^ 53) with (2 ^ 52 * 2 ^ 1). nia.
Qed.

Lemma log2_of_digits x p : 0 < x < 2 ^ 53 → 0 ≤ p ≤ 16 →
  Z.log2 ((x / 10 ^ p + 1) * 10 ^ p) < 1000.
Proof.
  intros Hx Hp. assert (0 < 10 ^ p ≤ 10 ^ 16) as [??].
  { split; [apply Z.pow_pos_nonneg; lia|apply Z.pow_le_mono_r; lia]. }
  assert (0 ≤ x / 10 ^ p ≤ x) as [??].
  { split; [apply Z.div_pos; lia|]. apply Z.div_le_upper_bound; nia. }
  apply Z.log2_lt_pow2; [nia|].
  eapply Z.le_lt_trans; [apply Z.mul_le_mono_nonneg; [lia|eassert (x / 10 ^ p + 1 ≤ 2 ^ 53) as HH by lia; exact HH|lia|eassumption]|].
  change 1000 with (200 + 800). rewrite Z.pow_add_r by lia.
  assert (2 ^ 53 * 10 ^ 16 < 2 ^ 200) by (vm_compute; done).
  assert (1 ≤ 2 ^ 800) by (pose proof (pow2_pos 800); lia). nia.
Qed.

Lemma roundZ_inv v x : 0 ≤ v → 0 < x < 2 ^ 53 → Z.log2 v < 1000 → roundZ v = Some x → v = x.
Proof.
  intros Hv Hx Hlog H. destruct (decide (v = 0)) as [->|].
  { vm_compute in H. injection H. lia. }
  destruct (decide (v < 2 ^ 53)).
  - rewrite roundZ_exact in H by lia. by injection H.
  - pose proof (roundZ_large v x ltac:(lia) Hlog H). lia.
Qed.

Lemma shortest_at_sound x n k s p : 0 < x < 2 ^ 53 → 0 ≤ n - k ≤ 16 →
  shortest_at x n k = Some (s, p) → p = n - k ∧ s * 10 ^ p = x.
Proof.
  intros Hx Hp H.
  pose proof (log2_of_digits x (n - k) Hx Hp) as Hlog.
  assert (0 < 10 ^ (n - k)) by (apply Z.pow_pos_nonneg; lia).
  assert (0 ≤ x / 10 ^ (n - k)) by (apply Z.div_pos; lia).
  assert (Z.log2 (x / 10 ^ (n - k) * 10 ^ (n - k)) < 1000) as Hlog'.
  { eapply Z.le_lt_trans; [apply Z.log2_le_mono|exact Hlog]. nia. }
  unfold shortest_at in H.
  assert (∀ v, 0 ≤ v → Z.log2 v < 1000 → bool_decide (roundZ v = Some x) = true → v = x) as Hv.
  { intros v ?? ?%bool_decide_eq_true. by apply (roundZ_inv v x). }
  pose proof (Hv (x / 10 ^ (n - k) * 10 ^ (n - k)) ltac:(nia) Hlog') as Hlo.
  pose proof (Hv ((x / 10 ^ (n - k) + 1) * 10 ^ (n - k)) ltac:(nia) Hlog) as Hhi.
  destruct (bool_decide (roundZ (x / 10 ^ (n - k) * 10 ^ (n - k)) = Some x));
    destruct (bool_decide (roundZ ((x / 10 ^ (n - k) + 1) * 10 ^ (n - k)) = Some x));
    repeat case_match; simplify_eq; (split; [done|]); auto.
Qed.

Lemma shortest_at_full x n : 0 < x < 2 ^ 53 → is_Some (shortest_at x n n).
Proof.
  intros Hx. unfold shortest_at. rewrite Z.sub_diag. change (10 ^ 0) with 1.
  rewrite Z.div_1_r, Z.mul_1_r.
  rewrite (bool_decide_eq_true_2 (roundZ x = Some x)) by (apply roundZ_exact; lia).
  repeat case_match; eauto.
Qed.

Lemma shortest_sound x n k fuel : 0 < x < 2 ^ 53 → 1 ≤ k ≤ n → n ≤ 16 →
  n - k < Z.of_nat fuel →
  let '(s, p) := shortest x n k fuel in 0 ≤ p ∧ s * 10 ^ p = x.
Proof.
  intros Hx. revert k. induction fuel as [|f IH]; intros k Hk Hn Hf; [lia|].
  cbn [shortest]. destruct (shortest_at x n k) as [[s p]|] eqn:E.
  - apply shortest_at_sound in E as [-> ?]; lia.
  - destruct (decide (k = n)) as [->|].
    + pose proof (shortest_at_full x n Hx) as [? ?]. congruence.
    + apply IH; lia.
Qed.

Lemma dec_print_length z n : 0 ≤ z < 10 ^ Z.of_nat (S n) → (length (dec_print z) ≤ S n)%nat.
Proof.
  revert z. induction n as [|n IH]; intros z Hz.
  - rewrite dec_print_small by (simpl in Hz; lia). simpl; lia.
  - destruct (decide (z < 10)); [rewrite dec_print_small by lia; simpl; lia|].
    rewrite dec_print_step, length_app by lia. cbn [length].
    enough (length (dec_print (z / 10)) ≤ S n)%nat by lia. apply IH.
    rewrite (Nat2Z.inj_succ (S n)), Z.pow_succ_r in Hz by lia.
    Z.to_euclidean_division_equations; lia.
Qed.

Lemma strip_zeros_split s : ∃ k, s = strip_trailing_zeros s ++ repeat 48 k.
Proof.
  unfold strip_trailing_zeros.
  assert (∀ r, ∃ k, r = repeat 48 k ++ strip_zeros_rev r) as H.
  { induction r as [|c r [k IH]]; [by exists O|].
    destruct (decide (c = 48)) as [->|Hc].
    - exists (S k). cbn. by f_equal.
    - exists O. cbn [repeat app]. unfold strip_zeros_rev; fold strip_zeros_rev.
      repeat case_match; simplify_eq; done. }
  destruct (H (rev s)) as [k Hk]. exists k.
  apply (f_equal (@rev Z)) in Hk. rewrite rev_involutive, rev_app_distr in Hk.
  rewrite Hk at 1. f_equal. clear. induction k as [|k IH]; [done|].
  cbn. rewrite IH. by rewrite <- repeat_cons.
Qed.

(** An integer of at most 53 bits prints as its decimal digits. *)
Lemma int_to_string_pos_exact x : 0 < x < 2 ^ 53 → int_to_string_pos x = dec_print x.
Proof.
  intros Hx. unfold int_to_string_pos.
  assert (length (dec_print x) ≤ 16)%nat as Hlen.
  { apply (dec_print_length x 15). split; [lia|].
    eapply Z.lt_le_trans; [apply Hx|]. vm_compute. done. }
  pose proof (dec_print_nonempty x ltac:(lia)) as Hne.
  assert (1 ≤ length (dec_print x))%nat by (destruct (dec_print x); simpl in *; [done|lia]).
  pose proof (shortest_sound x (Z.of_nat (length (dec_print x))) 1 17 Hx
                ltac:(lia) ltac:(lia) ltac:(simpl; lia)) as Hs.
  destruct (shortest _ _ 1 17) as [s p]. destruct Hs as [Hp Hsx].
  assert (0 < 10 ^ p) by (apply Z.pow_pos_nonneg; lia).
  assert (0 < s) by nia.
  assert (dec_print x = dec_print s ++ repeat 48 (Z.to_nat p)) as Hd.
  { rewrite <- (dec_print_pow10 s (Z.to_nat p)), Z2Nat.id by lia. by rewrite Hsx. }
  assert (Z.of_nat (length (dec_print s)) + p = Z.of_nat (length (dec_print x))) as Hl.
  { rewrite Hd, length_app, repeat_length. lia. }
  rewrite Hl. destruct (Z.leb_spec (Z.of_nat (length (dec_print x))) 21); [|lia].
  destruct (strip_zeros_split (dec_print s)) as [k Hk].
  rewrite Hd at 2. rewrite Hk at 3. rewrite <- app_assoc. f_equal.
  rewrite <- repeat_app. f_equal.
  apply (f_equal length) in Hk. rewrite length_app, repeat_length in Hk. lia.
Qed.

(** * Reading back printed integers *)

Lemma span_digits_all s : Forall (λ c, is_digit c = true) s → span_digits s = (s, []).
Proof. induction 1 as [|c s Hc _ IH]; simpl; [done|]. by rewrite Hc, IH. Qed.

Lemma digit_not_ws c : is_digit c = true → is_ws c = false.
Proof.
  rewrite is_digit_iff. intros. unfold is_ws.
  repeat match goal with
  | |- context [Z.leb ?a ?b] => destruct (Z.leb_spec a b); try lia
  | |- context [Z.eqb ?a ?b] => destruct (Z.eqb_spec a b); try lia
  end; done.
Qed.

(** A string whose ends are not white space is its own [trim]. *)
Lemma drop_ws_id s : (∀ c r, s = c :: r → is_ws c = false) → drop_ws s = s.
Proof. destruct s as [|c r]; [done|]. intros H. simpl. by rewrite (H c r). Qed.

Lemma trim_no_ws s : Forall (λ c, is_ws c = false) s → trim s = s.
Proof.
  intros H. unfold trim. rewrite (drop_ws_id s).
  - rewrite drop_ws_id; [apply rev_involutive|].
    intros c r Hr. apply Forall_rev in H. rewrite Hr in H.
    by inversion H.
  - intros c r ->. by inversion H.
Qed.

Lemma trim_digits s : Forall (λ c, is_digit c = true) s → trim s = s.
Proof. intros H. apply trim_no_ws. induction H; constructor; auto using digit_not_ws. Qed.

(** A string of digits, leading zeros included, reads as the nearest double of
    its value. *)
Lemma to_number_digits s : s ≠ [] → Forall (λ c, is_digit c = true) s →
  to_number s = round_ratio false (dec_val s) 1.
Proof.
  intros Hne Hd.
  assert (parse_decimal false s = round_ratio false (dec_val s) 1) as Hp.
  { unfold parse_decimal. rewrite bool_decide_eq_false_2.
    - rewrite (span_digits_all _ Hd), app_nil_r. cbn [parse_exponent].
      destruct s as [|c r] eqn:E; [done|]. rewrite <- E. unfold decimal_value. cbn [length Z.of_nat Z.sub Z.add Z.opp].
      change (0 <=? 0) with true. cbn [Z.pow]. by rewrite Z.mul_1_r.
    - intros E. rewrite E in Hd. inversion Hd as [|? ? Hc]. vm_compute in Hc. done. }
  unfold to_number. rewrite trim_digits by done.
  destruct s as [|c [|d r]]; [done| |].
  - apply Forall_singleton, is_digit_iff in Hd.
    assert (c = 48 ∨ c = 49 ∨ c = 50 ∨ c = 51 ∨ c = 52 ∨ c = 53 ∨ c = 54 ∨ c = 55 ∨ c = 56 ∨ c = 57) as Hc by lia.
    repeat destruct Hc as [->|Hc]; try exact Hp. subst. exact Hp.
  - apply Forall_cons_1 in Hd as [Hc Hd]. apply Forall_cons_1 in Hd as [Hd _]. apply is_digit_iff in Hc, Hd.
    destruct (Z.eqb_spec d 120), (Z.eqb_spec d 88), (Z.eqb_spec d 111), (Z.eqb_spec d 79), (Z.eqb_spec d 98),
      (Z.eqb_spec d 66); try lia. cbn [orb].
    assert (c = 48 ∨ c = 49 ∨ c = 50 ∨ c = 51 ∨ c = 52 ∨ c = 53 ∨ c = 54 ∨ c = 55 ∨ c = 56 ∨ c = 57) as Hc' by lia.
    repeat destruct Hc' as [->|Hc']; try exact Hp. subst. exact Hp.
Qed.

Lemma to_number_dec z : 0 ≤ z → to_number (dec_print z) = round_ratio false z 1.
Proof.
  intros Hz. rewrite to_number_digits, dec_val_print; [done|done| |].
  - by apply dec_print_nonempty.
  - by apply dec_print_digits.
Qed.

(** Integers below 2^53 are doubles. *)
Lemma round_small z : 0 ≤ z < 2 ^ 53 →
  ∃ m e, round_ratio false z 1 = JNum false m e ∧ 0 ≤ m ∧
         num_trunc (JNum false m e) = Some z ∧ num_is_integer (JNum false m e) = true ∧
         (m = 0 ↔ z = 0).
Proof.
  intros Hz. unfold round_ratio.
  destruct (Z.eqb_spec z 0) as [->|]; [by exists 0, 0|].
  assert (Z.log2 z < 53) by (apply Z.log2_lt_pow2; lia). pose proof (Z.log2_nonneg z).
  rewrite round_pos_int by lia. cbv zeta. unfold scaled.
  destruct (Z.leb_spec 0 (Z.log2 z - 52)).
  - replace (Z.log2 z - 52) with 0 by lia. change (1 * 2 ^ 0) with 1.
    pose proof (round_half_even_exact z 1) as Hr. rewrite Z.mul_1_r in Hr. rewrite Hr by lia.
    exists z, 0. cbn. rewrite Z.mul_1_r. split_and!; try done; lia.
  - set (e := Z.log2 z - 52) in *. assert (0 < 2 ^ (- e)) by (apply pow2_pos; lia).
    pose proof (round_half_even_exact (z * 2 ^ (- e)) 1) as Hr.
    rewrite Z.mul_1_r in Hr. rewrite Hr by lia.
    replace (971 <? e) with false by (symmetry; apply Z.ltb_ge; lia).
    replace (e =? 971) with false by (symmetry; apply Z.eqb_neq; lia).
    exists (z * 2 ^ (- e)), e. cbn [orb andb num_trunc num_is_integer]. unfold mag_trunc.
    destruct (Z.leb_spec 0 e); [lia|]. rewrite Z.div_mul, Z_mod_mult by lia.
    split_and!; try done; nia.
Qed.

(** [Number] of a decimal literal below 2^53 is that integer, exactly. *)
Lemma to_number_small z : 0 ≤ z < 2 ^ 53 →
  ∃ m e, to_number (dec_print z) = JNum false m e ∧ 0 ≤ m ∧
         num_trunc (JNum false m e) = Some z ∧ num_is_integer (JNum false m e) = true ∧
         (m = 0 ↔ z = 0).
Proof. intros Hz. rewrite to_number_dec by lia. by apply round_small. Qed.

(** ** Significands are not negative *)

Definition num_wf (x : jsnum) : Prop := match x with JNum _ m _ => 0 ≤ m | _ => True end.

Lemma round_ratio_wf neg n d : 0 ≤ n → 0 < d → num_wf (round_ratio neg n d).
Proof.
  intros Hn Hd. unfold round_ratio. destruct (Z.eqb_spec n 0); [done|]. unfold round_pos.
  assert (∀ e, 0 ≤ (scaled n d e).1 ∧ 0 < (scaled n d e).2) as Hs.
  { intros e. unfold scaled. destruct (Z.leb_spec 0 e); cbn.
    - pose proof (pow2_pos e). nia.
    - pose proof (pow2_pos (- e)). nia. }
  destruct (scaled n d (Z.log2 n - _ - 53)) as [na da].
  match goal with |- context [scaled n d ?e] => pose proof (Hs e); destruct (scaled n d e) as [n1 d1] end.
  destruct (_ || _); cbn in *; [done|]. pose proof (round_half_even_ge n1 d1).
  pose proof (Z.div_pos n1 d1). lia.
Qed.

Lemma decimal_value_wf neg ds k : Forall (λ c, is_digit c = true) ds → num_wf (decimal_value neg ds k).
Proof.
  intros Hd. pose proof (dec_val_nonneg ds Hd). unfold decimal_value. destruct (Z.leb_spec 0 k).
  - apply round_ratio_wf; [|lia]. pose proof (Z.pow_nonneg 10 k). nia.
  - apply round_ratio_wf; [lia|]. apply Z.pow_pos_nonneg; lia.
Qed.

Lemma span_digits_fst s : Forall (λ c, is_digit c = true) (span_digits s).1.
Proof.
  induction s as [|c s IH]; cbn; [done|]. destruct (is_digit c) eqn:E; [|done].
  destruct (span_digits s). by constructor.
Qed.

Lemma parse_decimal_wf neg s : num_wf (parse_decimal neg s).
Proof.
  unfold parse_decimal. destruct (bool_decide _); [done|].
  pose proof (span_digits_fst s) as H1. destruct (span_digits s) as [ds1 r1].
  assert (Forall (λ c, is_digit c = true) (match r1 with 46 :: r => span_digits r | _ => ([], r1) end).1) as H2.
  { repeat case_match; try done. apply span_digits_fst. }
  destruct (match r1 with 46 :: r => span_digits r | _ => _ end) as [ds2 r2].
  destruct (ds1 ++ ds2) eqn:E; [done|]. destruct (parse_exponent r2); [|done].
  apply decimal_value_wf. rewrite <- E. by apply Forall_app.
Qed.

Lemma parse_radix_wf base s : 0 < base → num_wf (parse_radix base s).
Proof.
  intros Hb. unfold parse_radix. destruct s as [|c r]; [done|]. destruct (forallb _ _); [|done].
  apply round_ratio_wf; [|lia]. assert (∀ l a, 0 ≤ a → 0 ≤ foldl (λ a c, a * base + digit_value c) a l) as Hf.
  { induction l as [|x l IH]; intros a Ha; cbn; [done|]. apply IH.
    assert (0 ≤ digit_value x); [|nia]. unfold digit_value, is_digit. repeat case_match; zb; lia. }
  by apply Hf.
Qed.

Lemma to_number_wf s : num_wf (to_number s).
Proof.
  unfold to_number. generalize (trim s) as u. intros u.
  repeat match goal with |- context [match ?x with _ => _ end] => destruct x end;
    first [done | apply parse_decimal_wf | by apply parse_radix_wf].
Qed.

Lemma int_to_string_small z : 0 ≤ z < 2 ^ 53 →
  int_to_string (to_number (dec_print z)) = dec_print z.
Proof.
  intros Hz. destruct (to_number_small z Hz) as (m & e & -> & _ & Ht & _).
  unfold int_to_string. rewrite Ht. destruct (Z.eqb_spec z 0) as [->|]; [done|].
  destruct (Z.ltb_spec z 0); [lia|]. apply int_to_string_pos_exact. lia.
Qed.
