(* ===== verification/JsLong.v ===== *)
(** 64-bit integers of the wallet page: the [Long] class of the vendored
    [long.js] and the [LongBits] helper of [protobufjs], both in
    [src/cmd/congrid-site/static/wallet-deps.bundle.mjs] (line 1420).  A [Long]
    is a pair of 32-bit halves; its arithmetic is done on 16-bit limbs.  The
    lemmas relate it to integers modulo 2^64. *)

From S2P Require Import Prelude JsBase.

(** * 32-bit operators of the language *)

Definition i32 (z : Z) : Z := swrap 32 z.            (* z | 0 *)
Definition u32 (z : Z) : Z := uwrap 32 z.            (* z >>> 0 *)
Definition shl (a n : Z) : Z := i32 (Z.shiftl a n).  (* a << n *)
Definition shru (a n : Z) : Z := Z.shiftr (u32 a) n. (* a >>> n *)
Definition band (a b : Z) : Z := Z.land (i32 a) (i32 b).
Definition bor (a b : Z) : Z := Z.lor (i32 a) (i32 b).
Definition bnot (a : Z) : Z := Z.lnot (i32 a).

(** * [Long] *)

Record Long := { low : Z; high : Z; unsigned : bool }.

(** [new Long(low, high, unsigned)] / [Long.fromBits]. *)
Definition fromBits (l h : Z) (u : bool) : Long :=
  {| low := i32 l; high := i32 h; unsigned := u |}.

Definition ZERO : Long := fromBits 0 0 false.
Definition ONE : Long := fromBits 1 0 false.
Definition MAX_VALUE : Long := fromBits (-1) 2147483647 false.
Definition MIN_VALUE : Long := fromBits 0 (-2147483648) false.

Definition isZero (l : Long) : bool := (high l =? 0) && (low l =? 0).

Definition equals (a b : Long) : bool :=
  if negb (eqb (unsigned a) (unsigned b)) && (shru (high a) 31 =? 1) && (shru (high b) 31 =? 1)
  then false
  else (high a =? high b) && (low a =? low b).

(** Addition on four 16-bit limbs with explicit carries. *)
Definition add (a b : Long) : Long :=
  let a48 := shru (high a) 16 in
  let a32 := band (high a) 65535 in
  let a16 := shru (low a) 16 in
  let a00 := band (low a) 65535 in
  let b48 := shru (high b) 16 in
  let b32 := band (high b) 65535 in
  let b16 := shru (low b) 16 in
  let b00 := band (low b) 65535 in
  let c00 := a00 + b00 in
  let c16 := shru c00 16 + (a16 + b16) in
  let c00 := band c00 65535 in
  let c32 := shru c16 16 + (a32 + b32) in
  let c16 := band c16 65535 in
  let c48 := shru c32 16 + (a48 + b48) in
  let c32 := band c32 65535 in
  let c48 := band c48 65535 in
  fromBits (bor (shl c16 16) c00) (bor (shl c48 16) c32) (unsigned a).

Definition not (a : Long) : Long := fromBits (bnot (low a)) (bnot (high a)) (unsigned a).

Definition negate (a : Long) : Long :=
  if negb (unsigned a) && equals a MIN_VALUE then MIN_VALUE else add (not a) ONE.

(** [Long.fromNumber(x)] with [unsigned] absent.  [x + 1 >= 2^63] in doubles is
    [x >= 2^63]: no double lies in [2^63 - 1, 2^63). *)
Definition fromNumber_mag (m e : Z) : Long :=
  fromBits (i32 (mag_trunc m e mod 4294967296)) (i32 (mag_trunc m e / 4294967296)) false.

Definition fromNumber (x : jsnum) : Long :=
  match x with
  | JNaN => ZERO
  | JInf true => MIN_VALUE
  | JInf false => MAX_VALUE
  | JNum neg m e =>
      if neg && (9223372036854775808 <=? mag_trunc m e) then MIN_VALUE
      else if negb neg && (9223372036854775808 <=? mag_trunc m e) then MAX_VALUE
      else if neg && negb (m =? 0) then negate (fromNumber_mag m e)
      else fromNumber_mag m e
  end.

(** What the page passes to [Long.fromValue]: a number or a [Long]. *)
Inductive longlike : Type :=
| LNum (x : jsnum)
| LLong (l : Long).

Definition fromValue (v : longlike) : Long :=
  match v with
  | LNum x => fromNumber x
  | LLong l => fromBits (low l) (high l) (unsigned l)
  end.

(** * [LongBits] *)

Record LongBits := { lo : Z; hi : Z }.

Definition mkBits (l h : Z) : LongBits := {| lo := u32 l; hi := u32 h |}.

Definition bits_from_long (l : Long) : LongBits :=
  if negb (low l =? 0) || negb (high l =? 0) then mkBits (low l) (high l) else mkBits 0 0.

(** [LongBits.fromNumber(t)] for an integer [t]. *)
Definition bits_from_int (t : Z) : LongBits :=
  if t =? 0 then mkBits 0 0
  else
    let a := Z.abs t in
    let f := u32 a in
    let c := u32 ((a - f) / 4294967296) in
    if t <? 0 then
      let c := u32 (bnot c) in
      let f := u32 (bnot f) in
      if 4294967295 <? f + 1
      then mkBits 0 (if 4294967295 <? c + 1 then 0 else c + 1)
      else mkBits (f + 1) c
    else mkBits f c.

(** [LongBits.prototype.length]: the bytes of the varint of the 64-bit value. *)
Definition bits_length (b : LongBits) : Z :=
  let t := lo b in
  let i := u32 (bor (shru (lo b) 28) (shl (hi b) 4)) in
  let f := shru (hi b) 24 in
  if f =? 0 then
    if i =? 0 then
      if t <? 16384 then if t <? 128 then 1 else 2
      else if t <? 2097152 then 3 else 4
    else if i <? 16384 then if i <? 128 then 5 else 6
    else if i <? 2097152 then 7 else 8
  else if f <? 128 then 9 else 10.

(** * Well-formedness and the value represented *)

Definition long_wf (l : Long) : Prop := in_s 32 (low l) ∧ in_s 32 (high l).
Definition long_val (l : Long) : Z := high l * 2 ^ 32 + u32 (low l).

Definition bits_wf (b : LongBits) : Prop := in_u 32 (lo b) ∧ in_u 32 (hi b).
Definition bits_val (b : LongBits) : Z := hi b * 2 ^ 32 + lo b.

Lemma in_s32 z : in_s 32 z ↔ -2147483648 ≤ z < 2147483648.
Proof. unfold in_s. lia. Qed.
Lemma in_u32 z : in_u 32 z ↔ 0 ≤ z < 4294967296.
Proof. unfold in_u. lia. Qed.

Lemma fromBits_wf l h u : long_wf (fromBits l h u).
Proof. split; apply swrap_range; lia. Qed.

Lemma mkBits_wf l h : bits_wf (mkBits l h).
Proof. split; apply uwrap_range; lia. Qed.
#[export] Hint Resolve fromBits_wf mkBits_wf : words.

Lemma i32_mod z : i32 z mod 2 ^ 32 = z mod 2 ^ 32.
Proof. apply (uwrap_swrap 32 z); lia. Qed.

Lemma i32_id z : in_s 32 z → i32 z = z.
Proof. intros. apply swrap_small; [lia|done]. Qed.

(** Disjoint bits: an [or] of a shifted word and a shorter one is a sum. *)
Lemma lor_shiftl_add a b k : 0 ≤ k → 0 ≤ b < 2 ^ k → Z.lor (Z.shiftl a k) b = a * 2 ^ k + b.
Proof.
  intros Hk Hb. pose proof (Z.add_lor_land (Z.shiftl a k) b) as Hadd.
  assert (Z.land (Z.shiftl a k) b = 0) as Hl.
  { apply Z.bits_inj'. intros n Hn. rewrite Z.land_spec, Z.bits_0.
    destruct (decide (n < k)).
    - by rewrite Z.shiftl_spec_low.
    - rewrite <- (Z.mod_small b (2 ^ k)) by done.
      rewrite Z.mod_pow2_bits_high by lia. apply andb_false_r. }
  rewrite Hl, Z.shiftl_mul_pow2 in * by done. lia.
Qed.

Lemma band_ffff a : band a 65535 = u32 a mod 65536.
Proof.
  unfold band, u32, uwrap. rewrite (i32_id 65535) by (apply in_s32; lia).
  change 65535 with (Z.ones 16). rewrite Z.land_ones by lia.
  change (2 ^ 16) with 65536.
  assert (i32 a mod 65536 = (i32 a mod 2 ^ 32) mod 65536) as ->.
  { rewrite Z.mod_mod_divide; [done|]. by exists 65536. }
  by rewrite i32_mod.
Qed.

Lemma shru_16 a : shru a 16 = u32 a / 65536.
Proof. unfold shru. by rewrite Z.shiftr_div_pow2. Qed.

Lemma u32_id z : 0 ≤ z < 4294967296 → u32 z = z.
Proof. intros. apply uwrap_small, in_u32. lia. Qed.

(** Reassembling a word from two 16-bit limbs. *)
Lemma pack16 x y : 0 ≤ x < 65536 → 0 ≤ y < 65536 →
  u32 (i32 (bor (shl x 16) y)) = x * 65536 + y.
Proof.
  intros Hx Hy. unfold bor, shl. rewrite (i32_id y) by (apply in_s32; lia).
  rewrite (i32_id (i32 _)) by (apply swrap_range; lia).
  unfold u32 at 1, i32 at 1. rewrite uwrap_swrap by lia.
  rewrite Z.shiftl_mul_pow2 by lia. change (2 ^ 16) with 65536.
  destruct (decide (x < 32768)).
  - rewrite i32_id by (apply in_s32; lia).
    change 65536 with (2 ^ 16) at 1. rewrite <- Z.shiftl_mul_pow2, lor_shiftl_add by lia.
    change (2 ^ 16) with 65536. apply u32_id. lia.
  - assert (i32 (x * 65536) = (x - 65536) * 65536) as ->.
    { unfold i32. rewrite <- swrap_uwrap by lia.
      replace (uwrap 32 (x * 65536)) with (uwrap 32 ((x - 65536) * 65536)).
      - rewrite swrap_uwrap by lia. apply i32_id, in_s32. lia.
      - unfold uwrap. rewrite <- (Z_mod_plus_full ((x - 65536) * 65536) 1). f_equal. lia. }
    change 65536 with (2 ^ 16) at 2. rewrite <- Z.shiftl_mul_pow2, lor_shiftl_add by lia.
    unfold uwrap. rewrite <- (Z_mod_plus_full _ 1).
    replace ((x - 65536) * 2 ^ 16 + y + 1 * 2 ^ 32) with (x * 65536 + y) by lia.
    apply u32_id. lia.
Qed.

Definition long_u64 (l : Long) : Z := u32 (high l) * 2 ^ 32 + u32 (low l).

Lemma long_val_u64 l : long_wf l → long_val l = swrap 64 (long_u64 l).
Proof.
  intros [_ Hh]. unfold long_val, long_u64. pose proof (uwrap_range 32 (low l) ltac:(lia)) as Hl.
  fold (u32 (low l)) in Hl. rewrite in_u32 in Hl.
  rewrite <- (swrap_small 64 (high l * 2 ^ 32 + u32 (low l))); [|lia|].
  - apply uwrap_eq_swrap_eq. unfold uwrap, u32, uwrap.
    rewrite (Z.mod_eq (high l) (2 ^ 32)) by lia.
    replace ((high l - 2 ^ 32 * (high l / 2 ^ 32)) * 2 ^ 32 + low l mod 2 ^ 32)
      with (high l * 2 ^ 32 + low l mod 2 ^ 32 + (- (high l / 2 ^ 32)) * 2 ^ 64) by lia.
    by rewrite Z_mod_plus_full.
  - rewrite in_s32 in Hh. unfold in_s. change (64 - 1) with 63. lia.
Qed.

Lemma add_u64 a b : long_u64 (add a b) = (long_u64 a + long_u64 b) mod 2 ^ 64.
Proof.
  unfold long_u64.
  pose proof (uwrap_range 32 (low a) ltac:(lia)) as Hla.
  pose proof (uwrap_range 32 (high a) ltac:(lia)) as Hha.
  pose proof (uwrap_range 32 (low b) ltac:(lia)) as Hlb.
  pose proof (uwrap_range 32 (high b) ltac:(lia)) as Hhb.
  unfold add. rewrite !shru_16, !band_ffff. cbn [low high fromBits].
  fold (u32 (low a)) in *. fold (u32 (high a)) in *.
  fold (u32 (low b)) in *. fold (u32 (high b)) in *.
  rewrite in_u32 in Hla, Hha, Hlb, Hhb.
  generalize dependent (u32 (low a)). generalize dependent (u32 (high a)).
  generalize dependent (u32 (low b)). generalize dependent (u32 (high b)).
  clear a b. intros hb Hhb lb Hlb ha Hha la Hla.
  set (c0 := la mod 65536 + lb mod 65536).
  assert (0 ≤ c0 < 131072) by (subst c0; Z.to_euclidean_division_equations; lia).
  rewrite (u32_id c0) by lia.
  set (c1 := c0 / 65536 + (la / 65536 + lb / 65536)).
  assert (0 ≤ c1 < 262144) by (subst c1; Z.to_euclidean_division_equations; lia).
  rewrite (u32_id c1) by lia.
  set (c2 := c1 / 65536 + (ha mod 65536 + hb mod 65536)).
  assert (0 ≤ c2 < 262144) by (subst c2; Z.to_euclidean_division_equations; lia).
  rewrite (u32_id c2) by lia.
  set (c3 := c2 / 65536 + (ha / 65536 + hb / 65536)).
  assert (0 ≤ c3 < 262144) by (subst c3; Z.to_euclidean_division_equations; lia).
  rewrite (u32_id c3) by lia.
  rewrite !pack16 by (apply Z.mod_pos_bound; lia).
  apply (Z.mod_unique _ _ (c3 / 65536)).
  - left. subst c0 c1 c2 c3. Z.to_euclidean_division_equations. lia.
  - subst c0 c1 c2 c3. Z.to_euclidean_division_equations. lia.
Qed.

Lemma add_val a b : long_wf a → long_wf b → long_val (add a b) = swrap 64 (long_val a + long_val b).
Proof.
  intros Ha Hb. assert (long_wf (add a b)) by (unfold add; auto with words).
  rewrite !long_val_u64 by done. rewrite add_u64. apply uwrap_eq_swrap_eq. unfold uwrap.
  assert (∀ z, swrap 64 z mod 2 ^ 64 = z mod 2 ^ 64) as Hs by (intros; by apply uwrap_swrap).
  rewrite (Zplus_mod (swrap 64 _)), !Hs, <- Zplus_mod. by apply Z.mod_mod.
Qed.

Lemma bnot_val z : in_s 32 z → bnot z = - z - 1.
Proof. intros. unfold bnot. rewrite i32_id by done. unfold Z.lnot. lia. Qed.

Lemma not_val a : long_wf a → long_val (not a) = - long_val a - 1.
Proof.
  intros [Hl Hh]. unfold not, long_val. cbn [low high fromBits].
  rewrite !bnot_val by done. rewrite in_s32 in Hl, Hh.
  rewrite i32_id by (apply in_s32; lia).
  unfold u32, i32. rewrite uwrap_swrap by lia. unfold uwrap.
  Z.to_euclidean_division_equations. lia.
Qed.

Lemma long_val_range l : long_wf l → in_s 64 (long_val l).
Proof. intros. rewrite long_val_u64 by done. apply swrap_range. lia. Qed.

Lemma negate_val a : long_wf a → unsigned a = false → long_val (negate a) = swrap 64 (- long_val a).
Proof.
  intros Ha Hu. unfold negate. rewrite Hu. cbn [negb andb]. destruct (equals a MIN_VALUE) eqn:E.
  - unfold equals in E. rewrite Hu in E. cbn in E. zb.
    unfold long_val. rewrite H, H0. vm_compute. done.
  - rewrite add_val by (unfold not, ONE; auto with words). rewrite not_val by done.
    change (long_val ONE) with 1. f_equal. lia.
Qed.

(** * What [fromNumber] represents *)

Lemma fromNumber_mag_val m e : 0 ≤ mag_trunc m e < 2 ^ 63 →
  long_val (fromNumber_mag m e) = mag_trunc m e.
Proof.
  intros H. unfold fromNumber_mag, long_val. cbn [low high fromBits].
  unfold u32, i32. rewrite !uwrap_swrap by lia.
  rewrite !(swrap_small 32 (swrap 32 _)) by (lia || apply swrap_range; lia).
  rewrite (swrap_small 32) by (unfold in_s; Z.to_euclidean_division_equations; lia).
  unfold uwrap. change (2 ^ 32) with 4294967296. rewrite Z.mod_mod by lia.
  Z.to_euclidean_division_equations. lia.
Qed.

Lemma mag_trunc_nonneg m e : 0 ≤ m → 0 ≤ mag_trunc m e.
Proof.
  intros. unfold mag_trunc. destruct (Z.leb_spec 0 e).
  - pose proof (pow2_pos e). nia.
  - apply Z.div_pos; [done|]. apply pow2_pos. lia.
Qed.

Lemma mag_trunc_0 e : mag_trunc 0 e = 0.
Proof. unfold mag_trunc. destruct (0 <=? e); [lia|apply Zdiv_0_l]. Qed.

(** A finite number in the signed 64-bit range becomes its integer part; one
    outside saturates. *)
Lemma fromNumber_val neg m e z : 0 ≤ m → num_trunc (JNum neg m e) = Some z →
  long_val (fromNumber (JNum neg m e)) = Z.max (- 2 ^ 63) (Z.min z (2 ^ 63 - 1)).
Proof.
  intros Hm. cbn [num_trunc]. intros [= Hz]. pose proof (mag_trunc_nonneg m e Hm).
  unfold fromNumber. change 9223372036854775808 with (2 ^ 63).
  destruct (Z.leb_spec (2 ^ 63) (mag_trunc m e)) as [Hbig|Hsmall]; destruct neg; cbn [andb negb].
  - change (long_val MIN_VALUE) with (- 2 ^ 63). lia.
  - change (long_val MAX_VALUE) with (2 ^ 63 - 1). lia.
  - destruct (Z.eqb_spec m 0) as [->|]; cbn [negb].
    + rewrite fromNumber_mag_val by lia. rewrite mag_trunc_0 in *. lia.
    + rewrite negate_val by (unfold fromNumber_mag; auto with words).
      rewrite fromNumber_mag_val by lia. rewrite swrap_small; [lia|lia|]. unfold in_s. lia.
  - rewrite fromNumber_mag_val by lia. lia.
Qed.

Lemma fromValue_long l : long_wf l → fromValue (LLong l) = l.
Proof.
  intros [Hl Hh]. destruct l as [l h u]. unfold fromValue, fromBits. cbn in *.
  by rewrite !i32_id.
Qed.

Lemma fromNumber_wf x : long_wf (fromNumber x).
Proof.
  unfold fromNumber, negate, add, fromNumber_mag.
  repeat case_match; auto with words; split; vm_compute; done.
Qed.

Lemma fromValue_wf v : long_wf (fromValue v).
Proof. destruct v; simpl; [apply fromNumber_wf|auto with words]. Qed.
#[export] Hint Resolve fromNumber_wf fromValue_wf : words.

Lemma isZero_val l : long_wf l → isZero l = (long_val l =? 0).
Proof.
  intros [Hl Hh]. unfold isZero, long_val. rewrite in_s32 in Hl, Hh. unfold u32, uwrap.
  destruct (Z.eqb_spec (high l) 0), (Z.eqb_spec (low l) 0); cbn;
    symmetry; rewrite ?Z.eqb_eq, ?Z.eqb_neq; Z.to_euclidean_division_equations; lia.
Qed.

(** * Theorems *)

(** [Long.fromValue] of a finite number is the number's integer
    part, clamped to the range of a signed 64-bit integer; NaN gives zero. *)
Theorem from_number_saturates x : num_wf x →
  long_wf (fromValue (LNum x)) ∧
  long_val (fromValue (LNum x)) =
    match num_trunc x with
    | Some z => Z.max (- 2 ^ 63) (Z.min z (2 ^ 63 - 1))
    | None => match x with JInf true => - 2 ^ 63 | JInf false => 2 ^ 63 - 1 | _ => 0 end
    end.
Proof.
  intros Hx. split; [apply fromNumber_wf|]. destruct x as [|[]|neg m e]; [reflexivity..|].
  cbn [fromValue num_trunc]. by apply fromNumber_val.
Qed.

Lemma from_number_saturates_witness : long_val (fromValue (LNum (JNum true 3 70))) = - 2 ^ 63.
Proof. destruct (from_number_saturates (JNum true 3 70)) as [_ E]; [vm_compute; discriminate|]. rewrite E. reflexivity. Defined.
