(* ===== verification/JsWriter.v ===== *)
(** The protobuf encoder of the wallet page: [utf8] and [Writer] of the vendored
    [protobufjs], in [src/cmd/congrid-site/static/wallet-deps.bundle.mjs]
    ([utf8] on line 1413, [Writer] on line 1420).  A writer queues operations,
    each with the byte length it promises; [finish] allocates the sum of the
    promised lengths and lets every operation write at its offset.  The lemmas
    show that the promises are exact, so that the output is the concatenation
    of the operations' bytes. *)

From S2P Require Import Prelude JsBase JsLong.

(** * UTF-8 *)

Definition is_high (c : Z) : bool := Z.land c 64512 =? 55296.
Definition is_low (c : Z) : bool := Z.land c 64512 =? 56320.

(** In both loops the pair test is [(c & 64512) === 55296 &&
    (s.charCodeAt(i + 1) & 64512) === 56320]; past the end [charCodeAt] is NaN,
    which [&] turns into 0, so the last unit never pairs. *)
Fixpoint utf8_length (s : jsstr) : Z :=
  match s with
  | [] => 0
  | c :: r =>
      if c <? 128 then 1 + utf8_length r
      else if c <? 2048 then 2 + utf8_length r
      else match r with
           | d :: r' => if is_high c && is_low d then 4 + utf8_length r' else 3 + utf8_length r
           | [] => 3
           end
  end.

Definition utf8_2 (c : Z) : list Z :=
  [Z.lor (Z.shiftr c 6) 192; Z.lor (Z.land c 63) 128].
Definition utf8_3 (c : Z) : list Z :=
  [Z.lor (Z.shiftr c 12) 224; Z.lor (Z.land (Z.shiftr c 6) 63) 128; Z.lor (Z.land c 63) 128].
Definition utf8_4 (l : Z) : list Z :=
  [Z.lor (Z.shiftr l 18) 240; Z.lor (Z.land (Z.shiftr l 12) 63) 128;
   Z.lor (Z.land (Z.shiftr l 6) 63) 128; Z.lor (Z.land l 63) 128].

(** The code point of a surrogate pair. *)
Definition pair_code (c d : Z) : Z := 65536 + Z.shiftl (Z.land c 1023) 10 + Z.land d 1023.

Fixpoint utf8_write (s : jsstr) : list Z :=
  match s with
  | [] => []
  | c :: r =>
      if c <? 128 then c :: utf8_write r
      else if c <? 2048 then utf8_2 c ++ utf8_write r
      else match r with
           | d :: r' => if is_high c && is_low d then utf8_4 (pair_code c d) ++ utf8_write r'
                        else utf8_3 c ++ utf8_write r
           | [] => utf8_3 c
           end
  end.

(** [utf8.read]: bytes back to code units.  A byte missing at the end reads as
    [undefined], which the bit operators turn into 0. *)
Definition byte_at (l : list Z) (i : nat) : Z := default 0 (l !! i).

Fixpoint utf8_read (fuel : nat) (b : list Z) : jsstr :=
  match fuel, b with
  | S f, k :: r =>
      if k <? 128 then k :: utf8_read f r
      else if (191 <? k) && (k <? 224) then
        Z.lor (Z.shiftl (Z.land k 31) 6) (Z.land (byte_at r 0) 63) :: utf8_read f (drop 1 r)
      else if (239 <? k) && (k <? 365) then
        let v := Z.lor (Z.lor (Z.lor (Z.shiftl (Z.land k 7) 18) (Z.shiftl (Z.land (byte_at r 0) 63) 12))
                         (Z.shiftl (Z.land (byte_at r 1) 63) 6)) (Z.land (byte_at r 2) 63) - 65536 in
        55296 + Z.shiftr v 10 :: 56320 + Z.land v 1023 :: utf8_read f (drop 3 r)
      else
        Z.lor (Z.lor (Z.shiftl (Z.land k 15) 12) (Z.shiftl (Z.land (byte_at r 0) 63) 6))
          (Z.land (byte_at r 1) 63) :: utf8_read f (drop 2 r)
  | _, _ => []
  end.

Definition utf8_decode (b : list Z) : jsstr := utf8_read (length b) b.

(** * Varints *)

(** [writeVarint32]: the loop [for (; e > 127;)]. *)
Fixpoint write_varint32 (fuel : nat) (e : Z) : list Z :=
  match fuel with
  | O => []
  | S f => if 127 <? e then Z.lor (Z.land e 127) 128 :: write_varint32 f (Z.shiftr e 7) else [e]
  end.

(** [writeVarint64]: first while the high word is not zero, then on the low
    word. *)
Fixpoint write_varint64_hi (fuel : nat) (l h : Z) : list Z * (Z * Z) :=
  match fuel with
  | O => ([], (l, h))
  | S f =>
      if h =? 0 then ([], (l, h))
      else let '(bs, r) := write_varint64_hi f (u32 (bor (shru l 7) (shl h 25))) (shru h 7) in
           (Z.lor (Z.land l 127) 128 :: bs, r)
  end.

Definition write_varint64 (b : LongBits) : list Z :=
  let '(bs, (l, _)) := write_varint64_hi 5 (lo b) (hi b) in
  bs ++ write_varint32 5 l.

(** * The writer *)

Inductive wop : Type :=
| WByte (v : Z)          (* writeByte *)
| WVarint32 (v : Z)      (* writeVarint32 *)
| WVarint64 (b : LongBits) (* writeVarint64 *)
| WUtf8 (s : jsstr).     (* utf8.write *)

Definition op_bytes (o : wop) : list Z :=
  match o with
  | WByte v => [Z.land v 255]
  | WVarint32 v => write_varint32 5 v
  | WVarint64 b => write_varint64 b
  | WUtf8 s => utf8_write s
  end.

Record Writer := { wops : list (wop * Z); wlen : Z }.

(** [Writer.create()]. *)
Definition create : Writer := {| wops := []; wlen := 0 |}.

Definition push (w : Writer) (o : wop) (len : Z) : Writer :=
  {| wops := wops w ++ [(o, len)]; wlen := wlen w + len |}.

Definition w_uint32 (w : Writer) (v : Z) : Writer :=
  let t := u32 v in
  push w (WVarint32 t)
    (if t <? 128 then 1 else if t <? 16384 then 2 else if t <? 2097152 then 3
     else if t <? 268435456 then 4 else 5).

Definition w_int32 (w : Writer) (t : Z) : Writer :=
  if t <? 0 then push w (WVarint64 (bits_from_int t)) 10 else w_uint32 w t.

(** [int64] (an alias of [uint64]) on a [Long]. *)
Definition w_int64 (w : Writer) (l : Long) : Writer :=
  let b := bits_from_long l in push w (WVarint64 b) (bits_length b).

Definition w_string (w : Writer) (s : jsstr) : Writer :=
  let i := utf8_length s in
  if i =? 0 then push w (WByte 0) 1 else push (w_uint32 w i) (WUtf8 s) i.

(** Stores into the [Uint8Array]; a store past the end has no effect. *)
Fixpoint store (buf : list Z) (pos : nat) (bs : list Z) : list Z :=
  match bs with
  | [] => buf
  | b :: r => store (<[pos := b mod 256]> buf) (S pos) r
  end.

Fixpoint run_ops (buf : list Z) (pos : Z) (ops : list (wop * Z)) : list Z :=
  match ops with
  | [] => buf
  | (o, len) :: r => run_ops (store buf (Z.to_nat pos) (op_bytes o)) (pos + len) r
  end.

(** [finish()]: allocate [len] bytes (a fresh, zeroed array) and run the queue. *)
Definition finish (w : Writer) : list Z := run_ops (replicate (Z.to_nat (wlen w)) 0) 0 (wops w).

(** * Varints against their definition *)

(** Base-128 digits, least significant first, the high bit marking all but the
    last. *)
Fixpoint varint (fuel : nat) (z : Z) : list Z :=
  match fuel with
  | O => []
  | S f => if z <? 128 then [z] else z mod 128 + 128 :: varint f (z / 128)
  end.

Lemma varint_S f z : varint (S f) z = if z <? 128 then [z] else z mod 128 + 128 :: varint f (z / 128).
Proof. done. Qed.

Definition is_byte (b : Z) : Prop := 0 ≤ b < 256.

Lemma land_127 e : Z.land e 127 = e mod 128.
Proof. change 127 with (Z.ones 7). by rewrite Z.land_ones. Qed.

Lemma land_63 e : Z.land e 63 = e mod 64.
Proof. change 63 with (Z.ones 6). by rewrite Z.land_ones. Qed.

Lemma lor_low a b k : 0 ≤ k → 0 ≤ b < 2 ^ k → a mod 2 ^ k = 0 → Z.lor b a = b + a.
Proof.
  intros Hk Hb Ha. rewrite Z.lor_comm. pose proof (pow2_pos k Hk).
  assert (a = Z.shiftl (a / 2 ^ k) k) as ->.
  { rewrite Z.shiftl_mul_pow2 by done. pose proof (Z.div_mod a (2 ^ k)). lia. }
  rewrite lor_shiftl_add, Z.shiftl_mul_pow2 by done. lia.
Qed.

Lemma cont_byte e : Z.lor (Z.land e 127) 128 = e mod 128 + 128.
Proof.
  rewrite land_127. apply (lor_low 128 (e mod 128) 7); [lia|apply Z.mod_pos_bound; lia|done].
Qed.

Lemma write_varint32_spec fuel e : write_varint32 fuel e = varint fuel e.
Proof.
  revert e. induction fuel as [|f IH]; intros e; simpl; [done|].
  rewrite cont_byte, IH, Z.shiftr_div_pow2 by lia.
  destruct (Z.ltb_spec 127 e), (Z.ltb_spec e 128); try lia; done.
Qed.

Lemma varint_fuel f1 f2 z : 0 ≤ z → z < 2 ^ (7 * Z.of_nat f1) → z < 2 ^ (7 * Z.of_nat f2) →
  (0 < f1)%nat → (0 < f2)%nat → varint f1 z = varint f2 z.
Proof.
  revert f2 z. induction f1 as [|f1 IH]; intros [|f2] z Hz H1 H2 ??; try lia.
  simpl. destruct (Z.ltb_spec z 128); [done|]. f_equal.
  rewrite Nat2Z.inj_succ, Z.mul_succ_r, Z.pow_add_r in H1, H2 by lia.
  change (2 ^ 7) with 128 in H1, H2.
  apply IH; try (Z.to_euclidean_division_equations; lia).
  - destruct f1; simpl in *; lia.
  - destruct f2; simpl in *; lia.
Qed.

Lemma shru_val a n : 0 ≤ a < 4294967296 → 0 ≤ n → shru a n = a / 2 ^ n.
Proof. intros. unfold shru. rewrite u32_id by done. by rewrite Z.shiftr_div_pow2. Qed.

(** [(x | h << k) >>> 0] when [x] fits below the shifted word. *)
Lemma bor_shl x h k : 0 < k < 32 → 0 ≤ x < 2 ^ k →
  u32 (bor x (shl h k)) = (h * 2 ^ k) mod 2 ^ 32 + x.
Proof.
  intros Hk Hx. unfold bor, shl. rewrite (i32_id (i32 _)) by (apply swrap_range; lia).
  assert (2 ^ k ≤ 2 ^ 31) by (apply Z.pow_le_mono_r; lia).
  rewrite (i32_id x) by (apply in_s32; change 2147483648 with (2 ^ 31); lia).
  rewrite Z.shiftl_mul_pow2 by lia. pose proof (i32_mod (h * 2 ^ k)) as Hm.
  pose proof (pow2_pos k ltac:(lia)).
  assert (2 ^ 32 = 2 ^ (32 - k) * 2 ^ k) as Hp by (rewrite <- Z.pow_add_r by lia; f_equal; lia).
  assert (∀ z, z mod 2 ^ 32 mod 2 ^ k = z mod 2 ^ k) as Hd.
  { intros z. apply Z.mod_mod_divide. by exists (2 ^ (32 - k)). }
  assert (i32 (h * 2 ^ k) mod 2 ^ k = 0) as Hz by (rewrite <- Hd, Hm, Hd; apply Z_mod_mult).
  rewrite (lor_low _ _ k) by (done || lia). unfold u32, uwrap.
  rewrite Z.add_comm, <- (Zplus_mod_idemp_l (i32 _)), Hm. apply Z.mod_small.
  rewrite Hp, Zmult_mod_distr_r.
  pose proof (Z.mod_pos_bound h (2 ^ (32 - k)) (pow2_pos (32 - k) ltac:(lia))).
  generalize dependent (2 ^ (32 - k)). generalize dependent (2 ^ k). intros. nia.
Qed.

(** One turn of the 64-bit loop divides the value by 128. *)
Lemma varint64_step l h : in_u 32 l → in_u 32 h →
  let l' := u32 (bor (shru l 7) (shl h 25)) in
  let h' := shru h 7 in
  in_u 32 l' ∧ in_u 32 h' ∧ h' * 2 ^ 32 + l' = (h * 2 ^ 32 + l) / 128 ∧ h' = h / 128.
Proof.
  intros Hl Hh. cbv zeta. assert (in_u 32 (shru h 7)) as Hh'.
  { unfold shru, u32. rewrite uwrap_small by done. rewrite Z.shiftr_div_pow2 by lia.
    rewrite in_u32 in *. Z.to_euclidean_division_equations; lia. }
  assert (u32 (bor (shru l 7) (shl h 25)) = (h mod 128) * 2 ^ 25 + l / 128) as ->.
  { rewrite shru_val by (rewrite in_u32 in Hl; lia). change (2 ^ 7) with 128. rewrite in_u32 in *.
    rewrite (bor_shl _ _ 25) by (Z.to_euclidean_division_equations; lia).
    Z.to_euclidean_division_equations. lia. }
  unfold shru, u32. rewrite uwrap_small by done. rewrite Z.shiftr_div_pow2 by lia.
  unfold shru, u32 in Hh'. rewrite uwrap_small in Hh' by done.
  rewrite Z.shiftr_div_pow2 in Hh' by lia. change (2 ^ 7) with 128 in *.
  rewrite !in_u32 in *. Z.to_euclidean_division_equations. lia.
Qed.

Lemma write_varint64_hi_spec n l h : in_u 32 l → in_u 32 h → h < 2 ^ (7 * Z.of_nat n) →
  let '(bs, (l', _)) := write_varint64_hi n l h in
  bs ++ varint 5 l' = varint (n + 5) (h * 2 ^ 32 + l).
Proof.
  revert l h. induction n as [|n IH]; intros l h Hl Hh Hn.
  - cbn [write_varint64_hi app]. assert (h = 0) as -> by (rewrite in_u32 in Hh; simpl in Hn; lia).
    done.
  - cbn [write_varint64_hi]. destruct (Z.eqb_spec h 0) as [->|Hne].
    + rewrite Z.mul_0_l, Z.add_0_l, app_nil_l. rewrite in_u32 in Hl.
      apply varint_fuel; try lia. eapply Z.lt_le_trans; [apply Hl|].
      change 4294967296 with (2 ^ 32). apply Z.pow_le_mono_r; lia.
    + destruct (varint64_step l h Hl Hh) as (Hl' & Hh' & Hv & Hd).
      specialize (IH _ _ Hl' Hh'). rewrite Nat2Z.inj_succ, Z.mul_succ_r, Z.pow_add_r in Hn by lia.
      assert (shru h 7 < 2 ^ (7 * Z.of_nat n)) as Hlt.
      { rewrite Hd. change (2 ^ 7) with 128 in Hn. Z.to_euclidean_division_equations; lia. }
      specialize (IH Hlt). destruct (write_varint64_hi n _ _) as [bs [l'' h'']].
      rewrite Nat.add_succ_l, (varint_S (n + 5)). cbn [app]. rewrite in_u32 in *.
      destruct (Z.ltb_spec (h * 2 ^ 32 + l) 128); [lia|].
      rewrite cont_byte, IH, Hv. f_equal. Z.to_euclidean_division_equations. lia.
Qed.

Lemma write_varint64_spec b : bits_wf b → write_varint64 b = varint 10 (bits_val b).
Proof.
  intros [Hl Hh]. unfold write_varint64.
  pose proof (write_varint64_hi_spec 5 (lo b) (hi b) Hl Hh) as H.
  destruct (write_varint64_hi 5 (lo b) (hi b)) as [bs [l h]].
  rewrite write_varint32_spec. apply H.
  rewrite in_u32 in Hh. change (2 ^ (7 * Z.of_nat 5)) with 34359738368. lia.
Qed.

(** * Promised lengths are exact *)

Lemma varint_length fuel k z : (k < fuel)%nat →
  (k = O ∨ 2 ^ (7 * Z.of_nat k) ≤ z) → 0 ≤ z < 2 ^ (7 * Z.of_nat (S k)) →
  length (varint fuel z) = S k.
Proof.
  revert fuel z. induction k as [|k IH]; intros [|f] z Hf Hlo Hhi; try lia.
  - rewrite varint_S. change (2 ^ (7 * Z.of_nat 1)) with 128 in Hhi.
    destruct (Z.ltb_spec z 128); [done|lia].
  - rewrite varint_S. destruct Hlo as [?|Hlo]; [done|].
    rewrite Nat2Z.inj_succ, Z.mul_succ_r, Z.pow_add_r in Hlo by lia.
    rewrite (Nat2Z.inj_succ (S k)), Z.mul_succ_r, Z.pow_add_r in Hhi by lia.
    change (2 ^ 7) with 128 in *. pose proof (pow2_pos (7 * Z.of_nat k)).
    destruct (Z.ltb_spec z 128); [lia|]. cbn [length]. f_equal. apply IH; [lia| |].
    + right. apply Z.div_le_lower_bound; lia.
    + split; [apply Z.div_pos; lia|]. apply Z.div_lt_upper_bound; lia.
Qed.

Lemma varint_bytes fuel z : 0 ≤ z → Forall is_byte (varint fuel z).
Proof.
  revert z. induction fuel as [|f IH]; intros z Hz; [constructor|].
  rewrite varint_S. unfold is_byte. destruct (Z.ltb_spec z 128).
  - repeat constructor; lia.
  - constructor; [pose proof (Z.mod_pos_bound z 128); lia|]. apply IH. apply Z.div_pos; lia.
Qed.

Ltac vlen k := rewrite (varint_length _ k); [done|lia|first [by left|right; cbn; lia]|cbn; lia].

Lemma uint32_length t : 0 ≤ t < 4294967296 →
  (if t <? 128 then 1 else if t <? 16384 then 2 else if t <? 2097152 then 3
   else if t <? 268435456 then 4 else 5) = Z.of_nat (length (varint 5 t)).
Proof.
  intros Ht.
  destruct (Z.ltb_spec t 128); [vlen 0%nat|]. destruct (Z.ltb_spec t 16384); [vlen 1%nat|].
  destruct (Z.ltb_spec t 2097152); [vlen 2%nat|]. destruct (Z.ltb_spec t 268435456); [vlen 3%nat|].
  vlen 4%nat.
Qed.

Lemma bits_length_spec b : bits_wf b → bits_length b = Z.of_nat (length (varint 10 (bits_val b))).
Proof.
  intros [Hl Hh]. unfold bits_length, bits_val.
  assert (shru (hi b) 24 = hi b / 2 ^ 24) as ->.
  { unfold shru, u32. rewrite uwrap_small by done. by rewrite Z.shiftr_div_pow2. }
  assert (u32 (bor (shru (lo b) 28) (shl (hi b) 4)) = hi b mod 2 ^ 28 * 16 + lo b / 2 ^ 28) as ->.
  { rewrite shru_val by (rewrite in_u32 in Hl; lia). rewrite in_u32 in *.
    rewrite (bor_shl _ _ 4) by (Z.to_euclidean_division_equations; lia).
    Z.to_euclidean_division_equations. lia. }
  rewrite in_u32 in *. generalize dependent (lo b). generalize dependent (hi b). clear b.
  intros h Hh l Hl. change (2 ^ 24) with 16777216. change (2 ^ 28) with 268435456.
  change (2 ^ 32) with 4294967296.
  destruct (Z.eqb_spec (h / 16777216) 0) as [Hz|Hnz].
  - assert (h < 16777216) by (Z.to_euclidean_division_equations; lia).
    rewrite (Z.mod_small h) by lia. set (i := h * 16 + l / 268435456).
    assert (268435456 * i ≤ h * 4294967296 + l < 268435456 * (i + 1)) as Hi
      by (subst i; Z.to_euclidean_division_equations; lia).
    assert (0 ≤ i) by (subst i; Z.to_euclidean_division_equations; lia).
    destruct (Z.eqb_spec i 0) as [Hi0|].
    + assert (h = 0) as -> by (subst i; Z.to_euclidean_division_equations; lia).
      destruct (Z.ltb_spec l 16384); [destruct (Z.ltb_spec l 128)|destruct (Z.ltb_spec l 2097152)];
        [vlen 0%nat|vlen 1%nat|vlen 2%nat|vlen 3%nat].
    + clearbody i.
      destruct (Z.ltb_spec i 16384); [destruct (Z.ltb_spec i 128)|destruct (Z.ltb_spec i 2097152)];
        [vlen 4%nat|vlen 5%nat|vlen 6%nat|].
      vlen 7%nat.
  - set (f := h / 16777216) in *.
    assert (72057594037927936 * f ≤ h * 4294967296 + l < 72057594037927936 * (f + 1)) as Hi
      by (subst f; Z.to_euclidean_division_equations; lia).
    assert (0 ≤ f < 256) by (subst f; Z.to_euclidean_division_equations; lia). clearbody f.
    destruct (Z.ltb_spec f 128); [vlen 8%nat|vlen 9%nat].
Qed.

(** * UTF-8 lengths and round trip *)

Definition is_unit (c : Z) : Prop := 0 ≤ c < 65536.

(** Induction on a string one or two code units at a time. *)
Lemma unit_ind (P : jsstr → Prop) :
  P [] → (∀ c r, P r → (∀ d r', r = d :: r' → P r') → P (c :: r)) → ∀ s, P s.
Proof.
  intros H0 H1 s. enough (P s ∧ ∀ d r', s = d :: r' → P r') by tauto.
  induction s as [|c r [IH1 IH2]]; [done|]. split; [auto|]. by intros d r' [= -> ->].
Qed.

Lemma land_ones_mod a n m : 0 ≤ n → m = Z.ones n → Z.land a m = a mod 2 ^ n.
Proof. intros ? ->. by apply Z.land_ones. Qed.

Lemma land_fc00 c : is_unit c → Z.land c 64512 = c / 1024 * 1024.
Proof.
  intros Hc. change 64512 with (Z.land 65535 (Z.lnot 1023)).
  rewrite Z.land_assoc, (land_ones_mod c 16), Z.mod_small by (done || exact Hc || lia).
  change 1023 with (Z.ones 10). rewrite <- Z.ldiff_land, Z.ldiff_ones_r by lia.
  by rewrite Z.shiftr_div_pow2, Z.shiftl_mul_pow2 by lia.
Qed.

Lemma is_high_iff c : is_unit c → is_high c = true ↔ 55296 ≤ c < 56320.
Proof.
  intros Hc. unfold is_high. rewrite land_fc00, Z.eqb_eq by done.
  Z.to_euclidean_division_equations; lia.
Qed.

Lemma is_low_iff c : is_unit c → is_low c = true ↔ 56320 ≤ c < 57344.
Proof.
  intros Hc. unfold is_low. rewrite land_fc00, Z.eqb_eq by done.
  Z.to_euclidean_division_equations; lia.
Qed.

Lemma lor_6 b : 0 ≤ b < 64 → Z.lor b 128 = b + 128.
Proof. intros. by apply (lor_low 128 b 6). Qed.

Lemma utf8_2_val c : 128 ≤ c < 2048 → utf8_2 c = [c / 64 + 192; c mod 64 + 128].
Proof.
  intros Hc. unfold utf8_2. rewrite land_63, Z.shiftr_div_pow2 by lia. change (2 ^ 6) with 64.
  rewrite lor_6 by (apply Z.mod_pos_bound; lia).
  rewrite (lor_low 192 (c / 64) 6); [done|lia| |done]. Z.to_euclidean_division_equations; lia.
Qed.

Lemma utf8_3_val c : is_unit c →
  utf8_3 c = [c / 4096 + 224; c / 64 mod 64 + 128; c mod 64 + 128].
Proof.
  intros Hc. unfold utf8_3, is_unit in *. rewrite !land_63, !Z.shiftr_div_pow2 by lia.
  change (2 ^ 6) with 64. change (2 ^ 12) with 4096.
  rewrite !lor_6 by (apply Z.mod_pos_bound; lia).
  rewrite (lor_low 224 (c / 4096) 5); [done|lia| |done]. Z.to_euclidean_division_equations; lia.
Qed.

Lemma utf8_4_val l : 65536 ≤ l < 1114112 →
  utf8_4 l = [l / 262144 + 240; l / 4096 mod 64 + 128; l / 64 mod 64 + 128; l mod 64 + 128].
Proof.
  intros Hc. unfold utf8_4. rewrite !land_63, !Z.shiftr_div_pow2 by lia.
  change (2 ^ 6) with 64. change (2 ^ 12) with 4096. change (2 ^ 18) with 262144.
  rewrite !lor_6 by (apply Z.mod_pos_bound; lia).
  rewrite (lor_low 240 (l / 262144) 4); [done|lia| |done]. Z.to_euclidean_division_equations; lia.
Qed.

Lemma pair_code_val c d : 55296 ≤ c < 56320 → 56320 ≤ d < 57344 →
  pair_code c d = 65536 + (c - 55296) * 1024 + (d - 56320).
Proof.
  intros Hc Hd. unfold pair_code. rewrite !(land_ones_mod _ 10), Z.shiftl_mul_pow2 by (done || lia).
  Z.to_euclidean_division_equations; lia.
Qed.

Lemma utf8_write_length s : Z.of_nat (length (utf8_write s)) = utf8_length s.
Proof.
  induction s as [|c r IH1 IH2] using unit_ind; [done|]. cbn [utf8_write utf8_length].
  destruct (c <? 128); [cbn [length]; lia|].
  destruct (c <? 2048); [rewrite length_app; cbn [length utf8_2]; lia|].
  destruct r as [|d r']; [done|]. destruct (is_high c && is_low d).
  - rewrite length_app, Nat2Z.inj_add, (IH2 d r') by done. done.
  - rewrite length_app, Nat2Z.inj_add, IH1. done.
Qed.

Lemma utf8_write_bytes s : Forall is_unit s → Forall is_byte (utf8_write s).
Proof.
  induction s as [|c r IH1 IH2] using unit_ind; [constructor|]. intros [Hc Hr]%Forall_cons_1.
  pose proof (IH1 Hr) as Hrec. cbn [utf8_write]. unfold is_unit, is_byte in *.
  assert (∀ c, 0 ≤ c < 65536 → Forall (λ b, 0 ≤ b < 256) (utf8_3 c)) as H3.
  { intros c' ?. rewrite utf8_3_val by done.
    repeat constructor; Z.to_euclidean_division_equations; lia. }
  destruct (Z.ltb_spec c 128); [constructor; [lia|done]|].
  destruct (Z.ltb_spec c 2048).
  { rewrite utf8_2_val by lia. apply Forall_app; split; [|done].
    repeat constructor; Z.to_euclidean_division_equations; lia. }
  destruct r as [|d r']; [auto|]. destruct (is_high c && is_low d) eqn:E; [|apply Forall_app; auto].
  apply Forall_cons_1 in Hr as [Hd Hr']. apply andb_true_iff in E as [Eh El].
  rewrite is_high_iff in Eh by done. rewrite is_low_iff in El by done.
  rewrite pair_code_val, utf8_4_val by lia. apply Forall_app; split; [|by apply (IH2 d r')].
  repeat constructor; Z.to_euclidean_division_equations; lia.
Qed.

(** Reassembling code points: [(a << 6) | b] and its longer forms. *)
Lemma join6 a b : 0 ≤ b < 64 → Z.lor (Z.shiftl a 6) b = a * 64 + b.
Proof. intros. by apply lor_shiftl_add. Qed.

(** The three-byte and four-byte reassemblies, as numbers. *)
Lemma join_3 a b c : 0 ≤ b < 64 → 0 ≤ c < 64 →
  Z.lor (Z.lor (Z.shiftl a 12) (Z.shiftl b 6)) c = (a * 64 + b) * 64 + c.
Proof.
  intros. change 12 with (6 + 6). rewrite <- Z.shiftl_shiftl by lia.
  by rewrite <- Z.shiftl_lor, !join6.
Qed.

Lemma join_4 a b c d : 0 ≤ b < 64 → 0 ≤ c < 64 → 0 ≤ d < 64 →
  Z.lor (Z.lor (Z.lor (Z.shiftl a 18) (Z.shiftl b 12)) (Z.shiftl c 6)) d
  = ((a * 64 + b) * 64 + c) * 64 + d.
Proof.
  intros. change 18 with (12 + 6). change 12 with (6 + 6) at 2. rewrite <- !Z.shiftl_shiftl by lia.
  by rewrite <- !Z.shiftl_lor, join_3, join6.
Qed.

Ltac cmp_bytes :=
  repeat match goal with |- context [?a <? ?b] =>
    destruct (Z.ltb_spec a b); try (exfalso; Z.to_euclidean_division_equations; lia) end;
  cbn [andb].

Lemma utf8_read_1 f c bs : c < 128 → utf8_read (S f) (c :: bs) = c :: utf8_read f bs.
Proof. intros. cbn. by destruct (Z.ltb_spec c 128); [|lia]. Qed.

Lemma utf8_read_2 f c bs : 128 ≤ c < 2048 → utf8_read (S f) (utf8_2 c ++ bs) = c :: utf8_read f bs.
Proof.
  intros Hc. rewrite utf8_2_val by done. cbn [app utf8_read]. cmp_bytes.
  change (byte_at (_ :: bs) 0) with (c mod 64 + 128).
  rewrite !land_63, (land_ones_mod _ 5) by (done || lia).
  f_equal. rewrite join6 by (apply Z.mod_pos_bound; lia).
  Z.to_euclidean_division_equations; lia.
Qed.

Lemma utf8_read_3 f c bs : 2048 ≤ c < 65536 → utf8_read (S f) (utf8_3 c ++ bs) = c :: utf8_read f bs.
Proof.
  intros Hc. rewrite utf8_3_val by (unfold is_unit; lia). cbn [app utf8_read]. cmp_bytes.
  change (byte_at (_ :: _ :: bs) 0) with (c / 64 mod 64 + 128).
  change (byte_at (_ :: _ :: bs) 1) with (c mod 64 + 128).
  rewrite !land_63, (land_ones_mod _ 4) by (done || lia).
  f_equal. rewrite join_3 by (apply Z.mod_pos_bound; lia).
  Z.to_euclidean_division_equations; lia.
Qed.

Lemma utf8_read_4 f c d bs : 55296 ≤ c < 56320 → 56320 ≤ d < 57344 →
  utf8_read (S f) (utf8_4 (pair_code c d) ++ bs) = c :: d :: utf8_read f bs.
Proof.
  intros Hc Hd. rewrite pair_code_val, utf8_4_val by lia.
  set (l := 65536 + (c - 55296) * 1024 + (d - 56320)).
  assert (65536 ≤ l < 1114112) by lia. cbn [app utf8_read]. cmp_bytes.
  change (byte_at (_ :: _ :: _ :: bs) 0) with (l / 4096 mod 64 + 128).
  change (byte_at (_ :: _ :: _ :: bs) 1) with (l / 64 mod 64 + 128).
  change (byte_at (_ :: _ :: _ :: bs) 2) with (l mod 64 + 128).
  rewrite !land_63, (land_ones_mod _ 3) by (done || lia).
  rewrite join_4 by (apply Z.mod_pos_bound; lia).
  rewrite (land_ones_mod _ 10), Z.shiftr_div_pow2 by (done || lia).
  replace ((((l / 262144 + 240) mod 2 ^ 3 * 64 + (l / 4096 mod 64 + 128) mod 64) * 64 +
      (l / 64 mod 64 + 128) mod 64) * 64 + (l mod 64 + 128) mod 64 - 65536)
    with (l - 65536) by (Z.to_euclidean_division_equations; lia).
  f_equal; [|f_equal]; subst l; Z.to_euclidean_division_equations; lia.
Qed.

Lemma utf8_read_write s fuel : Forall is_unit s → (length (utf8_write s) ≤ fuel)%nat →
  utf8_read fuel (utf8_write s) = s.
Proof.
  revert fuel. induction s as [|c r IH1 IH2] using unit_ind; intros fuel Hs Hf.
  { by destruct fuel. }
  apply Forall_cons_1 in Hs as [Hc Hr]. unfold is_unit in Hc. cbn [utf8_write] in *.
  destruct fuel as [|f].
  { exfalso. repeat case_match; rewrite ?length_app in Hf; cbn in Hf; lia. }
  destruct (Z.ltb_spec c 128).
  { rewrite utf8_read_1 by done. cbn [length] in Hf. by rewrite IH1 by (done || lia). }
  destruct (Z.ltb_spec c 2048).
  { rewrite utf8_read_2 by lia. rewrite length_app in Hf. cbn [length utf8_2] in Hf.
    by rewrite IH1 by (done || lia). }
  destruct r as [|d r'].
  { rewrite <- (app_nil_r (utf8_3 c)), utf8_read_3 by lia. by destruct f. }
  pose proof (Forall_cons_1 _ _ _ Hr) as [Hd Hr'].
  destruct (is_high c && is_low d) eqn:E; rewrite length_app in Hf.
  - apply andb_true_iff in E as [Eh El].
    rewrite is_high_iff in Eh by done. rewrite is_low_iff in El by done.
    rewrite utf8_read_4 by lia. cbn [length utf8_4] in Hf. by rewrite (IH2 d r') by (done || lia).
  - rewrite utf8_read_3 by lia. cbn [length utf8_3] in Hf. by rewrite IH1 by (done || lia).
Qed.

Lemma utf8_decode_write s : Forall is_unit s → utf8_decode (utf8_write s) = s.
Proof. intros. by apply utf8_read_write. Qed.

(** * [finish] is concatenation *)

(** Every queued operation writes exactly the bytes it promised. *)
Definition op_exact (ol : wop * Z) : Prop :=
  ol.2 = Z.of_nat (length (op_bytes ol.1)) ∧ Forall is_byte (op_bytes ol.1).

Definition writer_ok (w : Writer) : Prop :=
  Forall op_exact (wops w) ∧ wlen w = Z.of_nat (length (mjoin ((op_bytes ∘ fst) <$> wops w))).

(** The bytes a writer stands for. *)
Definition bytes_of (w : Writer) : list Z := mjoin ((op_bytes ∘ fst) <$> wops w).

Lemma store_fill pre bs n : Forall is_byte bs →
  store (pre ++ replicate (length bs + n) 0) (length pre) bs = pre ++ bs ++ replicate n 0.
Proof.
  revert pre. induction bs as [|b bs IH]; intros pre Hbs; [done|].
  apply Forall_cons_1 in Hbs as [Hb Hbs]. cbn [store length Nat.add replicate].
  rewrite insert_app_r_alt by lia. rewrite Nat.sub_diag. cbn [insert list_insert].
  rewrite Z.mod_small by exact Hb.
  change (b :: replicate (length bs + n) 0) with ([b] ++ replicate (length bs + n) 0).
  rewrite app_assoc. replace (S (length pre)) with (length (pre ++ [b])) by (rewrite length_app; simpl; lia).
  rewrite IH by done. by rewrite <- app_assoc.
Qed.

Lemma run_ops_fill ops pre : Forall op_exact ops →
  run_ops (pre ++ replicate (length (mjoin ((op_bytes ∘ fst) <$> ops))) 0) (Z.of_nat (length pre)) ops
  = pre ++ mjoin ((op_bytes ∘ fst) <$> ops).
Proof.
  revert pre. induction ops as [|[o len] ops IH]; intros pre Hops; [done|].
  apply Forall_cons_1 in Hops as [[Hlen Hb] Hops]. cbn [fst snd] in Hlen, Hb.
  cbn [run_ops fmap list_fmap mjoin list_join compose fst]. rewrite length_app, Nat2Z.id.
  rewrite store_fill by done. rewrite app_assoc.
  rewrite Hlen, <- Nat2Z.inj_add, <- length_app. rewrite IH by done. by rewrite <- app_assoc.
Qed.

Lemma finish_bytes_of w : writer_ok w → finish w = bytes_of w.
Proof.
  intros [Hops Hlen]. unfold finish, bytes_of. rewrite Hlen, Nat2Z.id.
  apply (run_ops_fill (wops w) [] Hops).
Qed.

Lemma push_ok w o len : writer_ok w → op_exact (o, len) → writer_ok (push w o len).
Proof.
  intros [Hops Hlen] Ho. split; cbn [wops wlen push].
  - apply Forall_app. split; [done|]. by constructor.
  - rewrite fmap_app, join_app, length_app, Hlen. destruct Ho as [Ho _]. cbn in Ho. rewrite Ho.
    cbn. rewrite app_nil_r. lia.
Qed.

Lemma bytes_of_push w o len : bytes_of (push w o len) = bytes_of w ++ op_bytes o.
Proof. unfold bytes_of, push. cbn [wops]. rewrite fmap_app, join_app. cbn. by rewrite app_nil_r. Qed.

Lemma create_ok : writer_ok create.
Proof. by split. Qed.

Lemma w_uint32_ok w v : writer_ok w → writer_ok (w_uint32 w v).
Proof.
  intros Hw. apply push_ok; [done|]. pose proof (uwrap_range 32 v ltac:(lia)) as Hr.
  fold (u32 v) in Hr. rewrite in_u32 in Hr. split; cbn [fst snd op_bytes]; rewrite write_varint32_spec.
  - by apply uint32_length.
  - apply varint_bytes. lia.
Qed.

Lemma bits_from_long_wf l : bits_wf (bits_from_long l).
Proof. unfold bits_from_long. case_match; auto with words. Qed.

Lemma bits_from_long_val l : bits_val (bits_from_long l) = long_u64 l.
Proof.
  unfold bits_from_long, bits_val, long_u64.
  destruct (Z.eqb_spec (low l) 0) as [->|]; [|cbn; lia].
  destruct (Z.eqb_spec (high l) 0) as [->|]; [done|cbn; lia].
Qed.

Lemma bits_val_range b : bits_wf b → 0 ≤ bits_val b < 2 ^ 64.
Proof. intros [Hl Hh]. unfold bits_val. rewrite in_u32 in *. lia. Qed.

Lemma w_int64_ok w l : writer_ok w → writer_ok (w_int64 w l).
Proof.
  intros Hw. apply push_ok; [done|]. pose proof (bits_from_long_wf l) as Hb.
  split; cbn [fst snd op_bytes]; rewrite write_varint64_spec by done.
  - by apply bits_length_spec.
  - apply varint_bytes. by apply bits_val_range.
Qed.

Lemma w_string_ok w s : writer_ok w → Forall is_unit s → writer_ok (w_string w s).
Proof.
  intros Hw Hs. unfold w_string. destruct (Z.eqb_spec (utf8_length s) 0).
  - apply push_ok; [done|]. split; [done|]. apply Forall_singleton. by vm_compute.
  - apply push_ok; [by apply w_uint32_ok|]. split; cbn [fst snd op_bytes].
    + symmetry. apply utf8_write_length.
    + by apply utf8_write_bytes.
Qed.

Lemma w_int32_ok w t : writer_ok w → 0 ≤ t → writer_ok (w_int32 w t).
Proof. intros Hw Ht. unfold w_int32. destruct (Z.ltb_spec t 0); [lia|]. by apply w_uint32_ok. Qed.

#[export] Hint Resolve create_ok w_uint32_ok w_int64_ok w_string_ok w_int32_ok : words.

(** * Theorems *)

(** Every string of UTF-16 code units, lone surrogates
    included, is written as exactly [utf8_length] bytes, and reading them back
    gives the string. *)
Theorem utf8_roundtrip s : Forall is_unit s →
  Forall is_byte (utf8_write s) ∧ Z.of_nat (length (utf8_write s)) = utf8_length s ∧
  utf8_decode (utf8_write s) = s.
Proof. intros Hs. split; [by apply utf8_write_bytes|]. split; [apply utf8_write_length|by apply utf8_decode_write]. Qed.

Lemma utf8_roundtrip_witness : utf8_decode (utf8_write [65; 233; 8364; 55357; 56832; 55357]) = [65; 233; 8364; 55357; 56832; 55357].
Proof.
  apply (utf8_roundtrip [65; 233; 8364; 55357; 56832; 55357]).
  repeat (apply Forall_cons_2; [split; vm_compute; congruence|]). apply Forall_nil_2.
Defined.
