(* ===== verification/ProtoWire.v ===== *)
(** The protobuf wire format as a specification: a reference decoder for the
    messages of [src/proto/contentgrid/registry/v1/tx.proto], against which the
    page's hand-written encoders are verified.  A message is a sequence of
    (field number, payload) pairs; a payload is a varint (wire type 0) or a
    length-delimited byte string (wire type 2). *)

From S2P Require Import Prelude JsBase JsLong JsWriter.

Inductive payload : Type :=
| PVarint (v : Z)
| PBytes (b : list Z).

Fixpoint read_varint (fuel : nat) (bs : list Z) : option (Z * list Z) :=
  match fuel, bs with
  | S f, b :: r =>
      if b <? 128 then Some (b, r)
      else '(v, r') ← read_varint f r; Some (b - 128 + 128 * v, r')
  | _, _ => None
  end.

Definition read_field (bs : list Z) : option ((Z * payload) * list Z) :=
  '(key, r) ← read_varint 10 bs;
  let num := key / 8 in
  let wt := key mod 8 in
  if wt =? 0 then '(v, r') ← read_varint 10 r; Some ((num, PVarint v), r')
  else if wt =? 2 then
    '(len, r') ← read_varint 10 r;
    if len <=? Z.of_nat (length r')
    then Some ((num, PBytes (take (Z.to_nat len) r')), drop (Z.to_nat len) r')
    else None
  else None.

Fixpoint read_fields (fuel : nat) (bs : list Z) : option (list (Z * payload)) :=
  match bs with
  | [] => Some []
  | _ => match fuel with
         | O => None
         | S f => '(fld, r) ← read_field bs; fs ← read_fields f r; Some (fld :: fs)
         end
  end.

(** Each field takes at least one byte, so the length of the input is fuel
    enough. *)
Definition parse (bs : list Z) : option (list (Z * payload)) := read_fields (length bs) bs.

(** proto3 accessors: the last occurrence of a scalar wins, a missing one is the
    zero value, repeated strings are collected in order. *)
Definition get_bytes (n : Z) (acc : list Z) (fs : list (Z * payload)) : list Z :=
  foldl (λ a f, match f with (k, PBytes b) => if n =? k then b else a | _ => a end) acc fs.
Definition get_varint (n acc : Z) (fs : list (Z * payload)) : Z :=
  foldl (λ a f, match f with (k, PVarint v) => if n =? k then v else a | _ => a end) acc fs.
Definition get_repeated (n : Z) (fs : list (Z * payload)) : list (list Z) :=
  omap (λ f, match f with (k, PBytes b) => if n =? k then Some b else None | _ => None end) fs.

(** * Encoding of fields, and that the decoder inverts it *)

Definition enc_field (f : Z * payload) : list Z :=
  match f with
  | (n, PVarint v) => varint 10 (n * 8) ++ varint 10 v
  | (n, PBytes b) => varint 10 (n * 8 + 2) ++ varint 10 (Z.of_nat (length b)) ++ b
  end.

Definition field_ok (f : Z * payload) : Prop :=
  0 < f.1 < 2 ^ 29 ∧
  match f.2 with PVarint v => 0 ≤ v < 2 ^ 64 | PBytes b => Z.of_nat (length b) < 2 ^ 32 end.

Lemma read_varint_spec fuel z rest : 0 ≤ z < 2 ^ (7 * Z.of_nat fuel) → (0 < fuel)%nat →
  read_varint fuel (varint fuel z ++ rest) = Some (z, rest).
Proof.
  revert z. induction fuel as [|f IH]; intros z Hz Hf; [lia|].
  rewrite varint_S. destruct (Z.ltb_spec z 128).
  - cbn. by destruct (Z.ltb_spec z 128); [|lia].
  - cbn [app read_varint]. pose proof (Z.mod_pos_bound z 128 ltac:(lia)).
    destruct (Z.ltb_spec (z mod 128 + 128) 128); [lia|].
    rewrite Nat2Z.inj_succ, Z.mul_succ_r, Z.pow_add_r in Hz by lia. change (2 ^ 7) with 128 in Hz.
    assert (f ≠ O) by (intros ->; simpl in Hz; lia).
    rewrite IH by (Z.to_euclidean_division_equations; lia). cbn.
    f_equal. f_equal. Z.to_euclidean_division_equations; lia.
Qed.

Lemma read_varint_10 z rest : 0 ≤ z < 2 ^ 64 → read_varint 10 (varint 10 z ++ rest) = Some (z, rest).
Proof. intros. apply read_varint_spec; [|lia]. change (7 * Z.of_nat 10) with 70. lia. Qed.

Lemma read_field_enc f rest : field_ok f → read_field (enc_field f ++ rest) = Some (f, rest).
Proof.
  destruct f as [n [v|b]]; intros [Hn Hp]; cbn [fst snd] in *; unfold read_field, enc_field.
  - rewrite <- app_assoc, read_varint_10 by lia. cbn [mbind option_bind].
    rewrite Z.div_mul, Z_mod_mult by lia. rewrite read_varint_10 by lia. done.
  - rewrite <- !app_assoc, read_varint_10 by lia. cbn [mbind option_bind].
    replace ((n * 8 + 2) / 8) with n by (Z.to_euclidean_division_equations; lia).
    replace ((n * 8 + 2) mod 8) with 2 by (Z.to_euclidean_division_equations; lia).
    cbn [Z.eqb Pos.eqb]. rewrite read_varint_10 by lia. cbn [mbind option_bind].
    rewrite length_app. destruct (Z.leb_spec (Z.of_nat (length b)) (Z.of_nat (length b + length rest))); [|lia].
    by rewrite Nat2Z.id, take_app_length, drop_app_length.
Qed.

Lemma enc_field_nonempty f : field_ok f → (0 < length (enc_field f))%nat.
Proof.
  assert (∀ z, (0 < length (varint 10 z))%nat) as Hv.
  { intros z. rewrite varint_S. case_match; simpl; lia. }
  destruct f as [n [v|b]]; intros _; unfold enc_field; rewrite !length_app;
    pose proof (Hv (n * 8)); pose proof (Hv (n * 8 + 2)); lia.
Qed.

Lemma read_fields_enc fs fuel : Forall field_ok fs → (length (mjoin (enc_field <$> fs)) ≤ fuel)%nat →
  read_fields fuel (mjoin (enc_field <$> fs)) = Some fs.
Proof.
  revert fuel. induction fs as [|f fs IH]; intros fuel Hok Hlen; [by destruct fuel|].
  apply Forall_cons_1 in Hok as [Hf Hok]. pose proof (enc_field_nonempty f Hf) as Hne.
  rewrite fmap_cons in *. cbn [mjoin list_join] in *. rewrite length_app in Hlen.
  destruct fuel as [|fuel]; [lia|]. cbn [read_fields].
  destruct (enc_field f ++ _) eqn:E.
  { apply (f_equal length) in E. rewrite length_app in E. simpl in E. lia. }
  rewrite <- E, read_field_enc by done. cbn [mbind option_bind].
  rewrite IH; [done|done|]. unfold mjoin in *. lia.
Qed.

Lemma parse_enc fs : Forall field_ok fs → parse (mjoin (enc_field <$> fs)) = Some fs.
Proof. intros. by apply read_fields_enc. Qed.
