(* ===== verification/WalletMsgs.v ===== *)
(** The hand-written message codecs of the wallet page:
    [makeMsgCreateSlot], [makeMsgUpdateSlotStatus], [makeMsgLeaseSlot] and
    [makeMsgRegisterPublisher] of [src/cmd/congrid-site/static/wallet.js], and
    the [Registry] through which the signing client calls them.  They are
    verified against the field numbers of
    [src/proto/contentgrid/registry/v1/tx.proto]: the bytes they write decode to
    the message they were given. *)

From S2P Require Import Prelude JsBase JsLong JsWriter ProtoWire.

(** * The messages, and the partial objects the handlers build

    A field of a partial object that is [undefined] or [null] is [None]. *)

Record MsgCreateSlot := {
  cs_publisher : jsstr; cs_domain : jsstr; cs_label : jsstr; cs_summary : jsstr;
  cs_category : jsstr; cs_placement : jsstr; cs_size : jsstr;
  cs_rateDenom : jsstr; cs_rateAmount : jsstr;
  cs_unitSeconds : Long; cs_minDurationSeconds : Long; cs_maxDurationSeconds : Long;
  cs_tags : list jsstr }.

Record PartialCreateSlot := {
  pcs_publisher : option jsstr; pcs_domain : option jsstr; pcs_label : option jsstr;
  pcs_summary : option jsstr; pcs_category : option jsstr; pcs_placement : option jsstr;
  pcs_size : option jsstr; pcs_rateDenom : option jsstr; pcs_rateAmount : option jsstr;
  pcs_unitSeconds : option longlike; pcs_minDurationSeconds : option longlike;
  pcs_maxDurationSeconds : option longlike; pcs_tags : option (list jsstr) }.

Record MsgUpdateSlotStatus := { us_publisher : jsstr; us_slotId : jsstr; us_status : Z }.
Record PartialUpdateSlotStatus := {
  pus_publisher : option jsstr; pus_slotId : option jsstr; pus_status : option Z }.

Record MsgLeaseSlot := {
  ls_lessee : jsstr; ls_slotId : jsstr; ls_targetUrl : jsstr;
  ls_startsAtUnix : Long; ls_durationSeconds : Long }.
Record PartialLeaseSlot := {
  pls_lessee : option jsstr; pls_slotId : option jsstr; pls_targetUrl : option jsstr;
  pls_startsAtUnix : option longlike; pls_durationSeconds : option longlike }.

Record MsgRegisterPublisher := {
  rp_owner : jsstr; rp_domain : jsstr; rp_metadataUri : jsstr;
  rp_proof : jsstr; rp_verifier : jsstr; rp_referrer : jsstr }.
Record PartialRegisterPublisher := {
  prp_owner : option jsstr; prp_domain : option jsstr; prp_metadataUri : option jsstr;
  prp_proof : option jsstr; prp_verifier : option jsstr; prp_referrer : option jsstr }.

(** * The encoders *)

(** [if (s !== "") writer.uint32(tag).string(s)]. *)
Definition put_str (tag : Z) (s : jsstr) (w : Writer) : Writer :=
  match s with [] => w | _ => w_string (w_uint32 w tag) s end.
(** [if (!l.isZero()) writer.uint32(tag).int64(l)]. *)
Definition put_long (tag : Z) (l : Long) (w : Writer) : Writer :=
  if isZero l then w else w_int64 (w_uint32 w tag) l.
(** [if (n !== 0) writer.uint32(tag).int32(n)]. *)
Definition put_int (tag : Z) (n : Z) (w : Writer) : Writer :=
  if n =? 0 then w else w_int32 (w_uint32 w tag) n.
(** [for (const v of vs) writer.uint32(tag).string(v)]. *)
Definition put_strs (tag : Z) (vs : list jsstr) (w : Writer) : Writer :=
  foldl (λ w v, w_string (w_uint32 w tag) v) w vs.

Definition encode_create_slot (m : MsgCreateSlot) (w : Writer) : Writer :=
  let w := put_str 10 (cs_publisher m) w in
  let w := put_str 18 (cs_domain m) w in
  let w := put_str 26 (cs_label m) w in
  let w := put_str 34 (cs_summary m) w in
  let w := put_str 42 (cs_category m) w in
  let w := put_str 50 (cs_placement m) w in
  let w := put_str 58 (cs_size m) w in
  let w := put_str 66 (cs_rateDenom m) w in
  let w := put_str 74 (cs_rateAmount m) w in
  let w := put_long 80 (cs_unitSeconds m) w in
  let w := put_long 88 (cs_minDurationSeconds m) w in
  let w := put_long 96 (cs_maxDurationSeconds m) w in
  put_strs 106 (cs_tags m) w.

Definition encode_update_slot_status (m : MsgUpdateSlotStatus) (w : Writer) : Writer :=
  let w := put_str 10 (us_publisher m) w in
  let w := put_str 18 (us_slotId m) w in
  put_int 24 (us_status m) w.

Definition encode_lease_slot (m : MsgLeaseSlot) (w : Writer) : Writer :=
  let w := put_str 10 (ls_lessee m) w in
  let w := put_str 18 (ls_slotId m) w in
  let w := put_str 26 (ls_targetUrl m) w in
  let w := put_long 32 (ls_startsAtUnix m) w in
  put_long 40 (ls_durationSeconds m) w.

Definition encode_register_publisher (m : MsgRegisterPublisher) (w : Writer) : Writer :=
  let w := put_str 10 (rp_owner m) w in
  let w := put_str 18 (rp_domain m) w in
  let w := put_str 26 (rp_metadataUri m) w in
  let w := put_str 34 (rp_proof m) w in
  let w := put_str 42 (rp_verifier m) w in
  put_str 50 (rp_referrer m) w.

(** * [fromPartial] *)

(** [x ?? d]. *)
Definition nullish {A} (x : option A) (d : A) : A := default d x.
(** [x !== undefined && x !== null ? Long.fromValue(x) : Long.ZERO]. *)
Definition long_or_zero (x : option longlike) : Long :=
  match x with Some v => fromValue v | None => ZERO end.

Definition from_partial_create_slot (o : PartialCreateSlot) : MsgCreateSlot :=
  {| cs_publisher := nullish (pcs_publisher o) [];
     cs_domain := nullish (pcs_domain o) [];
     cs_label := nullish (pcs_label o) [];
     cs_summary := nullish (pcs_summary o) [];
     cs_category := nullish (pcs_category o) [];
     cs_placement := nullish (pcs_placement o) [];
     cs_size := nullish (pcs_size o) [];
     cs_rateDenom := nullish (pcs_rateDenom o) [];
     cs_rateAmount := nullish (pcs_rateAmount o) [];
     cs_unitSeconds := long_or_zero (pcs_unitSeconds o);
     cs_minDurationSeconds := long_or_zero (pcs_minDurationSeconds o);
     cs_maxDurationSeconds := long_or_zero (pcs_maxDurationSeconds o);
     cs_tags := nullish (pcs_tags o) [] |}.

Definition from_partial_update_slot_status (o : PartialUpdateSlotStatus) : MsgUpdateSlotStatus :=
  {| us_publisher := nullish (pus_publisher o) [];
     us_slotId := nullish (pus_slotId o) [];
     us_status := nullish (pus_status o) 0 |}.

Definition from_partial_lease_slot (o : PartialLeaseSlot) : MsgLeaseSlot :=
  {| ls_lessee := nullish (pls_lessee o) [];
     ls_slotId := nullish (pls_slotId o) [];
     ls_targetUrl := nullish (pls_targetUrl o) [];
     ls_startsAtUnix := long_or_zero (pls_startsAtUnix o);
     ls_durationSeconds := long_or_zero (pls_durationSeconds o) |}.

Definition from_partial_register_publisher (o : PartialRegisterPublisher) : MsgRegisterPublisher :=
  {| rp_owner := nullish (prp_owner o) [];
     rp_domain := nullish (prp_domain o) [];
     rp_metadataUri := nullish (prp_metadataUri o) [];
     rp_proof := nullish (prp_proof o) [];
     rp_verifier := nullish (prp_verifier o) [];
     rp_referrer := nullish (prp_referrer o) [] |}.

(** * The registry of message types *)

(** The [value] of an encode object: what a handler hands to the client. *)
Inductive msg_value : Type :=
| VCreateSlot (o : PartialCreateSlot)
| VUpdateSlotStatus (o : PartialUpdateSlotStatus)
| VLeaseSlot (o : PartialLeaseSlot)
| VRegisterPublisher (o : PartialRegisterPublisher).

Record EncodeObject := { typeUrl : jsstr; value : msg_value }.

(** [fromPartial] reads the fields of whatever object it is given by name; a
    name the object does not have is [undefined]. *)
Definition as_create_slot (v : msg_value) : PartialCreateSlot :=
  let sparse p d := Build_PartialCreateSlot p d None None None None None None None None None None None in
  match v with
  | VCreateSlot o => o
  | VUpdateSlotStatus o => sparse (pus_publisher o) None
  | VLeaseSlot _ => sparse None None
  | VRegisterPublisher o => sparse None (prp_domain o)
  end.
Definition as_update_slot_status (v : msg_value) : PartialUpdateSlotStatus :=
  match v with
  | VCreateSlot o => Build_PartialUpdateSlotStatus (pcs_publisher o) None None
  | VUpdateSlotStatus o => o
  | VLeaseSlot o => Build_PartialUpdateSlotStatus None (pls_slotId o) None
  | VRegisterPublisher _ => Build_PartialUpdateSlotStatus None None None
  end.
Definition as_lease_slot (v : msg_value) : PartialLeaseSlot :=
  match v with
  | VLeaseSlot o => o
  | VUpdateSlotStatus o => Build_PartialLeaseSlot None (pus_slotId o) None None None
  | _ => Build_PartialLeaseSlot None None None None None
  end.
Definition as_register_publisher (v : msg_value) : PartialRegisterPublisher :=
  match v with
  | VRegisterPublisher o => o
  | VCreateSlot o => Build_PartialRegisterPublisher None (pcs_domain o) None None None None
  | _ => Build_PartialRegisterPublisher None None None None None None
  end.

(** A codec as the registry calls it:
    [type.encode(type.fromPartial(value)).finish()]. *)
Definition codec : Type := msg_value → list Z.

Definition codec_create_slot : codec := λ v,
  finish (encode_create_slot (from_partial_create_slot (as_create_slot v)) create).
Definition codec_update_slot_status : codec := λ v,
  finish (encode_update_slot_status (from_partial_update_slot_status (as_update_slot_status v)) create).
Definition codec_lease_slot : codec := λ v,
  finish (encode_lease_slot (from_partial_lease_slot (as_lease_slot v)) create).
Definition codec_register_publisher : codec := λ v,
  finish (encode_register_publisher (from_partial_register_publisher (as_register_publisher v)) create).

(** [Registry] of the bundle (line 1413): a map from type URL to codec, in which
    [register] overwrites.  Its special case for a whole transaction body is
    taken for another type URL than the page's four. *)
Definition registry : Type := list (jsstr * codec).
Definition register (url : jsstr) (c : codec) (r : registry) : registry := (url, c) :: r.
Definition lookup_type (url : jsstr) (r : registry) : option codec :=
  snd <$> head (filter (λ p, p.1 = url) r).
Definition registry_encode (r : registry) (o : EncodeObject) : result jsstr (list Z) :=
  match lookup_type (typeUrl o) r with
  | Some c => Ok (c (value o))
  | None => Err (js "Unregistered type url: " ++ typeUrl o)
  end.

Definition url_create_slot : jsstr := js "/contentgrid.registry.v1.MsgCreateSlot".
Definition url_update_slot_status : jsstr := js "/contentgrid.registry.v1.MsgUpdateSlotStatus".
Definition url_lease_slot : jsstr := js "/contentgrid.registry.v1.MsgLeaseSlot".
Definition url_register_publisher : jsstr := js "/contentgrid.registry.v1.MsgRegisterPublisher".

(** The registrations of [loadWalletDeps], on top of the bundle's
    [defaultRegistryTypes]. *)
Definition page_registry (defaults : registry) : registry :=
  register url_register_publisher codec_register_publisher
    (register url_lease_slot codec_lease_slot
      (register url_update_slot_status codec_update_slot_status
        (register url_create_slot codec_create_slot defaults))).

(** * The messages as the chain decodes them ([tx.proto]) *)

Definition long_of_u64 (v : Z) : Long := fromBits v (v / 4294967296) false.

Definition get_str (n : Z) (fs : list (Z * payload)) : jsstr := utf8_decode (get_bytes n [] fs).
Definition get_int64 (n : Z) (fs : list (Z * payload)) : Long := long_of_u64 (get_varint n 0 fs).
Definition get_int32 (n : Z) (fs : list (Z * payload)) : Z := i32 (get_varint n 0 fs).

Definition decode_create_slot (bs : list Z) : option MsgCreateSlot :=
  fs ← parse bs;
  Some {| cs_publisher := get_str 1 fs; cs_domain := get_str 2 fs; cs_label := get_str 3 fs;
          cs_summary := get_str 4 fs; cs_category := get_str 5 fs; cs_placement := get_str 6 fs;
          cs_size := get_str 7 fs; cs_rateDenom := get_str 8 fs; cs_rateAmount := get_str 9 fs;
          cs_unitSeconds := get_int64 10 fs; cs_minDurationSeconds := get_int64 11 fs;
          cs_maxDurationSeconds := get_int64 12 fs; cs_tags := utf8_decode <$> get_repeated 13 fs |}.

Definition decode_update_slot_status (bs : list Z) : option MsgUpdateSlotStatus :=
  fs ← parse bs;
  Some {| us_publisher := get_str 1 fs; us_slotId := get_str 2 fs; us_status := get_int32 3 fs |}.

Definition decode_lease_slot (bs : list Z) : option MsgLeaseSlot :=
  fs ← parse bs;
  Some {| ls_lessee := get_str 1 fs; ls_slotId := get_str 2 fs; ls_targetUrl := get_str 3 fs;
          ls_startsAtUnix := get_int64 4 fs; ls_durationSeconds := get_int64 5 fs |}.

Definition decode_register_publisher (bs : list Z) : option MsgRegisterPublisher :=
  fs ← parse bs;
  Some {| rp_owner := get_str 1 fs; rp_domain := get_str 2 fs; rp_metadataUri := get_str 3 fs;
          rp_proof := get_str 4 fs; rp_verifier := get_str 5 fs; rp_referrer := get_str 6 fs |}.

(** * What the encoders write, as fields *)

Definition opt_str (k : Z) (s : jsstr) : list (Z * payload) :=
  match s with [] => [] | _ => [(k, PBytes (utf8_write s))] end.
Definition opt_long (k : Z) (l : Long) : list (Z * payload) :=
  if isZero l then [] else [(k, PVarint (long_u64 l))].
Definition opt_int (k n : Z) : list (Z * payload) := if n =? 0 then [] else [(k, PVarint n)].
Definition all_strs (k : Z) (vs : list jsstr) : list (Z * payload) :=
  (λ v, (k, PBytes (utf8_write v))) <$> vs.

(** Strings of code units whose encoding fits a length prefix, and signed longs. *)
Definition str_ok (s : jsstr) : Prop := Forall is_unit s ∧ utf8_length s < 4294967296.
Definition long_ok (l : Long) : Prop := long_wf l ∧ unsigned l = false.

(** [emits fs f]: the writer transformer [f] keeps the promises of the writer
    and appends the encoding of the fields [fs]. *)
Definition emits (fs : list (Z * payload)) (f : Writer → Writer) : Prop :=
  Forall field_ok fs ∧
  ∀ w, writer_ok w → writer_ok (f w) ∧ bytes_of (f w) = bytes_of w ++ mjoin (enc_field <$> fs).

Lemma emits_app fs gs f g : emits fs f → emits gs g → emits (fs ++ gs) (λ w, g (f w)).
Proof.
  intros [Hfs Hf] [Hgs Hg]. split; [by apply Forall_app|]. intros w Hw.
  destruct (Hf w Hw) as [Hw' Hb]. destruct (Hg _ Hw') as [Hw'' Hb'].
  split; [done|]. by rewrite Hb', Hb, fmap_app, join_app, app_assoc.
Qed.

Lemma emits_finish fs f : emits fs f → parse (finish (f create)) = Some fs.
Proof.
  intros [Hfs Hf]. destruct (Hf create create_ok) as [Hw Hb].
  rewrite finish_bytes_of, Hb by done. by apply parse_enc.
Qed.

Lemma bytes_of_uint32 w v : 0 ≤ v < 4294967296 → bytes_of (w_uint32 w v) = bytes_of w ++ varint 10 v.
Proof.
  intros Hv. unfold w_uint32. rewrite bytes_of_push. f_equal. cbn [op_bytes].
  rewrite write_varint32_spec, u32_id by done. apply varint_fuel; lia.
Qed.

Lemma bytes_of_string w s : str_ok s →
  bytes_of (w_string w s) = bytes_of w ++ varint 10 (Z.of_nat (length (utf8_write s))) ++ utf8_write s.
Proof.
  intros [Hs Hl]. unfold w_string. rewrite utf8_write_length. destruct (Z.eqb_spec (utf8_length s) 0) as [E|E].
  - rewrite bytes_of_push, E. cbn. rewrite <- utf8_write_length in E.
    by destruct (utf8_write s).
  - rewrite bytes_of_push, bytes_of_uint32. { by rewrite <- app_assoc. }
    pose proof (utf8_write_length s). lia.
Qed.

Lemma bytes_of_int64 w l : bytes_of (w_int64 w l) = bytes_of w ++ varint 10 (long_u64 l).
Proof.
  unfold w_int64. rewrite bytes_of_push. cbn [op_bytes].
  by rewrite write_varint64_spec, bits_from_long_val by apply bits_from_long_wf.
Qed.

Definition field_no (k : Z) : Prop := 0 < k < 2 ^ 29.

Lemma one_string k v : field_no k → str_ok v → emits [(k, PBytes (utf8_write v))] (λ w, w_string (w_uint32 w (k * 8 + 2)) v).
Proof.
  intros Hk [Hu Hv]. pose proof (utf8_write_length v). unfold field_no in Hk. split.
  { repeat constructor; cbn; lia. }
  intros w Hw. split; [auto with words|].
  rewrite bytes_of_string by done. rewrite bytes_of_uint32 by lia. cbn.
  by rewrite app_nil_r, <- app_assoc.
Qed.

Lemma emits_nil : emits [] (λ w, w).
Proof. split; [done|]. intros w Hw. by rewrite app_nil_r. Qed.

Lemma put_str_emits k tag s : tag = k * 8 + 2 → field_no k → str_ok s → emits (opt_str k s) (put_str tag s).
Proof.
  intros -> Hk Hs. unfold opt_str, put_str. destruct s; [apply emits_nil|]. by apply one_string.
Qed.

Lemma put_strs_emits k tag vs : tag = k * 8 + 2 → field_no k → Forall str_ok vs → emits (all_strs k vs) (put_strs tag vs).
Proof.
  intros -> Hk. unfold put_strs. induction vs as [|v vs IH]; intros Hvs; [apply emits_nil|].
  apply Forall_cons_1 in Hvs as [Hv Hvs].
  apply (emits_app [_] (all_strs k vs) _ _ (one_string k v Hk Hv) (IH Hvs)).
Qed.

Lemma long_u64_range l : 0 ≤ long_u64 l < 2 ^ 64.
Proof.
  unfold long_u64, u32. pose proof (uwrap_range 32 (high l) ltac:(lia)) as H1.
  pose proof (uwrap_range 32 (low l) ltac:(lia)) as H2. rewrite in_u32 in H1, H2. lia.
Qed.

Lemma put_long_emits k tag l : tag = k * 8 → field_no k → emits (opt_long k l) (put_long tag l).
Proof.
  intros -> Hk. unfold opt_long, put_long, field_no in *. destruct (isZero l); [apply emits_nil|]. split.
  { pose proof (long_u64_range l). repeat constructor; cbn; lia. }
  intros w Hw. split; [auto with words|].
  rewrite bytes_of_int64, bytes_of_uint32 by lia. cbn. by rewrite app_nil_r, <- app_assoc.
Qed.

Lemma put_int_emits k tag n : tag = k * 8 → field_no k → 0 ≤ n < 2147483648 → emits (opt_int k n) (put_int tag n).
Proof.
  intros -> Hk Hn. unfold opt_int, put_int, field_no in *. destruct (Z.eqb_spec n 0); [apply emits_nil|]. split.
  { repeat constructor; cbn; lia. }
  intros w Hw. unfold w_int32. destruct (Z.ltb_spec n 0); [lia|]. split; [auto with words|].
  rewrite !bytes_of_uint32 by lia. cbn. by rewrite app_nil_r, <- app_assoc.
Qed.

(** * The accessors on the encoders' fields *)

Lemma get_bytes_app n a fs gs : get_bytes n a (fs ++ gs) = get_bytes n (get_bytes n a fs) gs.
Proof. apply foldl_app. Qed.
Lemma get_varint_app n a fs gs : get_varint n a (fs ++ gs) = get_varint n (get_varint n a fs) gs.
Proof. apply foldl_app. Qed.
Lemma get_repeated_app n fs gs : get_repeated n (fs ++ gs) = get_repeated n fs ++ get_repeated n gs.
Proof. apply omap_app. Qed.

Lemma get_bytes_str n a k s : get_bytes n a (opt_str k s) = if n =? k then match s with [] => a | _ => utf8_write s end else a.
Proof. destruct s; cbn; by destruct (n =? k). Qed.
Lemma get_bytes_long n a k l : get_bytes n a (opt_long k l) = a.
Proof. unfold opt_long. by destruct (isZero l). Qed.
Lemma get_bytes_int n a k i : get_bytes n a (opt_int k i) = a.
Proof. unfold opt_int. by destruct (i =? 0). Qed.
Lemma get_bytes_strs n a k vs : (n =? k) = false → get_bytes n a (all_strs k vs) = a.
Proof. intros E. revert a. induction vs as [|v vs IH]; intros a; cbn; [done|]. rewrite E. apply IH. Qed.

Lemma get_varint_str n a k s : get_varint n a (opt_str k s) = a.
Proof. by destruct s. Qed.
Lemma get_varint_strs n a k vs : get_varint n a (all_strs k vs) = a.
Proof. revert a. induction vs as [|v vs IH]; intros a; cbn; [done|]. apply IH. Qed.
Lemma get_varint_long n a k l :
  get_varint n a (opt_long k l) = if n =? k then if isZero l then a else long_u64 l else a.
Proof. unfold opt_long. destruct (isZero l); cbn; by destruct (n =? k). Qed.
Lemma get_varint_int n a k i :
  get_varint n a (opt_int k i) = if n =? k then if i =? 0 then a else i else a.
Proof. unfold opt_int. destruct (i =? 0); cbn; by destruct (n =? k). Qed.

Lemma get_repeated_str n k s : (n =? k) = false → get_repeated n (opt_str k s) = [].
Proof. intros E. destruct s; cbn; [done|]. by rewrite E. Qed.
Lemma get_repeated_long n k l : get_repeated n (opt_long k l) = [].
Proof. unfold opt_long. by destruct (isZero l). Qed.
Lemma get_repeated_strs k vs : get_repeated k (all_strs k vs) = utf8_write <$> vs.
Proof.
  induction vs as [|v vs IH]; [done|]. cbn. rewrite Z.eqb_refl. cbn. f_equal. apply IH.
Qed.

Create Rewrite HintDb wire.
#[export] Hint Rewrite get_bytes_app get_varint_app get_repeated_app get_bytes_str get_bytes_long
  get_bytes_int get_varint_str get_varint_strs get_varint_long get_varint_int get_repeated_long
  get_repeated_strs : wire.
#[export] Hint Rewrite get_bytes_strs get_repeated_str using reflexivity : wire.

Lemma decode_str_ok s : str_ok s → utf8_decode (match s with [] => [] | _ => utf8_write s end) = s.
Proof. intros [Hs _]. destruct s; [done|]. by apply utf8_decode_write. Qed.

Lemma long_of_u64_ok l : long_ok l → long_of_u64 (if isZero l then 0 else long_u64 l) = l.
Proof.
  intros [[Hl Hh] Hu]. destruct (isZero l) eqn:Hz.
  - unfold isZero in Hz. zb. destruct l as [l h u]; cbn in *. by subst.
  - destruct l as [l h u]; cbn in *. subst u. clear Hz. unfold long_of_u64, long_u64, fromBits; cbn [low high].
    assert (∀ x y, in_s 32 y → u32 x = u32 y → i32 x = y) as Hi.
    { intros x y Hy E. rewrite <- (i32_id y) by done. by apply uwrap_eq_swrap_eq. }
    pose proof (uwrap_range 32 l ltac:(lia)) as H1. pose proof (uwrap_range 32 h ltac:(lia)) as H2.
    fold (u32 l) in *. fold (u32 h) in *. rewrite in_u32 in H1, H2.
    f_equal; apply Hi; try done.
    + unfold u32 at 1, uwrap. rewrite Z.add_comm, Z.mod_add by lia. apply Z.mod_small. lia.
    + rewrite Z.div_add_l, (Z.div_small (u32 l)), Z.add_0_r by lia. apply u32_id. lia.
Qed.

Lemma i32_ok n : 0 ≤ n < 2147483648 → i32 (if n =? 0 then 0 else n) = n.
Proof. intros. destruct (Z.eqb_spec n 0); subst; [done|]. apply i32_id, in_s32. lia. Qed.

Lemma decode_strs_ok vs : Forall str_ok vs → utf8_decode <$> (utf8_write <$> vs) = vs.
Proof.
  induction 1 as [|v vs [Hv _] _ IH]; [done|]. cbn. rewrite utf8_decode_write by done.
  f_equal. exact IH.
Qed.

(** * Well-formed messages *)

Definition create_slot_ok (m : MsgCreateSlot) : Prop :=
  Forall str_ok [cs_publisher m; cs_domain m; cs_label m; cs_summary m; cs_category m; cs_placement m;
                 cs_size m; cs_rateDenom m; cs_rateAmount m] ∧
  Forall long_ok [cs_unitSeconds m; cs_minDurationSeconds m; cs_maxDurationSeconds m] ∧
  Forall str_ok (cs_tags m).
Definition update_slot_status_ok (m : MsgUpdateSlotStatus) : Prop :=
  Forall str_ok [us_publisher m; us_slotId m] ∧ 0 ≤ us_status m < 2147483648.
Definition lease_slot_ok (m : MsgLeaseSlot) : Prop :=
  Forall str_ok [ls_lessee m; ls_slotId m; ls_targetUrl m] ∧
  Forall long_ok [ls_startsAtUnix m; ls_durationSeconds m].
Definition register_publisher_ok (m : MsgRegisterPublisher) : Prop :=
  Forall str_ok [rp_owner m; rp_domain m; rp_metadataUri m; rp_proof m; rp_verifier m; rp_referrer m].

(** Build the field list of an encoder from the [put_*] steps it is made of. *)
Ltac emit_step :=
  match goal with
  | |- emits _ (λ w, put_str ?t ?s (@?f w)) => eapply (emits_app _ _ f (put_str t s))
  | |- emits _ (λ w, put_long ?t ?s (@?f w)) => eapply (emits_app _ _ f (put_long t s))
  | |- emits _ (λ w, put_int ?t ?s (@?f w)) => eapply (emits_app _ _ f (put_int t s))
  | |- emits _ (λ w, put_strs ?t ?s (@?f w)) => eapply (emits_app _ _ f (put_strs t s))
  | |- emits _ (λ w, w) => apply emits_nil
  end.
Ltac split_foralls :=
  repeat match goal with
  | H : Forall _ (_ :: _) |- _ => apply Forall_cons_1 in H as [? H]
  | H : Forall _ [] |- _ => clear H
  end.
Ltac emit_leaf :=
  let go t lem := (let k := eval vm_compute in (t / 8) in apply (lem k)) in
  match goal with
  | |- emits _ (put_str ?t _) => go t put_str_emits
  | |- emits _ (put_long ?t _) => go t put_long_emits
  | |- emits _ (put_int ?t _) => go t put_int_emits
  | |- emits _ (put_strs ?t _) => go t put_strs_emits
  end; solve [reflexivity | split; reflexivity | assumption | lia].

(** Parse what the encoder [enc m] wrote and read its fields back. *)
Ltac roundtrip enc m :=
  let He := fresh in
  eassert (emits _ (enc m)) as He by (unfold enc; repeat emit_step; emit_leaf);
  rewrite (emits_finish _ _ He); clear He; cbn [mbind option_bind];
  unfold get_str, get_int64, get_int32;
  repeat (autorewrite with wire; cbn -[i32 utf8_decode utf8_write long_of_u64 long_u64]);
  rewrite ?decode_str_ok, ?long_of_u64_ok, ?i32_ok, ?decode_strs_ok by assumption;
  by destruct m.

Lemma create_slot_decode m : create_slot_ok m →
  decode_create_slot (finish (encode_create_slot m create)) = Some m.
Proof.
  intros (Hs & Hl & Ht). split_foralls. unfold decode_create_slot. roundtrip encode_create_slot m.
Qed.

Lemma update_slot_status_decode m : update_slot_status_ok m →
  decode_update_slot_status (finish (encode_update_slot_status m create)) = Some m.
Proof.
  intros [Hs Hn]. split_foralls. unfold decode_update_slot_status. roundtrip encode_update_slot_status m.
Qed.

Lemma lease_slot_decode m : lease_slot_ok m →
  decode_lease_slot (finish (encode_lease_slot m create)) = Some m.
Proof.
  intros [Hs Hl]. split_foralls. unfold decode_lease_slot. roundtrip encode_lease_slot m.
Qed.

Lemma register_publisher_decode m : register_publisher_ok m →
  decode_register_publisher (finish (encode_register_publisher m create)) = Some m.
Proof.
  intros Hs. unfold register_publisher_ok in Hs. split_foralls. unfold decode_register_publisher.
  roundtrip encode_register_publisher m.
Qed.

(** * Theorems: what reaches the chain *)

(** C6 (roundtrip).  The bytes the signing client puts into a transaction for a
    slot creation decode, by the field numbers and types of [tx.proto], to
    exactly the message the form handler built; defaults are left out of the
    bytes and come back. *)
Theorem create_slot_roundtrip defs o :
  create_slot_ok (from_partial_create_slot o) →
  ∃ bs, registry_encode (page_registry defs) {| typeUrl := url_create_slot; value := VCreateSlot o |} = Ok bs ∧
        decode_create_slot bs = Some (from_partial_create_slot o).
Proof. intros Ho. eexists. split; [reflexivity|]. by apply create_slot_decode. Qed.

(** The same for a change of slot status. *)
Theorem update_slot_status_roundtrip defs o :
  update_slot_status_ok (from_partial_update_slot_status o) →
  ∃ bs, registry_encode (page_registry defs)
          {| typeUrl := url_update_slot_status; value := VUpdateSlotStatus o |} = Ok bs ∧
        decode_update_slot_status bs = Some (from_partial_update_slot_status o).
Proof. intros Ho. eexists. split; [reflexivity|]. by apply update_slot_status_decode. Qed.

(** The same for a lease, whose start and duration are 64-bit
    integers. *)
Theorem lease_slot_roundtrip defs o :
  lease_slot_ok (from_partial_lease_slot o) →
  ∃ bs, registry_encode (page_registry defs) {| typeUrl := url_lease_slot; value := VLeaseSlot o |} = Ok bs ∧
        decode_lease_slot bs = Some (from_partial_lease_slot o).
Proof. intros Ho. eexists. split; [reflexivity|]. by apply lease_slot_decode. Qed.

(** The same for a publisher registration. *)
Theorem register_publisher_roundtrip defs o :
  register_publisher_ok (from_partial_register_publisher o) →
  ∃ bs, registry_encode (page_registry defs)
          {| typeUrl := url_register_publisher; value := VRegisterPublisher o |} = Ok bs ∧
        decode_register_publisher bs = Some (from_partial_register_publisher o).
Proof. intros Ho. eexists. split; [reflexivity|]. by apply register_publisher_decode. Qed.

(** ** Concrete messages *)

Definition str_okb (s : jsstr) : bool :=
  forallb (λ c, (0 <=? c) && (c <? 65536)) s && (utf8_length s <? 4294967296).
Definition long_okb (l : Long) : bool :=
  (-2147483648 <=? low l) && (low l <? 2147483648) && (-2147483648 <=? high l) && (high l <? 2147483648)
  && negb (unsigned l).

Lemma str_okb_ok s : str_okb s = true → str_ok s.
Proof.
  unfold str_okb, str_ok. intros [Hu Hl]%andb_true_iff. split; [|by apply Z.ltb_lt]. clear Hl.
  induction s as [|c s IH]; constructor; cbn in Hu; zb; [by split|by apply IH].
Qed.
Lemma long_okb_ok l : long_okb l = true → long_ok l.
Proof. unfold long_okb, long_ok, long_wf. intros ?. zb. by rewrite !in_s32. Qed.

Ltac oks := repeat (apply Forall_cons_2; [first [apply str_okb_ok | apply long_okb_ok]; vm_compute; reflexivity|]);
  apply Forall_nil_2.

Definition demo_create_slot : PartialCreateSlot :=
  {| pcs_publisher := Some (js "congrid1alice"); pcs_domain := Some (js "example.com");
     pcs_label := Some [9731; 55357; 56832] (* a snowman and a surrogate pair *); pcs_summary := Some [];
     pcs_category := None; pcs_placement := Some []; pcs_size := Some (js "300x250");
     pcs_rateDenom := Some (js "ucongrid"); pcs_rateAmount := Some (js "250");
     pcs_unitSeconds := Some (LLong (fromBits 3600 0 false)); pcs_minDurationSeconds := None;
     pcs_maxDurationSeconds := Some (LLong (fromBits 0 1 false)); pcs_tags := Some [js "a"; []; js "b"] |}.

Lemma create_slot_roundtrip_witness :
  ∃ bs, registry_encode (page_registry []) {| typeUrl := url_create_slot; value := VCreateSlot demo_create_slot |} = Ok bs ∧
        decode_create_slot bs = Some (from_partial_create_slot demo_create_slot).
Proof. apply (create_slot_roundtrip [] demo_create_slot). split; [oks|split; oks]. Defined.

Definition demo_status : PartialUpdateSlotStatus :=
  {| pus_publisher := Some (js "congrid1alice"); pus_slotId := Some (js "slot-1"); pus_status := Some 2 |}.

Lemma update_slot_status_roundtrip_witness :
  ∃ bs, registry_encode (page_registry [])
          {| typeUrl := url_update_slot_status; value := VUpdateSlotStatus demo_status |} = Ok bs ∧
        decode_update_slot_status bs = Some (from_partial_update_slot_status demo_status).
Proof. apply (update_slot_status_roundtrip [] demo_status). split; [oks|split; vm_compute; done]. Defined.

Definition demo_lease : PartialLeaseSlot :=
  {| pls_lessee := Some (js "congrid1bob"); pls_slotId := Some (js "slot-1"); pls_targetUrl := Some (js "https://b.example");
     pls_startsAtUnix := Some (LLong (fromNumber (JNum false 1999987200 0)));
     pls_durationSeconds := Some (LNum (JNum false 86400 0)) |}.

Lemma lease_slot_roundtrip_witness :
  ∃ bs, registry_encode (page_registry []) {| typeUrl := url_lease_slot; value := VLeaseSlot demo_lease |} = Ok bs ∧
        decode_lease_slot bs = Some (from_partial_lease_slot demo_lease).
Proof. apply (lease_slot_roundtrip [] demo_lease). split; oks. Defined.

Definition demo_register : PartialRegisterPublisher :=
  {| prp_owner := Some (js "congrid1alice"); prp_domain := Some (js "example.com"); prp_metadataUri := Some [];
     prp_proof := None; prp_verifier := Some []; prp_referrer := Some (js "congrid1carol") |}.

Lemma register_publisher_roundtrip_witness :
  ∃ bs, registry_encode (page_registry [])
          {| typeUrl := url_register_publisher; value := VRegisterPublisher demo_register |} = Ok bs ∧
        decode_register_publisher bs = Some (from_partial_register_publisher demo_register).
Proof. apply (register_publisher_roundtrip [] demo_register). unfold register_publisher_ok. oks. Defined.
