(* ===== verification/SiteScripts.v ===== *)
(** The two small scripts of the site: the client-side translation function of
    [src/cmd/congrid-site/static/i18n.js] and the language menu of
    [src/cmd/congrid-site/static/language-menu.js]. *)

From S2P Require Import Prelude JsBase.

(** * [CongridI18n.t] *)

Module I18n.

(** What the page passes as an argument: a string or an integer ([String(x)] is
    applied to it). *)
Inductive jsarg : Type :=
| AStr (s : jsstr)
| ANum (z : Z).

Definition arg_string (a : jsarg) : jsstr :=
  match a with
  | AStr s => s
  | ANum z => int_to_string (round_ratio (z <? 0) (Z.abs z) 1)
  end.

(** The replacement for a placeholder whose digits are [ds]: the comparison
    [index < args.length] reads them as a number, the access [args[index]] as a
    property name, so digits that are not the canonical numeral of an index
    (["00"]) name no element. *)
Definition placeholder (args : list jsarg) (ds : jsstr) : jsstr :=
  if dec_val ds <? Z.of_nat (length args) then
    if bool_decide (ds = dec_print (dec_val ds)) then
      match args !! Z.to_nat (dec_val ds) with
      | Some a => arg_string a
      | None => js "undefined"
      end
    else js "undefined"
  else 123 :: ds ++ [125].

(** [text.replace(/\{(\d+)\}/g, ...)]: one left-to-right pass; what is inserted
    is not scanned again. *)
Fixpoint expand (fuel : nat) (args : list jsarg) (s : jsstr) : jsstr :=
  match fuel, s with
  | S f, c :: r =>
      if c =? 123 then
        match span_digits r with
        | (d :: ds, 125 :: r') => placeholder args (d :: ds) ++ expand f args r'
        | _ => c :: expand f args r
        end
      else c :: expand f args r
  | _, _ => []
  end.

(** Each round consumes a unit, so the length of the text is fuel enough. *)
Definition replace_all (args : list jsarg) (s : jsstr) : jsstr := expand (length s) args s.

(** The catalog holds the own string properties of [window.CongridMessages]. *)
Definition catalog : Type := jsstr → option jsstr.

Definition t (messages : catalog) (message : jsstr) (args : list jsarg) : jsstr :=
  replace_all args (or_default (messages message) message).

(** ** Templates: what [t] computes, for texts made of literals and holes *)

Inductive segment : Type :=
| Lit (s : jsstr)
| Hole (n : nat).

Definition segment_text (g : segment) : jsstr :=
  match g with Lit s => s | Hole n => 123 :: dec_print (Z.of_nat n) ++ [125] end.
Definition segment_fill (args : list jsarg) (g : segment) : jsstr :=
  match g with
  | Lit s => s
  | Hole n => match args !! n with Some a => arg_string a | None => segment_text g end
  end.
Definition plain (g : segment) : Prop := match g with Lit s => 123 ∉ s | Hole _ => True end.
Definition template (gs : list segment) : jsstr := mjoin (segment_text <$> gs).

Lemma span_digits_split s d r : span_digits s = (d, r) → s = d ++ r ∧ Forall (λ c, is_digit c = true) d.
Proof.
  revert d r. induction s as [|c s IH]; intros d r; cbn; [by intros [= <- <-]|].
  destruct (is_digit c) eqn:E; [|by intros [= <- <-]].
  destruct (span_digits s) as [d' r']. destruct (IH _ _ eq_refl) as [-> Hd].
  intros [= <- <-]. split; [done|]. by constructor.
Qed.

Lemma span_digits_app ds c r : Forall (λ c, is_digit c = true) ds → is_digit c = false →
  span_digits (ds ++ c :: r) = (ds, c :: r).
Proof.
  intros Hd Hc. induction Hd as [|x ds Hx _ IH]; cbn; [by rewrite Hc|]. by rewrite Hx, IH.
Qed.

Lemma expand_fuel args f g s : (length s ≤ f)%nat → (length s ≤ g)%nat → expand f args s = expand g args s.
Proof.
  revert g s. induction f as [|f IH]; intros g s Hf Hg.
  { destruct s; cbn in Hf; [|lia]. by destruct g. }
  destruct s as [|c r]; [by destruct g|]. cbn in Hf, Hg. destruct g as [|g]; [lia|]. cbn [expand].
  assert (expand f args r = expand g args r) as Hr by (apply IH; lia).
  destruct (c =? 123); [|by rewrite Hr].
  destruct (span_digits r) as [[|d ds] [|x r']] eqn:E; try by rewrite Hr.
  destruct (span_digits_split _ _ _ E) as [-> _]. rewrite length_app in Hf, Hg. cbn in Hf, Hg.
  assert (expand f args r' = expand g args r') as Hr' by (apply IH; lia).
  repeat case_match; congruence.
Qed.

Lemma replace_lit args c s : c ≠ 123 → replace_all args (c :: s) = c :: replace_all args s.
Proof. intros Hc. unfold replace_all. cbn [length expand]. by destruct (Z.eqb_spec c 123). Qed.

Lemma replace_hole args n s :
  replace_all args (segment_text (Hole n) ++ s) = segment_fill args (Hole n) ++ replace_all args s.
Proof.
  unfold replace_all. cbn [segment_text segment_fill].
  pose proof (dec_print_digits (Z.of_nat n) ltac:(lia)) as Hd.
  pose proof (dec_print_nonempty (Z.of_nat n) ltac:(lia)) as Hne.
  rewrite <- app_comm_cons. cbn [length expand]. rewrite Z.eqb_refl, <- app_assoc. cbn [app].
  rewrite span_digits_app by done. rewrite length_app. cbn [length].
  destruct (dec_print (Z.of_nat n)) as [|d ds] eqn:E; [done|].
  rewrite (expand_fuel args _ (length s)) by (cbn; lia). f_equal.
  unfold placeholder. rewrite <- E, dec_val_print, Nat2Z.id by lia. rewrite bool_decide_true by done.
  destruct (Z.ltb_spec (Z.of_nat n) (Z.of_nat (length args))).
  - by destruct (lookup_lt_is_Some_2 args n ltac:(lia)) as [a ->].
  - by rewrite lookup_ge_None_2 by lia.
Qed.

Lemma replace_template args gs : Forall plain gs →
  replace_all args (template gs) = mjoin (segment_fill args <$> gs).
Proof.
  unfold template. induction 1 as [|g gs Hg _ IH]; [done|]. rewrite !fmap_cons, !mjoin_cons.
  destruct g as [s|n]; [|by rewrite replace_hole, IH].
  cbn [segment_text segment_fill]. cbn in Hg. induction s as [|c s IHs]; [exact IH|].
  rewrite <- !app_comm_cons, replace_lit by set_solver. f_equal. apply IHs. set_solver.
Qed.

Lemma expand_none f s : (length s ≤ f)%nat → expand f [] s = s.
Proof.
  revert s. induction f as [|f IH]; intros [|c r] Hf; cbn in Hf; [done|lia|done|]. cbn [expand].
  rewrite IH by lia. destruct (Z.eqb_spec c 123) as [->|]; [|done].
  destruct (span_digits r) as [[|d ds] [|x r']] eqn:E; try done.
  destruct (span_digits_split _ _ _ E) as [-> Hd]. rewrite length_app in Hf. cbn in Hf.
  rewrite IH by lia. unfold placeholder.
  pose proof (dec_val_nonneg _ Hd).
  destruct (Z.ltb_spec (dec_val (d :: ds)) (Z.of_nat (length (@nil jsarg)))) as [Hlt|_]; [cbn [length] in Hlt; lia|].
  repeat case_match; try done. cbn. by rewrite <- app_assoc.
Qed.

Lemma replace_none s : replace_all [] s = s.
Proof. by apply expand_none. Qed.

(** For a text made of literals without braces and numbered
    placeholders, [t] is the concatenation of the literals and the arguments: a
    placeholder with an argument is replaced by it, one without stays as it is,
    and what an argument contains is not expanded again.  The text is the
    catalog's translation, or the message itself when the catalog has none (or
    an empty one). *)
Theorem translate_template messages message args gs : Forall plain gs →
  or_default (messages message) message = template gs →
  t messages message args = mjoin (segment_fill args <$> gs).
Proof. intros Hg Ht. unfold t. rewrite Ht. by apply replace_template. Qed.

Lemma translate_template_witness :
  t (λ _, Some (js "Conectado: {0} ({7})")) (js "Connected: {0}") [AStr (js "{0}x")] = js "Conectado: {0}x ({7})".
Proof.
  rewrite (translate_template _ _ _ [Lit (js "Conectado: "); Hole 0; Lit (js " ("); Hole 7; Lit (js ")")]);
    [reflexivity | | reflexivity].
  repeat constructor; intros Hin; vm_compute in Hin; repeat (apply elem_of_cons in Hin as [?|Hin]; [discriminate|]);
    by apply elem_of_nil in Hin.
Defined.

(** Translating a text that is already translated, as
    [showFlash] does, changes nothing, unless the text happens to be a key of the
    catalog. *)
Theorem translate_twice messages message args :
  messages (t messages message args) = None →
  t messages (t messages message args) [] = t messages message args.
Proof. intros Hn. unfold t at 1. rewrite Hn. apply replace_none. Qed.

Lemma translate_twice_witness :
  t (λ _, None) (t (λ _, None) (js "Connected: {0}") [AStr (js "{0}")]) [] = js "Connected: {0}".
Proof. rewrite (translate_twice (λ _, None) (js "Connected: {0}") [AStr (js "{0}")]); reflexivity. Defined.
End I18n.

(** * The language menu *)

Module LanguageMenu.

(** The [<details class="language-switch">] element: whether it is open, whether
    it has a [summary], and whether that summary received the focus. *)
Record Menu := { menu_open : bool; has_summary : bool; focused : bool }.

Inductive event : Type :=
| Click (inside : bool)    (* [inside]: languageMenu.contains(event.target) *)
| Keydown (key : jsstr)
| Toggle.                  (* the browser's own handling of a click on the summary *)

Definition on_click (inside : bool) (m : Menu) : Menu :=
  if inside then m else {| menu_open := false; has_summary := has_summary m; focused := focused m |}.

(** [querySelector("summary")] is [null] without a summary: the access throws,
    after the menu has been closed. *)
Definition on_keydown (key : jsstr) (m : Menu) : result jsstr unit * Menu :=
  if bool_decide (key = js "Escape") && menu_open m then
    let closed := {| menu_open := false; has_summary := has_summary m; focused := focused m |} in
    if has_summary m
    then (Ok tt, {| menu_open := false; has_summary := true; focused := true |})
    else (Err (js "TypeError"), closed)
  else (Ok tt, m).

(** [querySelector(".language-switch")] may find no element; then no listener is
    installed. *)
Definition handle (menu : option Menu) (e : event) : option Menu :=
  match menu with
  | None => None
  | Some m =>
      Some match e with
           | Click inside => on_click inside m
           | Keydown key => (on_keydown key m).2
           | Toggle => {| menu_open := negb (menu_open m); has_summary := has_summary m; focused := focused m |}
           end
  end.

(** The menu closes on a click outside it and on Escape, and
    on nothing else of its own: a click inside and any other key leave it as it
    is.  Escape on an open menu moves the focus to its summary. *)
Theorem menu_closing m :
  menu_open (on_click false m) = false ∧ on_click true m = m ∧
  (∀ k, k ≠ js "Escape" → on_keydown k m = (Ok tt, m)) ∧
  menu_open (on_keydown (js "Escape") m).2 = false ∧
  (menu_open m = true → has_summary m = true →
     on_keydown (js "Escape") m = (Ok tt, {| menu_open := false; has_summary := true; focused := true |})).
Proof.
  split; [done|]. split; [done|]. split.
  { intros k Hk. unfold on_keydown. by rewrite bool_decide_false. }
  unfold on_keydown. rewrite bool_decide_true by done. cbn [andb]. split.
  - destruct (menu_open m) eqn:E; [|done]. by destruct (has_summary m).
  - by intros -> ->.
Qed.
End LanguageMenu.
