(* ===== verification/WalletFee.v ===== *)
(** Transaction fees: [GasPrice.fromString], [Decimal] and [calculateFee] of the
    CosmJS code vendored in
    [src/cmd/congrid-site/static/wallet-deps.bundle.mjs] (line 1 for [Decimal]
    and [Uint53], line 1413 for [GasPrice], [calculateFee] and [coins]), with
    which [submitTx] of [wallet.js] prices a transaction.  An error is the
    message of the [Error] thrown. *)

From S2P Require Import Prelude JsBase.

(** * [Uint53] *)

Definition max_safe_integer : Z := 9007199254740991.

(** [new Uint53(x).toString()]: the [Int53] checks, then the sign. *)
Definition uint53_string (x : jsnum) : result jsstr jsstr :=
  match x with
  | JNaN => Err (js "Input is not a number")
  | _ =>
      if negb (num_is_integer x) then Err (js "Input is not an integer")
      else match num_trunc x with
           | Some z =>
               if (z <? - max_safe_integer) || (max_safe_integer <? z)
               then Err (js "Input not in int53 range: " ++ int_to_string x)
               else if z <? 0 then Err (js "Input is negative")
               else Ok (int_to_string x)
           | None => Err (js "Input is not an integer")
           end
  end.

(** * [Decimal] *)

(** [atomics] is a big number; its decimal string is [dec_print]. *)
Record Decimal := { atomics : Z; fractionalDigits : nat }.

Definition is_dot (c : Z) : bool := c =? 46.

(** Index of the first character outside [0-9.], if any. *)
Fixpoint bad_char (i : Z) (s : jsstr) : option Z :=
  match s with
  | [] => None
  | c :: r => if is_digit c || is_dot c then bad_char (i + 1) r else Some i
  end.

(** [s.padEnd(n, "0")]. *)
Definition pad_end (n : nat) (s : jsstr) : jsstr := s ++ repeat 48 (n - length s).

(** [new Decimal(s, digits)]: the string must be one or more digits. *)
Definition new_decimal (s : jsstr) (digits : nat) : result jsstr Decimal :=
  match s with
  | _ :: _ => if forallb is_digit s then Ok {| atomics := dec_val s; fractionalDigits := digits |}
              else Err (js "Invalid string format. Only non-negative integers in decimal representation supported.")
  | [] => Err (js "Invalid string format. Only non-negative integers in decimal representation supported.")
  end.

(** The whole and the fractional part of an input that is made of digits and
    dots. *)
Definition split_input (s : jsstr) : result jsstr (jsstr * jsstr) :=
  match s with
  | [] => Ok (js "0", [])
  | _ =>
      if forallb (λ c, negb (is_dot c)) s then Ok (s, [])
      else match split_on 46 s with
           | [a; b] => match b with
                       | [] => Err (js "Fractional part missing")
                       | _ => Ok (a, strip_trailing_zeros b)
                       end
           | [] | [_] => Err (js "Fewer than two elements in split result. This must not happen here.")
           | _ => Err (js "More than one separator found")
           end
  end.

Definition fromUserInput (s : jsstr) (digits : nat) : result jsstr Decimal :=
  if (100 <? digits)%nat then Err (js "Fractional digits must not exceed 100")
  else match bad_char 0 s with
       | Some i => Err (js "Invalid character at position " ++ dec_print (i + 1))
       | None =>
           '(c, l) ← split_input s;
           if (digits <? length l)%nat then Err (js "Got more fractional digits than supported")
           else new_decimal (c ++ pad_end digits l) digits
       end.

Definition multiply (d : Decimal) (n : jsstr) : result jsstr Decimal :=
  new_decimal (dec_print (atomics d * dec_val n)) (fractionalDigits d).

Definition ceil (d : Decimal) : result jsstr Decimal :=
  let t := 10 ^ Z.of_nat (fractionalDigits d) in
  let i := atomics d / t in
  if atomics d mod t =? 0 then new_decimal (dec_print (atomics d)) (fractionalDigits d)
  else new_decimal (dec_print ((i + 1) * t)) (fractionalDigits d).

Definition pad_start (n : nat) (s : jsstr) : jsstr := repeat 48 (n - length s) ++ s.

Definition decimal_string (d : Decimal) : jsstr :=
  let t := 10 ^ Z.of_nat (fractionalDigits d) in
  let i := atomics d / t in
  let f := atomics d mod t in
  if f =? 0 then dec_print i
  else dec_print i ++ js "." ++ strip_trailing_zeros (pad_start (fractionalDigits d) (dec_print f)).

(** * [GasPrice] and [calculateFee] *)

Record GasPrice := { price : Decimal; denom : jsstr }.

Definition is_alpha (c : Z) : bool := (97 <=? c) && (c <=? 122) || (65 <=? c) && (c <=? 90).
(** [a-zA-Z0-9/:._-] *)
Definition is_denom_char (c : Z) : bool :=
  is_alpha c || is_digit c || (c =? 47) || (c =? 58) || (c =? 46) || (c =? 95) || (c =? 45).

Fixpoint span_amount (s : jsstr) : jsstr * jsstr :=
  match s with
  | c :: r => if is_digit c || is_dot c then let '(a, b) := span_amount r in (c :: a, b) else ([], s)
  | [] => ([], [])
  end.

(** The match of the code's pattern: one or more of [0-9.], a letter, then
    denomination characters to the end.  The two classes at the boundary are
    disjoint, so the greedy split is the only one. *)
Definition match_gas_price (s : jsstr) : option (jsstr * jsstr) :=
  match span_amount s with
  | ((_ :: _) as a, c :: r) => if is_alpha c && forallb is_denom_char r then Some (a, c :: r) else None
  | _ => None
  end.

Definition gas_price_from_string (s : jsstr) : result jsstr GasPrice :=
  match match_gas_price s with
  | None => Err (js "Invalid gas price string")
  | Some (a, d) =>
      if (length d <? 3)%nat || (128 <? length d)%nat
      then Err (js "Denom must be between 3 and 128 characters")
      else q ← fromUserInput a 18; Ok {| price := q; denom := d |}
  end.

Record Coin := { coin_amount : jsstr; coin_denom : jsstr }.
Record StdFee := { fee_amount : list Coin; fee_gas : jsstr }.

(** [coin(amount, denom)] for a string amount; leading zeros are dropped. *)
Definition make_coin (a d : jsstr) : result jsstr Coin :=
  match a with
  | _ :: _ => if forallb is_digit a
              then Ok {| coin_amount := match strip_zeros_rev a with [] => js "0" | s => s end; coin_denom := d |}
              else Err (js "Invalid unsigned integer string format")
  | [] => Err (js "Invalid unsigned integer string format")
  end.

Definition calculateFee (gasLimit : jsnum) (p : GasPrice) : result jsstr StdFee :=
  n ← uint53_string gasLimit;
  m ← multiply (price p) n;
  c ← ceil m;
  coin ← make_coin (decimal_string c) (denom p);
  Ok {| fee_amount := [coin]; fee_gas := int_to_string gasLimit |}.

(** * What they compute *)

Lemma new_decimal_print z n : 0 ≤ z → new_decimal (dec_print z) n = Ok {| atomics := z; fractionalDigits := n |}.
Proof.
  intros Hz. unfold new_decimal. pose proof (dec_print_nonempty z Hz).
  pose proof (dec_print_digits z Hz) as Hd. apply forallb_Forall in Hd.
  destruct (dec_print z) eqn:E; [done|]. rewrite Hd, <- E. by rewrite dec_val_print.
Qed.

Lemma strip_zeros_print z : 0 ≤ z → match strip_zeros_rev (dec_print z) with [] => js "0" | s => s end = dec_print z.
Proof.
  intros Hz. destruct (decide (z = 0)) as [->|]; [done|].
  destruct (dec_print_head z ltac:(lia)) as (c & r & -> & Hc). cbn.
  destruct c as [|p|p]; try lia. by repeat (destruct p as [p|p|]; try done; try lia).
Qed.

(** The price per unit of gas is [atomics / 10^18]. *)
Definition ceil_div (a b : Z) : Z := (a + b - 1) / b.

Definition price_ok (p : GasPrice) : Prop := 0 ≤ atomics (price p) ∧ fractionalDigits (price p) = 18%nat.

Lemma ceil_div_spec a b : 0 < b → ceil_div a b = if a mod b =? 0 then a / b else a / b + 1.
Proof.
  intros Hb. unfold ceil_div. destruct (Z.eqb_spec (a mod b) 0); Z.to_euclidean_division_equations; nia.
Qed.

(** A number that holds the integer [z]. *)
Definition holds_int (x : jsnum) (z : Z) : Prop := num_is_integer x = true ∧ num_trunc x = Some z.

Lemma int_to_string_holds x z : holds_int x z → 0 ≤ z ≤ max_safe_integer → int_to_string x = dec_print z.
Proof.
  intros [_ Ht] Hz. unfold int_to_string. rewrite Ht. destruct (Z.eqb_spec z 0) as [->|]; [done|].
  destruct (Z.ltb_spec z 0); [lia|]. apply int_to_string_pos_exact. unfold max_safe_integer in *. lia.
Qed.

Lemma uint53_holds x z : holds_int x z → 0 ≤ z ≤ max_safe_integer → uint53_string x = Ok (dec_print z).
Proof.
  intros Hx Hz. rewrite <- (int_to_string_holds x z) by done. destruct Hx as [Hi Ht].
  unfold uint53_string. rewrite Hi, Ht. cbn [negb].
  destruct (Z.ltb_spec z (- max_safe_integer)); [lia|].
  destruct (Z.ltb_spec max_safe_integer z); [lia|]. destruct (Z.ltb_spec z 0); [lia|].
  by destruct x.
Qed.

Lemma ceil_ok d : 0 ≤ atomics d →
  ∃ c, ceil d = Ok c ∧ decimal_string c = dec_print (ceil_div (atomics d) (10 ^ Z.of_nat (fractionalDigits d))).
Proof.
  intros Hd. assert (0 < 10 ^ Z.of_nat (fractionalDigits d)) as Ht by (apply Z.pow_pos_nonneg; lia).
  unfold ceil. rewrite ceil_div_spec by done.
  set (t := 10 ^ Z.of_nat (fractionalDigits d)) in *.
  pose proof (Z.div_pos (atomics d) t Hd Ht).
  destruct (Z.eqb_spec (atomics d mod t) 0) as [E|E]; rewrite new_decimal_print by lia; eexists;
    (split; [reflexivity|]); unfold decimal_string; cbn [atomics fractionalDigits]; fold t.
  - by rewrite E.
  - by rewrite Z_mod_mult, Z_div_mult by lia.
Qed.

Lemma calculateFee_holds x g p : holds_int x g → 0 ≤ g ≤ max_safe_integer → price_ok p →
  calculateFee x p =
  Ok {| fee_amount := [{| coin_amount := dec_print (ceil_div (atomics (price p) * g) (10 ^ 18));
                          coin_denom := denom p |}];
        fee_gas := dec_print g |}.
Proof.
  intros Hx Hg [Ha Hf]. unfold calculateFee. rewrite (uint53_holds x g) by done. cbn [mbind result_bind].
  unfold multiply. rewrite dec_val_print, new_decimal_print by lia. cbn [mbind result_bind].
  edestruct ceil_ok as (c & -> & Hs); [|cbn [mbind result_bind]; rewrite Hs; cbn [atomics fractionalDigits]].
  { cbn. lia. }
  rewrite Hf. change (Z.of_nat 18) with 18.
  assert (0 ≤ ceil_div (atomics (price p) * g) (10 ^ 18)) as Hc.
  { apply Z.div_pos; lia. }
  clear Hs. rewrite (int_to_string_holds x g) by done.
  pose proof (dec_print_nonempty _ Hc) as Hn. pose proof (strip_zeros_print _ Hc) as Hz.
  pose proof (dec_print_digits _ Hc) as Hd. apply forallb_Forall in Hd. revert Hn Hz Hd.
  generalize (dec_print (ceil_div (atomics (price p) * g) (10 ^ 18))) as a. intros [|d a] Hn Hz Hd; [done|].
  unfold make_coin. by rewrite Hd, Hz.
Qed.

(** ** Reading a gas price *)

Definition digits (s : jsstr) : Prop := Forall (λ c, is_digit c = true) s.

Lemma dec_val_app a b : dec_val (a ++ b) = dec_val a * 10 ^ Z.of_nat (length b) + dec_val b.
Proof.
  induction b as [|c b IH] using rev_ind.
  - rewrite app_nil_r. cbn. lia.
  - rewrite app_assoc, !dec_val_snoc, IH, length_app. cbn [length].
    replace (Z.of_nat (length b + 1)) with (Z.of_nat (length b) + 1) by lia.
    rewrite Z.pow_add_r by lia. lia.
Qed.

Lemma dec_val_zeros k : dec_val (repeat 48 k) = 0.
Proof. induction k as [|k IH]; [done|]. cbn [repeat]. by rewrite repeat_cons, dec_val_snoc, IH. Qed.

Lemma digits_zeros k : digits (repeat 48 k).
Proof. induction k; cbn; [constructor|by constructor]. Qed.

Lemma span_amount_app a c r : Forall (λ c, is_digit c || is_dot c = true) a → is_digit c || is_dot c = false →
  span_amount (a ++ c :: r) = (a, c :: r).
Proof. intros Ha Hc. induction Ha as [|x a Hx _ IH]; cbn; [by rewrite Hc|]. by rewrite Hx, IH. Qed.

Lemma bad_char_none i a : Forall (λ c, is_digit c || is_dot c = true) a → bad_char i a = None.
Proof. intros Ha. revert i. induction Ha as [|x a Hx _ IH]; intros i; cbn; [done|]. by rewrite Hx. Qed.

Lemma alpha_not_amount c : is_alpha c = true → is_digit c || is_dot c = false.
Proof. unfold is_alpha, is_digit, is_dot. lia. Qed.

Lemma digit_amount a : digits a → Forall (λ c, is_digit c || is_dot c = true) a.
Proof. unfold digits. induction 1 as [|c a Hc]; constructor; [by rewrite Hc|done]. Qed.

Lemma split_digits a : digits a → split_on 46 a = [a].
Proof.
  induction 1 as [|c a Hc _ IH]; [done|]. cbn. apply is_digit_iff in Hc.
  destruct (Z.eqb_spec c 46); [lia|]. by rewrite IH.
Qed.

Lemma split_dot a b : digits a → digits b → split_on 46 (a ++ 46 :: b) = [a; b].
Proof.
  induction 1 as [|c a Hc _ IH]; intros Hb; cbn.
  - by rewrite split_digits.
  - apply is_digit_iff in Hc. destruct (Z.eqb_spec c 46); [lia|]. by rewrite IH.
Qed.

Lemma forallb_dot a b : forallb (λ c, negb (is_dot c)) (a ++ 46 :: b) = false.
Proof. induction a as [|c a IH]; [done|]. cbn. rewrite IH. apply andb_false_r. Qed.

Lemma split_input_dot a b : digits a → digits b → b ≠ [] → split_input (a ++ 46 :: b) = Ok (a, strip_trailing_zeros b).
Proof.
  intros Ha Hb Hne. unfold split_input. destruct (a ++ 46 :: b) eqn:E; [by destruct a|].
  rewrite <- E, forallb_dot, split_dot by done. by destruct b.
Qed.

(** Padding the stripped fraction to 18 digits keeps its value. *)
Lemma pad_strip_val n b k : b = strip_trailing_zeros b ++ repeat 48 k → (length (strip_trailing_zeros b) ≤ n)%nat →
  dec_val (pad_end n (strip_trailing_zeros b)) * 10 ^ Z.of_nat (length b) = dec_val b * 10 ^ Z.of_nat n ∧
  length (pad_end n (strip_trailing_zeros b)) = n.
Proof.
  intros Hb Hl. set (s := strip_trailing_zeros b) in *. unfold pad_end. rewrite length_app, repeat_length.
  split; [|lia]. rewrite Hb, length_app, repeat_length, !dec_val_app, !dec_val_zeros, !repeat_length, !Z.add_0_r.
  rewrite <- !Z.mul_assoc, <- !Z.pow_add_r by lia. f_equal. f_equal. lia.
Qed.

(** * Theorems *)

(** C39 (functional).  The fee of a transaction is the gas price times the gas
    limit, rounded up to a whole unit of the price's denomination; the gas limit
    is passed on in decimal.  The price is held with 18 decimals. *)
Theorem fee_is_price_times_gas x g p : holds_int x g → 0 ≤ g ≤ max_safe_integer → price_ok p →
  ∃ fee, calculateFee x p = Ok fee ∧ fee_gas fee = dec_print g ∧
    ∃ amount, fee_amount fee = [{| coin_amount := dec_print amount; coin_denom := denom p |}] ∧
      (amount - 1) * 10 ^ 18 < atomics (price p) * g ≤ amount * 10 ^ 18.
Proof.
  intros Hx Hg Hp. eexists. split; [by apply calculateFee_holds|]. split; [done|].
  eexists. split; [done|]. unfold ceil_div. Z.to_euclidean_division_equations; lia.
Qed.

Lemma fee_is_price_times_gas_witness :
  ∃ fee, calculateFee (JNum false 220001 0) {| price := {| atomics := 10 ^ 15; fractionalDigits := 18 |}; denom := js "ucongrid" |}
         = Ok fee ∧ fee_gas fee = dec_print 220001.
Proof.
  destruct (fee_is_price_times_gas (JNum false 220001 0) 220001
    {| price := {| atomics := 10 ^ 15; fractionalDigits := 18 |}; denom := js "ucongrid" |})
    as (fee & E & Hg & _).
  - split; reflexivity.
  - split; vm_compute; discriminate.
  - split; [vm_compute; discriminate|reflexivity].
  - exists fee. split; assumption.
Defined.

(** A gas price written with a decimal point is read
    exactly: [atomics / 10^18] is the rational the digits denote.  The fraction
    may have any number of trailing zeros, up to 18 significant digits; the
    denomination is taken as it is. *)
Theorem gas_price_exact ip fp d : digits ip → digits fp → fp ≠ [] →
  (length (strip_trailing_zeros fp) ≤ 18)%nat → (3 ≤ length d ≤ 128)%nat →
  match d with c :: r => is_alpha c = true ∧ Forall (λ c, is_denom_char c = true) r | [] => False end →
  ∃ p, gas_price_from_string (ip ++ 46 :: fp ++ d) = Ok p ∧ denom p = d ∧ price_ok p ∧
       atomics (price p) * 10 ^ Z.of_nat (length fp) = dec_val (ip ++ fp) * 10 ^ 18.
Proof.
  intros Hi Hf Hne Hl Hd Hc. destruct d as [|c r]; [done|]. destruct Hc as [Hc Hr].
  assert (Forall (λ c, is_digit c || is_dot c = true) (ip ++ 46 :: fp)) as Ham.
  { apply Forall_app; split; [by apply digit_amount|]. constructor; [done|]. by apply digit_amount. }
  assert (match_gas_price (ip ++ 46 :: fp ++ c :: r) = Some (ip ++ 46 :: fp, c :: r)) as Hm.
  { unfold match_gas_price. rewrite app_comm_cons, app_assoc, span_amount_app by (done || by apply alpha_not_amount).
    apply forallb_Forall in Hr. destruct ip; cbn [app]; by rewrite Hc, Hr. }
  unfold gas_price_from_string. rewrite Hm. cbn [length] in Hd |- *.
  destruct (Nat.ltb_spec (S (length r)) 3); [lia|]. destruct (Nat.ltb_spec 128 (S (length r))); [lia|].
  cbn [orb]. unfold fromUserInput. change (100 <? 18)%nat with false. cbv iota. rewrite bad_char_none, split_input_dot by done.
  cbn [mbind result_bind].
  destruct (Nat.ltb_spec 18 (length (strip_trailing_zeros fp))); [lia|].
  destruct (strip_zeros_split fp) as [k Hk]. destruct (pad_strip_val 18 fp k Hk Hl) as [Hv Hlen].
  assert (digits (ip ++ pad_end 18 (strip_trailing_zeros fp))) as Hdig.
  { apply Forall_app; split; [done|]. unfold pad_end. apply Forall_app. split.
    - rewrite Hk in Hf. by apply Forall_app in Hf as [? _].
    - apply digits_zeros. }
  unfold new_decimal. apply forallb_Forall in Hdig.
  destruct (ip ++ pad_end 18 _) eqn:E; [by apply (f_equal length) in E; rewrite length_app, Hlen in E; cbn in E; lia|].
  rewrite Hdig, <- E. eexists. split; [reflexivity|]. cbn. split; [done|].
  rewrite !dec_val_app, Hlen. split; [split; [|done]|rewrite Z.mul_add_distr_r, Hv; cbn; lia].
  apply forallb_Forall in Hdig. rewrite <- E in Hdig. apply Forall_app in Hdig as [Hd1 Hd2].
  pose proof (dec_val_nonneg _ Hd1). pose proof (dec_val_nonneg _ Hd2). cbn. lia.
Qed.

Lemma gas_price_exact_witness :
  ∃ p, gas_price_from_string (js "0.00250ucongrid") = Ok p ∧ atomics (price p) * 10 ^ 5 = 250 * 10 ^ 18.
Proof.
  destruct (gas_price_exact (js "0") (js "00250") (js "ucongrid")) as (p & E & _ & _ & Ha);
    [repeat constructor | repeat constructor | discriminate | vm_compute; lia | vm_compute; lia
     | split; [reflexivity | repeat constructor] | ].
  exists p. split; [exact E | exact Ha].
Defined.

(** A gas limit that is not a safe non-negative integer is refused
    before any fee is computed. *)
Theorem fee_rejects_bad_gas x p :
  (∀ g, holds_int x g → g < 0 ∨ max_safe_integer < g) →
  ∃ e, calculateFee x p = Err e.
Proof.
  intros Hx. unfold calculateFee.
  enough (∃ e, uint53_string x = Err e) as [e ->] by by eexists.
  unfold uint53_string. destruct (num_is_integer x) eqn:Hi; [|by destruct x; eauto].
  destruct (num_trunc x) as [z|] eqn:Ht; [|by destruct x; eauto].
  specialize (Hx z (conj Hi Ht)). cbn [negb]. destruct x; [by eauto..|].
  destruct ((z <? - max_safe_integer) || (max_safe_integer <? z)) eqn:E; [by eauto|]. zb.
  destruct (Z.ltb_spec z 0); [by eauto|lia].
Qed.

Lemma fee_rejects_bad_gas_witness :
  ∃ e, calculateFee (JNum true 1 0) {| price := {| atomics := 0; fractionalDigits := 18 |}; denom := [] |} = Err e.
Proof. apply fee_rejects_bad_gas. intros g [_ [= <-]]. left. reflexivity. Defined.
