(* ===== verification/WalletPure.v ===== *)
(** The pure helpers of [src/cmd/congrid-site/static/wallet.js]: the page
    configuration, error values, [dependencyLoadMessage],
    [isLikelyGridAddress], [toHttpRPC], [defaultRestFromRPC], the chain
    description given to the wallet extension, and [parseStartDate] with the
    [Date.UTC] arithmetic it relies on. *)

From S2P Require Import Prelude JsBase JsLong SiteScripts WalletMsgs.

(** * The page's constants *)

(** [window.CongridConfig].  Every use of a field is of the form [x || d] or
    [!x], so a missing field is the empty string, zero or [false]. *)
Record Config := {
  enabled : bool; chain_id : jsstr; rpc : jsstr; rest : jsstr; fee_denom : jsstr;
  gas_price : jsstr; slot_rate_denom : jsstr; slot_unit_seconds : jsnum;
  slot_min_duration_seconds : jsnum; slot_max_duration_seconds : jsnum;
  gas_create_slot : jsnum; gas_update_slot : jsnum; gas_lease_slot : jsnum }.

(** The browser's [URL] class, as [defaultRestFromRPC] uses it. *)
Record UrlApi := {
  url : Type;
  new_URL : jsstr → option url;        (* [None]: the constructor throws *)
  url_port : url → jsstr;
  url_set_port : url → jsstr → url;
  url_to_string : url → jsstr }.

(** What a page is given: its message catalog, its configuration, the URL class. *)
Class PageEnv := {
  env_unicode :: JsUnicode;
  messages : I18n.catalog;
  config : Config;
  url_api : UrlApi }.

(** [x || d] on strings and on numbers. *)
Definition str_or (x d : jsstr) : jsstr := or_default (Some x) d.
Definition num_or (x d : jsnum) : jsnum :=
  match x with JNaN => d | _ => if num_is_zero x then d else x end.
Definition num_of_Z (z : Z) : jsnum := round_ratio (z <? 0) (Z.abs z) 1.

(** * Thrown values *)

(** A value that was thrown: an [Error] of the page, another value with its
    [message] property (if it has one) and its string, or null/undefined. *)
Inductive thrown : Type :=
| TError (message : jsstr)
| TValue (message : option jsstr) (str : jsstr)
| TNullish (str : jsstr).

Definition err_string (e : thrown) : jsstr :=
  match e with
  | TError [] => js "Error"
  | TError m => js "Error: " ++ m
  | TValue _ s => s
  | TNullish s => s
  end.
(** [err?.message]. *)
Definition err_message (e : thrown) : option jsstr :=
  match e with TError m => Some m | TValue m _ => m | TNullish _ => None end.
(** [err?.message || String(err)]. *)
Definition err_text (e : thrown) : jsstr := or_default (err_message e) (err_string e).

Section Pure.
Context `{PageEnv}.

Definition t (message : jsstr) (args : list I18n.jsarg) : jsstr := I18n.t messages message args.
(** [new Error(t(message))]. *)
Definition error_t (message : jsstr) : thrown := TError (t message []).

Definition dependencyLoadMessage (err : thrown) : jsstr :=
  let message := err_text err in
  let lowered := toLowerCase message in
  if includes lowered (js "failed to fetch dynamically imported module")
     || includes lowered (js "error loading dynamically imported module")
     || includes lowered (js "importing a module script failed")
  then t (js "Wallet transaction support failed to load. Check your network, disable blocking extensions for this site, and retry.") []
  else message.
End Pure.

(** [/^congrid1[0-9a-z]+$/]. *)
Definition grid_pattern (s : jsstr) : bool :=
  starts_with (js "congrid1") s &&
  match drop 8 s with [] => false | r => forallb is_lower_alnum r end.

Definition isLikelyGridAddress (address : jsstr) : bool :=
  let value := trim address in
  grid_pattern value && (20 <=? length value)%nat && (length value <=? 90)%nat.

Definition toHttpRPC (rpc : jsstr) : jsstr :=
  let raw := trim rpc in
  match raw with
  | [] => []
  | _ => if starts_with (js "tcp://") raw then js "http://" ++ drop 6 raw else raw
  end.

(** [s.replace(/\/$/, "")]. *)
Definition strip_slash (s : jsstr) : jsstr :=
  match rev s with 47 :: r => rev r | _ => s end.

Definition defaultRestFromRPC `{PageEnv} (rpc : jsstr) : jsstr :=
  match new_URL url_api (toHttpRPC rpc) with
  | Some u =>
      let u := if bool_decide (url_port url_api u = js "26657")
               then url_set_port url_api u (js "1317") else u in
      strip_slash (url_to_string url_api u)
  | None => js "http://127.0.0.1:1317"
  end.

(** * The chain description *)

Record Currency := { coinDenom : jsstr; coinMinimalDenom : jsstr; coinDecimals : Z }.

(** The parts of [chainInfo] that depend on the configuration; the address
    prefixes and gas price steps are literals. *)
Record ChainInfo := {
  ci_chainId : jsstr; ci_chainName : jsstr; ci_rpc : jsstr; ci_rest : jsstr; ci_coinType : Z;
  ci_bech32 : list (jsstr * jsstr);
  ci_stakeCurrency : Currency; ci_currencies : list Currency;
  ci_feeCurrencies : list (Currency * (jsnum * jsnum * jsnum)) }.

Definition bech32Config : list (jsstr * jsstr) :=
  [(js "bech32PrefixAccAddr", js "congrid"); (js "bech32PrefixAccPub", js "congridpub");
   (js "bech32PrefixValAddr", js "congridvaloper"); (js "bech32PrefixValPub", js "congridvaloperpub");
   (js "bech32PrefixConsAddr", js "congridvalcons"); (js "bech32PrefixConsPub", js "congridvalconspub")].

(** [None]: the configuration names no chain, nothing is suggested. *)
Definition chain_info `{PageEnv} : option ChainInfo :=
  let chainId := trim (chain_id config) in
  match chainId with
  | [] => None
  | _ =>
      let feeDenom := str_or (trim (str_or (fee_denom config) (js "ucongrid"))) (js "ucongrid") in
      let currency := {| coinDenom := js "CONGRID"; coinMinimalDenom := feeDenom; coinDecimals := 6 |} in
      Some {| ci_chainId := chainId;
              ci_chainName := js "Congrid (" ++ chainId ++ js ")";
              ci_rpc := toHttpRPC (rpc config);
              ci_rest := trim (str_or (rest config) (defaultRestFromRPC (rpc config)));
              ci_coinType := 118;
              ci_bech32 := bech32Config;
              ci_stakeCurrency := currency;
              ci_currencies := [currency];
              ci_feeCurrencies :=
                [(currency, (to_number (js "0.001"), to_number (js "0.0025"), to_number (js "0.004")))] |}
  end.

(** * Dates *)

(** [x + k] on numbers: the exact sum, rounded. *)
Definition num_add_int (x : jsnum) (k : Z) : jsnum :=
  match x with
  | JNum neg m e =>
      let s := if neg then - m else m in
      let '(n, d) := if 0 <=? e then (s * 2 ^ e + k, 1) else (s + k * 2 ^ (- e), 2 ^ (- e)) in
      round_ratio (n <? 0) (Z.abs n) d
  | _ => x
  end.

(** Days since the epoch of the first of January of year [y] (any integer). *)
Definition day_from_year (y : Z) : Z :=
  365 * (y - 1970) + (y - 1969) / 4 - (y - 1901) / 100 + (y - 1601) / 400.

Definition is_leap (y : Z) : bool :=
  (y mod 4 =? 0) && (negb (y mod 100 =? 0) || (y mod 400 =? 0)).

(** Days of the year before month [m] (0..11). *)
Definition day_of_month (leap : bool) (m : Z) : Z :=
  let l := if leap then 1 else 0 in
  match m with
  | 0 => 0 | 1 => 31 | 2 => 59 + l | 3 => 90 + l | 4 => 120 + l | 5 => 151 + l | 6 => 181 + l
  | 7 => 212 + l | 8 => 243 + l | 9 => 273 + l | 10 => 304 + l | _ => 334 + l
  end.

(** [MakeDay] on integers. *)
Definition make_day (y m d : Z) : Z :=
  let ym := y + m / 12 in
  let mn := m mod 12 in
  day_from_year ym + day_of_month (is_leap ym) mn + d - 1.

Definition ms_per_day : Z := 86400000.
Definition max_time : Z := 8640000000000000.

(** [Date.UTC(year, month, day, 0, 0, 0, 0)]; [None] is NaN.  Within
    [max_time] every intermediate integer is below 2^53, hence exact; beyond it
    the result is NaN in any case. *)
Definition date_utc (year month day : jsnum) : option Z :=
  y ← num_trunc year;
  m ← num_trunc month;
  d ← num_trunc day;
  let yr := if (0 <=? y) && (y <=? 99) then 1900 + y else y in
  let t := make_day yr m d * ms_per_day in
  if Z.abs t <=? max_time then Some t else None.

(** [now] is [Date.now()].  The quotient of integers below 2^53 by 1000 is at
    least a thousandth away from the next integer, more than half a unit in the
    last place, so [Math.floor] of the rounded quotient is the integer quotient. *)
Definition parseStartDate `{PageEnv} (now : Z) (value : jsstr) : result thrown Z :=
  match value with
  | [] => Ok 0
  | _ =>
      match split_on 45 value with
      | [p0; p1; p2] =>
          let year := to_number p0 in
          let month := num_add_int (to_number p1) (-1) in
          let day := to_number p2 in
          match date_utc year month day with
          | None => Err (error_t (js "Invalid start date."))
          | Some startMs =>
              if startMs <? now - 24 * 60 * 60 * 1000
              then Err (error_t (js "Start date must be today or later."))
              else
                let effectiveMs := if startMs <? now then now + 5 * 60 * 1000 else startMs in
                Ok (effectiveMs / 1000)
          end
      | _ => Err (error_t (js "Invalid start date."))
      end
  end.

(** * Theorems on the helpers *)

Lemma starts_with_spec p s : starts_with p s = true ↔ ∃ r, s = p ++ r.
Proof.
  revert s. induction p as [|c p IH]; intros s; cbn; [by split; eauto|].
  destruct s as [|d s]; [split; [done|by intros [? ?]]|].
  rewrite andb_true_iff, Z.eqb_eq, IH. split.
  - intros [-> [r ->]]. by exists r.
  - intros [r [= -> ->]]. split; [done|by exists r].
Qed.

(** The referrer check accepts exactly the strings that are,
    without surrounding white space, [congrid1] followed by one or more lower
    case letters or digits, 20 to 90 characters in all. *)
Theorem grid_address_spec a : isLikelyGridAddress a = true ↔
  ∃ r, trim a = js "congrid1" ++ r ∧ r ≠ [] ∧ Forall (λ c, is_lower_alnum c = true) r ∧
       (20 ≤ length (trim a) ≤ 90)%nat.
Proof.
  unfold isLikelyGridAddress, grid_pattern. rewrite !andb_true_iff, !Nat.leb_le, starts_with_spec. split.
  - intros [[[[r Hr] Hd] Hl] Hu]. exists r. rewrite Hr in Hd. change 8%nat with (length (js "congrid1")) in Hd.
    rewrite drop_app_length in Hd. split; [done|]. destruct r as [|c r]; [done|].
    apply forallb_Forall in Hd. by repeat split.
  - intros (r & Hr & Hne & Hf & Hl & Hu). repeat split; [by exists r| |done..].
    rewrite Hr. change 8%nat with (length (js "congrid1")). rewrite drop_app_length.
    destruct r; [done|]. by apply forallb_Forall.
Qed.

Lemma drop_ws_head s c r : drop_ws s = c :: r → is_ws c = false.
Proof. induction s as [|x s IH]; cbn; [done|]. destruct (is_ws x) eqn:E; [done|]. by intros [= <- _]. Qed.

Lemma drop_ws_fix s : drop_ws (drop_ws s) = drop_ws s.
Proof. induction s as [|x s IH]; cbn; [done|]. destruct (is_ws x) eqn:E; [done|]. cbn. by rewrite E. Qed.

Lemma drop_ws_snoc s c : is_ws c = false → drop_ws (s ++ [c]) = drop_ws s ++ [c].
Proof. intros Hc. induction s as [|x s IH]; cbn; [by rewrite Hc|]. by destruct (is_ws x). Qed.

(** What [trim] leaves starts and ends with no white space. *)
Lemma trim_ends s c r : trim s = c :: r → is_ws c = false.
Proof.
  unfold trim. intros E. destruct (drop_ws s) as [|x l] eqn:Ed; [done|].
  pose proof (drop_ws_head _ _ _ Ed) as Hx. cbn [rev] in E. rewrite drop_ws_snoc, rev_app_distr in E by done.
  cbn in E. by injection E as <- _.
Qed.

Lemma trim_fix_head s : drop_ws (trim s) = trim s.
Proof. apply drop_ws_id. intros c r. apply trim_ends. Qed.

Lemma trim_idem s : trim (trim s) = trim s.
Proof.
  unfold trim at 1. rewrite trim_fix_head. unfold trim. by rewrite rev_involutive, drop_ws_fix.
Qed.

Lemma trim_app p s : p ≠ [] → (∀ c r, p = c :: r → is_ws c = false) → drop_ws (rev (p ++ s)) = rev (p ++ s) →
  trim (p ++ s) = p ++ s.
Proof.
  intros Hp Hc Hr. unfold trim. rewrite (drop_ws_id (p ++ s)), Hr; [apply rev_involutive|].
  intros c r E. destruct p as [|x p]; [done|]. injection E as <- _. by eapply Hc.
Qed.

(** [toHttpRPC] trims the address and replaces a [tcp]
    scheme, and nothing else; applying it a second time changes nothing. *)
Theorem rpc_normalised rpc :
  toHttpRPC (toHttpRPC rpc) = toHttpRPC rpc ∧
  (∀ rest, trim rpc = js "tcp://" ++ rest → toHttpRPC rpc = js "http://" ++ rest) ∧
  (starts_with (js "tcp://") (trim rpc) = false → toHttpRPC rpc = trim rpc).
Proof.
  assert (∀ s, trim s = s → starts_with (js "tcp://") s = false → toHttpRPC s = s) as Hid.
  { intros s Ht Hs. unfold toHttpRPC. rewrite Ht, Hs. by destruct s. }
  assert (∀ rest, trim rpc = js "tcp://" ++ rest → toHttpRPC rpc = js "http://" ++ rest) as Htcp.
  { intros rest Ht. unfold toHttpRPC. rewrite Ht. reflexivity. }
  assert (starts_with (js "tcp://") (trim rpc) = false → toHttpRPC rpc = trim rpc) as Hno.
  { intros Hs. unfold toHttpRPC. rewrite Hs. by destruct (trim rpc). }
  split; [|done]. destruct (starts_with (js "tcp://") (trim rpc)) eqn:E.
  - apply starts_with_spec in E as [rest Ht]. rewrite (Htcp rest Ht). apply Hid; [|done].
    apply trim_app; [done|by intros c r [= <- _]|].
    pose proof (trim_idem rpc) as Hi. rewrite Ht in Hi. unfold trim in Hi.
    rewrite (drop_ws_id (js "tcp://" ++ rest)) in Hi by by intros c r [= <- _].
    apply (f_equal (@rev Z)) in Hi. rewrite rev_involutive in Hi.
    destruct rest as [|x rest']; [done|]. revert Hi. rewrite !rev_app_distr.
    generalize (rev (x :: rest')) as l. intros l. destruct l as [|y l]; [done|].
    cbn [app drop_ws]. destruct (is_ws y) eqn:Ey; [|done]. intros Hi. exfalso.
    apply (f_equal length) in Hi. cbn in Hi.
    assert (∀ k, (length (drop_ws k) ≤ length k)%nat) as Hlen.
    { induction k as [|z k IH]; cbn; [done|]. destruct (is_ws z); cbn; lia. }
    specialize (Hlen (l ++ rev (js "tcp://"))). lia.
  - rewrite (Hno eq_refl). apply Hid; [apply trim_idem|done].
Qed.
