(* ===== verification/WalletApp.v ===== *)
(** The stateful part of [src/cmd/congrid-site/static/wallet.js]: the shared
    [state] object, the cached dependency promise, the page elements the script
    writes to, and every function that awaits.  An asynchronous function is a
    program ([proc]) that reads and writes the page state between its [await]s;
    each [await] is a node at which other handlers may run.  [WalletMachine]
    interleaves them. *)

From S2P Require Import Prelude JsBase JsLong SiteScripts WalletMsgs WalletFee WalletPure.

(** * The page state *)

(** [state]: handles stand for the signer and client objects. *)
Record Session := { signer : option nat; address : jsstr; client : option nat }.

(** The resolved value of the dependency promise. *)
Record Deps := { d_registry : registry }.

(** [walletDepsPromise] and every promise it has held: pending, or settled. *)
Record DepsState := {
  walletDepsPromise : option nat;
  promises : list (option (result thrown Deps));
  m0_long : bool (* _m0.util.Long === Long *) }.

Record Flash := { f_text : jsstr; f_hidden : bool; f_error : bool }.

(** The elements the script finds on the page and writes to. *)
Record Dom := {
  flash_in_doc : option nat;             (* document.querySelector("[data-wallet-flash]") *)
  flash_in_form : list (option nat);     (* the same inside the form of that index *)
  flashes : list Flash;
  labels : list jsstr;                   (* [data-wallet-address] texts *)
  autofill : list jsstr;                 (* input[data-wallet-autofill] values *)
  input_events : nat;
  alerts : list jsstr;
  console_errors : list thrown;
  reload_timers : nat }.

(** The extension object: which of the optional methods it has. *)
Record Provider := { has_suggest : bool; has_getOfflineSigner : bool }.

(** What the browser and the user change: the extension, the fields of the
    forms, the clock. *)
Record Host := {
  keplr : option Provider;
  forms : list (list (jsstr * jsstr));
  clock : Z }.

Record App := { session : Session; deps : DepsState; dom : Dom; host : Host }.

Definition set_session (x : Session) (s : App) : App :=
  {| session := x; deps := deps s; dom := dom s; host := host s |}.
Definition set_deps (x : DepsState) (s : App) : App :=
  {| session := session s; deps := x; dom := dom s; host := host s |}.
Definition set_dom (x : Dom) (s : App) : App :=
  {| session := session s; deps := deps s; dom := x; host := host s |}.

(** * Calls out of the page *)

Record Bundle := { b_long : bool; b_util_long : bool; b_defaults : registry }.
Record TxResult := { code : Z; rawLog : option jsstr; transactionHash : jsstr }.
Record FetchResponse := { r_ok : bool; r_body : nat }.
(** A parsed body: null, or an object whose [ok] is [true] or not and whose
    [error] may be a string. *)
Inductive Json : Type :=
| JNull
| JObj (ok_true : bool) (error : option jsstr).

Inductive call : Type :=
| CSuggest (info : ChainInfo)                   (* provider.experimentalSuggestChain *)
| CEnable (chain : jsstr)                       (* provider.enable *)
| CSigner (chain : jsstr)                       (* provider.getOfflineSigner *)
| CSignerAuto (chain : jsstr)                   (* provider.getOfflineSignerAuto *)
| CAccounts (signer : nat)                      (* signer.getAccounts *)
| CImport (url : jsstr)                         (* import(...) *)
| CConnect (rpc : jsstr) (signer : option nat) (reg : registry) (p : GasPrice) (* connectWithSigner *)
| CBroadcast (client : nat) (address : jsstr) (msgs : list EncodeObject) (fee : StdFee) (memo : jsstr)
| CFetch (domain wallet : jsstr)                (* fetch("/publishers/verify", ...) *)
| CJson (body : nat)                            (* response.json() *)
| CDeps (p : nat)                               (* await of a dependency promise *)
| CTick.                                        (* the turn an await of a settled promise takes *)

Definition resp (c : call) : Type :=
  match c with
  | CSuggest _ | CEnable _ | CTick => unit
  | CSigner _ | CSignerAuto _ => nat
  | CAccounts _ => option (list jsstr)
  | CImport _ => Bundle
  | CConnect _ _ _ _ => nat
  | CBroadcast _ _ _ _ _ => TxResult
  | CFetch _ _ => FetchResponse
  | CJson _ => Json
  | CDeps _ => Deps
  end.

(** * Programs *)

Inductive proc (A : Type) : Type :=
| Ret (a : A)
| Raise (e : thrown)
| Get (k : App → proc A)
| Put (s : App) (k : proc A)
| Spawn (k : nat → proc A)      (* start the dependency loader, get its promise *)
| Await (c : call) (k : result thrown (resp c) → proc A).
Arguments Ret {A} a.
Arguments Raise {A} e.
Arguments Get {A} k.
Arguments Put {A} s k.
Arguments Spawn {A} k.
Arguments Await {A} c k.

Fixpoint try_bind {A B} (p : proc A) (f : result thrown A → proc B) : proc B :=
  match p with
  | Ret a => f (Ok a)
  | Raise e => f (Err e)
  | Get k => Get (λ s, try_bind (k s) f)
  | Put s k => Put s (try_bind k f)
  | Spawn k => Spawn (λ n, try_bind (k n) f)
  | Await c k => Await c (λ r, try_bind (k r) f)
  end.

Definition of_result {A} (r : result thrown A) : proc A :=
  match r with Ok a => Ret a | Err e => Raise e end.

#[export] Instance proc_ret : MRet proc := fun A a => Ret a.
#[export] Instance proc_bind : MBind proc := fun A B f p =>
  try_bind p (λ r, match r with Ok a => f a | Err e => Raise e end).
Definition catch {A} (p : proc A) (h : thrown → proc A) : proc A :=
  try_bind p (λ r, match r with Ok a => Ret a | Err e => h e end).

Definition await (c : call) : proc (resp c) := Await c of_result.
(** [await f()] for an asynchronous function of the page: its body runs, then
    the awaiting function takes another turn. *)
Definition await_fn {A} (p : proc A) : proc A :=
  try_bind p (λ r, Await CTick (λ _, of_result r)).
Definition get_app : proc App := Get Ret.
Definition modify (f : App → App) : proc unit := Get (λ s, Put (f s) (Ret tt)).

(** * Writing to the page *)

Section WalletJs.
Context `{PageEnv}.

Definition connected (s : App) : bool :=
  match signer (session s), address (session s) with Some _, _ :: _ => true | _, _ => false end.

(** [context] is [None] for the document, [Some i] for form [i]. *)
Definition find_flash (context : option nat) (d : Dom) : option nat :=
  match context with
  | Some i => match mjoin (flash_in_form d !! i) with
              | Some n => Some n
              | None => flash_in_doc d
              end
  | None => flash_in_doc d
  end.

Definition show_flash_dom (message : jsstr) (isError : bool) (context : option nat) (d : Dom) : Dom :=
  let message := t message [] in
  match find_flash context d with
  | None =>
      {| flash_in_doc := flash_in_doc d; flash_in_form := flash_in_form d; flashes := flashes d;
         labels := labels d; autofill := autofill d; input_events := input_events d;
         alerts := match message with [] => alerts d | _ => alerts d ++ [message] end;
         console_errors := console_errors d; reload_timers := reload_timers d |}
  | Some n =>
      {| flash_in_doc := flash_in_doc d; flash_in_form := flash_in_form d;
         flashes := <[n := {| f_text := message; f_hidden := match message with [] => true | _ => false end;
                              f_error := isError |}]> (flashes d);
         labels := labels d; autofill := autofill d; input_events := input_events d;
         alerts := alerts d; console_errors := console_errors d; reload_timers := reload_timers d |}
  end.
Definition showFlash (message : jsstr) (isError : bool) (context : option nat) : proc unit :=
  modify (λ s, set_dom (show_flash_dom message isError context (dom s)) s).

Definition update_labels (addr : jsstr) (d : Dom) : Dom :=
  {| flash_in_doc := flash_in_doc d; flash_in_form := flash_in_form d; flashes := flashes d;
     labels := (λ _, str_or addr (t (js "Not connected") [])) <$> labels d;
     autofill := autofill d; input_events := input_events d; alerts := alerts d;
     console_errors := console_errors d; reload_timers := reload_timers d |}.
Definition updateWalletAddress (addr : jsstr) : proc unit :=
  modify (λ s, set_dom (update_labels addr (dom s)) s).

(** The connect button's [forEach] over the autofill inputs. *)
Definition fill_inputs (addr : jsstr) (d : Dom) : Dom :=
  {| flash_in_doc := flash_in_doc d; flash_in_form := flash_in_form d; flashes := flashes d;
     labels := labels d; autofill := (λ _, addr) <$> autofill d;
     input_events := length (autofill d) + input_events d; alerts := alerts d;
     console_errors := console_errors d; reload_timers := reload_timers d |}.

(** [setTimeout(() => window.location.reload(), 1500)]. *)
Definition schedule_reload : proc unit :=
  modify (λ s, set_dom
    {| flash_in_doc := flash_in_doc (dom s); flash_in_form := flash_in_form (dom s);
       flashes := flashes (dom s); labels := labels (dom s); autofill := autofill (dom s);
       input_events := input_events (dom s); alerts := alerts (dom s);
       console_errors := console_errors (dom s); reload_timers := S (reload_timers (dom s)) |} s).

Definition console_error (e : thrown) : proc unit :=
  modify (λ s, set_dom
    {| flash_in_doc := flash_in_doc (dom s); flash_in_form := flash_in_form (dom s);
       flashes := flashes (dom s); labels := labels (dom s); autofill := autofill (dom s);
       input_events := input_events (dom s); alerts := alerts (dom s);
       console_errors := console_errors (dom s) ++ [e]; reload_timers := reload_timers (dom s) |} s).

(** The handlers' [catch (err) { showFlash(err.message || String(err), true) }];
    reading [message] of null or undefined throws out of the handler. *)
Definition flash_error (context : option nat) (err : thrown) : proc unit :=
  match err with
  | TNullish s => Raise (TError (js "Cannot read properties of " ++ s ++ js " (reading 'message')"))
  | _ => showFlash (err_text err) true context
  end.

(** * Connecting the wallet *)

Definition getWalletProviders (h : Host) : list (jsstr * Provider) :=
  match keplr h with Some p => [(js "Keplr", p)] | None => [] end.

Definition suggestChainIfSupported (provider : Provider) : proc unit :=
  if has_suggest provider then
    match chain_info with
    | None => Ret tt
    | Some info => await (CSuggest info)
    end
  else Ret tt.

(** The body of the [try] in the loop over the providers. *)
Definition connect_provider (name : jsstr) (provider : Provider) : proc unit :=
  await_fn (suggestChainIfSupported provider);;
  await (CEnable (chain_id config));;
  sg ← (if has_getOfflineSigner provider then await (CSigner (chain_id config))
        else await (CSignerAuto (chain_id config)));
  accounts ← await (CAccounts sg);
  match accounts with
  | None | Some [] => Raise (TError (t (js "No wallet accounts available in {0}.") [I18n.AStr name]))
  | Some (a :: _) =>
      modify (λ s, set_session {| signer := Some sg; address := a; client := client (session s) |} s);;
      updateWalletAddress a
  end.

Fixpoint connect_loop (lastErr : option thrown) (providers : list (jsstr * Provider)) : proc unit :=
  match providers with
  | [] => Raise (TError (or_default (lastErr ≫= err_message)
            (t (js "Wallet connect failed. Please add Congrid chain to Keplr and retry.") [])))
  | (name, p) :: rest =>
      try_bind (connect_provider name p) (λ r,
        match r with Ok _ => Ret tt | Err e => connect_loop (Some e) rest end)
  end.

Definition ensureWalletConnected : proc unit :=
  if negb (enabled config) then Raise (error_t (js "Wallet signing is not enabled on this deployment."))
  else
    s ← get_app;
    if connected s then Ret tt
    else
      let providers := getWalletProviders (host s) in
      match providers with
      | [] => Raise (error_t (js "Wallet extension not detected (Keplr)."))
      | _ =>
          match chain_id config, rpc config with
          | _ :: _, _ :: _ => connect_loop None providers
          | _, _ => Raise (error_t (js "Missing chain configuration."))
          end
      end.

(** * Loading the dependencies *)

Definition walletBundleURL : jsstr := js "/static/wallet-deps.bundle.mjs".

(** The asynchronous function whose promise is cached. *)
Definition load_bundle : proc Deps :=
  b ← await (CImport walletBundleURL);
  if negb (b_long b) then Raise (error_t (js "Failed to load Long dependency."))
  else
    (if b_util_long b then Ret tt
     else modify (λ s, set_deps {| walletDepsPromise := walletDepsPromise (deps s);
                                   promises := promises (deps s); m0_long := true |} s));;
    Ret {| d_registry := page_registry (b_defaults b) |}.

(** With its [catch]: the cache is cleared, and the error rethrown as an
    [Error].  The callback runs a turn after the rejection. *)
Definition loader : proc Deps :=
  try_bind load_bundle (λ r, Await CTick (λ _,
    match r with
    | Ok d => Ret d
    | Err err =>
        modify (λ s, set_deps {| walletDepsPromise := None;
                                 promises := promises (deps s); m0_long := m0_long (deps s) |} s);;
        Raise (TError (dependencyLoadMessage err))
    end)).

(** [await loadWalletDeps()].  [Spawn] starts [loader] and registers its
    promise, which is then cached. *)
Definition loadWalletDeps : proc Deps :=
  s ← get_app;
  match walletDepsPromise (deps s) with
  | Some p => await (CDeps p)
  | None =>
      p ← Spawn Ret;
      modify (λ s, set_deps {| walletDepsPromise := Some p;
                               promises := promises (deps s); m0_long := m0_long (deps s) |} s);;
      await (CDeps p)
  end.

(** * The signing client and transactions *)

Definition gas_price_of_config : result thrown GasPrice :=
  match gas_price_from_string (str_or (gas_price config) (js "0.001ucongrid")) with
  | Ok p => Ok p
  | Err m => Err (TError m)
  end.

Definition getClient : proc nat :=
  await_fn ensureWalletConnected;;
  s ← get_app;
  match client (session s) with
  | Some c => Ret c
  | None =>
      match toHttpRPC (rpc config) with
      | [] => Raise (error_t (js "Missing RPC endpoint."))
      | r =>
          d ← loadWalletDeps;
          p ← of_result gas_price_of_config;
          s ← get_app;
          c ← await (CConnect r (signer (session s)) (d_registry d) p);
          modify (λ s, set_session {| signer := signer (session s); address := address (session s);
                                      client := Some c |} s);;
          Ret c
      end
  end.

Definition submitTx (msgs : list EncodeObject) (gasLimit : jsnum) : proc jsstr :=
  c ← await_fn getClient;
  loadWalletDeps;;
  p ← of_result gas_price_of_config;
  fee ← of_result (match calculateFee gasLimit p with Ok f => Ok f | Err m => Err (TError m) end);
  s ← get_app;
  res ← await (CBroadcast c (address (session s)) msgs fee []);
  if code res =? 0 then Ret (transactionHash res)
  else Raise (TError (or_default (rawLog res)
                        (t (js "Tx failed with code {0}") [I18n.ANum (code res)]))).

(** * The forms *)

(** [data.get(name)]: the first entry of that name. *)
Definition form_get (data : list (jsstr * jsstr)) (name : jsstr) : option jsstr :=
  snd <$> head (filter (λ p, p.1 = name) data).
(** [String(data.get(name) || "").trim()]. *)
Definition field (data : list (jsstr * jsstr)) (name : jsstr) : jsstr :=
  trim (or_default (form_get data name) []).
(** [new FormData(form)]: the fields as they are at that moment. *)
Definition form_data (form : nat) : proc (list (jsstr * jsstr)) :=
  s ← get_app; Ret (default [] (forms (host s) !! form)).

Definition is_empty (s : jsstr) : bool := match s with [] => true | _ => false end.

(** From the form's fields to the message, with the handler's checks in their
    order. *)
Definition create_slot_msg (addr : jsstr) (data : list (jsstr * jsstr)) : result thrown EncodeObject :=
  let domain := field data (js "publisher") in
  let label := field data (js "label") in
  let summary := field data (js "summary") in
  let category := field data (js "category") in
  let placement := field data (js "placement") in
  let size := field data (js "size") in
  let rateRaw := field data (js "rate") in
  guard_err (is_empty domain) (error_t (js "Publisher domain required."));;
  guard_err (is_empty label) (error_t (js "Slot label required."));;
  guard_err (is_empty rateRaw) (error_t (js "Rate required."));;
  let rateAmount := to_number rateRaw in
  guard_err (negb (num_is_finite rateAmount) || num_neg rateAmount || negb (num_is_integer rateAmount))
    (error_t (js "Rate must be a non-negative integer."));;
  Ok {| typeUrl := url_create_slot;
        value := VCreateSlot
          {| pcs_publisher := Some addr; pcs_domain := Some domain; pcs_label := Some label;
             pcs_summary := Some summary; pcs_category := Some category; pcs_placement := Some placement;
             pcs_size := Some size; pcs_rateDenom := Some (str_or (slot_rate_denom config) (js "ucongrid"));
             pcs_rateAmount := Some (int_to_string rateAmount);
             pcs_unitSeconds := Some (LLong (fromValue (LNum (num_or (slot_unit_seconds config) (num_of_Z 0)))));
             pcs_minDurationSeconds :=
               Some (LLong (fromValue (LNum (num_or (slot_min_duration_seconds config) (num_of_Z 0)))));
             pcs_maxDurationSeconds :=
               Some (LLong (fromValue (LNum (num_or (slot_max_duration_seconds config) (num_of_Z 0)))));
             pcs_tags := Some [] |} |}.

Definition slotStatus_LISTED : Z := 1.
Definition slotStatus_PAUSED : Z := 2.
Definition slotStatus_UNLISTED : Z := 3.

(** [submitter] is the value of the button that submitted the form, if any. *)
Definition slot_status_msg (addr : jsstr) (submitter : option jsstr) (data : list (jsstr * jsstr)) :
    result thrown EncodeObject :=
  let slotId := field data (js "slot_id") in
  let action := match submitter with Some v => v | None => field data (js "action") end in
  guard_err (is_empty slotId) (error_t (js "Slot id required."));;
  status ← (if bool_decide (action = js "activate") then Ok slotStatus_LISTED
            else if bool_decide (action = js "pause") then Ok slotStatus_PAUSED
            else if bool_decide (action = js "unlist") then Ok slotStatus_UNLISTED
            else Err (error_t (js "Unknown slot action.")));
  Ok {| typeUrl := url_update_slot_status;
        value := VUpdateSlotStatus
          {| pus_publisher := Some addr; pus_slotId := Some slotId; pus_status := Some status |} |}.

Definition lease_msg (now : Z) (addr : jsstr) (data : list (jsstr * jsstr)) : result thrown EncodeObject :=
  let slotId := field data (js "slot_id") in
  let targetUrl := field data (js "target_url") in
  let durationRaw := field data (js "duration_seconds") in
  let startDate := field data (js "start_date") in
  guard_err (is_empty slotId || is_empty targetUrl) (error_t (js "Slot and target URL are required."));;
  let durationSeconds := to_number durationRaw in
  guard_err (negb (num_is_finite durationSeconds)
             || (num_neg durationSeconds || num_is_zero durationSeconds)
             || negb (num_is_integer durationSeconds))
    (error_t (js "Select a lease duration."));;
  startsAtUnix ← parseStartDate now startDate;
  Ok {| typeUrl := url_lease_slot;
        value := VLeaseSlot
          {| pls_lessee := Some addr; pls_slotId := Some slotId; pls_targetUrl := Some targetUrl;
             pls_startsAtUnix := Some (LLong (fromValue (LNum (num_of_Z startsAtUnix))));
             pls_durationSeconds := Some (LLong (fromValue (LNum durationSeconds))) |} |}.

(** The checks before the badge verification: the domain, the wallet and the
    referrer. *)
Definition register_checks (addr : jsstr) (data : list (jsstr * jsstr)) : result thrown (jsstr * jsstr) :=
  let domain := toLowerCase (field data (js "domain")) in
  let wallet := field data (js "wallet") in
  let referrer := field data (js "referrer") in
  guard_err (is_empty domain) (error_t (js "Please generate registration details first (missing domain)."));;
  guard_err (is_empty wallet) (error_t (js "Please generate registration details first (missing wallet)."));;
  guard_err (negb (bool_decide (wallet = addr)))
    (TError (t (js "Connected wallet mismatch. connected={0} form={1}") [I18n.AStr addr; I18n.AStr wallet]));;
  guard_err (negb (is_empty referrer) && negb (isLikelyGridAddress referrer))
    (error_t (js "Referrer verifier address format looks invalid. Use congrid1... address."));;
  Ok (domain, referrer).

Definition register_msg (addr domain referrer : jsstr) : EncodeObject :=
  {| typeUrl := url_register_publisher;
     value := VRegisterPublisher
       {| prp_owner := Some addr; prp_domain := Some domain; prp_metadataUri := Some [];
          prp_proof := Some []; prp_verifier := Some []; prp_referrer := Some referrer |} |}.

(** * The event handlers *)

Definition on_connect : proc unit :=
  catch
    (await_fn ensureWalletConnected;;
     s ← get_app;
     modify (λ s, set_dom (fill_inputs (address (session s)) (dom s)) s);;
     showFlash (t (js "Connected: {0}") [I18n.AStr (address (session s))]) false None)
    (flash_error None).

Definition on_create_slot (form : nat) : proc unit :=
  catch
    (await_fn ensureWalletConnected;;
     loadWalletDeps;;
     data ← form_data form;
     s ← get_app;
     msg ← of_result (create_slot_msg (address (session s)) data);
     txHash ← await_fn (submitTx [msg] (num_or (gas_create_slot config) (num_of_Z 220000)));
     showFlash (t (js "Slot created. Tx: {0}") [I18n.AStr txHash]) false None;;
     schedule_reload)
    (flash_error None).

Definition on_slot_status (form : nat) (submitter : option jsstr) : proc unit :=
  catch
    (await_fn ensureWalletConnected;;
     data ← form_data form;
     s ← get_app;
     msg ← of_result (slot_status_msg (address (session s)) submitter data);
     txHash ← await_fn (submitTx [msg] (num_or (gas_update_slot config) (num_of_Z 140000)));
     showFlash (t (js "Slot updated. Tx: {0}") [I18n.AStr txHash]) false None;;
     schedule_reload)
    (flash_error None).

Definition on_lease (form : nat) : proc unit :=
  catch
    (await_fn ensureWalletConnected;;
     loadWalletDeps;;
     data ← form_data form;
     s ← get_app;
     msg ← of_result (lease_msg (clock (host s)) (address (session s)) data);
     txHash ← await_fn (submitTx [msg] (num_or (gas_lease_slot config) (num_of_Z 220000)));
     showFlash (t (js "Lease requested. Tx: {0}") [I18n.AStr txHash]) false None;;
     schedule_reload)
    (flash_error None).

(** The response check: [!verificationResponse.ok || verification.ok !== true]. *)
Definition check_verification (response_ok : bool) (v : Json) : result thrown unit :=
  match v with
  | JNull => if response_ok then Err (TError (js "Cannot read properties of null (reading 'ok')"))
             else Err (TError (js "Cannot read properties of null (reading 'error')"))
  | JObj ok_true error =>
      guard_err (negb response_ok || negb ok_true)
        (TError (or_default error (t (js "Could not verify the Congrid member badge on your homepage.") [])))
  end.

Definition on_publisher_register (form : nat) : proc unit :=
  catch
    (await_fn ensureWalletConnected;;
     data ← form_data form;
     s ← get_app;
     '(domain, referrer) ← of_result (register_checks (address (session s)) data);
     response ← await (CFetch domain (address (session s)));
     verification ← catch (await (CJson (r_body response))) (λ _, Ret (JObj false None));
     of_result (check_verification (r_ok response) verification);;
     s ← get_app;
     txHash ← await_fn (submitTx [register_msg (address (session s)) domain referrer] (num_of_Z 220000));
     showFlash (t (js "Registration submitted; verifier confirmation pending. Tx: {0}") [I18n.AStr txHash])
       false (Some form))
    (λ err, console_error err;; flash_error (Some form) err).

(** * [initWalletUI] *)

(** The elements of the page that the [bind*] functions look up. *)
Record Elements := {
  connect_buttons : list nat; create_forms : list nat; status_forms : list nat;
  lease_forms : list nat; register_forms : list nat }.

Inductive listener : Type :=
| LConnect (button : nat)
| LCreateSlot (form : nat)
| LSlotStatus (form : nat)
| LLease (form : nat)
| LRegister (form : nat).

Definition bindConnectButtons (e : Elements) : list listener := LConnect <$> connect_buttons e.
Definition bindCreateSlotForms (e : Elements) : list listener := LCreateSlot <$> create_forms e.
Definition bindSlotStatusForms (e : Elements) : list listener := LSlotStatus <$> status_forms e.
Definition bindLeaseForms (e : Elements) : list listener := LLease <$> lease_forms e.
Definition bindPublisherRegisterForms (e : Elements) : list listener := LRegister <$> register_forms e.

(** The listeners that are installed, the page after it, and
    [CongridWalletUIReady]. *)
Definition initWalletUI (e : Elements) (s : App) : list listener * App * bool :=
  if negb (enabled config) then ([], s, false)
  else (bindConnectButtons e ++ bindCreateSlotForms e ++ bindSlotStatusForms e
          ++ bindLeaseForms e ++ bindPublisherRegisterForms e,
        set_dom (update_labels [] (dom s)) s, true).

(** The handler a listener runs; [submitter] is the event's. *)
Definition handler (l : listener) (submitter : option jsstr) : proc unit :=
  match l with
  | LConnect _ => on_connect
  | LCreateSlot f => on_create_slot f
  | LSlotStatus f => on_slot_status f submitter
  | LLease f => on_lease f
  | LRegister f => on_publisher_register f
  end.
End WalletJs.
