(* ===== verification/WalletMachine.v ===== *)
(** The event loop around the handlers of [WalletApp]: a task runs without
    interruption from one [await] to the next, and at an [await] any other task,
    a new event or a change made by the browser may come first.  The scheduling
    is any interleaving at those points, which includes the order in which a
    browser empties its queues.  A rely/guarantee logic over the programs
    ([safe]) is shown sound for it. *)

From S2P Require Import Prelude JsBase JsLong SiteScripts WalletMsgs WalletFee WalletPure WalletApp.

(** * Running a task to its next [await] *)

Definition add_promise (s : App) : App :=
  set_deps {| walletDepsPromise := walletDepsPromise (deps s);
              promises := promises (deps s) ++ [None]; m0_long := m0_long (deps s) |} s.
Definition settle (p : nat) (r : result thrown Deps) (s : App) : App :=
  set_deps {| walletDepsPromise := walletDepsPromise (deps s);
              promises := <[p := Some r]> (promises (deps s)); m0_long := m0_long (deps s) |} s.

(** The program parked at an [await] or finished, the state, the loaders started. *)
Fixpoint exec {A} (p : proc A) (s : App) : proc A * App * list nat :=
  match p with
  | Get k => exec (k s) s
  | Put s' k => exec k s'
  | Spawn k =>
      let n := length (promises (deps s)) in
      let '(q, s', l) := exec (k n) (add_promise s) in (q, s', n :: l)
  | Ret _ | Raise _ | Await _ _ => (p, s, [])
  end.

(** What a task has been answered so far, each time with the page as it found it then;
    what the task reads until its next [await] it reads there. *)
Definition event : Type := {c : call & result thrown (resp c)}.
Definition trace : Type := list (App * event).

(** The task has found the page in this state. *)
Definition seen (tr : trace) (s : App) : Prop := s ∈ tr.*1.
(** The task made this call and was given this answer. *)
Definition answered (tr : trace) (c : call) (r : result thrown (resp c)) : Prop := existT c r ∈ tr.*2.

Inductive task : Type :=
| THandler (l : listener) (submitter : option jsstr) (tr : trace) (p : proc unit)
| TLoader (id : nat) (tr : trace) (p : proc Deps).

Record Machine := { app : App; listeners : list listener; tasks : list task }.

Section Machine.
Context `{PageEnv}.

(** A finished loader settles its promise. *)
Definition finish_loader (id : nat) (p : proc Deps) (s : App) : App :=
  match p with
  | Ret d => settle id (Ok d) s
  | Raise e => settle id (Err e) s
  | _ => s
  end.

Definition start_loaders (ids : list nat) : list task := (λ n, TLoader n [] loader) <$> ids.

(** A task goes on from program [p]; [i] is its place among the tasks. *)
Definition run_handler (i : nat) (l : listener) (submitter : option jsstr) (tr : trace) (p : proc unit) (m : Machine) : Machine :=
  let '(q, s, ids) := exec p (app m) in
  {| app := s; listeners := listeners m;
     tasks := <[i := THandler l submitter tr q]> (tasks m) ++ start_loaders ids |}.
Definition run_loader (i id : nat) (tr : trace) (p : proc Deps) (m : Machine) : Machine :=
  let '(q, s, ids) := exec p (app m) in
  {| app := finish_loader id q s; listeners := listeners m;
     tasks := <[i := TLoader id tr q]> (tasks m) ++ start_loaders ids |}.

(** An answer the environment may give: a dependency promise gives its own
    result once it is settled, a turn of the queue gives nothing, and a call
    out of the page gives anything [world] allows. *)
Definition answers (world : ∀ c, result thrown (resp c) → Prop) (s : App) (c : call) :
    result thrown (resp c) → Prop :=
  match c return result thrown (resp c) → Prop with
  | CDeps p => λ r, promises (deps s) !! p = Some (Some r)
  | CTick => λ r, r = Ok tt
  | c => world c
  end.

Inductive step (world : ∀ c, result thrown (resp c) → Prop) : Machine → Machine → Prop :=
| step_event m l submitter :
    l ∈ listeners m →
    step world m
      (let '(q, s, ids) := exec (handler l submitter) (app m) in
       {| app := s; listeners := listeners m;
          tasks := tasks m ++ THandler l submitter [] q :: start_loaders ids |})
| step_handler m i l submitter tr c k r :
    tasks m !! i = Some (THandler l submitter tr (Await c k)) → answers world (app m) c r →
    step world m (run_handler i l submitter (tr ++ [(app m, existT c r)]) (k r) m)
| step_loader m i id tr c k r :
    tasks m !! i = Some (TLoader id tr (Await c k)) → answers world (app m) c r →
    step world m (run_loader i id (tr ++ [(app m, existT c r)]) (k r) m)
| step_host m h :
    step world m {| app := {| session := session (app m); deps := deps (app m); dom := dom (app m); host := h |};
                    listeners := listeners m; tasks := tasks m |}.

(** The page as [wallet.js] finds it when it is loaded. *)
Definition initial_app (d : Dom) (h : Host) : App :=
  {| session := {| signer := None; address := []; client := None |};
     deps := {| walletDepsPromise := None; promises := []; m0_long := false |};
     dom := d; host := h |}.
Definition initial (e : Elements) (d : Dom) (h : Host) : Machine :=
  let '(ls, s, _) := initWalletUI e (initial_app d h) in {| app := s; listeners := ls; tasks := [] |}.

Inductive reachable (world : ∀ c, result thrown (resp c) → Prop) : Machine → Prop :=
| reach_init e d h : reachable world (initial e d h)
| reach_step m m' : reachable world m → step world m m' → reachable world m'.
End Machine.

(** * A rely/guarantee logic *)

Section Logic.
Context (world : ∀ c, result thrown (resp c) → Prop).
(** [inv] holds whenever a task is parked; between two turns of a task the
    state changes along [rely]; [pre] is what must hold when a call is made.
    Only [Spawn] and the end of a loader touch the table of promises. *)
Context (inv : App → Prop) (rely : App → App → Prop) (pre : trace → call → App → Prop).

Fixpoint safe {A} (tr : trace) (s0 : App) (p : proc A) (s : App)
    (Q : trace → result thrown A → App → App → Prop) : Prop :=
  match p with
  | Ret a => Q tr (Ok a) s0 s
  | Raise e => Q tr (Err e) s0 s
  | Get k => safe tr s0 (k s) s Q
  | Put s' k => promises (deps s') = promises (deps s) ∧ safe tr s0 k s' Q
  | Spawn k => safe tr s0 (k (length (promises (deps s)))) (add_promise s) Q
  | Await c k =>
      inv s ∧ rely s0 s ∧ pre tr c s ∧
      ∀ r s', inv s' → rely s s' → answers world s' c r →
        safe (tr ++ [(s', existT c r)]) s' (k r) s' Q
  end.

Lemma safe_mono {A} (p : proc A) tr s0 s (Q Q' : trace → result thrown A → App → App → Prop) :
  (∀ tr r s0 s, Q tr r s0 s → Q' tr r s0 s) → safe tr s0 p s Q → safe tr s0 p s Q'.
Proof.
  intros HQ. revert tr s0 s. induction p as [a|e|k IH|s1 k IH|k IH|c k IH]; cbn; intros tr s0 s; eauto.
  - intros [? ?]. eauto.
  - intros (? & ? & ? & Hk). repeat (split; [done|]). intros r s' ? ? ?. by eauto.
Qed.

Lemma safe_try_bind {A B} (p : proc A) (f : result thrown A → proc B) tr s0 s Q :
  safe tr s0 p s (λ tr r s0 s, safe tr s0 (f r) s Q) → safe tr s0 (try_bind p f) s Q.
Proof.
  revert tr s0 s. induction p as [a|e|k IH|s1 k IH|k IH|c k IH]; cbn; intros tr s0 s; eauto.
  - intros [? ?]. eauto.
  - intros (? & ? & ? & Hk). repeat (split; [done|]). intros r s' ? ? ?. by eauto.
Qed.

(** What holds of a task between two turns. *)
Definition parked {A} (tr : trace) (p : proc A) (s : App)
    (Q : trace → result thrown A → App → App → Prop) : Prop :=
  match p with
  | Await c k =>
      (∃ s1, inv s1 ∧ rely s1 s ∧ pre tr c s1) ∧
      ∀ r s', inv s' → rely s s' → answers world s' c r → safe (tr ++ [(s', existT c r)]) s' (k r) s' Q
  | Ret _ | Raise _ => True
  | _ => False
  end.

Lemma exec_safe {A} (p : proc A) tr s0 s q s' ids Q :
  safe tr s0 p s Q → exec p s = (q, s', ids) →
  promises (deps s') = promises (deps s) ++ replicate (length ids) None ∧
  ids = seq (length (promises (deps s))) (length ids) ∧
  match q with
  | Ret a => Q tr (Ok a) s0 s'
  | Raise e => Q tr (Err e) s0 s'
  | Await _ _ => inv s' ∧ rely s0 s' ∧ ((∀ s, inv s → rely s s) → parked tr q s' Q)
  | _ => False
  end.
Proof.
  revert s ids. induction p as [a|e|k IH|s1 k IH|k IH|c k IH]; cbn; intros s ids Hs He.
  - injection He as <- <- <-. by rewrite app_nil_r.
  - injection He as <- <- <-. by rewrite app_nil_r.
  - eauto.
  - destruct Hs as [Hp Hs]. rewrite <- Hp. eauto.
  - destruct (exec (k _) _) as [[q1 s1] ids1] eqn:E. injection He as -> -> <-.
    destruct (IH _ _ _ Hs E) as (Hp & Hi & Hq). split; [|split; [|done]].
    + rewrite Hp. cbn. by rewrite <- app_assoc.
    + cbn. f_equal. rewrite Hi at 1. cbn. by rewrite length_app, Nat.add_comm.
  - injection He as <- <- <-. rewrite app_nil_r. destruct Hs as (? & ? & ? & Hk).
    repeat (split; [done|]). intros Hr. split; [by eauto|]. intros r s' ? ? ?. by apply Hk.
Qed.
End Logic.

(** * Soundness for the event loop *)

Definition pending (id : nat) (s : App) : Prop := promises (deps s) !! id = Some None.

(** Who makes a call: a handler, with the submitter of its event, or the loader. *)
Definition caller : Type := option (listener * option jsstr).

(** An assumption on the answers of the world, an invariant, a rely relation
    and call conditions that every handler and the loader respect. *)
Record Protocol `{PageEnv} := {
  world : ∀ c, result thrown (resp c) → Prop;
  inv : App → Prop;
  rely : App → App → Prop;
  pre : caller → trace → call → App → Prop;
  rely_refl s : rely s s;
  rely_trans s1 s2 s3 : rely s1 s2 → rely s2 s3 → rely s1 s3;
  host_ok s h : let s' := {| session := session s; deps := deps s; dom := dom s; host := h |} in
                (inv s → inv s') ∧ rely s s';
  init_ok e d h : inv (app (initial e d h));
  handler_ok l sub s : inv s →
    safe world inv rely (pre (Some (l, sub))) [] s (handler l sub) s (λ _ _ s0 s, inv s ∧ rely s0 s);
  loader_ok id s : inv s → pending id s →
    safe world (λ s, inv s ∧ pending id s) rely (pre None) [] s loader s
      (λ _ r s0 s, inv (settle id r s) ∧ rely s0 (settle id r s)) }.


Section Soundness.
Context `{PageEnv} (P : Protocol).

Let Qh : trace → result thrown unit → App → App → Prop := λ _ _ s0 s, inv P s ∧ rely P s0 s.
Let Ql (id : nat) : trace → result thrown Deps → App → App → Prop :=
  λ _ r s0 s, inv P (settle id r s) ∧ rely P s0 (settle id r s).
Let Il (id : nat) (s : App) : Prop := inv P s ∧ pending id s.

Definition awaiting {A} (p : proc A) : Prop := match p with Await _ _ => True | _ => False end.

Definition task_ok (s : App) (x : task) : Prop :=
  match x with
  | THandler l sub tr p => parked (world P) (inv P) (rely P) (pre P (Some (l, sub))) tr p s Qh
  | TLoader id tr p =>
      (id < length (promises (deps s)))%nat ∧ (awaiting p → pending id s) ∧
      parked (world P) (Il id) (rely P) (pre P None) tr p s (Ql id)
  end.

Definition loader_id (x : task) : option nat := match x with TLoader id _ _ => Some id | _ => None end.

Definition machine_ok (m : Machine) : Prop :=
  inv P (app m) ∧ Forall (task_ok (app m)) (tasks m) ∧ NoDup (omap loader_id (tasks m)).

Lemma parked_mono {A} w I tr (p : proc A) s s' Q : rely P s s' →
  parked (world P) I (rely P) (pre P w) tr p s Q → parked (world P) I (rely P) (pre P w) tr p s' Q.
Proof.
  intros Hr. destruct p; cbn; [done..|]. intros [(s1 & ? & ? & ?) Hk]. split.
  - exists s1. repeat split; [done| |done]. by eapply rely_trans.
  - intros r s2 ? ? ?. apply Hk; [done| |done]. by eapply rely_trans.
Qed.

(** A turn of one task leaves the others parked. *)
Lemma task_ok_mono s s' x : rely P s s' → (length (promises (deps s)) ≤ length (promises (deps s')))%nat →
  (∀ id, loader_id x = Some id → pending id s → pending id s') → task_ok s x → task_ok s' x.
Proof.
  intros Hr Hl Hp. destruct x as [l sub tr p|id tr p]; cbn.
  - by apply parked_mono.
  - intros (? & Ha & ?). split; [lia|]. split; [intros ?; apply Hp; by auto|]. by eapply parked_mono.
Qed.

Lemma start_loaders_ok s n k : inv P s → promises (deps s) = k ++ replicate n None →
  Forall (task_ok s) (start_loaders (seq (length k) n)).
Proof.
  intros Hi Hp. apply Forall_fmap, list.Forall_forall. intros id Hid. apply elem_of_seq in Hid. cbn.
  assert (pending id s) as Hpend.
  { unfold pending. rewrite Hp, lookup_app_r by lia. apply lookup_replicate. split; [done|lia]. }
  split; [rewrite Hp, length_app, length_replicate; lia|]. split; [done|].
  pose proof (loader_ok P id s Hi Hpend) as Hs. cbn in Hs. destruct Hs as (? & ? & ? & Hk). split.
  - exists s. by auto using rely_refl.
  - intros r s' [? ?] ? ?. by apply Hk.
Qed.

Lemma loader_ids_cons x ts :
  omap loader_id (x :: ts) = match loader_id x with Some i => i :: omap loader_id ts | None => omap loader_id ts end.
Proof. done. Qed.

Lemma loader_ids_started n k : omap loader_id (start_loaders (seq k n)) = seq k n.
Proof. revert k. induction n as [|n IH]; intros k; cbn; [done|]. f_equal. apply IH. Qed.

Lemma loader_ids_bound s ts id : Forall (task_ok s) ts → id ∈ omap loader_id ts →
  (id < length (promises (deps s)))%nat.
Proof.
  intros Hts. rewrite list_elem_of_omap. intros (x & Hx & Hid).
  rewrite list.Forall_forall in Hts. specialize (Hts x Hx). destruct x; cbn in *; [done|].
  injection Hid as ->. by destruct Hts.
Qed.

Lemma others_ok s s' ts x : Forall (task_ok s) ts → rely P s s' →
  (length (promises (deps s)) ≤ length (promises (deps s')))%nat →
  (∀ id, loader_id x ≠ Some id → pending id s → pending id s') →
  (∀ id, id ∈ omap loader_id ts → loader_id x ≠ Some id) → Forall (task_ok s') ts.
Proof.
  intros Hts Hr Hl Hp Hne. induction Hts as [|y ts Hy _ IH]; constructor.
  - eapply task_ok_mono; [done..| |done]. intros id Hid. apply Hp, Hne. cbn. rewrite Hid. by left.
  - apply IH. intros id Hid. apply Hne. cbn. destruct (loader_id y); [by right|done].
Qed.

(** One turn: the task [x] goes on (or starts) as [x'], the state becomes
    [s'], and [ids] are the loaders started. *)
Lemma turn_ok s s' ts1 x' ts2 ids ls old :
  Forall (task_ok s) (ts1 ++ ts2) → NoDup (omap loader_id (ts1 ++ x' :: ts2)) →
  inv P s' → rely P s s' → task_ok s' x' →
  (∀ id, loader_id x' = Some id → (id < length (promises (deps s)))%nat) →
  ids = seq (length (promises (deps s))) (length ids) →
  promises (deps s') = old ++ replicate (length ids) None →
  length old = length (promises (deps s)) →
  (∀ id, loader_id x' ≠ Some id → pending id s → old !! id = Some None) →
  machine_ok {| app := s'; listeners := ls; tasks := (ts1 ++ x' :: ts2) ++ start_loaders ids |}.
Proof.
  intros Hts Hnd Hi Hr Hx Hb Hids Hp Hlen Hkeep. split; [done|]. cbn [app tasks].
  rewrite omap_app, loader_ids_cons in Hnd. pose proof Hts as [Hts1 Hts2]%Forall_app.
  assert (∀ id, id ∈ omap loader_id (ts1 ++ ts2) → loader_id x' ≠ Some id) as Hne.
  { intros id Hid He. rewrite He in Hnd. apply list.NoDup_app in Hnd as (_ & Hd & Hnd2).
    rewrite omap_app, elem_of_app in Hid. destruct Hid as [Hid|Hid]; [by eapply Hd; [|left]|].
    by apply list.NoDup_cons in Hnd2 as [? _]. }
  assert (Forall (task_ok s') (ts1 ++ ts2)) as Hoth.
  { eapply others_ok; [done|done| | |done].
    - rewrite Hp, length_app. lia.
    - intros id Hid Hpend. unfold pending. rewrite Hp.
      apply lookup_app_l_Some, Hkeep; done. }
  apply Forall_app in Hoth as [? ?]. split.
  - apply Forall_app; split; [apply Forall_app; split; [done|by constructor]|].
    rewrite Hids, <- Hlen. by apply start_loaders_ok.
  - rewrite omap_app, Hids, loader_ids_started. apply list.NoDup_app. split; [|split; [|apply NoDup_seq]].
    + by rewrite omap_app, loader_ids_cons.
    + intros id Hid Hs. apply elem_of_seq in Hs.
      rewrite omap_app, loader_ids_cons in Hid. apply elem_of_app in Hid as [Hid|Hid].
      * pose proof (loader_ids_bound s ts1 id Hts1 Hid). lia.
      * destruct (loader_id x') as [i|] eqn:E; [apply elem_of_cons in Hid as [->|Hid]|].
        -- specialize (Hb i eq_refl). lia.
        -- pose proof (loader_ids_bound s ts2 id Hts2 Hid). lia.
        -- pose proof (loader_ids_bound s ts2 id Hts2 Hid). lia.
Qed.

Lemma task_split (ts : list task) i x x' : ts !! i = Some x →
  ∃ ts1 ts2, ts = ts1 ++ x :: ts2 ∧ <[i := x']> ts = ts1 ++ x' :: ts2.
Proof.
  intros Hi. destruct (list_elem_of_split_length _ _ _ Hi) as (ts1 & ts2 & -> & ->).
  exists ts1, ts2. split; [done|]. by rewrite insert_app_r_alt, Nat.sub_diag by lia.
Qed.

(** The end of a handler's turn: parked again or finished, with the
    invariant. *)
Lemma handler_turn tr s p q s' ids l sub :
  safe (world P) (inv P) (rely P) (pre P (Some (l, sub))) tr s p s Qh → exec p s = (q, s', ids) →
  inv P s' ∧ rely P s s' ∧ task_ok s' (THandler l sub tr q) ∧
  ids = seq (length (promises (deps s))) (length ids) ∧
  promises (deps s') = promises (deps s) ++ replicate (length ids) None.
Proof.
  intros Hs He. destruct (exec_safe _ _ _ _ _ _ _ _ _ _ _ _ Hs He) as (Hp & Hi & Hq).
  destruct q; try done.
  - by destruct Hq.
  - by destruct Hq.
  - destruct Hq as (? & ? & Hk). repeat (split; [done|]). split; [|done].
    apply Hk. intros. apply rely_refl.
Qed.

(** The end of a loader's turn: if it has finished, its promise is settled. *)
Lemma loader_turn id tr s p q s' ids :
  pending id s →
  safe (world P) (Il id) (rely P) (pre P None) tr s p s (Ql id) → exec p s = (q, s', ids) →
  let s2 := finish_loader id q s' in
  inv P s2 ∧ rely P s s2 ∧ task_ok s2 (TLoader id tr q) ∧
  ids = seq (length (promises (deps s))) (length ids) ∧
  ∃ old, promises (deps s2) = old ++ replicate (length ids) None ∧
         length old = length (promises (deps s)) ∧
         ∀ i, i ≠ id → pending i s → old !! i = Some None.
Proof.
  intros Hpend Hs He. destruct (exec_safe _ _ _ _ _ _ _ _ _ _ _ _ Hs He) as (Hp & Hi & Hq).
  assert (id < length (promises (deps s)))%nat as Hid by by eapply lookup_lt_Some.
  assert (∀ r, ∃ old, promises (deps (settle id r s')) = old ++ replicate (length ids) None ∧
         length old = length (promises (deps s)) ∧
         ∀ i, i ≠ id → pending i s → old !! i = Some None) as Hset.
  { intros r. exists (<[id := Some r]> (promises (deps s))). cbn. rewrite Hp, insert_app_l by done.
    split; [done|]. rewrite length_insert. split; [done|]. intros i Hne Hi'. by rewrite list_lookup_insert_ne. }
  assert (∀ r, (id < length (promises (deps (settle id r s'))))%nat) as Hb.
  { intros r. cbn. rewrite length_insert, Hp, length_app. lia. }
  destruct q; try done; cbn [finish_loader].
  - destruct Hq as [? ?]. do 2 (split; [done|]). split; [split; [apply Hb|by split]|]. split; [done|apply Hset].
  - destruct Hq as [? ?]. do 2 (split; [done|]). split; [split; [apply Hb|by split]|]. split; [done|apply Hset].
  - destruct Hq as ([? ?] & ? & Hk). repeat (split; [done|]). split; [|split; [done|]].
    + split; [rewrite Hp, length_app; lia|]. split; [done|]. apply Hk. intros. apply rely_refl.
    + exists (promises (deps s)). by auto.
Qed.

Lemma step_ok m m' : machine_ok m → step (world P) m m' → machine_ok m'.
Proof.
  intros (Hinv & Hts & Hnd) Hstep. destruct Hstep as [m l sub Hl|m i l sub tr c k r Hi Hr|m i id tr c k r Hi Hr|m h].
  - destruct (exec _ _) as [[q s] ids] eqn:E.
    destruct (handler_turn _ _ _ _ _ _ l sub (handler_ok P l sub _ Hinv) E) as (? & ? & ? & ? & ?).
    replace (tasks m ++ THandler l sub [] q :: start_loaders ids)
      with ((tasks m ++ THandler l sub [] q :: []) ++ start_loaders ids) by by rewrite <- app_assoc.
    eapply turn_ok; try done; [by rewrite app_nil_r| ].
    by rewrite omap_app, loader_ids_cons, app_nil_r.
  - unfold run_handler. destruct (exec _ _) as [[q s] ids] eqn:E.
    edestruct (task_split _ _ _ (THandler l sub (tr ++ [(app m, existT c r)]) q) Hi) as (ts1 & ts2 & Hsplit & ->).
    rewrite Hsplit in Hts, Hnd. apply Forall_app in Hts as [Ht1 [Hx Ht2]%Forall_cons_1].
    destruct Hx as [_ Hk]. specialize (Hk r (app m) Hinv (rely_refl P _) Hr).
    destruct (handler_turn _ _ _ _ _ _ l sub Hk E) as (? & ? & ? & ? & ?).
    eapply turn_ok; try done; [by apply Forall_app|]. by rewrite omap_app in *.
  - unfold run_loader. destruct (exec _ _) as [[q s] ids] eqn:E.
    edestruct (task_split _ _ _ (TLoader id (tr ++ [(app m, existT c r)]) q) Hi) as (ts1 & ts2 & Hsplit & ->).
    rewrite Hsplit in Hts, Hnd. apply Forall_app in Hts as [Ht1 [Hx Ht2]%Forall_cons_1].
    destruct Hx as (Hid & Hpend & _ & Hk). specialize (Hpend I).
    specialize (Hk r (app m) (conj Hinv Hpend) (rely_refl P _) Hr).
    destruct (loader_turn _ _ _ _ _ _ _ Hpend Hk E) as (? & ? & ? & ? & old & ? & ? & Hold).
    eapply turn_ok; try done; [by apply Forall_app|by rewrite omap_app in *|by intros ? [= <-]|].
    intros j Hj. apply Hold. by intros ->.
  - destruct (host_ok P (app m) h) as [Hi Hr]. split; [by apply Hi|]. split; [|done]. cbn.
    eapply list.Forall_impl; [exact Hts|]. intros x. apply task_ok_mono; [done|done|]. by intros id _ Hp.
Qed.

Theorem reachable_ok m : reachable (world P) m → machine_ok m.
Proof.
  induction 1 as [e d h|m m' _ IH Hs]; [|by eapply step_ok].
  pose proof (init_ok P e d h) as Hi. unfold initial, initWalletUI in *.
  destruct (negb (enabled config)); (split; [exact Hi|split; constructor]).
Qed.

(** Every call a task waits for was made in a state that met its condition,
    and the state has since changed along [rely]. *)
Lemma reachable_call m l sub tr c k : reachable (world P) m → THandler l sub tr (Await c k) ∈ tasks m →
  ∃ s, inv P s ∧ rely P s (app m) ∧ pre P (Some (l, sub)) tr c s.
Proof.
  intros (_ & Hts & _)%reachable_ok Hin. rewrite list.Forall_forall in Hts.
  by destruct (Hts _ Hin) as [? _].
Qed.

Lemma reachable_inv m : reachable (world P) m → inv P (app m).
Proof. by intros (? & _)%reachable_ok. Qed.
End Soundness.
