(* ===== verification/WalletProofs.v ===== *)
(** The wallet page verified: its session and dependency cache keep their
    invariants under every interleaving of handlers, and every transaction that
    reaches the signing client was built from checked input.  The handlers are
    shown to follow one protocol ([wallet_protocol]); [WalletMachine] turns that
    into statements about every reachable state of the event loop. *)

From S2P Require Import Prelude JsBase JsLong SiteScripts WalletMsgs WalletFee WalletPure WalletApp WalletMachine.

(** * The protocol *)

Section Protocol.
Context `{PageEnv}.

(** An account the wallet lists has an address. *)
Definition wallet_world (c : call) : result thrown (resp c) → Prop :=
  match c return result thrown (resp c) → Prop with
  | CAccounts _ => λ r, match r with Ok (Some l) => Forall (λ a, a ≠ []) l | _ => True end
  | _ => λ _, True
  end.

Definition rejected (r : option (result thrown Deps)) : Prop := ∃ e, r = Some (Err e).

(** The signer, the address and the client come in that order; every promise
    of the loader but the cached one has been rejected, the cached one has
    not, and a fulfilled one carries the page's message types. *)
Record wallet_inv (s : App) : Prop := {
  inv_session : signer (session s) = None → address (session s) = [] ∧ client (session s) = None;
  inv_cached p : walletDepsPromise (deps s) = Some p →
    ∃ r, promises (deps s) !! p = Some r ∧ ¬ rejected r;
  inv_others p r : promises (deps s) !! p = Some r → walletDepsPromise (deps s) = Some p ∨ rejected r;
  inv_registry p d : promises (deps s) !! p = Some (Some (Ok d)) → ∃ defs, d_registry d = page_registry defs }.

Record wallet_rely (s s' : App) : Prop := {
  rely_connected : connected s = true → connected s' = true;
  rely_settled p r : promises (deps s) !! p = Some (Some r) → promises (deps s') !! p = Some (Some r) }.

(** The server confirmed to this handler that [domain] shows the badge of [wallet]. *)
Definition verified (tr : trace) (wallet domain : jsstr) : Prop :=
  ∃ response error, r_ok response = true ∧ answered tr (CFetch domain wallet) (Ok response) ∧
    answered tr (CJson (r_body response)) (Ok (JObj true error)).

(** The fields of a form on a page. *)
Definition form_of (f : nat) (s : App) : list (jsstr * jsstr) := default [] (forms (host s) !! f).

(** A message as the handler [w] builds it from the form, the clock and the account of a
    page it has found, and the gas limit it sends it with. *)
Inductive built (w : caller) (tr : trace) : EncodeObject → jsnum → Prop :=
| built_create_slot f sub s m : w = Some (LCreateSlot f, sub) → seen tr s → address (session s) ≠ [] →
    create_slot_msg (address (session s)) (form_of f s) = Ok m → built w tr m (num_or (gas_create_slot config) (num_of_Z 220000))
| built_slot_status f sub s m : w = Some (LSlotStatus f, sub) → seen tr s → address (session s) ≠ [] →
    slot_status_msg (address (session s)) sub (form_of f s) = Ok m → built w tr m (num_or (gas_update_slot config) (num_of_Z 140000))
| built_lease f sub s m : w = Some (LLease f, sub) → seen tr s → address (session s) ≠ [] →
    lease_msg (clock (host s)) (address (session s)) (form_of f s) = Ok m → built w tr m (num_or (gas_lease_slot config) (num_of_Z 220000))
| built_register f sub s s' domain referrer : w = Some (LRegister f, sub) → seen tr s → seen tr s' → address (session s') ≠ [] →
    register_checks (address (session s)) (form_of f s) = Ok (domain, referrer) → verified tr (address (session s)) domain →
    built w tr (register_msg (address (session s')) domain referrer) (num_of_Z 220000).

Definition wallet_pre (w : caller) (tr : trace) (c : call) (s : App) : Prop :=
  match c with
  | CSuggest info => enabled config = true ∧ chain_info = Some info
  | CEnable chain | CSigner chain | CSignerAuto chain =>
      enabled config = true ∧ chain = chain_id config ∧ chain ≠ []
  | CConnect r sg reg _ =>
      r = toHttpRPC (rpc config) ∧ r ≠ [] ∧ sg ≠ None ∧ ∃ defs, reg = page_registry defs
  | CBroadcast cl addr msgs fee memo =>
      connected s = true ∧ addr = address (session s) ∧ memo = [] ∧
      ∃ m gas price, msgs = [m] ∧ built w tr m gas ∧ gas_price_of_config = Ok price ∧ calculateFee gas price = Ok fee
  | CFetch domain wallet => domain ≠ [] ∧ wallet ≠ [] ∧ wallet = address (session s)
  | CDeps p => walletDepsPromise (deps s) = Some p
  | _ => True
  end.

Context (w : caller).
Abbreviation safe := (safe wallet_world wallet_inv wallet_rely (wallet_pre w)).

Lemma wallet_rely_refl s : wallet_rely s s.
Proof. by split. Qed.
Lemma wallet_rely_trans s1 s2 s3 : wallet_rely s1 s2 → wallet_rely s2 s3 → wallet_rely s1 s3.
Proof. intros [? ?] [? ?]. split; by auto. Qed.

(** A turn that changes neither session nor promises. *)
Lemma wallet_rely_eq s s' : session s = session s' → promises (deps s) = promises (deps s') → wallet_rely s s'.
Proof. intros Hs Hp. split; [unfold connected; by rewrite Hs|by rewrite Hp]. Qed.

Lemma wallet_inv_eq s s' : session s = session s' → deps s = deps s' → wallet_inv s → wallet_inv s'.
Proof. intros Hs Hd [? ? ? ?]. split; rewrite <- ?Hs, <- ?Hd; done. Qed.

(** * Proof rules *)

(** The usual postcondition of a function: the trace grew, the invariant and
    the rely hold, and a normal result satisfies [Φ]. *)
Definition post {A} (tr : trace) (Φ : A → trace → App → Prop) : trace → result thrown A → App → App → Prop :=
  λ tr' r s0 s, tr `prefix_of` tr' ∧ wallet_inv s ∧ wallet_rely s0 s ∧
                match r with Ok a => Φ a tr' s | Err _ => True end.

Lemma safe_post {A} tr tr1 s0 (p : proc A) s Φ Q :
  tr1 `prefix_of` tr →
  safe tr s0 p s (post tr Φ) →
  (∀ tr' r s0' s', tr1 `prefix_of` tr' → tr `prefix_of` tr' → wallet_inv s' → wallet_rely s0' s' →
     match r with Ok a => Φ a tr' s' | Err _ => True end → Q tr' r s0' s') →
  safe tr s0 p s Q.
Proof.
  intros Hpre Hs HQ. eapply safe_mono; [|exact Hs]. intros tr' r s0' s' (? & ? & ? & ?).
  apply HQ; try done. by etransitivity.
Qed.

Lemma safe_bind {A B} tr s0 (p : proc A) (f : A → proc B) s Q :
  safe tr s0 p s (λ tr r s0 s, match r with Ok a => safe tr s0 (f a) s Q | Err e => Q tr (Err e) s0 s end) →
  safe tr s0 (p ≫= f) s Q.
Proof.
  intros Hs. apply safe_try_bind. eapply safe_mono; [|exact Hs]. by intros ? [a|e] ? ?.
Qed.

Lemma safe_await c tr s0 s Q : wallet_inv s → wallet_rely s0 s → wallet_pre w tr c s →
  (∀ r s', wallet_inv s' → wallet_rely s s' → answers wallet_world s' c r → Q (tr ++ [(s', existT c r)]) r s' s') →
  safe tr s0 (await c) s Q.
Proof.
  intros Hi Hr Hp HQ. cbn. repeat (split; [done|]). intros r s' ? ? ?.
  specialize (HQ r s'). destruct r; cbn; by auto.
Qed.

Lemma safe_tick {A} tr s0 (r : result thrown A) s Q : wallet_inv s → wallet_rely s0 s →
  (∀ s', wallet_inv s' → wallet_rely s s' → Q (tr ++ [(s', existT CTick (Ok tt))]) r s' s') →
  safe tr s0 (Await CTick (λ _, of_result r)) s Q.
Proof.
  intros Hi Hr HQ. cbn. repeat (split; [done|]). intros x s' ? ? ->. specialize (HQ s').
  destruct r; cbn; by auto.
Qed.

Lemma seen_last tr s e : seen (tr ++ [(s, e)]) s.
Proof. unfold seen. rewrite fmap_app. apply elem_of_app. right. by left. Qed.
Lemma seen_mono tr tr' s : tr `prefix_of` tr' → seen tr s → seen tr' s.
Proof. intros [k ->]. unfold seen. rewrite fmap_app. intros ?. apply elem_of_app. by left. Qed.

(** [await f()]: a stable postcondition survives the turn, and the page is the one that the
    turn found. *)
Lemma safe_await_fn {A} tr s0 (p : proc A) s (Φ : A → trace → App → Prop) :
  (∀ a tr tr' s s', Φ a tr s → tr `prefix_of` tr' → wallet_rely s s' → Φ a tr' s') →
  safe tr s0 p s (post tr Φ) → safe tr s0 (await_fn p) s (post tr (λ a tr s, Φ a tr s ∧ seen tr s)).
Proof.
  intros Hst Hs. apply safe_try_bind. eapply safe_mono; [|exact Hs].
  intros tr' r s0' s' (Hpre & ? & ? & Hr). apply safe_tick; [done..|]. intros s2 ? ?.
  split; [by apply prefix_app_r|]. split; [done|]. split; [apply wallet_rely_refl|].
  destruct r; [|done]. split; [|apply seen_last]. eapply Hst; [done|by apply prefix_app_r|done].
Qed.

Lemma prefix_snoc {A} (l k : list A) x : l `prefix_of` k → l `prefix_of` k ++ [x].
Proof. apply prefix_app_r. Qed.

#[local] Hint Resolve wallet_rely_refl prefix_snoc : core.

(** A program that has finished, with its usual postcondition. *)
Ltac ret := refine (conj _ (conj _ (conj _ _))); [solve [auto] | solve [auto] | solve [auto] | try done].

(** * The functions that connect the wallet *)

Definition is_connected {A} (_ : A) (_ : trace) (s : App) : Prop := connected s = true.
Definition found_connected {A} (a : A) (tr : trace) (s : App) : Prop := is_connected a tr s ∧ seen tr s.

Lemma is_connected_stable {A} (a : A) tr tr' s s' : is_connected a tr s → tr `prefix_of` tr' → wallet_rely s s' → is_connected a tr' s'.
Proof. intros Hc _ [Hr _]. by apply Hr. Qed.

Lemma suggest_safe tr s0 s p : enabled config = true → wallet_inv s → wallet_rely s0 s →
  safe tr s0 (suggestChainIfSupported p) s (post tr (λ _ _ _, True)).
Proof.
  intros He Hi Hr. unfold suggestChainIfSupported.
  destruct (has_suggest p); [destruct chain_info as [info|] eqn:E|]; [|ret..].
  apply safe_await; [done..|]. intros r s' ? ? _. destruct r; ret.
Qed.

Definition set_account (sg : nat) (a : jsstr) (s : App) : App :=
  set_session {| signer := Some sg; address := a; client := client (session s) |} s.

Lemma set_account_inv sg a s : wallet_inv s → wallet_inv (set_account sg a s).
Proof. intros [? ? ? ?]. by split. Qed.

Lemma set_account_connected sg a s : a ≠ [] → connected (set_account sg a s) = true.
Proof. by destruct a. Qed.

Lemma signer_safe tr s0 s p : enabled config = true → chain_id config ≠ [] → wallet_inv s → wallet_rely s0 s →
  safe tr s0 (if has_getOfflineSigner p then await (CSigner (chain_id config))
              else await (CSignerAuto (chain_id config))) s (post tr (λ _ _ _, True)).
Proof.
  intros He Hc Hi Hr. destruct (has_getOfflineSigner p);
    [apply (safe_await (CSigner _)) | apply (safe_await (CSignerAuto _))]; try done;
    intros r s' ? ? _; destruct r; ret.
Qed.

Lemma connect_provider_safe tr s0 s name p : enabled config = true → chain_id config ≠ [] →
  wallet_inv s → wallet_rely s0 s →
  safe tr s0 (connect_provider name p) s (post tr is_connected).
Proof.
  intros He Hc Hi Hr. unfold connect_provider. apply safe_bind.
  eapply (safe_post _ tr); [done|apply (safe_await_fn _ _ _ _ (λ _ _ _, True)); [done|by apply suggest_safe]|].
  intros tr1 [[]|e] s1 s2 _ Ht1 Hi2 Hr2 _; [|ret].
  apply safe_bind, safe_await; [done..|]. intros [[]|e] s3 Hi3 Hr3 _; [|ret].
  apply safe_bind. eapply (safe_post _ tr); [by auto|by apply signer_safe|].
  intros tr4 [sg|e] s4 s5 Ht4 _ Hi5 Hr5 _; [|ret].
  apply safe_bind, safe_await; [done..|]. intros r s6 Hi6 Hr6 Ha. destruct r as [acc|e]; [|ret].
  destruct acc as [[|a l]|]; [ret| |ret].
  cbn in Ha. apply Forall_cons_1 in Ha as [Ha _]. cbn. split; [done|]. split; [done|].
  split; [by auto|]. split; [by apply (wallet_inv_eq (set_account sg a s6)), set_account_inv|].
  split; [|by apply (set_account_connected sg a s6)]. split; [by intros; apply (set_account_connected sg a s6)|done].
Qed.

Lemma connect_loop_safe ps : ∀ tr s0 s e0, enabled config = true → chain_id config ≠ [] →
  wallet_inv s → wallet_rely s0 s →
  safe tr s0 (connect_loop e0 ps) s (post tr is_connected).
Proof.
  induction ps as [|[name p] ps IH]; intros tr s0 s e0 He Hc Hi Hr; cbn [connect_loop]; [ret|].
  apply safe_try_bind. eapply (safe_post _ tr); [done|by apply connect_provider_safe|].
  intros tr1 [[]|e] s1 s2 Ht _ Hi2 Hr2 HΦ; [ret|].
  eapply (safe_post _ tr); [done|by apply IH|]. by intros.
Qed.

Lemma ensure_safe tr s0 s : wallet_inv s → wallet_rely s0 s →
  safe tr s0 ensureWalletConnected s (post tr is_connected).
Proof.
  intros Hi Hr. unfold ensureWalletConnected. destruct (enabled config) eqn:He; cbn [negb]; [|ret].
  cbn. destruct (connected s) eqn:Hc; [ret|].
  destruct (getWalletProviders (host s)) as [|p ps]; [ret|].
  destruct (chain_id config) eqn:Ec; [ret|]. destruct (rpc config); [ret|].
  apply connect_loop_safe; [done| |done..]. by rewrite Ec.
Qed.

Lemma await_ensure_safe tr s0 s : wallet_inv s → wallet_rely s0 s →
  safe tr s0 (await_fn ensureWalletConnected) s (post tr found_connected).
Proof. intros. apply safe_await_fn; [apply is_connected_stable|by apply ensure_safe]. Qed.

(** * The dependency cache *)

Definition page_deps (d : Deps) : Prop := ∃ defs, d_registry d = page_registry defs.
Definition found_deps (d : Deps) (tr : trace) (s : App) : Prop := page_deps d ∧ seen tr s.

Definition cache (p : option nat) (s : App) : App :=
  set_deps {| walletDepsPromise := p; promises := promises (deps s); m0_long := m0_long (deps s) |} s.

(** Caching a fresh promise when there is none. *)
Lemma spawn_inv s : wallet_inv s → walletDepsPromise (deps s) = None →
  wallet_inv (cache (Some (length (promises (deps s)))) (add_promise s)).
Proof.
  intros [Hs Hc Ho Hr] Hn. split; cbn; [done| | |].
  - intros p [= <-]. exists None. rewrite lookup_app_r, Nat.sub_diag by lia. split; [done|]. by intros [? ?].
  - intros p r Hp. apply lookup_app_Some in Hp as [Hp|[Hl Hp]].
    + destruct (Ho _ _ Hp) as [?|?]; [congruence|by right].
    + apply list_lookup_singleton_Some in Hp as [Hp <-]. left. f_equal. lia.
  - intros p d Hp. apply lookup_app_Some in Hp as [Hp|[_ Hp]]; [by eauto|].
    by apply list_lookup_singleton_Some in Hp as [_ ?].
Qed.

Lemma spawn_rely s : wallet_rely s (cache (Some (length (promises (deps s)))) (add_promise s)).
Proof. split; [done|]. intros p r Hp. by apply lookup_app_l_Some. Qed.

Lemma load_safe tr s0 s : wallet_inv s → wallet_rely s0 s →
  safe tr s0 loadWalletDeps s (post tr found_deps).
Proof.
  intros Hi Hr.
  assert (∀ p s1, walletDepsPromise (deps s1) = Some p → wallet_inv s1 → wallet_rely s0 s1 →
    safe tr s0 (await (CDeps p)) s1 (post tr found_deps)) as Hw.
  { intros p s1 Hp Hi1 Hr1. apply (safe_await (CDeps p)); [done..|].
    intros [d|e] s' Hi' Hr' Ha; ret. split; [by eapply inv_registry|apply seen_last]. }
  unfold loadWalletDeps. cbn. destruct (walletDepsPromise (deps s)) as [p|] eqn:E; [by apply Hw|].
  cbn. split; [done|]. apply (Hw (length (promises (deps s)))); [done|by apply spawn_inv|].
  eapply wallet_rely_trans; [done|apply spawn_rely].
Qed.

Lemma settle_rely id r s : pending id s → wallet_rely s (settle id r s).
Proof.
  intros Hp. split; [done|]. intros p x Hx. cbn.
  rewrite list_lookup_insert_ne; [done|]. intros ->. unfold pending in Hp. congruence.
Qed.

Lemma settle_lookup id r s p x : pending id s → promises (deps (settle id r s)) !! p = Some x →
  p = id ∧ x = Some r ∨ p ≠ id ∧ promises (deps s) !! p = Some x.
Proof.
  intros Hp. cbn. destruct (decide (p = id)) as [->|Hne].
  - rewrite list_lookup_insert_eq by by eapply lookup_lt_Some. intros [= <-]. by left.
  - rewrite list_lookup_insert_ne by done. by right.
Qed.

Lemma settle_ok_inv id d s : page_deps d → wallet_inv s → pending id s → wallet_inv (settle id (Ok d) s).
Proof.
  intros Hd [Hs Hc Ho Hr] Hp. split; [done| | |].
  - intros p Hcp. destruct (Hc p Hcp) as (r & Hl & Hn). destruct (decide (p = id)) as [->|Hne].
    + exists (Some (Ok d)). cbn. rewrite list_lookup_insert_eq by by eapply lookup_lt_Some.
      split; [done|]. by intros [? ?].
    + exists r. cbn. by rewrite list_lookup_insert_ne.
  - intros p r [[-> ->]|[Hne Hl]]%settle_lookup; [|by apply Ho|done].
    destruct (Ho _ _ Hp) as [?|[? ?]]; [by left|done].
  - intros p d' [[-> [= ->]]|[Hne Hl]]%settle_lookup; [done|by eapply Hr|done].
Qed.

(** The catch clause: no promise is cached, and the failed one is rejected. *)
Lemma settle_err_inv id e s : wallet_inv s → pending id s → wallet_inv (settle id (Err e) (cache None s)).
Proof.
  intros [Hs Hc Ho Hr] Hp. split; [done|done| |].
  - intros p r [[-> ->]|[Hne Hl]]%settle_lookup; [by right; eexists| |done].
    destruct (Ho _ _ Hl) as [Hcp|?]; [|by right]. destruct (Ho _ _ Hp) as [Hci|[? ?]]; [|done]. congruence.
  - intros p d' [[-> [= ]]|[Hne Hl]]%settle_lookup; [by eapply Hr|done].
Qed.

Ltac parked := refine (conj _ (conj _ (conj _ _))); [by auto | by auto | done | ].

Lemma loader_safe id s : wallet_inv s → pending id s →
  WalletMachine.safe wallet_world (λ s, wallet_inv s ∧ pending id s) wallet_rely (wallet_pre None) [] s loader s
    (λ _ r s0 s, wallet_inv (settle id r s) ∧ wallet_rely s0 (settle id r s)).
Proof.
  intros Hi Hp.
  assert (∀ err s1, wallet_inv s1 → pending id s1 →
    wallet_inv (settle id (Err (TError (dependencyLoadMessage err))) (cache None s1)) ∧
    wallet_rely s1 (settle id (Err (TError (dependencyLoadMessage err))) (cache None s1))) as Herr.
  { intros. split; [by apply settle_err_inv|]. apply (wallet_rely_trans _ (cache None s1)).
    - by apply wallet_rely_eq.
    - by apply settle_rely. }
  cbn. parked. intros [b|e] s1 [Hi1 Hp1] Hr1 _; cbn.
  - destruct (b_long b); cbn; [destruct (b_util_long b); cbn|].
    + parked. intros _ s2 [Hi2 Hp2] _ _. cbn.
      split; [apply settle_ok_inv; [by eexists|done..]|by apply settle_rely].
    + split; [done|]. split; [split; [|done]|]. { by destruct Hi1; split. }
      split; [by apply wallet_rely_eq|]. split; [done|].
      intros _ s2 [Hi2 Hp2] _ _. cbn.
      split; [apply settle_ok_inv; [by eexists|done..]|by apply settle_rely].
    + parked. intros _ s2 [Hi2 Hp2] _ _. cbn. split; [done|]. by apply Herr.
  - parked. intros _ s2 [Hi2 Hp2] _ _. cbn. split; [done|]. by apply Herr.
Qed.

(** * Transactions *)

Lemma answered_mono tr tr' c r : tr `prefix_of` tr' → answered tr c r → answered tr' c r.
Proof. intros [k ->]. unfold answered. rewrite fmap_app. intros ?. apply elem_of_app. by left. Qed.

Lemma verified_mono tr tr' a d : tr `prefix_of` tr' → verified tr a d → verified tr' a d.
Proof. intros Hp (r & e & ? & ? & ?). exists r, e. by eauto using answered_mono. Qed.

Lemma built_mono tr tr' m gas : tr `prefix_of` tr' → built w tr m gas → built w tr' m gas.
Proof.
  intros Hp [f sub s m' ? ? ? ?|f sub s m' ? ? ? ?|f sub s m' ? ? ? ?|f sub s s' d r ? ? ? ? ? ?].
  - apply (built_create_slot w tr' f sub s); by eauto using seen_mono.
  - apply (built_slot_status w tr' f sub s); by eauto using seen_mono.
  - apply (built_lease w tr' f sub s); by eauto using seen_mono.
  - apply (built_register w tr' f sub s s'); by eauto using seen_mono, verified_mono.
Qed.

Lemma connected_signer s : connected s = true → signer (session s) ≠ None ∧ address (session s) ≠ [].
Proof. unfold connected. by destruct (signer _), (address _). Qed.

Lemma set_client_inv c s : connected s = true → wallet_inv s →
  wallet_inv (set_session {| signer := signer (session s); address := address (session s); client := Some c |} s).
Proof. intros [? _]%connected_signer [? ? ? ?]. by split. Qed.

Lemma safe_start {A} tr (p : proc A) s0 s1 s tr0 Φ : wallet_rely s0 s1 →
  safe tr s1 p s (post tr0 Φ) → safe tr s0 p s (post tr0 Φ).
Proof.
  intros Hr. pose proof (wallet_rely_trans s0 s1) as Htr.
  revert tr s. induction p as [a|e|k IH|s2 k IH|k IH|c k IH]; cbn; intros tr s; eauto.
  - intros (? & ? & ? & ?). repeat (split; [by eauto|]). done.
  - intros (? & ? & ? & ?). repeat (split; [by eauto|]). done.
  - intros [? ?]. eauto.
  - intros (? & ? & ? & ?). split; [done|]. split; [by eauto|done].
Qed.

Lemma safe_frame {A} (F : App → Prop) tr (p : proc A) s0 s tr0 Φ :
  (∀ s s', F s → wallet_rely s s' → F s') → F s0 →
  safe tr s0 p s (post tr0 Φ) → safe tr s0 p s (post tr0 (λ a tr s, Φ a tr s ∧ F s)).
Proof.
  intros HF. revert tr s s0. induction p as [a|e|k IH|s2 k IH|k IH|c k IH]; cbn; intros tr s s0 Hs0.
  - intros (? & ? & ? & ?). do 3 (split; [done|]). split; [done|by eauto].
  - done.
  - by apply IH.
  - intros [? ?]. split; [done|]. by apply IH.
  - by apply IH.
  - intros (? & ? & ? & Hk). do 3 (split; [done|]). intros r s' ? ? ?. apply IH; by eauto.
Qed.

(** Calling a function whose specification is [post]: a stable fact [F] of the
    caller survives the call, and so does what the caller's trace shows. *)
Lemma safe_call {A} (F : App → Prop) tr1 tr s0 (p : proc A) s Φ Q :
  (∀ s s', F s → wallet_rely s s' → F s') → F s → tr1 `prefix_of` tr → wallet_rely s0 s →
  safe tr s p s (post tr Φ) →
  (∀ tr' a s0' s', tr1 `prefix_of` tr' → wallet_inv s' → wallet_rely s0' s' → F s' → Φ a tr' s' → Q tr' (Ok a) s0' s') →
  (∀ tr' e s0' s', tr1 `prefix_of` tr' → wallet_inv s' → wallet_rely s0' s' → Q tr' (Err e) s0' s') →
  safe tr s0 p s Q.
Proof.
  intros HF Hs Ht Hr Hp Hok Herr. apply (safe_frame F) in Hp; [|done..]. apply (safe_start _ _ s0) in Hp; [|done].
  eapply safe_mono; [|exact Hp]. intros tr' [a|e] s0' s' (Hpre & Hi & Hr' & HΦ).
  - destruct HΦ. apply Hok; try done. by etransitivity.
  - apply Herr; try done. by etransitivity.
Qed.

Lemma connected_stable s s' : connected s = true → wallet_rely s s' → connected s' = true.
Proof. intros ? [Hr _]. by apply Hr. Qed.
#[local] Hint Resolve connected_stable : core.

(** Enter a call to [p] with specification [spec], keeping the connection. *)
Ltac call_connected spec tr :=
  apply safe_bind; eapply (safe_call (λ s, connected s = true) tr);
    [exact connected_stable|done|done|done|apply spec; done| |by intros; ret].
Ltac call_first spec tr :=
  apply safe_bind; eapply (safe_call (λ s, True) tr);
    [done|done|done|done|apply spec; done| |by intros; ret].

Lemma get_client_safe tr s0 s : wallet_inv s → wallet_rely s0 s →
  safe tr s0 getClient s (post tr is_connected).
Proof.
  intros Hi Hr. unfold getClient. call_first await_ensure_safe tr.
  intros tr1 [] s1 s2 Ht1 Hi2 Hr2 _ [Hc2 _]. unfold is_connected in Hc2.
  cbn. destruct (client (session s2)); [ret|].
  destruct (toHttpRPC (rpc config)) as [|x r] eqn:Er; [ret|]. rewrite <- Er.
  call_connected load_safe tr. intros tr2 d s3 s4 Ht2 Hi4 Hr4 Hc4 [[defs Hd] _].
  destruct gas_price_of_config as [gp|e] eqn:Eg; cbn; [|ret].
  pose proof (connected_signer _ Hc4) as [Hsg _]. split; [done|]. split; [done|].
  split; [rewrite Er; by eauto 10|]. intros [c|e] s5 Hi5 Hr5 _; cbn; [|ret].
  assert (connected s5 = true) as Hc5 by eauto. split; [done|].
  refine (conj _ (conj _ (conj _ _))); [by auto|by apply set_client_inv|done|done].
Qed.

Lemma submit_safe tr s0 s m gas : built w tr m gas → wallet_inv s → wallet_rely s0 s →
  safe tr s0 (submitTx [m] gas) s (post tr (λ _ _ _, True)).
Proof.
  intros Hm Hi Hr. unfold submitTx. apply safe_bind.
  eapply (safe_call (λ _, True) tr); [done..| |
    |by intros; ret].
  { apply safe_await_fn; [apply is_connected_stable|by apply get_client_safe]. }
  intros tr1 c s1 s2 Ht1 Hi2 Hr2 _ [Hc2 _]. unfold is_connected in Hc2.
  call_connected load_safe tr. intros tr2 d s3 s4 Ht2 Hi4 Hr4 Hc4 _.
  destruct gas_price_of_config as [gp|e] eqn:Eg; cbn; [|ret].
  destruct (calculateFee gas gp) as [fee|e] eqn:Ef; cbn; [|ret].
  split; [done|]. split; [done|]. split.
  { repeat split; [done|]. exists m, gas, gp. split; [done|]. split; [by eapply built_mono|done]. }
  intros [res|e] s5 Hi5 Hr5 _; cbn; [|ret]. destruct (code res =? 0); ret.
Qed.

Lemma await_submit_safe tr s0 s m gas : built w tr m gas → wallet_inv s → wallet_rely s0 s →
  safe tr s0 (await_fn (submitTx [m] gas)) s (post tr (λ _ tr s, True ∧ seen tr s)).
Proof. intros. apply safe_await_fn; [done|by apply submit_safe]. Qed.

(** * The handlers *)

(** The postcondition of a handler; the clauses of [catch] only write to the
    page. *)
Definition handled : trace → result thrown unit → App → App → Prop :=
  λ _ _ s0 s, wallet_inv s ∧ wallet_rely s0 s.

Lemma dom_rely s0 s d : wallet_rely s0 s → wallet_rely s0 (set_dom d s).
Proof. intros Hr. eapply wallet_rely_trans; [done|]. by apply wallet_rely_eq. Qed.
Lemma dom_inv s d : wallet_inv s → wallet_inv (set_dom d s).
Proof. by apply wallet_inv_eq. Qed.
#[local] Hint Resolve dom_rely dom_inv : core.

Lemma flash_error_safe ctx err tr s0 s : wallet_inv s → wallet_rely s0 s →
  safe tr s0 (flash_error ctx err) s handled.
Proof. intros. destruct err; cbn; repeat (split; [by auto|]); by auto. Qed.

(** It is enough that the body keeps the invariant. *)
Lemma catch_safe tr s0 (p : proc unit) h s :
  (∀ err tr s0 s, wallet_inv s → wallet_rely s0 s → safe tr s0 (h err) s handled) →
  safe tr s0 p s (post tr (λ _ _ _, True)) → safe tr s0 (catch p h) s handled.
Proof.
  intros Hh Hp. apply safe_try_bind. eapply safe_mono; [|exact Hp].
  intros tr' [a|e] s0' s' (_ & ? & ? & _); [done|by apply Hh].
Qed.

Lemma safe_get_bind {B} tr s0 (f : App → proc B) s Q :
  safe tr s0 (f s) s Q → safe tr s0 (get_app ≫= f) s Q.
Proof. done. Qed.
Lemma safe_form_bind {B} tr s0 form (f : list (jsstr * jsstr) → proc B) s Q :
  safe tr s0 (f (default [] (forms (host s) !! form))) s Q → safe tr s0 (form_data form ≫= f) s Q.
Proof. done. Qed.
Lemma safe_result_bind {A B} tr s0 (r : result thrown A) (f : A → proc B) s Q :
  (∀ a, r = Ok a → safe tr s0 (f a) s Q) → (∀ e, r = Err e → Q tr (Err e) s0 s) →
  safe tr s0 (of_result r ≫= f) s Q.
Proof. intros Hok Herr. destruct r; [by apply Hok|by apply Herr]. Qed.

(** The last lines of a successful handler. *)
Ltac page_done := cbn; repeat (split; [by auto|]); by auto 6.
Ltac submit := apply safe_bind; eapply (safe_call (λ s, True) (@nil (App * event)));
  [done|done|apply prefix_nil|by auto|apply await_submit_safe; [|done|by auto]| |by intros; ret].

Lemma create_slot_handler_safe f sub s : w = Some (LCreateSlot f, sub) → wallet_inv s → safe [] s (on_create_slot f) s handled.
Proof.
  intros Hw Hi. apply catch_safe; [apply flash_error_safe|]. call_first await_ensure_safe (@nil (App * event)).
  intros tr1 [] s1 s2 Ht1 Hi2 Hr2 _ [Hc2 _]. unfold is_connected in Hc2.
  call_connected load_safe (@nil (App * event)). intros tr2 d s3 s4 Ht2 Hi4 Hr4 Hc4 [_ Hs4].
  apply safe_form_bind, safe_get_bind, safe_result_bind; [|intros; ret]. intros m Em. submit.
  { eapply (built_create_slot w tr2 f sub s4); [done|done| |done]. by apply connected_signer. }
  intros tr3 h s5 s6 Ht3 Hi6 Hr6 _ _. page_done.
Qed.

Lemma slot_status_handler_safe f sub s : w = Some (LSlotStatus f, sub) → wallet_inv s → safe [] s (on_slot_status f sub) s handled.
Proof.
  intros Hw Hi. apply catch_safe; [apply flash_error_safe|]. call_first await_ensure_safe (@nil (App * event)).
  intros tr1 [] s1 s2 Ht1 Hi2 Hr2 _ [Hc2 Hs2]. unfold is_connected in Hc2.
  apply safe_form_bind, safe_get_bind, safe_result_bind; [|intros; ret]. intros m Em. submit.
  { eapply (built_slot_status w tr1 f sub s2); [done|done| |done]. by apply connected_signer. }
  intros tr3 h s5 s6 Ht3 Hi6 Hr6 _ _. page_done.
Qed.

Lemma lease_handler_safe f sub s : w = Some (LLease f, sub) → wallet_inv s → safe [] s (on_lease f) s handled.
Proof.
  intros Hw Hi. apply catch_safe; [apply flash_error_safe|]. call_first await_ensure_safe (@nil (App * event)).
  intros tr1 [] s1 s2 Ht1 Hi2 Hr2 _ [Hc2 _]. unfold is_connected in Hc2.
  call_connected load_safe (@nil (App * event)). intros tr2 d s3 s4 Ht2 Hi4 Hr4 Hc4 [_ Hs4].
  apply safe_form_bind, safe_get_bind, safe_result_bind; [|intros; ret]. intros m Em. submit.
  { eapply (built_lease w tr2 f sub s4); [done|done| |done]. by apply connected_signer. }
  intros tr3 h s5 s6 Ht3 Hi6 Hr6 _ _. page_done.
Qed.

Lemma register_checks_ok a data d r : register_checks a data = Ok (d, r) →
  d ≠ [] ∧ a = field data (js "wallet") ∧ a ≠ [] ∧
  d = toLowerCase (field data (js "domain")) ∧ r = field data (js "referrer") ∧
  (r = [] ∨ isLikelyGridAddress r = true).
Proof.
  unfold register_checks. destruct (toLowerCase _) as [|x l] eqn:Ed; [done|]. cbn.
  destruct (field data (js "wallet")) as [|x0 ws] eqn:Ew; [done|]. cbn.
  destruct (bool_decide_reflect (x0 :: ws = a)) as [<-|]; [|done]. cbn.
  destruct (is_empty (field data (js "referrer"))) eqn:Er; cbn.
  - intros [= <- <-]. repeat split; [done..|]. left. by destruct (field data (js "referrer")).
  - destruct (isLikelyGridAddress _) eqn:El; [|done]. cbn. intros [= <- <-]. repeat split; [done..|]. by right.
Qed.

Lemma check_verification_ok b v u : check_verification b v = Ok u → b = true ∧ ∃ e, v = JObj true e.
Proof. destruct v as [|ok e], b; try done; destruct ok; [by eauto|done]. Qed.

Lemma register_handler_safe f sub s : w = Some (LRegister f, sub) → wallet_inv s → safe [] s (on_publisher_register f) s handled.
Proof.
  intros Hw Hi. apply catch_safe.
  { intros err tr s0 s' ? ?. cbn. split; [done|]. apply flash_error_safe; by auto. }
  call_first await_ensure_safe (@nil (App * event)). intros tr1 [] s1 s2 Ht1 Hi2 Hr2 _ [Hc2 Hs2]. unfold is_connected in Hc2.
  apply safe_form_bind, safe_get_bind, safe_result_bind; [|intros; ret]. intros [domain referrer] Ec.
  pose proof (register_checks_ok _ _ _ _ Ec) as (Hd & _ & Ha & _).
  apply safe_bind, (safe_await (CFetch domain (address (session s2)))); [done..|].
  intros [response|e] s3 Hi3 Hr3 _; [|ret]. assert (connected s3 = true) as Hc3 by by eapply connected_stable.
  apply safe_bind, safe_try_bind, (safe_await (CJson (r_body response))); [by auto..|].
  intros jr s4 Hi4 Hr4 _. assert (connected s4 = true) as Hc4 by by eapply connected_stable.
  assert (∀ v, jr = Ok v ∨ v = JObj false None →
    safe ((tr1 ++ [(s3, existT (CFetch domain (address (session s2))) (Ok response))])
           ++ [(s4, existT (CJson (r_body response)) jr)]) s4
      (of_result (check_verification (r_ok response) v);;
       s ← get_app;
       txHash ← await_fn (submitTx [register_msg (address (session s)) domain referrer] (num_of_Z 220000));
       showFlash (t (js "Registration submitted; verifier confirmation pending. Tx: {0}") [I18n.AStr txHash])
         false (Some f)) s4 (post [] (λ _ _ _, True))) as Hgo.
  { intros v Hv. apply safe_result_bind; [|intros; refine (conj _ (conj _ (conj _ _))); by auto using prefix_nil].
    intros u [Hok [er ->]]%check_verification_ok. destruct Hv as [->|?]; [|done].
    apply safe_get_bind. submit.
    - eapply (built_register w _ f sub s2 s4); [done| |apply seen_last|by apply connected_signer|done|].
      + eapply seen_mono; [|exact Hs2]. rewrite <- app_assoc. by apply prefix_app_r.
      + exists response, er. split; [done|]. unfold answered. rewrite !fmap_app. cbn. split; set_solver.
    - intros tr3 h s5 s6 Ht3 Hi6 Hr6 _ _. page_done. }
  destruct jr as [v|e]; cbn [of_result]; apply Hgo; by auto.
Qed.

Lemma handler_safe l sub s : w = Some (l, sub) → wallet_inv s → safe [] s (handler l sub) s handled.
Proof.
  intros Hw Hi. destruct l as [b|f|f|f|f]; cbn [handler].
  - apply catch_safe; [apply flash_error_safe|]. call_first await_ensure_safe (@nil (App * event)).
    intros tr1 [] s1 s2 Ht1 Hi2 Hr2 _ _. page_done.
  - by eapply create_slot_handler_safe.
  - by eapply slot_status_handler_safe.
  - by eapply lease_handler_safe.
  - by eapply register_handler_safe.
Qed.
End Protocol.
