(* ===== verification/WalletForms.v ===== *)
(** What each form of the page sends: the message as a function of the form, the clock and
    the account on a page that its handler has found, and the checks it has passed
    ([src/cmd/congrid-site/static/wallet.js], the [bind*Forms] functions); and that what the
    handlers of [WalletApp] build is such a message. *)

From S2P Require Import Prelude JsBase JsLong SiteScripts WalletMsgs WalletFee WalletPure WalletApp WalletMachine WalletProofs.

(** * The rules of the forms *)

Section Rules.
Context `{PageEnv}.

(** A field that must not be empty, with its text. *)
Definition required (data : list (jsstr * jsstr)) (name text : jsstr) : Prop := field data name = text ∧ text ≠ [].

(** A number that is finite, whole and not negative. *)
Definition whole (n : jsnum) : Prop := num_is_finite n = true ∧ num_is_integer n = true ∧ num_neg n = false.

(** The status that each button of a slot asks for. *)
Definition slot_action (action : jsstr) (status : Z) : Prop :=
  action = js "activate" ∧ status = 1 ∨ action = js "pause" ∧ status = 2 ∨ action = js "unlist" ∧ status = 3.

(** The start of a lease, for the date that was typed: without a date the chain chooses it;
    a date is midnight UTC of a day that is not more than a day past, and one that has
    passed becomes five minutes from now. *)
Definition start_rule (now : Z) (date : jsstr) (start : Z) : Prop :=
  date = [] ∧ start = 0 ∨
  ∃ year month day midnight, split_on 45 date = [year; month; day] ∧
    date_utc (to_number year) (num_add_int (to_number month) (-1)) (to_number day) = Some midnight ∧
    now - 86400000 ≤ midnight ∧ start = (if midnight <? now then now + 300000 else midnight) / 1000.

Definition create_rule (a : jsstr) (data : list (jsstr * jsstr)) (m : EncodeObject) : Prop :=
  ∃ domain label rate, required data (js "publisher") domain ∧ required data (js "label") label ∧ required data (js "rate") rate ∧
    whole (to_number rate) ∧
    m = {| typeUrl := url_create_slot; value := VCreateSlot {|
      pcs_publisher := Some a; pcs_domain := Some domain; pcs_label := Some label; pcs_summary := Some (field data (js "summary"));
      pcs_category := Some (field data (js "category")); pcs_placement := Some (field data (js "placement"));
      pcs_size := Some (field data (js "size")); pcs_rateDenom := Some (str_or (slot_rate_denom config) (js "ucongrid"));
      pcs_rateAmount := Some (int_to_string (to_number rate));
      pcs_unitSeconds := Some (LLong (fromNumber (num_or (slot_unit_seconds config) (num_of_Z 0))));
      pcs_minDurationSeconds := Some (LLong (fromNumber (num_or (slot_min_duration_seconds config) (num_of_Z 0))));
      pcs_maxDurationSeconds := Some (LLong (fromNumber (num_or (slot_max_duration_seconds config) (num_of_Z 0))));
      pcs_tags := Some [] |} |}.

Definition status_rule (a : jsstr) (submitter : option jsstr) (data : list (jsstr * jsstr)) (m : EncodeObject) : Prop :=
  ∃ slot status, required data (js "slot_id") slot ∧ slot_action (default (field data (js "action")) submitter) status ∧
    m = {| typeUrl := url_update_slot_status; value := VUpdateSlotStatus {|
      pus_publisher := Some a; pus_slotId := Some slot; pus_status := Some status |} |}.

Definition lease_rule (now : Z) (a : jsstr) (data : list (jsstr * jsstr)) (m : EncodeObject) : Prop :=
  ∃ slot target start, required data (js "slot_id") slot ∧ required data (js "target_url") target ∧
    start_rule now (field data (js "start_date")) start ∧
    let duration := to_number (field data (js "duration_seconds")) in
    whole duration ∧ 0 < long_val (fromNumber duration) ∧
    m = {| typeUrl := url_lease_slot; value := VLeaseSlot {|
      pls_lessee := Some a; pls_slotId := Some slot; pls_targetUrl := Some target;
      pls_startsAtUnix := Some (LLong (fromNumber (num_of_Z start))); pls_durationSeconds := Some (LLong (fromNumber duration)) |} |}.

(** [checked] is the account that was connected when the form was read, [a] the one when
    the server had answered. *)
Definition register_rule (tr : trace) (checked a : jsstr) (data : list (jsstr * jsstr)) (m : EncodeObject) : Prop :=
  ∃ domain, toLowerCase (field data (js "domain")) = domain ∧ domain ≠ [] ∧ required data (js "wallet") checked ∧
    (field data (js "referrer") = [] ∨ isLikelyGridAddress (field data (js "referrer")) = true) ∧ verified tr checked domain ∧
    m = {| typeUrl := url_register_publisher; value := VRegisterPublisher {|
      prp_owner := Some a; prp_domain := Some domain; prp_metadataUri := Some []; prp_proof := Some []; prp_verifier := Some [];
      prp_referrer := Some (field data (js "referrer")) |} |}.

(** What the handler of a listener sends, [tr] being what it was answered and the pages it
    found; a connect button sends nothing. *)
Definition message_valid (l : listener) (submitter : option jsstr) (tr : trace) (m : EncodeObject) : Prop :=
  ∃ s, seen tr s ∧
  let a := address (session s) in a ≠ [] ∧
  match l with
  | LConnect _ => False
  | LCreateSlot f => create_rule a (form_of f s) m
  | LSlotStatus f => status_rule a submitter (form_of f s) m
  | LLease f => lease_rule (clock (host s)) a (form_of f s) m
  | LRegister f => ∃ s0, seen tr s0 ∧ register_rule tr (address (session s0)) a (form_of f s0) m
  end.

(** The gas limit of each form: the configured one, or that of the page. *)
Definition gas_limit (l : listener) : jsnum :=
  match l with
  | LConnect _ => num_of_Z 0
  | LCreateSlot _ => num_or (gas_create_slot config) (num_of_Z 220000)
  | LSlotStatus _ => num_or (gas_update_slot config) (num_of_Z 140000)
  | LLease _ => num_or (gas_lease_slot config) (num_of_Z 220000)
  | LRegister _ => num_of_Z 220000
  end.

(** * The handlers keep the rules *)

Lemma is_empty_false s : is_empty s = false → s ≠ [].
Proof. by destruct s. Qed.

Lemma required_field data name : is_empty (field data name) = false → required data name (field data name).
Proof. intros He. split; [done|by apply is_empty_false]. Qed.
#[local] Hint Resolve required_field : core.

(** Strip the guards of a checked computation. *)
Ltac guards Hm :=
  repeat (apply bind_Ok_inv in Hm as ([] & ?Hg%guard_err_Ok_inv & Hm)).

Lemma create_slot_rule a data m : create_slot_msg a data = Ok m → create_rule a data m.
Proof.
  intros Hm. unfold create_slot_msg in Hm. guards Hm. injection Hm as <-. zb. eexists _, _, _. by split_and!; [eauto..|split_and!|].
Qed.

Lemma slot_status_rule a sub data m : slot_status_msg a sub data = Ok m → status_rule a sub data m.
Proof.
  intros Hm. unfold slot_status_msg in Hm. guards Hm. apply bind_Ok_inv in Hm as (st & Hst & Hm). injection Hm as <-.
  eexists _, _. split; [by eauto|]. split; [|done]. unfold slot_action.
  assert (default (field data (js "action")) sub = match sub with Some v => v | None => field data (js "action") end) as -> by (by destruct sub).
  repeat case_bool_decide; simplify_eq; by auto.
Qed.

Lemma fromNumber_positive x : num_wf x → num_is_finite x = true → num_is_integer x = true →
  num_neg x = false → num_is_zero x = false → 0 < long_val (fromNumber x).
Proof.
  destruct x as [| |neg m e]; try done. cbn [num_wf num_neg num_is_zero]. intros Hm _ Hi Hn Hz.
  rewrite Hz in Hn. cbn in Hn. rewrite andb_true_r in Hn. subst neg. zb.
  rewrite (fromNumber_val false m e (mag_trunc m e)) by done.
  assert (0 < mag_trunc m e); [|lia]. unfold mag_trunc. cbn [num_is_integer] in Hi.
  destruct (Z.leb_spec 0 e) as [He|He]; cbn [orb] in Hi.
  - pose proof (pow2_pos e He). nia.
  - zb. pose proof (pow2_pos (- e) ltac:(lia)). Z.to_euclidean_division_equations; nia.
Qed.

Lemma start_date_rule now v st : parseStartDate now v = Ok st → start_rule now v st.
Proof.
  unfold parseStartDate. destruct v as [|c v]; [intros [= <-]; by left|]. destruct (split_on 45 (c :: v)) as [|p0 [|p1 [|p2 [|p3 ps]]]] eqn:Es; try done.
  destruct (date_utc _ _ _) as [ms|] eqn:E; [|done]. destruct (Z.ltb_spec ms (now - 24 * 60 * 60 * 1000)) as [?|Hge]; [done|]. intros [= <-].
  right. exists p0, p1, p2, ms. split; [done|]. split; [done|]. split; [lia|done].
Qed.

Lemma lease_form_rule now a data m : lease_msg now a data = Ok m → lease_rule now a data m.
Proof.
  intros Hm. unfold lease_msg in Hm. guards Hm. apply bind_Ok_inv in Hm as (st & Hst & Hm). injection Hm as <-. zb.
  eexists _, _, st. split; [by eauto|]. split; [by eauto|]. split; [by apply start_date_rule|].
  split; [by split_and!|]. split; [|done]. apply fromNumber_positive; try done. apply to_number_wf.
Qed.

Lemma register_form_rule tr a0 a data d r : register_checks a0 data = Ok (d, r) → verified tr a0 d → register_rule tr a0 a data (register_msg a d r).
Proof.
  intros (Hd & Hw & Ha & Hl & -> & Hr)%register_checks_ok Hv. exists d. unfold required. by rewrite <- Hw.
Qed.

Lemma built_valid l sub tr m gas : built (Some (l, sub)) tr m gas → message_valid l sub tr m ∧ gas = gas_limit l.
Proof.
  intros [f sub' s m' [= -> <-] Hs Ha Hm|f sub' s m' [= -> <-] Hs Ha Hm|f sub' s m' [= -> <-] Hs Ha Hm|f sub' s s' d r [= -> <-] Hs Hs' Ha Hm Hv];
    (split; [|done]).
  - exists s. split; [done|]. split; [done|]. by apply create_slot_rule.
  - exists s. split; [done|]. split; [done|]. by apply slot_status_rule.
  - exists s. split; [done|]. split; [done|]. by apply lease_form_rule.
  - exists s'. split; [done|]. split; [done|]. exists s. split; [done|]. by apply register_form_rule.
Qed.
End Rules.
