(* ===== verification/WalletOutcome.v ===== *)
(** How the handlers of [src/cmd/congrid-site/static/wallet.js] end: after a bounded number
    of answers, and with a message to the user that says truly whether the transaction went
    through.  [ends] runs a program against any answers, over any changes that others make
    to the page meanwhile. *)

From S2P Require Import Prelude JsBase JsLong SiteScripts WalletMsgs WalletFee WalletPure WalletApp WalletMachine WalletProofs WalletForms.

(** * Programs that end *)

(** After at most [n] answers the program has ended, and then [Q] holds of what it was
    answered, its result and the page it leaves. *)
Fixpoint ends {A} (n : nat) (tr : trace) (p : proc A) (s : App) (Q : trace → result thrown A → App → Prop) : Prop :=
  match p with
  | Ret a => Q tr (Ok a) s
  | Raise e => Q tr (Err e) s
  | Get k => ends n tr (k s) s Q
  | Put s' k => ends n tr k s' Q
  | Spawn k => ends n tr (k (length (promises (deps s)))) (add_promise s) Q
  | Await c k => match n with O => False | S n' => ∀ r s', ends n' (tr ++ [(s', existT c r)]) (k r) s' Q end
  end.

(** The hash of a transaction that went through: the client answered with code zero. *)
Definition tx_hash (e : event) : option jsstr :=
  match e with
  | existT (CBroadcast _ _ _ _ _) (Ok res) => if code res =? 0 then Some (transactionHash res) else None
  | _ => None
  end.

(** A transaction of the handler went through, with this hash. *)
Definition delivered (tr : trace) (hash : jsstr) : Prop := ∃ e, e ∈ tr.*2 ∧ tx_hash e = Some hash.

(** An error that has no properties comes from outside of the page. *)
Definition blamed (tr : trace) (e : thrown) : Prop :=
  match e with TNullish _ => ∃ c, answered tr c (Err e) | _ => True end.

(** ** Rules *)

Lemma ends_mono {A} (p : proc A) n n' tr s (Q Q' : trace → result thrown A → App → Prop) : (n ≤ n')%nat →
  (∀ tr r s, Q tr r s → Q' tr r s) → ends n tr p s Q → ends n' tr p s Q'.
Proof.
  intros Hn HQ. revert n n' tr s Hn. induction p as [a|e|k IH|s1 k IH|k IH|c k IH]; cbn; intros n n' tr s Hn Hp; eauto.
  destruct n as [|n]; [done|]. destruct n' as [|n']; [lia|]. intros r s'. apply (IH r n); [lia|done].
Qed.

Lemma ends_try_bind {A B} (p : proc A) (f : result thrown A → proc B) n k tr s Q :
  ends n tr p s (λ tr r s, ends k tr (f r) s Q) → ends (n + k) tr (try_bind p f) s Q.
Proof.
  revert n tr s. induction p as [a|e|g IH|s1 g IH|g IH|c g IH]; cbn; intros n tr s Hp; eauto.
  - by eapply (ends_mono _ k); [lia| |exact Hp].
  - by eapply (ends_mono _ k); [lia| |exact Hp].
  - destruct n as [|n]; [done|]. intros r s'. by apply IH.
Qed.

(** A part of a program: what it needs of the pages it leaves the rest to find out. *)
Lemma ends_part {A B} (p : proc A) (f : result thrown A → proc B) n k tr s (Q : trace → result thrown A → App → Prop) Q' :
  ends n tr p s Q → (∀ tr' r s', Q tr' r s' → ends k tr' (f r) s' Q') → ends (n + k) tr (try_bind p f) s Q'.
Proof. intros Hp Hf. apply ends_try_bind. by eapply ends_mono; [| |exact Hp]; [lia|]. Qed.

Lemma answered_last tr s c r : answered (tr ++ [(s, existT c r)]) c r.
Proof. unfold answered. rewrite fmap_app. apply elem_of_app. right. by left. Qed.

Lemma blamed_mono tr tr' e : tr `prefix_of` tr' → blamed tr e → blamed tr' e.
Proof. intros Hp. destruct e; try done. intros [c Hc]. exists c. by eapply answered_mono. Qed.

(** * Functions that send no transaction *)

Definition is_broadcast (c : call) : bool := match c with CBroadcast _ _ _ _ _ => true | _ => false end.

(** It ends, nothing was delivered meanwhile, and its errors are not its own unless they
    carry a message. *)
Definition quietly {A} (n : nat) (p : proc A) : Prop :=
  ∀ tr s, ends n tr p s (λ tr' r _, (∀ h, delivered tr' h → delivered tr h) ∧ match r with Ok _ => True | Err e => blamed tr' e end).

Lemma delivered_last tr s e h : delivered (tr ++ [(s, e)]) h ↔ delivered tr h ∨ tx_hash e = Some h.
Proof.
  unfold delivered. rewrite fmap_app. split.
  - intros (x & [Hx|Hx]%elem_of_app & Hh); [left; by exists x|right]. by apply list_elem_of_singleton in Hx as ->.
  - intros [(x & Hx & Hh)|Hh]; [exists x|exists e]; (split; [apply elem_of_app|done]); [by left|right; by left].
Qed.

Lemma delivered_app tr s c r h : delivered (tr ++ [(s, existT c r)]) h → is_broadcast c = false → delivered tr h.
Proof. rewrite delivered_last. intros [?|Hh] Hb; [done|]. by destruct c. Qed.

Lemma quietly_mono {A} n n' (p : proc A) : (n ≤ n')%nat → quietly n p → quietly n' p.
Proof. intros Hn Hp tr s. by eapply ends_mono; [exact Hn| |apply Hp]. Qed.

Lemma quietly_try_bind {A B} n k (p : proc A) (f : result thrown A → proc B) :
  quietly n p → (∀ a, quietly k (f (Ok a))) → (∀ e, quietly k (f (Err e)) ∨ f (Err e) = Raise e) → quietly (n + k) (try_bind p f).
Proof.
  intros Hp Hok Herr tr s. eapply ends_part; [apply Hp|]. intros tr' [a|e] s' [Hq Hb].
  - eapply ends_mono; [reflexivity| |apply Hok]. intros tr2 r s2 [? ?]. split; [by auto|done].
  - destruct (Herr e) as [He| ->]; [|by split]. eapply ends_mono; [reflexivity| |apply He]. intros tr2 r s2 [? ?]. split; [by auto|done].
Qed.

Lemma quietly_bind {A B} n k (p : proc A) (f : A → proc B) : quietly n p → (∀ a, quietly k (f a)) → quietly (n + k) (p ≫= f).
Proof. intros Hp Hf. apply quietly_try_bind; [done|done|]. by right. Qed.

Lemma quietly_ret {A} n (a : A) : quietly n (Ret a).
Proof. by intros tr s. Qed.
Lemma quietly_error {A} n m : quietly n (Raise (A := A) (TError m)).
Proof. by intros tr s. Qed.

Lemma quietly_await c : is_broadcast c = false → quietly 1 (await c).
Proof.
  intros Hc tr s r s'. destruct r as [x|e]; cbn; (split; [intros h Hh; by eapply delivered_app|]); [done|].
  destruct e; try done. exists c. apply answered_last.
Qed.

(** The turn after a function that was awaited. *)
Lemma quietly_tick {A} (r : result thrown A) tr s (Q : trace → result thrown A → App → Prop) :
  (∀ s', Q (tr ++ [(s', existT CTick (Ok tt))]) r s') → (∀ s' e, Q (tr ++ [(s', existT CTick (Err e))]) r s') →
  ends 1 tr (Await CTick (λ _, of_result r)) s Q.
Proof. intros H1 H2 [[]|e] s'; destruct r; cbn; auto. Qed.

Lemma quietly_await_fn {A} n (p : proc A) : quietly n p → quietly (n + 1) (await_fn p).
Proof.
  intros Hp tr s. eapply ends_part; [apply Hp|]. intros tr' r s' [Hq Hb].
  apply quietly_tick; intros; (split; [intros h Hh; by apply Hq; eapply delivered_app|]); destruct r; try done;
    (eapply blamed_mono; [|exact Hb]); by apply prefix_app_r.
Qed.

Lemma quietly_get {A} n (f : App → proc A) : (∀ s, quietly n (f s)) → quietly n (get_app ≫= f).
Proof. intros Hf tr s. apply Hf. Qed.
Lemma quietly_spawn {A} n (f : nat → proc A) : (∀ i, quietly n (f i)) → quietly n (Spawn Ret ≫= f).
Proof. intros Hf tr s. apply Hf. Qed.
Lemma quietly_modify n f : quietly n (modify f).
Proof. by intros tr s. Qed.

(** An error the page makes itself. *)
Definition own {A} (r : result thrown A) : Prop := ∀ e, r = Err e → ∃ m, e = TError m.
Lemma quietly_of_result {A} n (r : result thrown A) : own r → quietly n (of_result r).
Proof. intros Hr tr s. destruct r as [a|e]; [done|]. destruct (Hr e eq_refl) as [m ->]. done. Qed.

Lemma own_ok {A} (a : A) : own (Ok a).
Proof. by intros e. Qed.
Lemma own_err {A} m : own (A := A) (Err (TError m)).
Proof. intros e [= <-]. by exists m. Qed.
Lemma own_bind {A B} (r : result thrown A) (f : A → result thrown B) : own r → (∀ a, own (f a)) → own (r ≫= f).
Proof. intros Hr Hf. destruct r as [a|e]; [apply Hf|]. destruct (Hr e eq_refl) as [m ->]. apply own_err. Qed.
Lemma own_guard b m : own (guard_err b (TError m)).
Proof. destruct b; [apply own_err|apply own_ok]. Qed.

Create HintDb quiet.
#[export] Hint Resolve own_ok own_err own_guard quietly_ret quietly_error quietly_modify quietly_await : quiet.

(** * The functions of the page *)

Section Page.
Context `{PageEnv}.

Lemma own_error_t {A} m : own (A := A) (Err (error_t m)).
Proof. apply own_err. Qed.
Lemma own_guard_t b m : own (guard_err b (error_t m)).
Proof. apply own_guard. Qed.
#[local] Hint Resolve own_error_t own_guard_t : quiet.

(** Checks one after the other. *)
Ltac owns := repeat (apply own_bind; [solve [auto with quiet]|intros _]); auto with quiet.

Lemma create_slot_own a data : own (create_slot_msg a data).
Proof. unfold create_slot_msg. cbv zeta. owns. Qed.
Lemma slot_status_own a sub data : own (slot_status_msg a sub data).
Proof.
  unfold slot_status_msg. cbv zeta. apply own_bind; [auto with quiet|intros _]. apply own_bind; [|auto with quiet].
  repeat case_bool_decide; auto with quiet.
Qed.
Lemma start_date_own now v : own (parseStartDate now v).
Proof.
  unfold parseStartDate. destruct v as [|c v]; [apply own_ok|]. destruct (split_on 45 (c :: v)) as [|p0 [|p1 [|p2 [|p3 ps]]]]; auto with quiet.
  cbv zeta. destruct (date_utc _ _ _); auto with quiet. destruct (_ <? _); auto with quiet.
Qed.
Lemma lease_own now a data : own (lease_msg now a data).
Proof.
  unfold lease_msg. cbv zeta. do 2 (apply own_bind; [auto with quiet|intros _]). apply own_bind; [apply start_date_own|auto with quiet].
Qed.
Lemma register_own a data : own (register_checks a data).
Proof. unfold register_checks. cbv zeta. owns. Qed.
Lemma check_verification_own b v : own (check_verification b v).
Proof. destruct v; [destruct b|]; cbn; auto with quiet. Qed.
Lemma gas_price_own : own gas_price_of_config.
Proof. unfold gas_price_of_config. destruct (gas_price_from_string _); auto with quiet. Qed.
Lemma fee_own gas p : own (match calculateFee gas p with Ok f => Ok f | Err m => Err (TError m) end).
Proof. destruct (calculateFee gas p); auto with quiet. Qed.

Lemma connect_provider_quiet name p : quietly 5 (connect_provider name p).
Proof.
  apply (quietly_bind 2 3).
  { apply (quietly_await_fn 1). unfold suggestChainIfSupported. destruct (has_suggest p); [|auto with quiet].
    destruct chain_info; [by apply (quietly_await (CSuggest _))|auto with quiet]. }
  intros _. apply (quietly_bind 1 2); [by apply (quietly_await (CEnable _))|]. intros _.
  apply (quietly_bind 1 1). { destruct (has_getOfflineSigner p); [by apply (quietly_await (CSigner _))|by apply (quietly_await (CSignerAuto _))]. }
  intros sg. apply (quietly_bind 1 0); [by apply (quietly_await (CAccounts _))|].
  intros [[|a l]|]; auto with quiet. apply (quietly_bind 0 0); [apply quietly_modify|]. intros _. apply quietly_modify.
Qed.

Lemma ensure_quiet : quietly 5 ensureWalletConnected.
Proof.
  unfold ensureWalletConnected. destruct (negb _); [apply quietly_error|]. apply quietly_get. intros s. destruct (connected s); [apply quietly_ret|].
  unfold getWalletProviders. destruct (keplr (host s)) as [p|]; [|apply quietly_error].
  destruct (chain_id config), (rpc config); try apply quietly_error. cbn [connect_loop].
  apply (quietly_try_bind 5 0); [apply connect_provider_quiet|auto with quiet|]. intros e. left. apply quietly_error.
Qed.

Lemma load_quiet : quietly 1 loadWalletDeps.
Proof.
  apply quietly_get. intros s. destruct (walletDepsPromise (deps s)); [by apply (quietly_await (CDeps _))|].
  apply quietly_spawn. intros p. apply (quietly_bind 0 1); [apply quietly_modify|]. intros _. by apply (quietly_await (CDeps _)).
Qed.

Lemma client_quiet : quietly 8 getClient.
Proof.
  apply (quietly_bind 6 2); [apply (quietly_await_fn 5), ensure_quiet|]. intros _. apply quietly_get. intros s.
  destruct (client (session s)); [apply quietly_ret|]. destruct (toHttpRPC _); [apply quietly_error|].
  apply (quietly_bind 1 1); [apply load_quiet|]. intros d. apply (quietly_bind 0 1); [apply quietly_of_result, gas_price_own|]. intros p.
  apply quietly_get. intros s'. apply (quietly_bind 1 0); [by apply (quietly_await (CConnect _ _ _ _))|]. intros c.
  apply (quietly_bind 0 0); [apply quietly_modify|]. intros _. apply quietly_ret.
Qed.

(** * Transactions *)

(** What is left after a transaction: it went through with the hash that is returned, or
    nothing did. *)
Definition sent (tr tr' : trace) (r : result thrown jsstr) : Prop :=
  match r with
  | Ok h => delivered tr' h ∧ ∀ h', delivered tr' h' → delivered tr h' ∨ h' = h
  | Err e => (∀ h, delivered tr' h → delivered tr h) ∧ blamed tr' e
  end.

(** Before the transaction. *)
Lemma quiet_then {A} n k (p : proc A) (f : A → proc jsstr) tr s : quietly n p → (∀ a tr s, ends k tr (f a) s (λ tr' r _, sent tr tr' r)) →
  ends (n + k) tr (p ≫= f) s (λ tr' r _, sent tr tr' r).
Proof.
  intros Hp Hf. eapply ends_part; [apply Hp|]. intros tr1 [a|e] s1 [Hq Hb]; [|by split]. eapply ends_mono; [reflexivity| |apply Hf].
  intros tr2 [h|e] s2 Hs; cbn in *; [|naive_solver]. destruct Hs as [? Hs]. split; [done|]. intros h' Hh. destruct (Hs h' Hh); auto.
Qed.

Lemma submit_delivers msgs gas tr s : ends 11 tr (submitTx msgs gas) s (λ tr' r _, sent tr tr' r).
Proof.
  apply (quiet_then 9 2); [apply (quietly_await_fn 8), client_quiet|]. clear. intros c tr s.
  apply (quiet_then 1 1); [apply load_quiet|]. clear. intros d tr s.
  apply (quiet_then 0 1); [apply quietly_of_result, gas_price_own|]. clear. intros p tr s.
  apply (quiet_then 0 1); [apply quietly_of_result, fee_own|]. clear. intros fee tr s [res|e] s'; cbn.
  - destruct (Z.eqb_spec (code res) 0) as [Hc|Hc]; cbn; setoid_rewrite delivered_last; cbn; rewrite ?Hc; cbn; [naive_solver|].
    rewrite (proj2 (Z.eqb_neq _ _) Hc). naive_solver.
  - setoid_rewrite delivered_last. cbn. split; [naive_solver|]. destruct e; try done. exists (CBroadcast c (address (session s)) msgs fee []). apply answered_last.
Qed.

Lemma await_submit_sent msgs gas tr s : ends 12 tr (await_fn (submitTx msgs gas)) s (λ tr' r s', sent tr tr' r ∧ seen tr' s').
Proof.
  eapply (ends_part _ _ 11 1); [apply submit_delivers|]. intros tr' r s' Hs.
  apply quietly_tick; intros; (split; [|apply seen_last]); destruct r; cbn in *; setoid_rewrite delivered_last; cbn;
    (split; [naive_solver|]); try naive_solver; (eapply blamed_mono; [by apply prefix_app_r|tauto]).
Qed.

(** * What the user is told *)

(** The text is on the page: in the flash element, if there is one, and otherwise as an
    alert. *)
Definition shown (text : jsstr) (error : bool) (context : option nat) (s : App) : Prop :=
  let text := t text [] in
  match find_flash context (dom s) with
  | Some n => (n < length (flashes (dom s)))%nat → flashes (dom s) !! n = Some {| f_text := text; f_hidden := is_empty text; f_error := error |}
  | None => text ≠ [] → ∃ before, alerts (dom s) = before ++ [text]
  end.

Lemma find_flash_kept text error ctx ctx' d : find_flash ctx' (show_flash_dom text error ctx d) = find_flash ctx' d.
Proof. unfold show_flash_dom. cbv zeta. by destruct (find_flash ctx d). Qed.

Lemma shown_flash text error ctx s : shown text error ctx (set_dom (show_flash_dom text error ctx (dom s)) s).
Proof.
  unfold shown. cbv zeta. cbn [dom set_dom]. rewrite find_flash_kept. unfold show_flash_dom. cbv zeta. destruct (find_flash ctx (dom s)) as [n|]; cbn [flashes alerts].
  - rewrite length_insert. intros Hn. by rewrite list_lookup_insert_eq.
  - destruct (t text []); [done|]. intros _. by eexists.
Qed.

Lemma flash_timers text error ctx d : reload_timers (show_flash_dom text error ctx d) = reload_timers d.
Proof. unfold show_flash_dom. cbv zeta. by destruct (find_flash ctx d). Qed.

(** The text of a success, the place it is shown at, and whether the page is loaded again. *)
Definition success_text (l : listener) : jsstr :=
  match l with
  | LConnect _ => js "Connected: {0}"
  | LCreateSlot _ => js "Slot created. Tx: {0}"
  | LSlotStatus _ => js "Slot updated. Tx: {0}"
  | LLease _ => js "Lease requested. Tx: {0}"
  | LRegister _ => js "Registration submitted; verifier confirmation pending. Tx: {0}"
  end.
Definition flash_place (l : listener) : option nat := match l with LRegister f => Some f | _ => None end.
Definition reloads (l : listener) : nat := match l with LConnect _ | LRegister _ => 0 | _ => 1 end.

(** The three ends of a handler. *)
Definition succeeded (l : listener) (tr : trace) (s : App) : Prop :=
  match l with
  | LConnect _ => (∀ h, ¬ delivered tr h) ∧ shown (t (success_text l) [I18n.AStr (address (session s))]) false None s
  | _ => ∃ h s1, delivered tr h ∧ (∀ h', delivered tr h' → h' = h) ∧ shown (t (success_text l) [I18n.AStr h]) false (flash_place l) s ∧
      seen tr s1 ∧ reload_timers (dom s) = (reloads l + reload_timers (dom s1))%nat
  end.
Definition failed (l : listener) (tr : trace) (s : App) : Prop :=
  (∀ h, ¬ delivered tr h) ∧ ∃ e, shown (err_text e) true (flash_place l) s.
Definition crashed (tr : trace) (r : result thrown unit) : Prop :=
  (∀ h, ¬ delivered tr h) ∧ ∃ c x e, answered tr c (Err (TNullish x)) ∧ r = Err e.

Definition outcome (l : listener) (tr : trace) (r : result thrown unit) (s : App) : Prop :=
  r = Ok tt ∧ (succeeded l tr s ∨ failed l tr s) ∨ crashed tr r.

(** ** The ends of the handlers *)

Lemma not_delivered h : ¬ delivered [] h.
Proof. intros (e & He & _). by apply not_elem_of_nil in He. Qed.

Lemma flash_error_outcome l e tr s : (∀ h, ¬ delivered tr h) → blamed tr e → ends 0 tr (flash_error (flash_place l) e) s (outcome l).
Proof.
  intros Hd Hb. destruct e as [m|m v|x]; cbn; [left..|right].
  - split; [done|right]. split; [done|]. exists (TError m). apply shown_flash.
  - split; [done|right]. split; [done|]. exists (TValue m v). apply shown_flash.
  - destruct Hb as [c Hc]. split; [done|]. eexists c, x, _. by split.
Qed.

(** The body of a handler: it ended well, or it failed before anything was delivered. *)
Definition body_done (l : listener) (tr : trace) (r : result thrown unit) (s : App) : Prop :=
  match r with Ok _ => succeeded l tr s | Err e => (∀ h, ¬ delivered tr h) ∧ blamed tr e end.

Lemma caught l n (p : proc unit) h s : ends n [] p s (body_done l) →
  (∀ e tr s, (∀ h, ¬ delivered tr h) → blamed tr e → ends 0 tr (h e) s (outcome l)) → ends n [] (catch p h) s (outcome l).
Proof.
  intros Hp Hh. rewrite <- (Nat.add_0_r n). eapply ends_part; [exact Hp|]. intros tr [[]|e] s' Hb; cbn [body_done] in Hb.
  - left. split; [done|by left].
  - destruct Hb. by apply Hh.
Qed.

(** Before the transaction nothing is delivered. *)
Lemma body_quiet {A} l n k (p : proc A) (f : A → proc unit) tr s : (∀ h, ¬ delivered tr h) → quietly n p →
  (∀ a tr s, (∀ h, ¬ delivered tr h) → ends k tr (f a) s (body_done l)) → ends (n + k) tr (p ≫= f) s (body_done l).
Proof.
  intros Hd Hp Hf. eapply ends_part; [apply Hp|]. intros tr1 [a|e] s1 [Hq Hb]; [apply Hf|split; [|done]]; intros h Hh; by eapply Hd, Hq.
Qed.

(** What the handler reads of the page. *)
Lemma body_get {A} n (f : App → proc A) tr s (Q : trace → result thrown A → App → Prop) : ends n tr (f s) s Q → ends n tr (get_app ≫= f) s Q.
Proof. done. Qed.
Lemma body_form {A} n form (f : list (jsstr * jsstr) → proc A) tr s (Q : trace → result thrown A → App → Prop) :
  ends n tr (f (form_of form s)) s Q → ends n tr (form_data form ≫= f) s Q.
Proof. done. Qed.

(** The transaction, and the last lines of a form. *)
Lemma body_submit l msgs gas (f : jsstr → proc unit) tr s : (∀ h, ¬ delivered tr h) →
  (∀ h tr s, delivered tr h → (∀ h', delivered tr h' → h' = h) → seen tr s → ends 0 tr (f h) s (body_done l)) →
  ends 12 tr (h ← await_fn (submitTx msgs gas); f h) s (body_done l).
Proof.
  intros Hd Hf. eapply (ends_part _ _ 12 0); [apply await_submit_sent|]. intros tr1 [h|e] s1 [Hs Hseen]; cbn in Hs.
  - destruct Hs as [Hh Hs]. apply Hf; try done. intros h' Hh'. destruct (Hs h' Hh') as [?|?]; [by destruct (Hd h')|done].
  - destruct Hs as [Hs Hb]. split; [|done]. intros h Hh. by eapply Hd, Hs.
Qed.

(** The last lines of the form of a slot. *)
Lemma slot_success l h tr s : (∃ f, l = LCreateSlot f ∨ l = LSlotStatus f ∨ l = LLease f) →
  delivered tr h → (∀ h', delivered tr h' → h' = h) → seen tr s →
  ends 0 tr (showFlash (t (success_text l) [I18n.AStr h]) false None;; schedule_reload) s (body_done l).
Proof.
  intros (f & [-> |[-> | ->]]) Hd Hu Hs; cbn; exists h, s; (split_and!; [done|done|apply (shown_flash _ _ None s)|done|by rewrite flash_timers]).
Qed.

(** C33 (termination).  Every handler ends, and tells the truth.  Whatever it is answered,
    and whatever others do to the page while it waits, it ends after at most twenty answers.
    A form shows its success, with the hash, exactly when the one transaction it sent went
    through, and all but the registration then schedule a reload; in every other case it shows
    an error.  The only error that leaves a handler is one of null or undefined that was
    thrown at it from outside, and then no transaction went through. *)
Theorem handlers_finish l sub s : ends 20 [] (handler l sub) s (outcome l).
Proof.
  destruct l as [b|f|f|f|f]; cbn [handler].
  - eapply (ends_mono _ 6); [lia|by intros|]. apply caught; [|intros; by apply (flash_error_outcome (LConnect b))].
    apply (body_quiet _ 6 0); [apply not_delivered|apply (quietly_await_fn 5), ensure_quiet|]. intros _ tr s1 Hd. cbn. split; [done|].
    apply (shown_flash _ _ None (set_dom _ s1)).
  - eapply (ends_mono _ 19); [lia|by intros|]. apply caught; [|intros; by apply (flash_error_outcome (LCreateSlot f))].
    apply (body_quiet _ 6 13); [apply not_delivered|apply (quietly_await_fn 5), ensure_quiet|]. intros _ tr s1 Hd.
    apply (body_quiet _ 1 12); [done|apply load_quiet|]. intros _ tr2 s2 Hd2.
    apply body_form, body_get, (body_quiet _ 0 12); [done|apply quietly_of_result, create_slot_own|]. intros m tr3 s3 Hd3.
    apply body_submit; [done|]. intros. apply (slot_success (LCreateSlot f)); eauto.
  - eapply (ends_mono _ 18); [lia|by intros|]. apply caught; [|intros; by apply (flash_error_outcome (LSlotStatus f))].
    apply (body_quiet _ 6 12); [apply not_delivered|apply (quietly_await_fn 5), ensure_quiet|]. intros _ tr s1 Hd.
    apply body_form, body_get, (body_quiet _ 0 12); [done|apply quietly_of_result, slot_status_own|]. intros m tr3 s3 Hd3.
    apply body_submit; [done|]. intros. apply (slot_success (LSlotStatus f)); eauto.
  - eapply (ends_mono _ 19); [lia|by intros|]. apply caught; [|intros; by apply (flash_error_outcome (LLease f))].
    apply (body_quiet _ 6 13); [apply not_delivered|apply (quietly_await_fn 5), ensure_quiet|]. intros _ tr s1 Hd.
    apply (body_quiet _ 1 12); [done|apply load_quiet|]. intros _ tr2 s2 Hd2.
    apply body_form, body_get, (body_quiet _ 0 12); [done|apply quietly_of_result, lease_own|]. intros m tr3 s3 Hd3.
    apply body_submit; [done|]. intros. apply (slot_success (LLease f)); eauto.
  - apply caught; [|intros e tr s1 Hd Hb; cbn; by apply (flash_error_outcome (LRegister f))].
    apply (body_quiet _ 6 14); [apply not_delivered|apply (quietly_await_fn 5), ensure_quiet|]. intros _ tr s1 Hd.
    apply body_form, body_get, (body_quiet _ 0 14); [done|apply quietly_of_result, register_own|]. intros [d r] tr2 s2 Hd2.
    apply (body_quiet _ 1 13); [done|by apply (quietly_await (CFetch _ _))|]. intros resp tr3 s3 Hd3.
    apply (body_quiet _ 1 12); [done|apply (quietly_try_bind 1 0); [by apply (quietly_await (CJson _))|auto with quiet|left; apply quietly_ret]|]. intros v tr4 s4 Hd4.
    apply (body_quiet _ 0 12); [done|apply quietly_of_result, check_verification_own|]. intros _ tr5 s5 Hd5.
    apply body_get, body_submit; [done|]. intros h tr6 s6 Hh Hu Hs. cbn. exists h, s6. split_and!; [done|done|apply (shown_flash _ _ (Some f) s6)|done|by rewrite flash_timers].
Qed.
End Page.
