(* ===== verification/WalletProps.v ===== *)
(** What the wallet page guarantees: the theorems on the handlers of
    [src/cmd/congrid-site/static/wallet.js], drawn from the protocol of
    [WalletProofs] and from the pure helpers. *)

From S2P Require Import Prelude JsBase JsLong JsWriter ProtoWire SiteScripts WalletMsgs WalletFee WalletPure.
From S2P Require Import WalletApp WalletMachine WalletProofs WalletForms.

(** * The protocol, as the event loop needs it *)

Section Instance.
Context `{PageEnv}.

Lemma initial_inv e d h : wallet_inv (app (initial e d h)).
Proof. unfold initial, initWalletUI. destruct (negb (enabled config)); by split. Qed.

Lemma host_change_ok s h :
  let s' := {| session := session s; deps := deps s; dom := dom s; host := h |} in
  (wallet_inv s → wallet_inv s') ∧ wallet_rely s s'.
Proof. split; [by apply wallet_inv_eq|by apply wallet_rely_eq]. Qed.

Definition wallet_protocol : Protocol :=
  {| world := wallet_world; inv := wallet_inv; rely := wallet_rely; pre := wallet_pre;
     rely_refl := wallet_rely_refl; rely_trans := wallet_rely_trans; host_ok := host_change_ok;
     init_ok := initial_inv; handler_ok l sub s Hs := handler_safe (Some (l, sub)) l sub s eq_refl Hs; loader_ok := loader_safe |}.
End Instance.

(** * Running the event loop *)

(** A schedule: an event arrives, or a parked task is answered by an oracle. *)
Definition oracle : Type := ∀ c, result thrown (resp c).

Inductive action : Type :=
| AEvent (l : listener) (submitter : option jsstr)
| ATurn (i : nat) (o : oracle).

#[export] Instance listener_eq_dec : EqDecision listener.
Proof. solve_decision. Defined.

Definition answer_for (s : App) (o : oracle) (c : call) : option (result thrown (resp c)) :=
  match c return option (result thrown (resp c)) with
  | CDeps p => mjoin (promises (deps s) !! p)
  | CTick => Some (Ok tt)
  | c => Some (o c)
  end.

Section Schedule.
Context `{PageEnv}.

Definition take_action (m : Machine) (a : action) : option Machine :=
  match a with
  | AEvent l sub =>
      if decide (l ∈ listeners m) then
        let '(q, s, ids) := exec (handler l sub) (app m) in
        Some {| app := s; listeners := listeners m; tasks := tasks m ++ THandler l sub [] q :: start_loaders ids |}
      else None
  | ATurn i o =>
      match tasks m !! i with
      | Some (THandler l sub tr (Await c k)) =>
          r ← answer_for (app m) o c; Some (run_handler i l sub (tr ++ [(app m, existT c r)]) (k r) m)
      | Some (TLoader id tr (Await c k)) =>
          r ← answer_for (app m) o c; Some (run_loader i id (tr ++ [(app m, existT c r)]) (k r) m)
      | _ => None
      end
  end.

Fixpoint take_actions (m : Machine) (acts : list action) : option Machine :=
  match acts with
  | [] => Some m
  | a :: r => m' ← take_action m a; take_actions m' r
  end.

Definition honest (w : ∀ c, result thrown (resp c) → Prop) (a : action) : Prop :=
  match a with AEvent _ _ => True | ATurn _ o => ∀ c, w c (o c) end.

Lemma answer_for_sound w s o c r : (∀ c, w c (o c)) → answer_for s o c = Some r → answers w s c r.
Proof.
  intros Ho. destruct c; cbn; try (intros [= <-]; apply Ho); [|by intros [= <-]].
  destruct (promises (deps s) !! p); [|done]. by cbn; intros ->.
Qed.

Lemma take_action_step w m a m' : honest w a → take_action m a = Some m' → step w m m'.
Proof.
  intros Ha. destruct a as [l sub|i o]; cbn.
  - destruct (decide _) as [Hl|]; [|done]. pose proof (step_event w m l sub Hl) as Hs.
    destruct (exec _ _) as [[q s] ids]. by intros [= <-].
  - destruct (tasks m !! i) as [[l sub tr p|id tr p]|] eqn:E; [| |done].
    + destruct p as [| | | | |c k]; try done.
      destruct (answer_for _ _ _) as [r|] eqn:Er; [|done]. intros [= <-].
      eapply step_handler; [done|]. by eapply answer_for_sound.
    + destruct p as [| | | | |c k]; try done.
      destruct (answer_for _ _ _) as [r|] eqn:Er; [|done]. intros [= <-].
      eapply step_loader; [done|]. by eapply answer_for_sound.
Qed.

Lemma take_actions_reachable w acts m m' : Forall (honest w) acts → reachable w m →
  take_actions m acts = Some m' → reachable w m'.
Proof.
  intros Hh. revert m. induction Hh as [|a acts Ha _ IH]; intros m Hm; cbn; [by intros [= <-]|].
  destruct (take_action m a) as [m1|] eqn:E; [|done]. cbn. apply IH.
  eapply reach_step; [done|]. by eapply take_action_step.
Qed.
End Schedule.

(** ** A page on which to run it *)

Module Demo.

Definition demo_url : UrlApi :=
  {| url := jsstr; new_URL := Some; url_port := λ _, []; url_set_port := λ u _, u; url_to_string := λ u, u |}.

Definition demo_config : Config :=
  {| enabled := true; chain_id := js "congrid-1"; rpc := js "tcp://127.0.0.1:26657"; rest := []; fee_denom := [];
     gas_price := js "0.001ucongrid"; slot_rate_denom := js "ucongrid"; slot_unit_seconds := num_of_Z 3600;
     slot_min_duration_seconds := num_of_Z 3600; slot_max_duration_seconds := num_of_Z 86400;
     gas_create_slot := num_of_Z 0; gas_update_slot := num_of_Z 0; gas_lease_slot := num_of_Z 0 |}.

#[export] Instance demo_env : PageEnv :=
  {| env_unicode := jsunicode_ascii; messages := λ _, None; config := demo_config; url_api := demo_url |}.

Definition alice : jsstr := js "congrid1alice".
Definition bob : jsstr := js "congrid1bob".

Definition demo_dom : Dom :=
  {| flash_in_doc := Some 0%nat; flash_in_form := []; flashes := [{| f_text := []; f_hidden := true; f_error := false |}];
     labels := [[]]; autofill := []; input_events := 0; alerts := []; console_errors := []; reload_timers := 0 |}.

Definition create_form : list (jsstr * jsstr) :=
  [(js "publisher", js "example.com"); (js "label", js "Sidebar"); (js "rate", js "250")].
Definition register_form : list (jsstr * jsstr) :=
  [(js "domain", js "Example.com"); (js "wallet", alice); (js "referrer", [])].

Definition demo_host : Host :=
  {| keplr := Some {| has_suggest := true; has_getOfflineSigner := true |};
     forms := [create_form; register_form]; clock := 1750000000000 |}.

Definition demo_elements : Elements :=
  {| connect_buttons := [0%nat]; create_forms := [0%nat]; status_forms := []; lease_forms := [];
     register_forms := [1%nat] |}.

(** Everything succeeds; the wallet lists the accounts [accts]. *)
Definition demo_oracle (accts : list jsstr) (sg : nat) : oracle := λ c,
  match c return result thrown (resp c) with
  | CSuggest _ | CEnable _ | CTick => Ok tt
  | CSigner _ | CSignerAuto _ => Ok sg
  | CAccounts _ => Ok (Some accts)
  | CImport _ => Ok {| b_long := true; b_util_long := false; b_defaults := [] |}
  | CConnect _ _ _ _ => Ok 0%nat
  | CBroadcast _ _ _ _ _ => Ok {| code := 0; rawLog := None; transactionHash := js "ABCD" |}
  | CFetch _ _ => Ok {| r_ok := true; r_body := 0%nat |}
  | CJson _ => Ok (JObj true None)
  | CDeps _ => Err (TError [])
  end.

Definition demo_start : Machine := initial demo_elements demo_dom demo_host.

Definition turns (n i : nat) (accts : list jsstr) (sg : nat) : list action :=
  repeat (ATurn i (demo_oracle accts sg)) n.

(** The create form is submitted: six turns connect the wallet, the loader
    (task 1) runs for two, and ten more turns reach the broadcast. *)
Definition create_schedule : list action :=
  AEvent (LCreateSlot 0) None :: turns 6 0 [alice] 0 ++ turns 2 1 [alice] 0 ++ turns 6 0 [alice] 0.

Definition run (acts : list action) : Machine := default demo_start (take_actions demo_start acts).
End Demo.

(** * Theorems *)

Section Pure.
Context `{PageEnv}.

Lemma date_utc_range y m d ms : date_utc y m d = Some ms → - max_time ≤ ms ≤ max_time.
Proof.
  unfold date_utc. destruct (num_trunc y), (num_trunc m), (num_trunc d); try done. cbn [mbind option_bind].
  cbv zeta. destruct (Z.leb_spec (Z.abs (make_day (if (0 <=? z) && (z <=? 99) then 1900 + z else z) z0 z1 * ms_per_day)) max_time);
    [|done]. intros [= <-]. lia.
Qed.

Lemma parse_start_cases now v s : parseStartDate now v = Ok s →
  v = [] ∧ s = 0 ∨
  ∃ ms, - max_time ≤ ms ≤ max_time ∧ now - 86400000 ≤ ms ∧
        s = (if ms <? now then now + 300000 else ms) / 1000.
Proof.
  unfold parseStartDate. destruct v as [|c r]; [intros [= <-]; by left|].
  destruct (split_on 45 (c :: r)) as [|p0 [|p1 [|p2 [|p3 ps]]]]; try done.
  destruct (date_utc _ _ _) as [ms|] eqn:E; [|done]. apply date_utc_range in E.
  destruct (Z.ltb_spec ms (now - 24 * 60 * 60 * 1000)) as [?|Hge]; [done|]. intros [= <-].
  right. exists ms. split; [done|]. split; [lia|done].
Qed.

Lemma num_of_Z_long z : 0 ≤ z < 2 ^ 53 → long_val (fromNumber (num_of_Z z)) = z.
Proof.
  intros Hz. unfold num_of_Z. destruct (Z.ltb_spec z 0); [lia|]. rewrite Z.abs_eq by lia.
  destruct (round_small z Hz) as (m & e & -> & Hm & Ht & _).
  rewrite (fromNumber_val _ _ _ z) by done. lia.
Qed.
End Pure.

(** The length of month [m] (0..11) of year [y]. *)
Definition days_in_month (y m : Z) : Z :=
  match m with
  | 1 => if is_leap y then 29 else 28
  | 3 | 5 | 8 | 10 => 30
  | _ => 31
  end.

Lemma day_from_year_step y : day_from_year (y + 1) = day_from_year y + if is_leap y then 366 else 365.
Proof.
  unfold day_from_year, is_leap.
  destruct (Z.eqb_spec (y mod 4) 0), (Z.eqb_spec (y mod 100) 0), (Z.eqb_spec (y mod 400) 0); cbn [andb orb negb];
    Z.to_euclidean_division_equations; lia.
Qed.

Lemma month_step y m : 0 ≤ m < 11 →
  day_of_month (is_leap y) (m + 1) = day_of_month (is_leap y) m + days_in_month y m.
Proof.
  intros Hm. assert (m = 0 ∨ m = 1 ∨ m = 2 ∨ m = 3 ∨ m = 4 ∨ m = 5 ∨ m = 6 ∨ m = 7 ∨ m = 8 ∨ m = 9 ∨ m = 10)
    as Hc by lia. unfold day_of_month, days_in_month.
  repeat destruct Hc as [->|Hc]; subst; destruct (is_leap y); reflexivity.
Qed.

Lemma split_two_dashes a b c :
  Forall (λ c, is_digit c = true) a → Forall (λ c, is_digit c = true) b → Forall (λ c, is_digit c = true) c →
  split_on 45 (a ++ 45 :: b ++ 45 :: c) = [a; b; c].
Proof.
  assert (∀ l r, Forall (λ c, is_digit c = true) l → ∀ w ws, split_on 45 r = w :: ws →
    split_on 45 (l ++ r) = (l ++ w) :: ws) as Hpre.
  { induction 1 as [|x l Hx _ IH]; intros w ws Hr; cbn; [done|]. apply is_digit_iff in Hx.
    destruct (Z.eqb_spec x 45); [lia|]. by rewrite (IH w ws). }
  intros Ha Hb Hc.
  assert (split_on 45 c = [c]) as Ec.
  { pose proof (Hpre c [] Hc [] [] eq_refl) as E. by rewrite !app_nil_r in E. }
  rewrite (Hpre a _ Ha [] [b; c]); [by rewrite app_nil_r|]. cbn.
  by rewrite (Hpre b _ Hb [] [c]), app_nil_r; [|cbn; rewrite Ec].
Qed.

Lemma month_index mo : 1 ≤ mo ≤ 12 → num_trunc (num_add_int (round_ratio false mo 1) (-1)) = Some (mo - 1).
Proof.
  intros Hm. assert (mo = 1 ∨ mo = 2 ∨ mo = 3 ∨ mo = 4 ∨ mo = 5 ∨ mo = 6 ∨ mo = 7 ∨ mo = 8 ∨ mo = 9 ∨ mo = 10
    ∨ mo = 11 ∨ mo = 12) as Hc by lia. repeat destruct Hc as [->|Hc]; subst; vm_compute; reflexivity.
Qed.

Lemma day_of_month_range leap m : 0 ≤ day_of_month leap m ≤ 335.
Proof. unfold day_of_month. destruct leap; repeat case_match; lia. Qed.

Lemma make_day_range y m d : 100 ≤ y ≤ 9999 → 0 ≤ m ≤ 11 → 1 ≤ d ≤ 31 → Z.abs (make_day y m d * ms_per_day) ≤ max_time.
Proof.
  intros Hy Hm Hd. unfold make_day. rewrite Z.div_small, Z.mod_small, Z.add_0_r by lia.
  pose proof (day_of_month_range (is_leap y) m). unfold day_from_year, ms_per_day, max_time.
  Z.to_euclidean_division_equations; lia.
Qed.

Section Dates.
Context `{PageEnv}.

Lemma date_utc_value p0 p1 p2 :
  p0 ≠ [] → p1 ≠ [] → p2 ≠ [] →
  Forall (λ c, is_digit c = true) p0 → Forall (λ c, is_digit c = true) p1 → Forall (λ c, is_digit c = true) p2 →
  100 ≤ dec_val p0 ≤ 9999 → 1 ≤ dec_val p1 ≤ 12 → 1 ≤ dec_val p2 ≤ 31 →
  date_utc (to_number p0) (num_add_int (to_number p1) (-1)) (to_number p2) =
  Some (make_day (dec_val p0) (dec_val p1 - 1) (dec_val p2) * ms_per_day).
Proof.
  intros N0 N1 N2 D0 D1 D2 Hy Hm Hd. rewrite !to_number_digits by done. unfold date_utc.
  rewrite month_index by done.
  destruct (round_small (dec_val p0) ltac:(lia)) as (m0 & e0 & -> & _ & -> & _).
  destruct (round_small (dec_val p2) ltac:(lia)) as (m2 & e2 & -> & _ & -> & _). cbn [mbind option_bind].
  destruct (Z.leb_spec (dec_val p0) 99); [lia|]. rewrite andb_false_r.
  pose proof (make_day_range (dec_val p0) (dec_val p1 - 1) (dec_val p2) ltac:(lia) ltac:(lia) ltac:(lia)).
  by destruct (Z.leb_spec (Z.abs (make_day (dec_val p0) (dec_val p1 - 1) (dec_val p2) * ms_per_day)) max_time); [|lia].
Qed.
End Dates.

Section Claims.
Context `{PageEnv}.

Lemma configured_price p : gas_price_of_config = Ok p → gas_price_from_string (str_or (gas_price config) (js "0.001ucongrid")) = Ok p.
Proof. unfold gas_price_of_config. by destruct (gas_price_from_string _); intros [= ->]. Qed.

(** C1 (safety).  Whatever the order in which handlers, answers and events interleave, a
    transaction handed to the signing client is one message that passed every check of its
    form ([message_valid]).  Its fields are those of the form, of the clock and of the
    connected account as the handler found them on the page; required fields are not empty;
    a rate is whole and not negative; the status is that of the button; a duration is whole
    and positive; a date is not more than a day past; the wallet of a registration is the
    account that was connected when the form was read, and the server confirmed the badge of
    that very wallet on that domain to this handler.  The page is connected at that moment,
    the fee is the one of the configured gas price and of the form's gas limit, and the memo
    is empty. *)
Theorem broadcast_checked m i l sub tr cl addr msgs fee memo k :
  reachable wallet_world m →
  tasks m !! i = Some (THandler l sub tr (Await (CBroadcast cl addr msgs fee memo) k)) →
  connected (app m) = true ∧ addr ≠ [] ∧ memo = [] ∧
  (∃ price, gas_price_from_string (str_or (gas_price config) (js "0.001ucongrid")) = Ok price ∧ calculateFee (gas_limit l) price = Ok fee) ∧
  ∃ msg, msgs = [msg] ∧ message_valid l sub tr msg.
Proof.
  intros Hm Hi. apply list_elem_of_lookup_2 in Hi.
  destruct (reachable_call wallet_protocol m l sub tr _ k Hm Hi) as (s & _ & Hr & Hc & -> & -> & msg & gas & price & -> & Hb & Hp & Hf).
  split; [by eapply connected_stable|]. split; [by apply connected_signer|]. split; [done|].
  destruct (built_valid _ _ _ _ _ Hb) as [Hv ->]. split; [exists price; split; [by apply configured_price|done]|]. by exists msg.
Qed.

(** C3 (invariant).  In every reachable state, an address or a signing client
    is only present together with the signer it came from. *)
Theorem session_invariant m : reachable wallet_world m →
  signer (session (app m)) = None →
  address (session (app m)) = [] ∧ client (session (app m)) = None.
Proof. intros Hm. apply (inv_session _ (reachable_inv wallet_protocol m Hm)). Qed.

(** C2 (invariant).  The dependency cache never holds a failed load, and a
    load that is running or has succeeded is the cached one: at most one
    import of the bundle is in flight, it is not repeated after it succeeds,
    and it can be retried after it fails.  What a successful load resolves to
    encodes with the page's own message types. *)
Theorem deps_single_flight m : reachable wallet_world m →
  (∀ p, walletDepsPromise (deps (app m)) = Some p →
     ∃ r, promises (deps (app m)) !! p = Some r ∧ ¬ rejected r) ∧
  (∀ p q r r', promises (deps (app m)) !! p = Some r → ¬ rejected r →
     promises (deps (app m)) !! q = Some r' → ¬ rejected r' → p = q) ∧
  (∀ p d, promises (deps (app m)) !! p = Some (Some (Ok d)) → ∃ defs, d_registry d = page_registry defs).
Proof.
  intros Hm. pose proof (reachable_inv wallet_protocol m Hm) as [Hs Hc Ho Hr]. split; [done|]. split; [|done].
  intros p q r r' Hp Hnp Hq Hnq. destruct (Ho _ _ Hp); [|done]. destruct (Ho _ _ Hq); [|done]. congruence.
Qed.

(** On a deployment where signing is not enabled the script
    installs no listener: no task ever runs, and the session stays empty. *)
Theorem disabled_page_inert world m : enabled config = false → reachable world m →
  listeners m = [] ∧ tasks m = [] ∧ session (app m) = {| signer := None; address := []; client := None |}.
Proof.
  intros He. induction 1 as [e d h|m m' _ (Hl & Ht & Hs) Hstep].
  - unfold initial, initWalletUI. by rewrite He.
  - destruct Hstep as [m l sub Hin|m i l sub tr c k r Hi|m i id tr c k r Hi|m h].
    + rewrite Hl in Hin. by apply elem_of_nil in Hin.
    + by rewrite Ht in Hi.
    + by rewrite Ht in Hi.
    + done.
Qed.

(** A rate typed as the decimal numeral of an integer below
    2^53 is sent unchanged, with the form's other fields trimmed, and the
    configured durations as 64-bit integers. *)
Theorem create_slot_rate_exact a data z :
  field data (js "publisher") ≠ [] → field data (js "label") ≠ [] →
  field data (js "rate") = dec_print z → 0 ≤ z < 2 ^ 53 →
  ∃ o, create_slot_msg a data = Ok {| typeUrl := url_create_slot; value := VCreateSlot o |} ∧
       pcs_publisher o = Some a ∧ pcs_domain o = Some (field data (js "publisher")) ∧
       pcs_label o = Some (field data (js "label")) ∧ pcs_rateAmount o = Some (dec_print z).
Proof.
  intros Hd Hl Hr Hz. unfold create_slot_msg. rewrite Hr.
  pose proof (dec_print_nonempty z ltac:(lia)) as Hne.
  rewrite (int_to_string_small z Hz). destruct (to_number_small z Hz) as (m & e & -> & _ & _ & Hi & _).
  destruct (field data (js "publisher")) eqn:E1; [done|]. destruct (field data (js "label")) eqn:E2; [done|].
  destruct (dec_print z) eqn:E3; [done|]. rewrite Hi. cbn. eexists. split; [reflexivity|]. done.
Qed.

(** A lease never starts in the past: the start a form's date
    gives is zero (no date: the chain chooses) or not before the current
    second, and at most five minutes past the largest date of the language. *)
Theorem start_not_past now v s : 0 ≤ now ≤ max_time → parseStartDate now v = Ok s →
  v = [] ∧ s = 0 ∨ v ≠ [] ∧ now / 1000 ≤ s ≤ (max_time + 300000) / 1000.
Proof.
  intros Hn Hs. destruct (decide (v = [])) as [->|Hv]; [by injection Hs as <-; left|]. right. split; [done|].
  destruct (parse_start_cases _ _ _ Hs) as [[? _]|(ms & Hms & Hge & ->)]; [done|].
  destruct (Z.ltb_spec ms now); (split; apply Z.div_le_mono; lia).
Qed.

(** C34 (functional).  A date of the form year-month-day (leading zeros
    allowed, years 100 to 9999) selects midnight UTC of that day.  A day that
    ended more than a day ago is refused; the current day starts five minutes
    from now; a later day starts at its midnight. *)
Theorem start_date_value now p0 p1 p2 :
  p0 ≠ [] → p1 ≠ [] → p2 ≠ [] →
  Forall (λ c, is_digit c = true) p0 → Forall (λ c, is_digit c = true) p1 → Forall (λ c, is_digit c = true) p2 →
  100 ≤ dec_val p0 ≤ 9999 → 1 ≤ dec_val p1 ≤ 12 → 1 ≤ dec_val p2 ≤ 31 →
  let midnight := make_day (dec_val p0) (dec_val p1 - 1) (dec_val p2) * ms_per_day in
  parseStartDate now (p0 ++ js "-" ++ p1 ++ js "-" ++ p2) =
  if midnight <? now - ms_per_day then Err (error_t (js "Start date must be today or later."))
  else if midnight <? now then Ok ((now + 300000) / 1000)
  else Ok (midnight / 1000).
Proof.
  intros N0 N1 N2 D0 D1 D2 Hy Hm Hd midnight.
  change (p0 ++ js "-" ++ p1 ++ js "-" ++ p2) with (p0 ++ 45 :: p1 ++ 45 :: p2).
  pose proof (split_two_dashes p0 p1 p2 D0 D1 D2) as Hsp.
  pose proof (date_utc_value p0 p1 p2 N0 N1 N2 D0 D1 D2 Hy Hm Hd) as Hu. fold midnight in Hu.
  unfold parseStartDate. destruct (p0 ++ 45 :: p1 ++ 45 :: p2) eqn:E; [by destruct p0|].
  rewrite Hsp, Hu. change (24 * 60 * 60 * 1000) with ms_per_day.
  destruct (midnight <? now - ms_per_day); [done|]. by destruct (midnight <? now).
Qed.

(** The days counted for a date follow the Gregorian
    calendar: 1 January 1970 is day zero, the next day of a month is the next
    day, and the first of a month follows the last day of the month before. *)
Theorem calendar_days y m d : 0 ≤ m ≤ 11 →
  make_day 1970 0 1 = 0 ∧ make_day y m (d + 1) = make_day y m d + 1 ∧
  make_day y (m + 1) 1 = make_day y m (days_in_month y m) + 1.
Proof.
  intros Hm. split; [done|]. split; [unfold make_day; lia|]. unfold make_day.
  rewrite (Z.div_small m), (Z.mod_small m), Z.add_0_r by lia.
  destruct (decide (m = 11)) as [->|].
  - change ((11 + 1) / 12) with 1. change ((11 + 1) mod 12) with 0. rewrite day_from_year_step. cbn.
    destruct (is_leap y); lia.
  - rewrite (Z.div_small (m + 1)), (Z.mod_small (m + 1)), Z.add_0_r by lia. rewrite month_step by lia. lia.
Qed.

(** A lease message carries the checked input exactly: the
    duration typed as a decimal numeral and the start second computed from the
    date are the values of its two 64-bit fields. *)
Theorem lease_fields_exact now a data z m : 0 ≤ now ≤ max_time →
  field data (js "duration_seconds") = dec_print z → 0 < z < 2 ^ 53 → lease_msg now a data = Ok m →
  ∃ o st start dur, m = {| typeUrl := url_lease_slot; value := VLeaseSlot o |} ∧
    parseStartDate now (field data (js "start_date")) = Ok st ∧
    pls_lessee o = Some a ∧ pls_slotId o = Some (field data (js "slot_id")) ∧
    pls_targetUrl o = Some (field data (js "target_url")) ∧
    pls_startsAtUnix o = Some (LLong start) ∧ long_val start = st ∧
    pls_durationSeconds o = Some (LLong dur) ∧ long_val dur = z.
Proof.
  intros Hn Hd Hz Hm. unfold lease_msg in Hm.
  do 2 (apply bind_Ok_inv in Hm as ([] & _ & Hm)). apply bind_Ok_inv in Hm as (st & Hst & Hm).
  injection Hm as <-. eexists _, st, _, _. do 6 (split; [try reflexivity; exact Hst|]).
  repeat split.
  - apply num_of_Z_long. destruct (parse_start_cases _ _ _ Hst) as [[_ ->]|(ms & Hms & Hge & ->)]; [lia|].
    unfold max_time in *. destruct (Z.ltb_spec ms now); Z.to_euclidean_division_equations; lia.
  - cbn [fromValue]. rewrite Hd. destruct (to_number_small z ltac:(lia)) as (mm & e & -> & Hmm & Ht & _).
    rewrite (fromNumber_val _ _ _ z) by done. lia.
Qed.
End Claims.

(** * The theorems at work on the demonstration page *)

Module Runs.
Import Demo.

Lemma demo_honest accts sg : Forall (λ a, a ≠ []) accts → ∀ c, wallet_world c (demo_oracle accts sg c).
Proof. intros Ha c. by destruct c. Qed.

Lemma turns_honest n i accts sg : Forall (λ a, a ≠ []) accts → Forall (honest wallet_world) (turns n i accts sg).
Proof.
  intros Ha. unfold turns. induction n; cbn; constructor; [|done]. exact (demo_honest accts sg Ha).
Qed.

Lemma run_reachable acts : Forall (honest wallet_world) acts → reachable wallet_world (run acts).
Proof.
  intros Ha. unfold run. destruct (take_actions demo_start acts) as [m|] eqn:E.
  - eapply take_actions_reachable; [done| |done]. apply (reach_init _ demo_elements demo_dom demo_host).
  - apply (reach_init _ demo_elements demo_dom demo_host).
Qed.

Lemma create_schedule_honest : Forall (honest wallet_world) create_schedule.
Proof.
  constructor; [done|]. repeat (apply Forall_app; split); apply turns_honest; by constructor.
Qed.

(** A task that waits for the signing client, for address [a]. *)
Definition broadcasts_as (a : jsstr) (x : task) : bool :=
  match x with
  | THandler _ _ _ (Await (CBroadcast _ addr _ _ _) _) => bool_decide (addr = a)
  | _ => false
  end.

(** The create form, submitted on a fresh page, reaches the signing client with
    a transaction that satisfies [broadcast_checked]. *)
Lemma broadcast_checked_witness :
  ∃ l sub tr cl msgs fee memo k,
    tasks (run create_schedule) !! 0%nat = Some (THandler l sub tr (Await (CBroadcast cl alice msgs fee memo) k)) ∧
    ∃ msg, msgs = [msg] ∧ message_valid l sub tr msg.
Proof.
  assert (broadcasts_as alice <$> tasks (run create_schedule) !! 0%nat = Some true) as Hb
    by (vm_compute; reflexivity).
  destruct (tasks (run create_schedule) !! 0%nat) as [[l sub tr p|]|] eqn:E; [|discriminate Hb..].
  destruct p as [| | | | |c k]; try discriminate Hb. destruct c as [| | | | | | |cl addr msgs fee memo| | | |];
    try discriminate Hb. cbn in Hb. injection Hb as Ha. apply bool_decide_eq_true in Ha as ->.
  exists l, sub, tr, cl, msgs, fee, memo, k. split; [reflexivity|].
  apply (broadcast_checked (run create_schedule) 0 l sub tr cl alice msgs fee memo k);
    [apply run_reachable, create_schedule_honest | exact E].
Defined.

Lemma session_invariant_witness :
  address (session (app demo_start)) = [] ∧ client (session (app demo_start)) = None.
Proof. apply (session_invariant demo_start); [apply (reach_init _ demo_elements demo_dom demo_host)|reflexivity]. Defined.

(** After the run above the bundle is loaded, and it is the only load. *)
Lemma deps_single_flight_witness :
  walletDepsPromise (deps (app (run create_schedule))) = Some 0%nat ∧
  ∃ r, promises (deps (app (run create_schedule))) !! 0%nat = Some r ∧ ¬ rejected r.
Proof.
  split; [vm_compute; reflexivity|].
  apply (deps_single_flight (run create_schedule)); [apply run_reachable, create_schedule_honest|].
  vm_compute; reflexivity.
Defined.

Lemma create_slot_rate_exact_witness :
  ∃ o, create_slot_msg alice create_form = Ok {| typeUrl := url_create_slot; value := VCreateSlot o |} ∧
       pcs_rateAmount o = Some (js "250").
Proof.
  destruct (create_slot_rate_exact alice create_form 250) as (o & E & _ & _ & _ & Hr);
    [vm_compute; discriminate | vm_compute; discriminate | vm_compute; reflexivity | lia |].
  exists o. split; [exact E|]. rewrite Hr. vm_compute. reflexivity.
Defined.

(** 18 May 2033, seen from June 2025. *)
Lemma start_not_past_witness :
  ∃ s, parseStartDate 1750000000000 (js "2033-05-18") = Ok s ∧ 1750000000 ≤ s.
Proof.
  exists 1999987200. split; [vm_compute; reflexivity|].
  destruct (start_not_past 1750000000000 (js "2033-05-18") 1999987200) as [[E _]|[_ [Hl _]]];
    [split; vm_compute; discriminate | vm_compute; reflexivity | discriminate E | lia].
Defined.

Lemma start_date_value_witness :
  parseStartDate 1750000000000 (js "2033" ++ js "-" ++ js "05" ++ js "-" ++ js "18") = Ok 1999987200.
Proof.
  rewrite (start_date_value 1750000000000 (js "2033") (js "05") (js "18"));
    first [discriminate | (split; vm_compute; discriminate) | repeat constructor | (vm_compute; reflexivity)].
Defined.

Lemma calendar_days_witness : make_day 2024 2 1 = make_day 2024 1 29 + 1.
Proof. apply (calendar_days 2024 1 0). lia. Defined.

Definition lease_form : list (jsstr * jsstr) :=
  [(js "slot_id", js "slot-1"); (js "target_url", js "https://example.com"); (js "duration_seconds", js "86400");
   (js "start_date", js "2033-05-18")].

Lemma lease_fields_exact_witness :
  ∃ m o start dur, lease_msg 1750000000000 alice lease_form = Ok m ∧
    m = {| typeUrl := url_lease_slot; value := VLeaseSlot o |} ∧
    pls_startsAtUnix o = Some (LLong start) ∧ long_val start = 1999987200 ∧
    pls_durationSeconds o = Some (LLong dur) ∧ long_val dur = 86400.
Proof.
  eexists. edestruct (lease_fields_exact 1750000000000 alice lease_form 86400)
    as (o & st & start & dur & E & Hp & _ & _ & _ & Hs & Hsv & Hd & Hdv);
    [split; vm_compute; discriminate | vm_compute; reflexivity | lia | vm_compute; reflexivity |].
  exists o, start, dur. vm_compute in Hp. injection Hp as <-.
  split; [vm_compute; reflexivity|]. split; [exact E|]. done.
Defined.

(** ** A race between two handlers

    The connect button is pressed, and before the extension lists its accounts
    the registration form is submitted.  The registration connects as [alice]
    and has the badge of its domain verified for her; then the extension answers
    the button with the account [other]. *)
Definition race_schedule (other : jsstr) : list action :=
  AEvent (LConnect 0) None :: turns 4 0 [alice] 1
    ++ AEvent (LRegister 1) None :: turns 6 1 [alice] 0
    ++ turns 1 0 [other] 1 ++ turns 3 1 [other] 0 ++ turns 2 2 [other] 0 ++ turns 4 1 [other] 0.

(** What a task asked the server, what it was answered, and what it read of the answer. *)
Definition asked_about (e : event) : option (jsstr * jsstr) := match e with existT (CFetch domain wallet) _ => Some (domain, wallet) | _ => None end.
Definition response_of (e : event) : option (jsstr * jsstr * FetchResponse) :=
  match e with existT (CFetch domain wallet) (Ok response) => Some (domain, wallet, response) | _ => None end.
Definition body_of (e : event) : option (nat * Json) := match e with existT (CJson body) (Ok v) => Some (body, v) | _ => None end.

Lemma response_of_some e d w x : response_of e = Some (d, w, x) → e = existT (CFetch d w) (Ok x).
Proof. destruct e as [c y]. destruct c; try done. destruct y; [|done]. cbn. by intros [= -> -> ->]. Qed.
Lemma body_of_some e b v : body_of e = Some (b, v) → e = existT (CJson b) (Ok v).
Proof. destruct e as [c y]. destruct c; try done. destruct y; [|done]. cbn. by intros [= -> ->]. Qed.

Lemma confirmed_alone tr w d x e : omap response_of tr.*2 = [(d, w, x)] → omap body_of tr.*2 = [(r_body x, JObj true e)] → r_ok x = true → verified tr w d.
Proof.
  intros Hf Hb Hx. exists x, e. split; [done|]. split.
  - assert ((d, w, x) ∈ omap response_of tr.*2) as (y & Hy & ->%response_of_some)%list_elem_of_omap by (rewrite Hf; by left). done.
  - assert ((r_body x, JObj true e) ∈ omap body_of tr.*2) as (y & Hy & ->%body_of_some)%list_elem_of_omap by (rewrite Hb; by left). done.
Qed.
Lemma asked_alone tr w d : omap asked_about tr.*2 = [(d, w)] → ∀ d' w' x, answered tr (CFetch d' w') x → w' = w.
Proof.
  intros Ha d' w' x Hx. assert ((d', w') ∈ omap asked_about tr.*2) as Hd by (apply list_elem_of_omap; by exists (existT (CFetch d' w') x)).
  rewrite Ha in Hd. by apply list_elem_of_singleton in Hd as [= _ ->].
Qed.

(** A registration that waits for the signing client. *)
Definition registration (x : task) : option (jsstr * list EncodeObject * list (jsstr * jsstr) * list (jsstr * jsstr * FetchResponse) * list (nat * Json)) :=
  match x with
  | THandler (LRegister _) _ tr (Await (CBroadcast _ addr msgs _ _) _) =>
      Some (addr, msgs, omap asked_about tr.*2, omap response_of tr.*2, omap body_of tr.*2)
  | _ => None
  end.

Lemma race_schedule_honest other : other ≠ [] → Forall (honest wallet_world) (race_schedule other).
Proof.
  intros Ho. constructor; [done|]. apply Forall_app. split; [apply turns_honest; by constructor|]. constructor; [done|].
  repeat (apply Forall_app; split); apply turns_honest; by constructor.
Qed.

(** The end of the race. *)
Lemma race_end c r : let other := c :: r in
  registration <$> tasks (run (race_schedule other)) !! 1%nat =
  Some (Some (other, [register_msg other (js "example.com") []], [(js "example.com", alice)], [(js "example.com", alice, {| r_ok := true; r_body := 0 |})],
    [(0%nat, JObj true None)])).
Proof. vm_compute. reflexivity. Qed.

(** C40 (safety).  The owner a registration is broadcast for is read again after
    the badge verification, so it need not be the account that was verified: for every
    other account there is a run of the page in which the message names that account and
    is to be signed by it, while the server confirmed the badge of [alice] to this handler
    and was asked about no one else. *)
Theorem register_owner_race other : other ≠ [] →
  ∃ m f sub tr cl msg fee memo k o domain, reachable wallet_world m ∧
    tasks m !! 1%nat = Some (THandler (LRegister f) sub tr (Await (CBroadcast cl other [msg] fee memo) k)) ∧
    value msg = VRegisterPublisher o ∧ prp_owner o = Some other ∧ prp_domain o = Some domain ∧
    verified tr alice domain ∧ ∀ d wallet x, answered tr (CFetch d wallet) x → wallet = alice.
Proof.
  intros Ho. exists (run (race_schedule other)). pose proof (run_reachable _ (race_schedule_honest other Ho)) as Hr.
  destruct other as [|c r]; [done|]. pose proof (race_end c r) as He. cbv zeta in He.
  destruct (tasks (run (race_schedule (c :: r))) !! 1%nat) as [[l sub tr p|]|] eqn:E; [|discriminate He..].
  destruct l as [b|f|f|f|f]; try discriminate He. destruct p as [| | | | |q k]; try discriminate He.
  destruct q as [| | | | | | |cl addr msgs fee memo| | | |]; try discriminate He.
  cbn [fmap option_fmap option_map registration] in He. injection He as -> -> Ha Hf Hb.
  eexists f, sub, tr, cl, _, fee, memo, k, _, _. split; [exact Hr|]. split; [reflexivity|]. split; [reflexivity|]. split; [reflexivity|]. split; [reflexivity|]. split.
  - exact (confirmed_alone tr alice _ _ None Hf Hb eq_refl).
  - exact (asked_alone tr alice _ Ha).
Qed.

Lemma register_owner_race_witness : bob ≠ alice ∧ ∃ m f sub tr cl msg fee memo k o domain, reachable wallet_world m ∧
  tasks m !! 1%nat = Some (THandler (LRegister f) sub tr (Await (CBroadcast cl bob [msg] fee memo) k)) ∧
  value msg = VRegisterPublisher o ∧ prp_owner o = Some bob ∧ prp_domain o = Some domain ∧
  verified tr alice domain ∧ ∀ d wallet x, answered tr (CFetch d wallet) x → wallet = alice.
Proof. split; [vm_compute; discriminate|]. apply (register_owner_race bob). vm_compute. discriminate. Defined.


Definition disabled_env : PageEnv :=
  {| env_unicode := jsunicode_ascii; messages := λ _, None;
     config := {| enabled := false; chain_id := []; rpc := []; rest := []; fee_denom := []; gas_price := [];
                  slot_rate_denom := []; slot_unit_seconds := num_of_Z 0; slot_min_duration_seconds := num_of_Z 0;
                  slot_max_duration_seconds := num_of_Z 0; gas_create_slot := num_of_Z 0;
                  gas_update_slot := num_of_Z 0; gas_lease_slot := num_of_Z 0 |};
     url_api := demo_url |}.

Lemma disabled_page_inert_witness :
  listeners (@initial disabled_env demo_elements demo_dom demo_host) = [].
Proof.
  apply (@disabled_page_inert disabled_env wallet_world); [reflexivity|].
  apply (@reach_init disabled_env _ demo_elements demo_dom demo_host).
Defined.

(** A rate of 2^53 or more is not always sent as typed: the form
    goes through a double, so a numeral may be rounded to a neighbour, and from
    10^21 on it is sent in exponent form, which is no integer literal. *)
Theorem rate_not_exact :
  let rate_of s := match create_slot_msg alice [(js "publisher", js "example.com"); (js "label", js "Top"); (js "rate", s)] with
                   | Ok m => match value m with VCreateSlot o => pcs_rateAmount o | _ => None end
                   | Err _ => None
                   end in
  rate_of (js "9007199254740993") = Some (js "9007199254740992") ∧
  rate_of (js "1000000000000000000000") = Some (js "1e+21").
Proof. split; vm_compute; reflexivity. Qed.
End Runs.
