(* ===== verification/GoBase.v ===== *)
(** What the chain's Go code uses of its language and libraries: byte strings,
    [strings.TrimSpace], 64-bit integers, an ordered key-value store, and a class
    for the functions of other packages (address decoding, URL parsing,
    arbitrary-precision integers). *)

From stdpp Require Import sorting.
From S2P Require Import Prelude JsBase.

(** * Strings *)

(** A string is the list of its bytes. *)
Abbreviation gostr := (list Z).
Abbreviation go := js.

(** The UTF-8 encodings of the runes [unicode.IsSpace] accepts. *)
Definition space_runes : list gostr :=
  [[9]; [10]; [11]; [12]; [13]; [32]; [194; 133]; [194; 160]; [225; 154; 128]]
  ++ ((λ z, [226; 128; z]) <$> [128; 129; 130; 131; 132; 133; 134; 135; 136; 137; 138; 168; 169; 175])
  ++ [[226; 129; 159]; [227; 128; 128]].

(** The rest of [s] after one space at its front, if it starts with one. *)
Definition strip_one (runes : list gostr) (s : gostr) : option gostr :=
  match filter (λ p, starts_with p s = true) runes with
  | p :: _ => Some (drop (length p) s)
  | [] => None
  end.

Fixpoint strip_all (runes : list gostr) (fuel : nat) (s : gostr) : gostr :=
  match fuel with
  | O => s
  | S f => match strip_one runes s with Some r => strip_all runes f r | None => s end
  end.

(** [strings.TrimSpace]: each round takes at least a byte, so the length is fuel
    enough.  The end is trimmed on the reversed string, against the reversed
    encodings: a suffix that is the encoding of a space is what the decoder of
    the last rune sees. *)
Definition TrimSpace (s : gostr) : gostr :=
  let l := strip_all space_runes (length s) s in
  rev (strip_all ((λ r, rev r) <$> space_runes) (length l) (rev l)).

#[global] Arguments TrimSpace : simpl never.

Lemma starts_with_app p s r : starts_with p s = true → starts_with p (s ++ r) = true.
Proof.
  revert s. induction p as [|c p IH]; intros [|d s]; cbn; try done.
  rewrite !andb_true_iff. intros [? ?]. split; [done|by apply IH].
Qed.

Lemma strip_one_None runes s : strip_one runes s = None ↔ Forall (λ p, starts_with p s = false) runes.
Proof.
  unfold strip_one. induction runes as [|p ps IH]; [by split|].
  rewrite filter_cons. destruct (decide (starts_with p s = true)) as [E|E].
  - split; [done|]. intros Hf. apply Forall_cons_1 in Hf as [Hf _]. congruence.
  - rewrite IH. apply not_true_is_false in E. split; [by constructor|]. intros Hf. by apply Forall_cons_1 in Hf as [_ ?].
Qed.

Lemma strip_one_Some runes s r : Forall (λ p, p ≠ []) runes → strip_one runes s = Some r →
  (length r < length s)%nat ∧ ∃ p, s = p ++ r.
Proof.
  unfold strip_one. intros Hne. destruct (filter _ runes) as [|p ps] eqn:E; [done|]. intros [= <-].
  assert (p ∈ filter (λ p, starts_with p s = true) runes) as [Hs Hp]%list_elem_of_filter by (rewrite E; by left).
  rewrite list.Forall_forall in Hne. specialize (Hne _ Hp). split.
  - rewrite length_drop. destruct p; [done|]. destruct s; [done|]. cbn. lia.
  - exists (take (length p) s). by rewrite take_drop.
Qed.

(** With enough fuel nothing is left to strip, and only a front part is gone. *)
Lemma strip_all_done runes fuel s : Forall (λ p, p ≠ []) runes → (length s ≤ fuel)%nat →
  strip_one runes (strip_all runes fuel s) = None ∧ ∃ p, s = p ++ strip_all runes fuel s.
Proof.
  intros Hne. revert s. induction fuel as [|f IH]; intros s Hs; cbn [strip_all].
  - destruct s; [|cbn in Hs; lia]. split; [|by exists []]. apply strip_one_None.
    eapply list.Forall_impl; [exact Hne|]. by intros [|].
  - destruct (strip_one runes s) as [r|] eqn:E; [|split; [done|by exists []]].
    destruct (strip_one_Some _ _ _ Hne E) as [Hl [p ->]]. destruct (IH r ltac:(lia)) as [? [q Hq]].
    split; [done|]. exists (p ++ q). by rewrite <- app_assoc, <- Hq.
Qed.

Lemma strip_all_id runes fuel s : strip_one runes s = None → strip_all runes fuel s = s.
Proof. intros E. destruct fuel; cbn; [done|]. by rewrite E. Qed.

Lemma TrimSpace_clean s : strip_one space_runes s = None →
  strip_one ((λ r, rev r) <$> space_runes) (rev s) = None → TrimSpace s = s.
Proof. 
  intros H1 H2. unfold TrimSpace. rewrite (strip_all_id space_runes) by done. cbv zeta.
  rewrite strip_all_id by done. apply rev_involutive.
 Qed.

Lemma TrimSpace_idem s : TrimSpace (TrimSpace s) = TrimSpace s.
Proof.
  assert (Forall (λ p, p ≠ []) space_runes) as Hn1 by (repeat (constructor; [discriminate|]); constructor).
  assert (Forall (λ p, p ≠ []) ((λ r, rev r) <$> space_runes)) as Hn2 by (repeat (constructor; [discriminate|]); constructor).
  apply TrimSpace_clean; unfold TrimSpace.
  - destruct (strip_all_done space_runes (length s) s Hn1 ltac:(lia)) as [Hc _].
    set (l := strip_all space_runes (length s) s) in *.
    destruct (strip_all_done ((λ r, rev r) <$> space_runes) (length l) (rev l) Hn2) as [_ [q Hq]].
    { by rewrite length_rev. }
    set (t := strip_all _ _ _) in *. apply (f_equal (@rev Z)) in Hq. rewrite rev_involutive, rev_app_distr in Hq.
    rewrite Hq in Hc. apply strip_one_None in Hc. apply strip_one_None.
    eapply list.Forall_impl; [exact Hc|]. intros p Hp. apply not_true_is_false. intros E.
    pose proof (starts_with_app _ _ (rev q) E) as E'. congruence.
  - rewrite rev_involutive. apply strip_all_done; [done|]. by rewrite length_rev.
Qed.

(** * Other packages *)

(** [unicode] case mapping, [net/url], the address codec and the big integers of
    the SDK.  [AccAddressFromBech32] gives the address bytes; [NewIntFromString]
    reads integers of at most 256 bits, decimal numerals among them. *)
Class GoEnv := {
  ToLower : gostr → gostr;
  ParseRequestURI : gostr → bool;
  AccAddressFromBech32 : gostr → option (list Z);
  ValidDenom : gostr → bool;
  NewIntFromString : gostr → option Z;
  ToLower_ascii s : Forall (λ c, 0 ≤ c < 128) s → ToLower s = ascii_lower <$> s;
  NewIntFromString_range s z : NewIntFromString s = Some z → Z.abs z < 2 ^ 256;
  NewIntFromString_dec z : 0 ≤ z < 2 ^ 256 → NewIntFromString (dec_print z) = Some z }.

(** * Machine integers *)

Definition i64 (z : Z) : Z := swrap 64 z.
Definition u64 (z : Z) : Z := uwrap 64 z.

(** The result of an operation on [sdkmath.Int]; more than 256 bits panic. *)
Definition int_in_range (z : Z) : bool := Z.abs z <? 2 ^ 256.

(** * The key-value store *)

(** Keys in the order of their bytes, the order of iteration. *)
Fixpoint key_leb (a b : gostr) : bool :=
  match a, b with
  | [], _ => true
  | _ :: _, [] => false
  | x :: a', y :: b' => (x <? y) || (x =? y) && key_leb a' b'
  end.
Definition entry_le {V} (p q : gostr * V) : Prop := key_leb p.1 q.1 = true.
#[export] Instance entry_le_dec {V} (p q : gostr * V) : Decision (entry_le p q).
Proof. unfold entry_le. apply _. Defined.

Definition entries {V} (m : gmap gostr V) : list (gostr * V) := merge_sort entry_le (map_to_list m).
Definition values {V} (m : gmap gostr V) : list V := snd <$> entries m.

Lemma entries_perm {V} (m : gmap gostr V) : entries m ≡ₚ map_to_list m.
Proof. apply merge_sort_Permutation. Qed.

Lemma elem_of_entries {V} (m : gmap gostr V) k v : (k, v) ∈ entries m ↔ m !! k = Some v.
Proof. by rewrite entries_perm, elem_of_map_to_list. Qed.

Lemma elem_of_values {V} (m : gmap gostr V) v : v ∈ values m ↔ ∃ k, m !! k = Some v.
Proof.
  unfold values. rewrite list_elem_of_fmap. split.
  - intros ([k v'] & -> & H%elem_of_entries). by exists k.
  - intros [k H%elem_of_entries]. by exists (k, v).
Qed.

(** ** The order of strings *)

Lemma key_leb_total a b : key_leb a b = true ∨ key_leb b a = true.
Proof.
  revert b. induction a as [|x a IH]; intros [|y b]; cbn; auto.
  rewrite !orb_true_iff, !andb_true_iff, !Z.ltb_lt, !Z.eqb_eq.
  destruct (Z.lt_trichotomy x y) as [?|[->|?]]; [tauto| |tauto]. destruct (IH b); tauto.
Qed.

Lemma key_leb_antisym a b : key_leb a b = true → key_leb b a = true → a = b.
Proof.
  revert b. induction a as [|x a IH]; intros [|y b]; cbn; try done.
  rewrite !orb_true_iff, !andb_true_iff, !Z.ltb_lt, !Z.eqb_eq. intros [?|[-> ?]] [?|[? ?]]; try lia.
  f_equal. auto.
Qed.

Lemma key_leb_trans a b c : key_leb a b = true → key_leb b c = true → key_leb a c = true.
Proof.
  revert b c. induction a as [|x a IH]; intros [|y b] [|z c]; cbn; try done.
  rewrite !orb_true_iff, !andb_true_iff, !Z.ltb_lt, !Z.eqb_eq. intros [?|[-> ?]] [?|[? ?]]; [lia..|].
  right. split; [lia|eauto].
Qed.

Lemma key_leb_refl a : key_leb a a = true.
Proof. by destruct (key_leb_total a a). Qed.

(** Byte order, the order of [sort.Strings]. *)
Definition str_le (a b : gostr) : Prop := key_leb a b = true.
#[export] Instance str_le_dec a b : Decision (str_le a b).
Proof. unfold str_le. apply _. Defined.
#[export] Instance str_le_trans : Transitive str_le.
Proof. intros a b c. apply key_leb_trans. Qed.
#[export] Instance str_le_total : Total str_le.
Proof. intros a b. apply key_leb_total. Qed.
#[export] Instance str_le_antisymm : AntiSymm (=) str_le.
Proof. intros a b. apply key_leb_antisym. Qed.

Definition SortStrings (l : list gostr) : list gostr := merge_sort str_le l.

Lemma SortStrings_perm l : SortStrings l ≡ₚ l.
Proof. apply merge_sort_Permutation. Qed.

(** Sorting forgets the order its input came in. *)
Lemma SortStrings_order l l' : l ≡ₚ l' → SortStrings l = SortStrings l'.
Proof.
  intros Hl. apply (Sorted_unique str_le); [apply Sorted_merge_sort; apply _..|]. by rewrite !SortStrings_perm.
Qed.

(** ** Sums over a store *)

Definition sum_over {V} (f : V → Z) (m : gmap gostr V) : Z := sumZ (f <$> values m).

Lemma sumZ_perm l k : l ≡ₚ k → sumZ l = sumZ k.
Proof. unfold sumZ. induction 1; cbn in *; lia. Qed.

Lemma sum_over_list {V} (f : V → Z) m : sum_over f m = sumZ ((f ∘ snd) <$> map_to_list m).
Proof.
  unfold sum_over, values. rewrite <- list_fmap_compose. apply sumZ_perm. by rewrite entries_perm.
Qed.

Lemma sum_over_fresh {V} (f : V → Z) (m : gmap gostr V) k v : m !! k = None →
  sum_over f (<[k := v]> m) = f v + sum_over f m.
Proof.
  intros Hk. rewrite !sum_over_list, (sumZ_perm _ ((f ∘ snd) <$> ((k, v) :: map_to_list m))); [done|].
  by rewrite map_to_list_insert.
Qed.

Lemma sum_over_replace {V} (f : V → Z) (m : gmap gostr V) k v w : m !! k = Some w →
  sum_over f (<[k := v]> m) = sum_over f m - f w + f v.
Proof.
  intros Hk. rewrite <- (insert_delete_id m k w) at 2 by done. rewrite <- insert_delete_eq.
  rewrite !sum_over_fresh by apply lookup_delete_eq. lia.
Qed.

Lemma sum_over_nonneg {V} (f : V → Z) (m : gmap gostr V) : (∀ k v, m !! k = Some v → 0 ≤ f v) → 0 ≤ sum_over f m.
Proof.
  intros Hf. apply sumZ_nonneg, Forall_fmap, list.Forall_forall. intros v [k Hk]%elem_of_values. cbn. by eapply Hf.
Qed.

Lemma sum_over_ge {V} (f : V → Z) (m : gmap gostr V) k v : (∀ k v, m !! k = Some v → 0 ≤ f v) →
  m !! k = Some v → f v ≤ sum_over f m.
Proof.
  intros Hf Hk. rewrite <- (insert_delete_id m k v) by done. rewrite sum_over_fresh by apply lookup_delete_eq.
  pose proof (sum_over_nonneg f (delete k m)) as Hn. ospecialize (Hn _); [|lia].
  intros k' v' [_ Hk']%lookup_delete_Some. by eapply Hf.
Qed.
