(* ===== verification/Market.v ===== *)
(** The slot market of the chain: publishers, link slots and their leases, from
    [src/x/registry]: [slots.go], [slot_keeper.go], [lease_settlement.go], the
    handlers [RegisterPublisher], [CreateSlot], [UpdateSlotStatus] and
    [LeaseSlot] of [msg_server.go], and the publisher records of [types.go] and
    [keeper.go].  Records are stored as they are (the JSON encoding of the store
    is the identity here).  A handler that returns an error leaves the state as
    it was, so an operation returns either an error or the new state. *)

From stdpp Require Import sorting.
From S2P Require Import Prelude JsBase GoBase.

(** * Errors *)

Inductive err : Type :=
| ErrInvalidPublisherRequest | ErrPublisherNotFound | ErrSlotNotFound | ErrSlotNotListed
| ErrSlotUnauthorized | ErrLeaseOverlap | ErrLeaseInvalidDuration | ErrLeasePaymentFailed
| ErrPublisherInCooldown | ErrWebsiteExists
| ErrAssignmentNotFound | ErrAssignmentClosed | ErrVerifierNotAssigned | ErrCommitWindowClosed | ErrAlreadyCommitted
| ErrAlreadySubmitted | ErrRevealWindowNotOpen | ErrCommitNotFound | ErrCommitMismatch
| Errorf (text : string)   (* fmt.Errorf, errors.New *)
| Panic.

(** A sequence of [if cond { return err }]. *)
Fixpoint first_error (checks : list (bool * err)) : result err unit :=
  match checks with
  | [] => Ok tt
  | (bad, e) :: r => if bad then Err e else first_error r
  end.

Lemma first_error_ok checks u : first_error checks = Ok u ↔ Forall (λ c, c.1 = false) checks.
Proof.
  destruct u. induction checks as [|[bad e] r IH]; cbn; [by split|]. destruct bad.
  - split; [done|]. intros Hr. by apply Forall_cons_1 in Hr as [? _].
  - rewrite IH. split; [by constructor|]. intros Hr. by apply Forall_cons_1 in Hr as [_ ?].
Qed.

(** * The bank, as the market uses it *)

(** The market moves coins between accounts and its own module account.  [None]
    is an error of the bank.  A transfer moves exactly the amount; one out of the
    module account succeeds when the module has the amount and the recipient is
    not a blocked address. *)
Class Bank (B : Type) := {
  module_bal : B → gostr → Z;
  account_bal : B → list Z → gostr → Z;
  blocked : list Z → bool;
  SendCoinsFromAccountToModule : B → list Z → gostr → Z → option B;
  SendCoinsFromModuleToAccount : B → list Z → gostr → Z → option B;
  to_module_spec b a d n b' : 0 < n → SendCoinsFromAccountToModule b a d n = Some b' →
    n ≤ account_bal b a d ∧
    (∀ d', module_bal b' d' = module_bal b d' + if decide (d' = d) then n else 0) ∧
    (∀ a' d', account_bal b' a' d' = account_bal b a' d' - if decide (a' = a ∧ d' = d) then n else 0);
  from_module_spec b a d n b' : 0 < n → SendCoinsFromModuleToAccount b a d n = Some b' →
    n ≤ module_bal b d ∧
    (∀ d', module_bal b' d' = module_bal b d' - if decide (d' = d) then n else 0) ∧
    (∀ a' d', account_bal b' a' d' = account_bal b a' d' + if decide (a' = a ∧ d' = d) then n else 0);
  from_module_ok b a d n : 0 < n ≤ module_bal b d → blocked a = false →
    is_Some (SendCoinsFromModuleToAccount b a d n) }.

(** * Data *)

Definition StatusUnspecified : Z := 0.
Definition StatusPending : Z := 1.
Definition StatusVerified : Z := 2.
Definition StatusRevoked : Z := 3.

Record Website := mkWebsite {
  w_Domain : gostr; w_Owner : gostr; w_Status : Z; w_MetadataURI : gostr; w_Proof : gostr;
  w_RegisteredAtHeight : Z; w_Verifier : gostr; w_Referrer : gostr;
  w_CooldownUntilUnix : Z; w_CooldownCount : Z; w_PendingOwner : gostr; w_PendingReferrer : gostr }.

Definition SlotStatusUnspecified : Z := 0.
Definition SlotStatusListed : Z := 1.
Definition SlotStatusPaused : Z := 2.
Definition SlotStatusUnlisted : Z := 3.

Definition LeaseStatusActive : Z := 1.
Definition LeaseStatusCompleted : Z := 2.
Definition LeaseStatusViolated : Z := 3.
Definition LeaseStatusRefunded : Z := 4.

Record Slot := mkSlot {
  s_ID : gostr; s_Publisher : gostr; s_Domain : gostr; s_Label : gostr; s_Summary : gostr;
  s_Category : gostr; s_Placement : gostr; s_Size : gostr; s_RateDenom : gostr; s_RateAmount : Z;
  s_UnitSeconds : Z; s_MinDurationSeconds : Z; s_MaxDurationSeconds : Z; s_Status : Z;
  s_CreatedAtUnix : Z; s_UpdatedAtUnix : Z; s_Tags : list gostr }.

Record SlotLease := mkLease {
  l_ID : gostr; l_SlotID : gostr; l_Publisher : gostr; l_Lessee : gostr; l_TargetURL : gostr;
  l_StartsAtUnix : Z; l_EndsAtUnix : Z; l_RateDenom : gostr; l_RateAmount : Z; l_UnitSeconds : Z;
  l_EscrowTotal : Z; l_EscrowRemaining : Z; l_PaidOut : Z; l_Status : Z;
  l_CreatedAtUnix : Z; l_UpdatedAtUnix : Z; l_PaidThroughUnix : Z }.

(** The market's part of the store, and the bank. *)
Record Store (B : Type) := mkStore {
  websites : gmap gostr Website;
  primaryDomains : gmap gostr gostr;
  slots : gmap gostr Slot;
  leases : gmap gostr SlotLease;
  slotSeq : Z;
  leaseSeq : Z;
  bank : B }.
Arguments mkStore {B}.
Arguments websites {B}.
Arguments primaryDomains {B}.
Arguments slots {B}.
Arguments leases {B}.
Arguments slotSeq {B}.
Arguments leaseSeq {B}.
Arguments bank {B}.

(** * Domains and websites *)

Section Domains.
Context `{GoEnv}.

Definition NormalizeDomain (d : gostr) : gostr := TrimSpace (ToLower d).

Definition is_lower (c : Z) : bool := (97 <=? c) && (c <=? 122).

(** [[a-z0-9](?:[a-z0-9-]{0,61}[a-z0-9])?] *)
Definition label_ok (l : gostr) : bool :=
  match l, rev l with
  | c :: _, x :: _ => is_lower_alnum c && is_lower_alnum x && (length l <=? 63)%nat
                      && forallb (λ y, is_lower_alnum y || (y =? 45)) l
  | _, _ => false
  end.

(** One or more labels and a final label of two or more letters, at the dots. *)
Definition host_ok (parts : list gostr) : bool :=
  match rev parts with
  | tld :: l :: ls => (2 <=? length tld)%nat && forallb is_lower tld && forallb label_ok (l :: ls)
  | _ => false
  end.

(** [domainRe]: an optional port follows the only colon. *)
Definition domainRe (d : gostr) : bool :=
  match split_on 58 d with
  | [h] => host_ok (split_on 46 h)
  | [h; p] => host_ok (split_on 46 h) && match p with [] => false | _ => forallb is_digit p end
  | _ => false
  end.

Definition IsDomainFormatValid (domain : gostr) : bool :=
  match NormalizeDomain domain with [] => false | norm => domainRe norm end.

(** The last two segments of the host; a valid domain has at most one colon, so
    what precedes the last one is the host. *)
Definition GetPrimaryDomain (domain : gostr) : result err gostr :=
  let norm := NormalizeDomain domain in
  if negb (IsDomainFormatValid norm) then Err (Errorf "invalid domain format")
  else
    let host := match split_on 58 norm with h :: _ => h | [] => norm end in
    match rev (split_on 46 host) with
    | b :: a :: _ => Ok (a ++ [46] ++ b)
    | _ => Ok host
    end.

Definition addr_ok (a : gostr) : bool := match AccAddressFromBech32 a with Some _ => true | None => false end.
Definition blank (s : gostr) : bool := match TrimSpace s with [] => true | _ => false end.
Definition empty (s : gostr) : bool := match s with [] => true | _ => false end.

Definition ValidateWebsite (w : Website) : result err unit :=
  first_error [
   ((empty (w_Domain w)), Errorf "domain required");
   ((negb (bool_decide (NormalizeDomain (w_Domain w) = w_Domain w))), Errorf "domain must be normalized");
   ((negb (domainRe (w_Domain w))), Errorf "invalid domain");
   ((empty (w_Owner w)), Errorf "owner address required");
   ((negb (addr_ok (w_Owner w))), Errorf "invalid owner address");
   ((negb (empty (w_MetadataURI w)) && (512 <? length (w_MetadataURI w))%nat), Errorf "metadata uri too long");
   ((negb (empty (w_MetadataURI w)) && negb (ParseRequestURI (w_MetadataURI w))), Errorf "invalid metadata uri");
   ((256 <? length (w_Proof w))%nat, Errorf "proof value too long");
   ((w_RegisteredAtHeight w <? 0), Errorf "registered height cannot be negative");
   ((negb (empty (w_Verifier w)) && negb (addr_ok (w_Verifier w))), Errorf "invalid verifier address");
   ((w_CooldownUntilUnix w <? 0), Errorf "cooldown_until_unix cannot be negative");
   ((w_CooldownCount w <? 0), Errorf "cooldown_count cannot be negative");
   ((negb (blank (w_Referrer w)) && negb (addr_ok (TrimSpace (w_Referrer w)))), Errorf "invalid referrer address");
   ((negb (blank (w_PendingOwner w)) && negb (addr_ok (TrimSpace (w_PendingOwner w)))), Errorf "invalid pending owner address");
   ((negb (blank (w_PendingOwner w)) && negb (blank (w_PendingReferrer w)) && negb (addr_ok (TrimSpace (w_PendingReferrer w)))), Errorf "invalid pending referrer address");
   ((blank (w_PendingOwner w) && negb (blank (w_PendingReferrer w))), Errorf "pending_referrer requires pending_owner");
   (((w_Status w <? StatusPending) || (StatusRevoked <? w_Status w)), Errorf "invalid status")].

(** * Slots and leases *)

Definition Slot_ValidateBasic (s : Slot) : result err unit :=
  first_error [
   ((blank (s_ID s)), Errorf "slot id required");
   ((blank (s_Publisher s)), Errorf "publisher required");
   ((negb (addr_ok (TrimSpace (s_Publisher s)))), Errorf "invalid publisher address");
   ((blank (s_Domain s)), Errorf "domain required");
   ((negb (IsDomainFormatValid (s_Domain s))), Errorf "invalid domain");
   ((blank (s_Label s)), Errorf "label required");
   ((blank (s_RateDenom s)), Errorf "rate denom required");
   ((s_RateAmount s <? 0), Errorf "rate amount must be >= 0");
   ((s_UnitSeconds s <=? 0), Errorf "unit seconds must be positive");
   ((s_MinDurationSeconds s <=? 0), Errorf "min duration seconds must be positive");
   ((s_MaxDurationSeconds s <=? 0), Errorf "max duration seconds must be positive");
   ((s_MaxDurationSeconds s <? s_MinDurationSeconds s), Errorf "min duration cannot exceed max duration");
   (((s_CreatedAtUnix s <? 0) || (s_UpdatedAtUnix s <? 0)), Errorf "timestamps must be non-negative")].

Definition Lease_ValidateBasic (l : SlotLease) : result err unit :=
  first_error [
   ((blank (l_ID l)), Errorf "lease id required");
   ((blank (l_SlotID l)), Errorf "slot id required");
   ((blank (l_Publisher l)), Errorf "publisher required");
   ((negb (addr_ok (TrimSpace (l_Publisher l)))), Errorf "invalid publisher address");
   ((blank (l_Lessee l)), Errorf "lessee required");
   ((negb (addr_ok (TrimSpace (l_Lessee l)))), Errorf "invalid lessee address");
   ((blank (l_TargetURL l)), Errorf "target url required");
   ((negb (ParseRequestURI (TrimSpace (l_TargetURL l)))), Errorf "invalid target url");
   ((l_StartsAtUnix l <=? 0), Errorf "starts_at_unix must be positive");
   ((l_EndsAtUnix l <=? l_StartsAtUnix l), Errorf "ends_at_unix must be > starts_at_unix");
   ((blank (l_RateDenom l)), Errorf "rate denom required");
   ((l_RateAmount l <? 0), Errorf "rate amount must be >= 0");
   ((l_UnitSeconds l <=? 0), Errorf "unit seconds must be positive");
   (((l_EscrowTotal l <? 0) || (l_EscrowRemaining l <? 0) || (l_PaidOut l <? 0)), Errorf "escrow amounts must be >= 0");
   (((l_CreatedAtUnix l <? 0) || (l_UpdatedAtUnix l <? 0)), Errorf "timestamps must be non-negative")].
End Domains.

#[global] Arguments ValidateWebsite : simpl never.
#[global] Arguments Slot_ValidateBasic : simpl never.
#[global] Arguments Lease_ValidateBasic : simpl never.

(** * Messages ([typespb]) *)

Record MsgRegisterPublisher := {
  mr_Owner : gostr; mr_Domain : gostr; mr_MetadataUri : gostr; mr_Proof : gostr;
  mr_Verifier : gostr; mr_Referrer : gostr }.
Record MsgCreateSlot := {
  mc_Publisher : gostr; mc_Domain : gostr; mc_Label : gostr; mc_Summary : gostr; mc_Category : gostr;
  mc_Placement : gostr; mc_Size : gostr; mc_RateDenom : gostr; mc_RateAmount : gostr;
  mc_UnitSeconds : Z; mc_MinDurationSeconds : Z; mc_MaxDurationSeconds : Z; mc_Tags : list gostr }.
Record MsgUpdateSlotStatus := { mu_Publisher : gostr; mu_SlotId : gostr; mu_Status : Z }.
Record MsgLeaseSlot := {
  ml_Lessee : gostr; ml_SlotId : gostr; ml_TargetUrl : gostr; ml_StartsAtUnix : Z; ml_DurationSeconds : Z }.

(** * The keeper *)

Section Keeper.
Context `{GoEnv} {B : Type} `{Bank B}.
Abbreviation Store := (Store B).

Definition set_websites (x : gmap gostr Website) (s : Store) : Store :=
  mkStore x (primaryDomains s) (slots s) (leases s) (slotSeq s) (leaseSeq s) (bank s).
Definition set_slots (x : gmap gostr Slot) (s : Store) : Store :=
  mkStore (websites s) (primaryDomains s) x (leases s) (slotSeq s) (leaseSeq s) (bank s).
Definition set_leases (x : gmap gostr SlotLease) (s : Store) : Store :=
  mkStore (websites s) (primaryDomains s) (slots s) x (slotSeq s) (leaseSeq s) (bank s).
Definition set_bank (x : B) (s : Store) : Store :=
  mkStore (websites s) (primaryDomains s) (slots s) (leases s) (slotSeq s) (leaseSeq s) x.

(** [fmt.Sprintf("%06d", n)]. *)
Definition pad6 (n : Z) : gostr := let d := dec_print n in repeat 48 (6 - length d) ++ d.
Definition slot_id (n : Z) : gostr := go "slot-" ++ pad6 n.
Definition lease_id (n : Z) : gostr := go "lease-" ++ pad6 n.

(** [nextSequence]: a counter of 64 bits. *)
Definition nextSlotID (s : Store) : gostr * Store :=
  let n := u64 (slotSeq s + 1) in
  (slot_id n, mkStore (websites s) (primaryDomains s) (slots s) (leases s) n (leaseSeq s) (bank s)).
Definition nextLeaseID (s : Store) : gostr * Store :=
  let n := u64 (leaseSeq s + 1) in
  (lease_id n, mkStore (websites s) (primaryDomains s) (slots s) (leases s) (slotSeq s) n (bank s)).

Definition with_domain (d : gostr) (x : Slot) : Slot :=
  mkSlot (s_ID x) (s_Publisher x) d (s_Label x) (s_Summary x) (s_Category x) (s_Placement x) (s_Size x)
    (s_RateDenom x) (s_RateAmount x) (s_UnitSeconds x) (s_MinDurationSeconds x) (s_MaxDurationSeconds x)
    (s_Status x) (s_CreatedAtUnix x) (s_UpdatedAtUnix x) (s_Tags x).

Definition SetSlot (x : Slot) (s : Store) : result err Store :=
  let x := with_domain (NormalizeDomain (s_Domain x)) x in
  Slot_ValidateBasic x;;
  Ok (set_slots (<[s_ID x := x]> (slots s)) s).
Definition GetSlot (id : gostr) (s : Store) : option Slot := slots s !! id.

Definition SetLease (l : SlotLease) (s : Store) : result err Store :=
  Lease_ValidateBasic l;;
  Ok (set_leases (<[l_ID l := l]> (leases s)) s).
Definition listLeasesBySlot (id : gostr) (s : Store) : list SlotLease :=
  filter (λ l, l_SlotID l = id) (values (leases s)).

Definition GetWebsite (domain : gostr) (s : Store) : option Website := websites s !! NormalizeDomain domain.

Definition with_w_domain (d : gostr) (w : Website) : Website :=
  mkWebsite d (w_Owner w) (w_Status w) (w_MetadataURI w) (w_Proof w) (w_RegisteredAtHeight w) (w_Verifier w)
    (w_Referrer w) (w_CooldownUntilUnix w) (w_CooldownCount w) (w_PendingOwner w) (w_PendingReferrer w).

Definition UpsertWebsite (w : Website) (s : Store) : result err Store :=
  let w := with_w_domain (NormalizeDomain (w_Domain w)) w in
  ValidateWebsite w;;
  Ok (set_websites (<[w_Domain w := w]> (websites s)) s).

(** A new website; its primary domain must be free as well. *)
Definition RegisterWebsite (height : Z) (w : Website) (s : Store) : result err (Website * Store) :=
  let w := mkWebsite (NormalizeDomain (w_Domain w)) (w_Owner w)
             (if w_Status w =? StatusUnspecified then StatusPending else w_Status w)
             (w_MetadataURI w) (w_Proof w) height (w_Verifier w) (w_Referrer w)
             (w_CooldownUntilUnix w) (w_CooldownCount w) (w_PendingOwner w) (w_PendingReferrer w) in
  ValidateWebsite w;;
  guard_err (match websites s !! w_Domain w with Some _ => true | None => false end) ErrWebsiteExists;;
  primary ← GetPrimaryDomain (w_Domain w);
  guard_err (match primaryDomains s !! primary with Some _ => true | None => false end)
    (Errorf "primary domain already registered");;
  Ok (w, mkStore (<[w_Domain w := w]> (websites s)) (<[primary := w_Domain w]> (primaryDomains s))
           (slots s) (leases s) (slotSeq s) (leaseSeq s) (bank s)).

Definition set_publisher (owner : gostr) (now : Z) (x : Slot) : Slot :=
  mkSlot (s_ID x) owner (s_Domain x) (s_Label x) (s_Summary x) (s_Category x) (s_Placement x) (s_Size x)
    (s_RateDenom x) (s_RateAmount x) (s_UnitSeconds x) (s_MinDurationSeconds x) (s_MaxDurationSeconds x)
    (s_Status x) (s_CreatedAtUnix x) now (s_Tags x).

(** [for _, x := range xs { if err := f(x); err != nil { return err } }]. *)
Fixpoint each {A S} (f : A → S → result err S) (xs : list A) (s : S) : result err S :=
  match xs with
  | [] => Ok s
  | x :: r => s' ← f x s; each f r s'
  end.

Definition transferSlotsForDomain (domain previousOwner newOwner : gostr) (now : Z) (s : Store) : result err Store :=
  let domain := NormalizeDomain domain in
  let previousOwner := TrimSpace previousOwner in
  let newOwner := TrimSpace newOwner in
  each (λ x s, SetSlot (set_publisher newOwner now x) s)
    (filter (λ x, s_Domain x = domain ∧ s_Publisher x = previousOwner) (values (slots s))) s.

(** * The message handlers *)

Definition Register_ValidateBasic (m : MsgRegisterPublisher) : result err unit :=
  first_error [
   ((negb (addr_ok (mr_Owner m))), Errorf "invalid owner address");
   ((blank (mr_Domain m)), Errorf "domain required");
   ((512 <? length (mr_MetadataUri m))%nat, Errorf "metadata uri too long");
   ((256 <? length (mr_Proof m))%nat, Errorf "proof too long");
   ((negb (empty (mr_Verifier m)) && negb (addr_ok (mr_Verifier m))), Errorf "invalid verifier address");
   ((negb (blank (mr_Referrer m)) && negb (addr_ok (TrimSpace (mr_Referrer m)))), Errorf "invalid referrer address")].

Definition with_pending (owner referrer : gostr) (w : Website) : Website :=
  mkWebsite (w_Domain w) (w_Owner w) (w_Status w) (w_MetadataURI w) (w_Proof w) (w_RegisteredAtHeight w)
    (w_Verifier w) (w_Referrer w) (w_CooldownUntilUnix w) (w_CooldownCount w) owner referrer.

Definition RegisterPublisher (height : Z) (m : MsgRegisterPublisher) (s : Store) : result err (Website * Store) :=
  Register_ValidateBasic m;;
  let website := mkWebsite (NormalizeDomain (mr_Domain m)) (mr_Owner m) StatusPending (TrimSpace (mr_MetadataUri m))
                   (TrimSpace (mr_Proof m)) 0 (TrimSpace (mr_Verifier m)) (TrimSpace (mr_Referrer m)) 0 0 [] [] in
  match GetWebsite (w_Domain website) s with
  | Some existing =>
      let candidateOwner := TrimSpace (w_Owner website) in
      guard_err (negb (empty (w_PendingOwner existing)) && negb (bool_decide (candidateOwner = w_PendingOwner existing))
                 && negb (bool_decide (candidateOwner = w_Owner existing)))
        (Errorf "already has a re-registration pending for another owner");;
      let existing := with_pending candidateOwner (w_Referrer website) existing in
      s' ← UpsertWebsite existing s;
      Ok (existing, s')
  | None => RegisterWebsite height website s
  end.

Definition sanitizeTags (tags : list gostr) : list gostr :=
  filter (λ t, t ≠ []) (TrimSpace <$> tags).

Definition CreateSlot (now : Z) (m : MsgCreateSlot) (s : Store) : result err (Slot * Store) :=
  let publisher := TrimSpace (mc_Publisher m) in
  let domain := NormalizeDomain (mc_Domain m) in
  match GetWebsite domain s with
  | None => Err ErrPublisherNotFound
  | Some website =>
      guard_err (negb (bool_decide (w_Owner website = publisher))) ErrSlotUnauthorized;;
      guard_err (negb (w_Status website =? StatusVerified)) ErrInvalidPublisherRequest;;
      guard_err (now <? w_CooldownUntilUnix website) ErrPublisherInCooldown;;
      let rateAmountStr := TrimSpace (mc_RateAmount m) in
      guard_err (empty rateAmountStr) ErrInvalidPublisherRequest;;
      match NewIntFromString rateAmountStr with
      | None => Err ErrInvalidPublisherRequest
      | Some rateAmount =>
          let '(id, s) := nextSlotID s in
          let slot := mkSlot id publisher domain (TrimSpace (mc_Label m)) (TrimSpace (mc_Summary m))
                        (TrimSpace (mc_Category m)) (TrimSpace (mc_Placement m)) (TrimSpace (mc_Size m))
                        (TrimSpace (mc_RateDenom m)) rateAmount (mc_UnitSeconds m) (mc_MinDurationSeconds m)
                        (mc_MaxDurationSeconds m) SlotStatusPaused now now (sanitizeTags (mc_Tags m)) in
          s' ← SetSlot slot s;
          Ok (slot, s')
      end
  end.

Definition set_status (st now : Z) (x : Slot) : Slot :=
  mkSlot (s_ID x) (s_Publisher x) (s_Domain x) (s_Label x) (s_Summary x) (s_Category x) (s_Placement x) (s_Size x)
    (s_RateDenom x) (s_RateAmount x) (s_UnitSeconds x) (s_MinDurationSeconds x) (s_MaxDurationSeconds x)
    st (s_CreatedAtUnix x) now (s_Tags x).

Definition UpdateSlotStatus (now : Z) (m : MsgUpdateSlotStatus) (s : Store) : result err (Slot * Store) :=
  let publisher := TrimSpace (mu_Publisher m) in
  match GetSlot (TrimSpace (mu_SlotId m)) s with
  | None => Err ErrSlotNotFound
  | Some slot =>
      guard_err (negb (bool_decide (s_Publisher slot = publisher))) ErrSlotUnauthorized;;
      guard_err (mu_Status m =? SlotStatusUnspecified) ErrInvalidPublisherRequest;;
      let slot := set_status (mu_Status m) now slot in
      s' ← SetSlot slot s;
      Ok (slot, s')
  end.

(** [startsAt < existing.EndsAt && endsAt > existing.StartsAt] for an active
    lease. *)
Definition overlaps (starts ends : Z) (l : SlotLease) : bool :=
  (l_Status l =? LeaseStatusActive) && (starts <? l_EndsAtUnix l) && (l_StartsAtUnix l <? ends).

(** [sdk.NewCoin] panics on an invalid denomination. *)
Definition LeaseSlot (now : Z) (m : MsgLeaseSlot) (s : Store) : result err (SlotLease * Store) :=
  match GetSlot (TrimSpace (ml_SlotId m)) s with
  | None => Err ErrSlotNotFound
  | Some slot =>
  guard_err (negb (s_Status slot =? SlotStatusListed)) ErrSlotNotListed;;
  match GetWebsite (s_Domain slot) s with
  | None => Err ErrPublisherNotFound
  | Some website =>
  guard_err (negb (w_Status website =? StatusVerified)) ErrInvalidPublisherRequest;;
  let startsAtUnix := if ml_StartsAtUnix m <=? 0 then now else ml_StartsAtUnix m in
  guard_err (startsAtUnix <? now) ErrLeaseInvalidDuration;;
  guard_err ((now <? w_CooldownUntilUnix website) && (startsAtUnix <? w_CooldownUntilUnix website)) ErrPublisherInCooldown;;
  let durationSeconds := ml_DurationSeconds m in
  guard_err (durationSeconds <=? 0) ErrLeaseInvalidDuration;;
  guard_err (s_UnitSeconds slot <=? 0) ErrLeaseInvalidDuration;;
  guard_err (negb (Z.rem durationSeconds (s_UnitSeconds slot) =? 0)) ErrLeaseInvalidDuration;;
  guard_err ((durationSeconds <? s_MinDurationSeconds slot) || (s_MaxDurationSeconds slot <? durationSeconds))
    ErrLeaseInvalidDuration;;
  let endsAtUnix := i64 (startsAtUnix + durationSeconds) in
  guard_err (endsAtUnix <=? startsAtUnix) ErrLeaseInvalidDuration;;
  guard_err (negb (ParseRequestURI (TrimSpace (ml_TargetUrl m)))) ErrInvalidPublisherRequest;;
  guard_err (existsb (overlaps startsAtUnix endsAtUnix) (listLeasesBySlot (s_ID slot) s)) ErrLeaseOverlap;;
  let units := Z.quot durationSeconds (s_UnitSeconds slot) in
  let total := s_RateAmount slot * units in
  guard_err (negb (int_in_range total)) Panic;;
  guard_err (total <? 0) ErrLeaseInvalidDuration;;
  match AccAddressFromBech32 (TrimSpace (ml_Lessee m)) with
  | None => Err ErrInvalidPublisherRequest
  | Some lesseeAddr =>
  s ← (if 0 <? total then
         guard_err (negb (ValidDenom (s_RateDenom slot))) Panic;;
         match SendCoinsFromAccountToModule (bank s) lesseeAddr (s_RateDenom slot) total with
         | Some b => Ok (set_bank b s)
         | None => Err ErrLeasePaymentFailed
         end
       else Ok s);
  let '(id, s) := nextLeaseID s in
  let lease := mkLease id (s_ID slot) (s_Publisher slot) (TrimSpace (ml_Lessee m)) (TrimSpace (ml_TargetUrl m))
                 startsAtUnix endsAtUnix (s_RateDenom slot) (s_RateAmount slot) (s_UnitSeconds slot)
                 total total 0 LeaseStatusActive now now 0 in
  s' ← SetLease lease s;
  Ok (lease, s')
  end end end.

(** * Settlement *)

Definition close_lease (l : SlotLease) (paid st now through : Z) : SlotLease :=
  mkLease (l_ID l) (l_SlotID l) (l_Publisher l) (l_Lessee l) (l_TargetURL l) (l_StartsAtUnix l) (l_EndsAtUnix l)
    (l_RateDenom l) (l_RateAmount l) (l_UnitSeconds l) (l_EscrowTotal l) 0 paid st (l_CreatedAtUnix l) now through.

(** Send what is left in escrow to [to_]; nothing is sent when nothing is left. *)
Definition release (to_ : gostr) (l : SlotLease) (s : Store) : result err Store :=
  if 0 <? l_EscrowRemaining l then
    match AccAddressFromBech32 to_ with
    | None => Err (Errorf "invalid address")
    | Some a =>
        guard_err (negb (ValidDenom (l_RateDenom l))) Panic;;
        match SendCoinsFromModuleToAccount (bank s) a (l_RateDenom l) (l_EscrowRemaining l) with
        | Some b => Ok (set_bank b s)
        | None => Err (Errorf "bank transfer failed")
        end
    end
  else Ok s.

Definition payoutLease (l : SlotLease) (now : Z) (s : Store) : result err Store :=
  s ← release (l_Publisher l) l s;
  guard_err (negb (int_in_range (l_PaidOut l + l_EscrowRemaining l))) Panic;;
  SetLease (close_lease l (l_PaidOut l + l_EscrowRemaining l) LeaseStatusCompleted now (l_EndsAtUnix l)) s.

Definition refundLease (l : SlotLease) (status now : Z) (s : Store) : result err Store :=
  s ← release (l_Lessee l) l s;
  SetLease (close_lease l (l_PaidOut l) status now now) s.

(** The callback of [settleLeases] on one lease of the iteration. *)
Definition settle_one (now : Z) (l : SlotLease) (s : Store) : result err Store :=
  if negb (l_Status l =? LeaseStatusActive) then Ok s
  else if now <? l_EndsAtUnix l then Ok s
  else match GetSlot (l_SlotID l) s with
       | None => Err (Errorf "slot not found for lease")
       | Some slot =>
           match GetWebsite (s_Domain slot) s with
           | None => Err (Errorf "publisher not found for lease")
           | Some website =>
               if now <? w_CooldownUntilUnix website then refundLease l LeaseStatusViolated now s
               else payoutLease l now s
           end
       end.

(** The iterator sees the leases as they were when it was opened. *)
Definition settleLeases (now : Z) (s : Store) : result err Store :=
  each (settle_one now) (values (leases s)) s.

Definition active_for (domain : gostr) (at_ : Z) (s : Store) (l : SlotLease) : bool :=
  (l_Status l =? LeaseStatusActive) && negb ((at_ <? l_StartsAtUnix l) || (l_EndsAtUnix l <? at_)) &&
  match GetSlot (l_SlotID l) s with
  | Some slot => bool_decide (NormalizeDomain (s_Domain slot) = domain)
  | None => false
  end.
Definition activeLeasesForDomain (domain : gostr) (at_ now : Z) (s : Store) : list SlotLease :=
  filter (λ l, active_for (NormalizeDomain domain) (if at_ <=? 0 then now else at_) s l = true) (values (leases s)).

Definition violateActiveLeasesForDomain (domain : gostr) (now blockTime : Z) (s : Store) : result err Store :=
  each (λ l s, refundLease l LeaseStatusViolated now s) (activeLeasesForDomain domain now blockTime s) s.

(** * Cooldown *)

Fixpoint double_times (n : nat) (d : Z) : Z :=
  match n with O => d | S n' => double_times n' (i64 (d * 2)) end.

Definition computeCooldownSeconds (baseSeconds count : Z) : Z :=
  if (baseSeconds <=? 0) || (count <=? 0) then 0 else double_times (Z.to_nat (count - 1)) baseSeconds.

Definition with_cooldown (until count : Z) (w : Website) : Website :=
  mkWebsite (w_Domain w) (w_Owner w) (w_Status w) (w_MetadataURI w) (w_Proof w) (w_RegisteredAtHeight w)
    (w_Verifier w) (w_Referrer w) until count (w_PendingOwner w) (w_PendingReferrer w).

Definition applyPublisherCooldown (base now : Z) (w : Website) (s : Store) : result err (Website * Z * Store) :=
  let count := swrap 32 (w_CooldownCount w + 1) in
  let duration := computeCooldownSeconds base count in
  guard_err (duration <=? 0) (Errorf "cooldown duration invalid");;
  let w := with_cooldown (i64 (now + duration)) count w in
  s' ← UpsertWebsite w s;
  Ok (w, duration, s').

Definition clearPublisherCooldown (w : Website) (s : Store) : result err (Website * bool * Store) :=
  if (w_CooldownUntilUnix w =? 0) && (w_CooldownCount w =? 0) then Ok (w, false, s)
  else
    let w := with_cooldown 0 0 w in
    s' ← UpsertWebsite w s;
    Ok (w, true, s').

(** * Genesis *)

Definition site_le (a b : Website) : Prop := key_leb (w_Domain a) (w_Domain b) = true.
#[global] Instance site_le_dec a b : Decision (site_le a b).
Proof. unfold site_le. apply _. Defined.

(** [GenesisState.Validate], the websites: they are sorted in place, valid, and no
    domain comes twice. *)
Definition Genesis_Validate (sites : list Website) : result err (list Website) :=
  let sorted := merge_sort site_le sites in
  each (λ w seen, ValidateWebsite w;;
          guard_err (bool_decide (w_Domain w ∈ seen)) (Errorf "duplicate domain in genesis");;
          Ok (w_Domain w :: seen)) sorted [];;
  Ok sorted.

(** [InitGenesis], the websites. *)
Definition InitGenesis (sites : list Website) (s : Store) : result err Store :=
  sorted ← Genesis_Validate sites;
  each UpsertWebsite sorted s.
End Keeper.
