(* ===== verification/MarketProofs.v ===== *)
(** The slot market keeps its books: the invariant of its store, that every
    operation of [Market.v] preserves it, that coins are conserved between the
    module account and the escrows of the leases, and that settling ended leases
    succeeds and pays exactly what is due. *)

From S2P Require Import Prelude JsBase GoBase Market.

(** * Identifiers *)

Lemma dec_val_leading_zeros k s : dec_val (repeat 48 k ++ s) = dec_val s.
Proof. unfold dec_val. rewrite foldl_app. f_equal. by induction k. Qed.

Lemma pad6_inj n m : 0 ≤ n → 0 ≤ m → pad6 n = pad6 m → n = m.
Proof.
  intros Hn Hm E%(f_equal dec_val). unfold pad6 in E. by rewrite !dec_val_leading_zeros, !dec_val_print in E.
Qed.

Lemma slot_id_inj n m : 0 ≤ n → 0 ≤ m → slot_id n = slot_id m → n = m.
Proof. intros Hn Hm E%(app_inv_head (go "slot-")). by apply pad6_inj. Qed.

Lemma lease_id_inj n m : 0 ≤ n → 0 ≤ m → lease_id n = lease_id m → n = m.
Proof. intros Hn Hm E%(app_inv_head (go "lease-")). by apply pad6_inj. Qed.

(** * Automation *)

(** Run a handler that returned [Ok]: split its binds, guards and matches. *)
Ltac run_ok H :=
  repeat first
    [ progress cbv beta zeta in H
    | match type of H with
      | mbind _ _ = Ok _ => let a := fresh "r" in let E := fresh "E" in apply bind_Ok_inv in H as (a & E & H)
      | (if ?b then _ else _) = Ok _ => let E := fresh "E" in destruct b eqn:E; try discriminate H
      | match ?x with _ => _ end = Ok _ => let E := fresh "E" in destruct x eqn:E; try discriminate H
      end ].
Ltac guards :=
  repeat match goal with H : guard_err _ _ = Ok _ |- _ => apply guard_err_Ok_inv in H end.

(** * The invariant *)

Section Inv.
Context `{GoEnv} {B : Type} `{Bank B}.
Abbreviation Store := (Store B).

(** What an active lease holds, and what a closed one has paid. *)
Definition books_ok (l : SlotLease) : Prop :=
  (l_Status l = LeaseStatusActive ∧ l_EscrowRemaining l = l_EscrowTotal l ∧ l_PaidOut l = 0) ∨
  (l_Status l = LeaseStatusCompleted ∧ l_EscrowRemaining l = 0 ∧ l_PaidOut l = l_EscrowTotal l) ∨
  (l_Status l = LeaseStatusViolated ∧ l_EscrowRemaining l = 0 ∧ l_PaidOut l = 0).

Record lease_ok (l : SlotLease) : Prop := {
  lo_valid : Lease_ValidateBasic l = Ok tt;
  lo_books : books_ok l;
  lo_price : l_EscrowTotal l * l_UnitSeconds l = l_RateAmount l * (l_EndsAtUnix l - l_StartsAtUnix l);
  lo_range : l_EscrowTotal l < 2 ^ 256;
  lo_denom : 0 < l_EscrowTotal l → ValidDenom (l_RateDenom l) = true;
  lo_publisher : TrimSpace (l_Publisher l) = l_Publisher l;
  lo_lessee : TrimSpace (l_Lessee l) = l_Lessee l }.

Record slot_ok (x : Slot) : Prop := {
  so_valid : Slot_ValidateBasic x = Ok tt;
  so_publisher : TrimSpace (s_Publisher x) = s_Publisher x;
  so_status : s_Status x ≠ SlotStatusUnspecified }.

Definition disjoint_in_time (l m : SlotLease) : Prop :=
  l_EndsAtUnix l ≤ l_StartsAtUnix m ∨ l_EndsAtUnix m ≤ l_StartsAtUnix l.

Record market_inv (s : Store) : Prop := {
  mi_websites k w : websites s !! k = Some w → w_Domain w = k ∧ ValidateWebsite w = Ok tt;
  mi_slots k x : slots s !! k = Some x →
    s_ID x = k ∧ slot_ok x ∧ is_Some (websites s !! s_Domain x) ∧ ∃ n, 0 < n ≤ slotSeq s ∧ k = slot_id n;
  mi_leases k l : leases s !! k = Some l →
    l_ID l = k ∧ lease_ok l ∧ is_Some (slots s !! l_SlotID l) ∧ ∃ n, 0 < n ≤ leaseSeq s ∧ k = lease_id n;
  mi_disjoint k m l l' : leases s !! k = Some l → leases s !! m = Some l' → k ≠ m →
    l_SlotID l = l_SlotID l' → l_Status l = LeaseStatusActive → l_Status l' = LeaseStatusActive →
    disjoint_in_time l l';
  mi_seq : 0 ≤ slotSeq s ∧ 0 ≤ leaseSeq s }.

(** A stored domain is in normal form, so looking its website up finds it. *)
Lemma stored_domain_normal s d : market_inv s → is_Some (websites s !! d) → NormalizeDomain d = d.
Proof.
  intros Hi [w Hw]. destruct (mi_websites s Hi d w Hw) as [<- Hv]. unfold ValidateWebsite in Hv.
  apply first_error_ok in Hv. repeat (apply Forall_cons_1 in Hv as [? Hv]). cbn in *. zb.
  by match goal with H : bool_decide _ = true |- _ => apply bool_decide_eq_true in H end.
Qed.

Lemma inv_website s x : market_inv s → is_Some (websites s !! s_Domain x) → is_Some (GetWebsite (s_Domain x) s).
Proof. intros Hi Hs. unfold GetWebsite. by rewrite (stored_domain_normal s). Qed.

(** ** Websites *)

(** Any update of the websites that keeps them valid and keeps every domain that
    is there keeps the invariant. *)
Lemma inv_set_website s k w p : market_inv s → w_Domain w = k → ValidateWebsite w = Ok tt →
  market_inv (mkStore (<[k := w]> (websites s)) p (slots s) (leases s) (slotSeq s) (leaseSeq s) (bank s)).
Proof.
  intros [Hw Hs Hl Hd Hq] Hk Hv. split; cbn; try done.
  - intros k' w' [[<- <-]|[_ Hw']]%lookup_insert_Some; [done|by apply Hw].
  - intros k' x Hx. destruct (Hs k' x Hx) as (? & ? & ? & ?). split_and!; try done.
    apply lookup_insert_is_Some'. by right.
Qed.

Lemma UpsertWebsite_inv s w s' : market_inv s → UpsertWebsite w s = Ok s' → market_inv s'.
Proof.
  intros Hi HU. unfold UpsertWebsite in HU. run_ok HU. destruct r. injection HU as <-. by apply inv_set_website.
Qed.

Lemma RegisterWebsite_inv s h w r s' : market_inv s → RegisterWebsite h w s = Ok (r, s') → market_inv s'.
Proof.
  intros Hi HU. unfold RegisterWebsite in HU. run_ok HU. destruct r0. injection HU as <- <-. by apply inv_set_website.
Qed.

Lemma RegisterPublisher_inv s h m r s' : market_inv s → RegisterPublisher h m s = Ok (r, s') → market_inv s'.
Proof.
  intros Hi HU. unfold RegisterPublisher in HU. run_ok HU; [|by eapply RegisterWebsite_inv].
  injection HU as <- <-. by eapply UpsertWebsite_inv.
Qed.

(** A valid website stays valid with the candidate of a valid message. *)
Lemma pending_valid m w : ValidateWebsite w = Ok tt → Register_ValidateBasic m = Ok tt → TrimSpace (mr_Owner m) = mr_Owner m →
  mr_Owner m ≠ [] → ValidateWebsite (with_pending (mr_Owner m) (TrimSpace (mr_Referrer m)) w) = Ok tt.
Proof.
  intros Hw Hm Ht Hne. unfold ValidateWebsite, Register_ValidateBasic in *. apply first_error_ok. apply first_error_ok in Hw, Hm.
  repeat (apply Forall_cons_1 in Hw as [? Hw]). repeat (apply Forall_cons_1 in Hm as [? Hm]).
  assert (blank (mr_Owner m) = false) as Hb by (unfold blank; rewrite Ht; by destruct (mr_Owner m)).
  assert (blank (TrimSpace (mr_Referrer m)) = blank (mr_Referrer m)) as Hb' by (unfold blank; by rewrite TrimSpace_idem).
  repeat (constructor; [cbn [fst w_PendingOwner w_PendingReferrer with_pending]; rewrite ?Hb, ?Hb', ?TrimSpace_idem, ?Ht; cbn [negb andb fst] in *; first [assumption|reflexivity]|]).
  constructor.
Qed.

(** ** Slots *)

Lemma inv_set_slot s k x n : market_inv s → s_ID x = k → slot_ok x → is_Some (websites s !! s_Domain x) →
  slotSeq s ≤ n → (∃ i, 0 < i ≤ n ∧ k = slot_id i) →
  market_inv (mkStore (websites s) (primaryDomains s) (<[k := x]> (slots s)) (leases s) n (leaseSeq s) (bank s)).
Proof.
  intros [Hw Hs Hl Hd Hq] Hk Hx Hdom Hn Hid. split; cbn; try done.
  - intros k' y [[<- <-]|[_ Hy]]%lookup_insert_Some; [done|].
    destruct (Hs k' y Hy) as (? & ? & ? & i & ? & ?). split_and!; try done. exists i. split; [lia|done].
  - intros k' l Hk'. destruct (Hl k' l Hk') as (? & ? & ? & ?). split_and!; try done.
    apply lookup_insert_is_Some'. by right.
  - lia.
Qed.

Lemma SetSlot_Ok x (s s' : Store) : SetSlot x s = Ok s' →
  let y := with_domain (NormalizeDomain (s_Domain x)) x in
  Slot_ValidateBasic y = Ok tt ∧ s' = set_slots (<[s_ID x := y]> (slots s)) s.
Proof. intros HS. unfold SetSlot in HS. run_ok HS. destruct r. by injection HS as <-. Qed.

Lemma CreateSlot_inv s now m r s' : market_inv s → slotSeq s < 2 ^ 64 - 1 →
  CreateSlot now m s = Ok (r, s') → market_inv s'.
Proof.
  intros Hi Hn HC. unfold CreateSlot in HC. run_ok HC. injection HC as <- <-.
  pose proof (mi_seq s Hi) as [Hq _].
  assert (u64 (slotSeq s + 1) = slotSeq s + 1) as Hu by (apply uwrap_small; unfold in_u; lia).
  match goal with E : nextSlotID s = _ |- _ => injection E as <- <- end.
  match goal with E : SetSlot _ _ = _ |- _ => apply SetSlot_Ok in E as [Hv ->] end. rewrite !Hu in *.
  apply (inv_set_slot s); try done; cbn; try lia.
  - split; [exact Hv| |discriminate]. cbn. apply TrimSpace_idem.
  - exists (slotSeq s + 1). split; [lia|done].
Qed.

(** Rewriting a stored slot with a new publisher or status. *)
Lemma SetSlot_inv s x y s' : market_inv s → slots s !! s_ID x = Some x →
  s_ID y = s_ID x → s_Domain y = s_Domain x → TrimSpace (s_Publisher y) = s_Publisher y →
  s_Status y ≠ SlotStatusUnspecified → SetSlot y s = Ok s' → market_inv s'.
Proof.
  intros Hi Hx Hid Hdom Hp Hst [Hv ->]%SetSlot_Ok. destruct (mi_slots s Hi _ _ Hx) as (_ & Hok & Hw & Hn).
  rewrite Hdom, (stored_domain_normal s) in * by done. rewrite Hid.
  apply (inv_set_slot s); try done; lia.
Qed.

Lemma set_status_valid x st now : Slot_ValidateBasic x = Ok tt → 0 ≤ now → Slot_ValidateBasic (set_status st now x) = Ok tt.
Proof.
  unfold Slot_ValidateBasic. intros Hv Hn. apply first_error_ok. apply first_error_ok in Hv. repeat (apply Forall_cons_1 in Hv as [? Hv]).
  cbn in *. zb. repeat (constructor; [cbn; first [assumption|repeat (apply orb_false_iff; split); apply Z.ltb_ge; lia|
    apply Z.ltb_ge; lia|apply Z.leb_gt; lia|by apply negb_false_iff]|]). constructor.
Qed.

Lemma UpdateSlotStatus_inv s now m r s' : market_inv s → UpdateSlotStatus now m s = Ok (r, s') → market_inv s'.
Proof.
  intros Hi HU. unfold UpdateSlotStatus in HU. run_ok HU. guards. zb. injection HU as <- <-.
  match goal with E : GetSlot _ _ = Some ?x, E' : SetSlot _ _ = Ok _ |- _ =>
    destruct (mi_slots s Hi _ x E) as (Hid & Hok & _); unfold GetSlot in E; rewrite <- Hid in E;
    eapply (SetSlot_inv s x); [exact Hi|exact E|..|exact E']; try done; apply (so_publisher _ Hok) end.
Qed.

(** ** Loops over records with distinct keys *)

(** A property that each iteration keeps holds at the end. *)
Lemma each_ind {A S} (P : S → Prop) (f : A → S → result err S) xs s s' :
  (∀ x s s', x ∈ xs → P s → f x s = Ok s' → P s') → P s → each f xs s = Ok s' → P s'.
Proof.
  revert s. induction xs as [|x xs IH]; intros s Hf HP HE; cbn in HE.
  - by injection HE as <-.
  - run_ok HE. eapply IH; [|eapply Hf; [by left|done..]|done]. intros. eapply Hf; eauto. by right.
Qed.

(** A loop over records that are in the store under distinct keys, whose body
    [f x] touches only the record of [x]: each iteration finds its record as it
    was when the loop started. *)
Lemma each_keyed_in {A S} (key : A → gostr) (get : S → gostr → option A) (P : S → Prop)
    (f : A → S → result err S) xs s s' :
  NoDup (key <$> xs) → (∀ x, x ∈ xs → get s (key x) = Some x) →
  (∀ x s s', x ∈ xs → P s → get s (key x) = Some x → f x s = Ok s' →
    P s' ∧ ∀ k, k ≠ key x → get s' k = get s k) →
  P s → each f xs s = Ok s' → P s'.
Proof.
  revert s. induction xs as [|x xs IH]; intros s Hnd Hget Hf HP HE; cbn in HE.
  - by injection HE as <-.
  - run_ok HE. apply list.NoDup_cons in Hnd as [Hx Hnd].
    destruct (Hf x s r ltac:(by left) HP (Hget x ltac:(by left)) E) as [HP' Hk]. eapply (IH r); try done.
    + intros y Hy. rewrite Hk; [apply Hget; by right|]. intros Hxy. apply Hx. rewrite <- Hxy.
      by apply list_elem_of_fmap_2.
    + intros y t t' Hy. apply Hf. by right.
Qed.

Lemma each_keyed {A S} (key : A → gostr) (get : S → gostr → option A) (P : S → Prop)
    (f : A → S → result err S) xs s s' :
  NoDup (key <$> xs) → (∀ x, x ∈ xs → get s (key x) = Some x) →
  (∀ x s s', P s → get s (key x) = Some x → f x s = Ok s' →
    P s' ∧ ∀ k, k ≠ key x → get s' k = get s k) →
  P s → each f xs s = Ok s' → P s'.
Proof. intros Hn Hg Hf. apply (each_keyed_in key get); try done. intros x t t' _. apply Hf. Qed.

(** What the body makes of a record is still there when the loop is over. *)
Lemma each_post {A S} (key : A → gostr) (get : S → gostr → option A) (P : S → Prop) (Q : A → option A → Prop)
    (f : A → S → result err S) xs s s' :
  NoDup (key <$> xs) → (∀ x, x ∈ xs → get s (key x) = Some x) →
  (∀ x s s', P s → get s (key x) = Some x → f x s = Ok s' →
    P s' ∧ Q x (get s' (key x)) ∧ ∀ k, k ≠ key x → get s' k = get s k) →
  P s → each f xs s = Ok s' →
  (∀ x, x ∈ xs → Q x (get s' (key x))) ∧ ∀ k, k ∉ key <$> xs → get s' k = get s k.
Proof.
  revert s. induction xs as [|x xs IH]; intros s Hnd Hget Hf HP HE; cbn in HE.
  - injection HE as <-. split; [by intros x ?%elem_of_nil|done].
  - run_ok HE. apply list.NoDup_cons in Hnd as [Hx Hnd].
    destruct (Hf x s r HP (Hget x ltac:(by left)) E) as (HP' & HQ & Hk).
    destruct (IH r Hnd) as [Hin Hout]; try done.
    { intros y Hy. rewrite Hk; [apply Hget; by right|]. intros Hxy. apply Hx. rewrite <- Hxy. by apply list_elem_of_fmap_2. }
    split.
    + intros y [->|Hy]%elem_of_cons; [by rewrite Hout|by apply Hin].
    + intros k [? ?]%not_elem_of_cons. rewrite Hout, Hk; done.
Qed.

Lemma values_keyed {V} (key : V → gostr) (m : gmap gostr V) : (∀ k v, m !! k = Some v → key v = k) →
  NoDup (key <$> values m) ∧ ∀ v, v ∈ values m → m !! key v = Some v.
Proof.
  intros Hk. split.
  - unfold values. rewrite <- list_fmap_compose.
    assert ((key ∘ snd) <$> entries m = fst <$> entries m) as ->.
    { apply list_fmap_ext. intros i [k v] Hi%list_elem_of_lookup_2%elem_of_entries. cbn. by apply Hk. }
    rewrite entries_perm. apply NoDup_fst_map_to_list.
  - intros v [k Hv]%elem_of_values. by rewrite (Hk k v Hv).
Qed.

Lemma filter_keyed {V} (key : V → gostr) (m : gmap gostr V) (P : V → Prop) `{∀ v, Decision (P v)} :
  (∀ k v, m !! k = Some v → key v = k) →
  NoDup (key <$> filter P (values m)) ∧ ∀ v, v ∈ filter P (values m) → m !! key v = Some v ∧ P v.
Proof.
  intros Hk. destruct (values_keyed key m Hk) as [Hn Hv]. split.
  - eapply sublist_NoDup; [done|]. apply fmap_sublist, sublist_filter.
  - intros v [? ?]%list_elem_of_filter. auto.
Qed.

Lemma transferSlotsForDomain_inv s d prev new now s' : market_inv s →
  transferSlotsForDomain d prev new now s = Ok s' → market_inv s'.
Proof.
  intros Hi HT. unfold transferSlotsForDomain in HT.
  match type of HT with each _ (filter ?P _) _ = _ => destruct (filter_keyed s_ID (slots s) P) as [Hn Hv] end.
  { intros k v Hk. by apply (mi_slots s Hi). }
  eapply (each_keyed s_ID (λ s k, slots s !! k) market_inv); [exact Hn| | |exact Hi|exact HT].
  - intros x Hx. by apply Hv.
  - clear. intros x s s' Hi Hx HS. split.
    + destruct (mi_slots s Hi _ _ Hx) as (_ & Hok & _).
      eapply (SetSlot_inv s x); [..|exact HS]; try done; cbn; [apply TrimSpace_idem|apply (so_status _ Hok)].
    + apply SetSlot_Ok in HS as [_ ->]. intros k Hk. cbn. by rewrite lookup_insert_ne.
Qed.

(** ** Leases *)

Lemma SetLease_Ok l (s s' : Store) : SetLease l s = Ok s' →
  Lease_ValidateBasic l = Ok tt ∧ s' = set_leases (<[l_ID l := l]> (leases s)) s.
Proof. intros HS. unfold SetLease in HS. run_ok HS. destruct r. by injection HS as <-. Qed.

(** The fields of a message are 64-bit integers. *)
Definition lease_msg_typed (m : MsgLeaseSlot) : Prop :=
  in_s 64 (ml_StartsAtUnix m) ∧ in_s 64 (ml_DurationSeconds m).

Lemma i64_sum a b : 0 ≤ a < 2 ^ 63 → 0 < b < 2 ^ 63 → a < i64 (a + b) → i64 (a + b) = a + b.
Proof.
  intros Ha Hb Hlt. unfold i64, swrap in *. change (64 - 1) with 63 in *.
  rewrite (Z.mod_small (a + b)) in * by lia. destruct (Z.ltb_spec (a + b) (2 ^ 63)); lia.
Qed.

(** Everything a successful [LeaseSlot] has checked and done. *)
Record leased (now : Z) (m : MsgLeaseSlot) (s : Store) (l : SlotLease) (s' : Store) : Prop := {
  le_slot : ∃ x w, GetSlot (TrimSpace (ml_SlotId m)) s = Some x ∧ GetWebsite (s_Domain x) s = Some w ∧
    s_Status x = SlotStatusListed ∧ w_Status w = StatusVerified ∧ l_SlotID l = s_ID x ∧
    l_Publisher l = s_Publisher x ∧ l_RateDenom l = s_RateDenom x ∧ l_RateAmount l = s_RateAmount x ∧
    l_UnitSeconds l = s_UnitSeconds x ∧ l_EndsAtUnix l = i64 (l_StartsAtUnix l + ml_DurationSeconds m) ∧
    s_MinDurationSeconds x ≤ ml_DurationSeconds m ≤ s_MaxDurationSeconds x ∧
    0 < ml_DurationSeconds m ∧ 0 < s_UnitSeconds x ∧ Z.rem (ml_DurationSeconds m) (s_UnitSeconds x) = 0 ∧
    l_EscrowTotal l = s_RateAmount x * Z.quot (ml_DurationSeconds m) (s_UnitSeconds x) ∧
    existsb (overlaps (l_StartsAtUnix l) (l_EndsAtUnix l)) (listLeasesBySlot (s_ID x) s) = false ∧
    (w_CooldownUntilUnix w ≤ now ∨ w_CooldownUntilUnix w ≤ l_StartsAtUnix l);
  le_start : l_StartsAtUnix l = (if ml_StartsAtUnix m <=? 0 then now else ml_StartsAtUnix m);
  le_time : now ≤ l_StartsAtUnix l < l_EndsAtUnix l;
  le_lessee : l_Lessee l = TrimSpace (ml_Lessee m);
  le_range : 0 ≤ l_EscrowTotal l < 2 ^ 256;
  le_books : l_Status l = LeaseStatusActive ∧ l_EscrowRemaining l = l_EscrowTotal l ∧ l_PaidOut l = 0;
  le_valid : Lease_ValidateBasic l = Ok tt;
  le_id : l_ID l = lease_id (u64 (leaseSeq s + 1));
  le_paid : (l_EscrowTotal l = 0 ∧ bank s' = bank s) ∨
    (0 < l_EscrowTotal l ∧ ValidDenom (l_RateDenom l) = true ∧
     ∃ a, AccAddressFromBech32 (l_Lessee l) = Some a ∧
       SendCoinsFromAccountToModule (bank s) a (l_RateDenom l) (l_EscrowTotal l) = Some (bank s'));
  le_store : s' = mkStore (websites s) (primaryDomains s) (slots s) (<[l_ID l := l]> (leases s)) (slotSeq s)
                    (u64 (leaseSeq s + 1)) (bank s') }.

Lemma LeaseSlot_Ok now m s l s' : LeaseSlot now m s = Ok (l, s') → leased now m s l s'.
Proof.
  intros HL. unfold LeaseSlot in HL. run_ok HL. injection HL as <- <-. guards. zb.
  rename s0 into x, w into web.
  match goal with E : SetLease _ _ = _ |- _ => apply SetLease_Ok in E as [Hv ->] end.
  match goal with E : nextLeaseID ?r = (_, _) |- _ => injection E as <- <-; rename r into sb end.
  match goal with H : int_in_range _ = true |- _ => apply Z.ltb_lt in H end.
  assert (websites sb = websites s ∧ primaryDomains sb = primaryDomains s ∧ slots sb = slots s ∧
    leases sb = leases s ∧ slotSeq sb = slotSeq s ∧ leaseSeq sb = leaseSeq s ∧ 
    ((s_RateAmount x * Z.quot (ml_DurationSeconds m) (s_UnitSeconds x) = 0 ∧ bank sb = bank s) ∨
     (0 < s_RateAmount x * Z.quot (ml_DurationSeconds m) (s_UnitSeconds x) ∧ ValidDenom (s_RateDenom x) = true ∧
      SendCoinsFromAccountToModule (bank s) l0 (s_RateDenom x)
        (s_RateAmount x * Z.quot (ml_DurationSeconds m) (s_UnitSeconds x)) = Some (bank sb))))
    as (Hw & Hp & Hs & Hl & Hq1 & Hq2 & Hb).
  { match goal with E : (if _ then _ else _) = Ok sb |- _ => run_ok E; injection E as <- end; guards; zb.
    - split_and!; try done. right. done.
    - split_and!; try done. left. split; [lia|done]. }
  split; cbn in *; rewrite ?Hq2 in *; try done; try lia.
  - exists x, web. split_and!; try done. apply andb_false_iff in E4. destruct E4; zb; auto.
  - destruct Hb as [?|(? & ? & ?)]; [by left|]. right. split_and!; try done. eauto.
  - unfold set_leases. cbn. by rewrite Hw, Hp, Hs, Hl, Hq1.
Qed.

Lemma valid_lease l : Lease_ValidateBasic l = Ok tt →
  is_Some (AccAddressFromBech32 (TrimSpace (l_Publisher l))) ∧
  is_Some (AccAddressFromBech32 (TrimSpace (l_Lessee l))) ∧
  0 < l_StartsAtUnix l < l_EndsAtUnix l ∧ 0 < l_UnitSeconds l ∧ 0 ≤ l_RateAmount l ∧
  0 ≤ l_EscrowTotal l ∧ 0 ≤ l_EscrowRemaining l ∧ 0 ≤ l_PaidOut l ∧ 0 ≤ l_CreatedAtUnix l.
Proof.
  unfold Lease_ValidateBasic. intros Hv%first_error_ok. repeat (apply Forall_cons_1 in Hv as [? Hv]).
  unfold addr_ok in *. cbn in *. zb. repeat case_match; try discriminate. split_and!; eauto; lia.
Qed.

(** Closing a lease keeps it valid. *)
Lemma close_lease_valid l paid st now through : Lease_ValidateBasic l = Ok tt → 0 ≤ paid → 0 ≤ now →
  Lease_ValidateBasic (close_lease l paid st now through) = Ok tt.
Proof.
  intros Hl Hp Hn. destruct (valid_lease l Hl) as (_ & _ & _ & _ & _ & ? & ? & ? & ?). unfold Lease_ValidateBasic in *.
  apply first_error_ok. apply first_error_ok in Hl. repeat (apply Forall_cons_1 in Hl as [? Hl]).
  repeat (constructor; [cbn in *; first [assumption|repeat (apply orb_false_iff; split); first [reflexivity|apply Z.ltb_ge; lia]]|]). constructor.
Qed.

(** A new lease, for a key not in the store. *)
Lemma inv_new_lease s l n b : market_inv s → n = leaseSeq s + 1 → l_ID l = lease_id n → lease_ok l →
  is_Some (slots s !! l_SlotID l) →
  (∀ k l', leases s !! k = Some l' → l_SlotID l' = l_SlotID l → l_Status l' = LeaseStatusActive → disjoint_in_time l l') →
  leases s !! l_ID l = None ∧
  market_inv (mkStore (websites s) (primaryDomains s) (slots s) (<[l_ID l := l]> (leases s)) (slotSeq s) n b).
Proof.
  intros [Hw Hs Hl Hd Hq] -> Hid Hok Hslot Hdis.
  assert (leases s !! l_ID l = None) as Hfresh.
  { destruct (leases s !! l_ID l) as [l'|] eqn:E; [|done]. destruct (Hl _ _ E) as (_ & _ & _ & i & Hi & Hk).
    rewrite Hid in Hk. apply lease_id_inj in Hk; lia. }
  split; [done|]. split; cbn; try done.
  - intros k l' [[<- <-]|[_ Hl']]%lookup_insert_Some.
    + split_and!; try done. exists (leaseSeq s + 1). split; [lia|done].
    + destruct (Hl k l' Hl') as (? & ? & ? & i & ? & ?). split_and!; try done. exists i. split; [lia|done].
  - intros k k' l1 l2 [[<- <-]|[? Ha]]%lookup_insert_Some [[<- <-]|[? Hb]]%lookup_insert_Some ? ? ? ?;
      [done| | |by eapply Hd].
    + by eapply Hdis.
    + apply or_comm. by eapply Hdis.
  - lia.
Qed.

Lemma LeaseSlot_lease_ok now m s l s' : market_inv s → 0 ≤ now < 2 ^ 63 → lease_msg_typed m →
  leased now m s l s' → lease_ok l ∧ l_EndsAtUnix l = l_StartsAtUnix l + ml_DurationSeconds m.
Proof.
  intros Hi Hnow [Ht1 Ht2] Hle. unfold in_s in *. change (64 - 1) with 63 in *.
  destruct (le_slot _ _ _ _ _ Hle) as (x & w & Hx & _ & _ & _ & Hsid & Hp & Hden & Hr & Hu & He & Hb & Hd & Hun & Hrem & Htot & _).
  destruct (mi_slots s Hi _ _ Hx) as (Hid & Hok & _). destruct (le_books _ _ _ _ _ Hle) as (? & ? & ?).
  pose proof (le_time _ _ _ _ _ Hle). pose proof (le_start _ _ _ _ _ Hle) as Hst.
  assert (l_StartsAtUnix l < 2 ^ 63) by (rewrite Hst; destruct (Z.leb_spec (ml_StartsAtUnix m) 0); lia).
  assert (l_EndsAtUnix l = l_StartsAtUnix l + ml_DurationSeconds m) as Hend.
  { rewrite He. apply i64_sum; lia. }
  split; [|done]. split.
  - apply (le_valid _ _ _ _ _ Hle).
  - left. done.
  - rewrite Hend, Htot, Hu, Hr. rewrite (Z.quot_rem' (ml_DurationSeconds m) (s_UnitSeconds x)) at 2. lia.
  - apply (le_range _ _ _ _ _ Hle).
  - intros Hpos. destruct (le_paid _ _ _ _ _ Hle) as [[? _]|(_ & ? & _)]; [lia|done].
  - rewrite Hp. apply (so_publisher _ Hok).
  - rewrite (le_lessee _ _ _ _ _ Hle). apply TrimSpace_idem.
Qed.

Lemma LeaseSlot_inv now m s l s' : market_inv s → 0 ≤ now < 2 ^ 63 → lease_msg_typed m → leaseSeq s < 2 ^ 64 - 1 →
  LeaseSlot now m s = Ok (l, s') → leases s !! l_ID l = None ∧ market_inv s'.
Proof.
  intros Hi Hnow Hm Hseq HL%LeaseSlot_Ok. destruct (LeaseSlot_lease_ok _ _ _ _ _ Hi Hnow Hm HL) as [Hok Hend].
  rewrite (le_store _ _ _ _ _ HL). pose proof (mi_seq s Hi).
  assert (u64 (leaseSeq s + 1) = leaseSeq s + 1) as Hu by (apply uwrap_small; unfold in_u; lia).
  destruct (le_slot _ _ _ _ _ HL) as (x & w & Hx & _ & _ & _ & Hsid & Hrest).
  destruct (mi_slots s Hi _ _ Hx) as (Hid & _).
  apply inv_new_lease; try done.
  - by rewrite (le_id _ _ _ _ _ HL).
  - rewrite Hsid, Hid. eauto.
  - intros k l' Hl' Hs Hact. destruct Hrest as (_ & _ & _ & _ & _ & _ & _ & _ & _ & _ & Hov & _).
    unfold disjoint_in_time. apply not_true_iff_false in Hov. rewrite existsb_exists in Hov.
    destruct (decide (l_EndsAtUnix l ≤ l_StartsAtUnix l')); [by left|]. right.
    apply Z.nlt_ge. intros Hlt. apply Hov. exists l'. split.
    + apply list_elem_of_In, list_elem_of_filter. split; [congruence|]. apply elem_of_values. eauto.
    + unfold overlaps. rewrite Hact. cbn. apply andb_true_iff. split; apply Z.ltb_lt; lia.
Qed.

(** ** Escrow *)

(** What a lease holds of a denomination; what the module has beyond the sum of
    the escrows; enough to pay them all. *)
Definition escrow (d : gostr) (l : SlotLease) : Z := if decide (l_RateDenom l = d) then l_EscrowRemaining l else 0.
Definition surplus (d : gostr) (s : Store) : Z := module_bal (bank s) d - sum_over (escrow d) (leases s).
Definition solvent (s : Store) : Prop := ∀ d, 0 ≤ surplus d s.

(** What a transfer of the escrow of [l] to [to_] adds to the account [a]. *)
Definition credit (to_ : gostr) (l : SlotLease) (a : list Z) (d : gostr) : Z :=
  if decide (AccAddressFromBech32 to_ = Some a) then escrow d l else 0.

Lemma escrow_nonneg s d k l : market_inv s → leases s !! k = Some l → 0 ≤ escrow d l.
Proof.
  intros Hi Hl. destruct (mi_leases s Hi k l Hl) as (_ & Hok & _).
  destruct (valid_lease _ (lo_valid _ Hok)) as (_ & _ & _ & _ & _ & _ & ? & _). unfold escrow. by case_decide.
Qed.

Lemma LeaseSlot_surplus now m s l s' d : leases s !! l_ID l = None → LeaseSlot now m s = Ok (l, s') →
  surplus d s' = surplus d s.
Proof.
  intros Hf HL%LeaseSlot_Ok. destruct (le_books _ _ _ _ _ HL) as (_ & He & _). unfold surplus.
  rewrite (le_store _ _ _ _ _ HL). cbn [leases bank]. rewrite sum_over_fresh by done. unfold escrow at 1. rewrite He.
  destruct (le_paid _ _ _ _ _ HL) as [[-> ->]|(Hpos & _ & a & _ & Hs)]; [case_decide; lia|].
  destruct (to_module_spec _ _ _ _ _ Hpos Hs) as (_ & -> & _). repeat case_decide; simplify_eq; lia.
Qed.

(** Lease [l] of [s] is closed as [l'] in [s'], its escrow sent to [to_]. *)
Record closes (to_ : gostr) (l l' : SlotLease) (s s' : Store) : Prop := {
  cl_store : s' = set_leases (<[l_ID l := l']> (leases s)) (set_bank (bank s') s);
  cl_module d : module_bal (bank s') d = module_bal (bank s) d - escrow d l;
  cl_account a d : account_bal (bank s') a d = account_bal (bank s) a d + credit to_ l a d;
  cl_valid : Lease_ValidateBasic l' = Ok tt }.

Lemma set_bank_id (s : Store) : set_bank (bank s) s = s.
Proof. by destruct s. Qed.

Lemma release_Ok to_ l (s s' : Store) : 0 ≤ l_EscrowRemaining l → release to_ l s = Ok s' →
  s' = set_bank (bank s') s ∧ (∀ d, module_bal (bank s') d = module_bal (bank s) d - escrow d l) ∧
  (∀ a d, account_bal (bank s') a d = account_bal (bank s) a d + credit to_ l a d).
Proof.
  intros Hn HR. unfold release in HR. run_ok HR; injection HR as <-; zb.
  - match goal with E : SendCoinsFromModuleToAccount _ _ _ _ = Some _ |- _ =>
      apply from_module_spec in E as (_ & Hm & Ha); [|done] end. cbn.
    unfold credit, escrow. split_and!; [done|intros d; rewrite Hm|intros a' d; rewrite Ha];
      repeat case_decide; destruct_and?; simplify_eq; try lia; tauto.
  - assert (l_EscrowRemaining l = 0) as Hz by lia. rewrite set_bank_id. unfold credit, escrow. rewrite Hz.
    split_and!; [done|intros d|intros a d]; repeat case_decide; lia.
Qed.

Lemma set_leases_bank ls (b : B) s :
  set_leases ls (set_bank b s) = set_leases ls (set_bank (bank (set_leases ls (set_bank b s))) s).
Proof. done. Qed.

Lemma payoutLease_closes l now (s s' : Store) : 0 ≤ l_EscrowRemaining l → payoutLease l now s = Ok s' →
  closes (l_Publisher l) l
    (close_lease l (l_PaidOut l + l_EscrowRemaining l) LeaseStatusCompleted now (l_EndsAtUnix l)) s s'.
Proof.
  intros Hn HP. unfold payoutLease in HP. run_ok HP. apply SetLease_Ok in HP as [Hv ->].
  match goal with E : release _ _ _ = Ok _ |- _ => apply release_Ok in E as (-> & Hm & Ha); [|done] end. by split.
Qed.

Lemma refundLease_closes l st now (s s' : Store) : 0 ≤ l_EscrowRemaining l → refundLease l st now s = Ok s' →
  closes (l_Lessee l) l (close_lease l (l_PaidOut l) st now now) s s'.
Proof.
  intros Hn HP. unfold refundLease in HP. run_ok HP. apply SetLease_Ok in HP as [Hv ->].
  match goal with E : release _ _ _ = Ok _ |- _ => apply release_Ok in E as (-> & Hm & Ha); [|done] end. by split.
Qed.

(** The two ways a lease ends: all of it paid out, through its end, or nothing, as
    violated; nothing stays in escrow, and its terms are as they were. *)
Definition paid_lease (now : Z) (l : SlotLease) : SlotLease :=
  mkLease (l_ID l) (l_SlotID l) (l_Publisher l) (l_Lessee l) (l_TargetURL l) (l_StartsAtUnix l) (l_EndsAtUnix l) (l_RateDenom l)
    (l_RateAmount l) (l_UnitSeconds l) (l_EscrowTotal l) 0 (l_EscrowTotal l) LeaseStatusCompleted (l_CreatedAtUnix l) now (l_EndsAtUnix l).
Definition refunded_lease (now : Z) (l : SlotLease) : SlotLease :=
  mkLease (l_ID l) (l_SlotID l) (l_Publisher l) (l_Lessee l) (l_TargetURL l) (l_StartsAtUnix l) (l_EndsAtUnix l) (l_RateDenom l)
    (l_RateAmount l) (l_UnitSeconds l) (l_EscrowTotal l) 0 0 LeaseStatusViolated (l_CreatedAtUnix l) now now.

Definition closed_as (now : Z) (l l' : SlotLease) (to_ : gostr) : Prop :=
  (l' = paid_lease now l ∧ to_ = l_Publisher l) ∨ (l' = refunded_lease now l ∧ to_ = l_Lessee l).

Lemma closes_inv now to_ l l' s s' : market_inv s → leases s !! l_ID l = Some l → l_Status l = LeaseStatusActive →
  closed_as now l l' to_ → closes to_ l l' s s' → market_inv s'.
Proof.
  intros Hi Hl Hact Hc Hcl. rewrite (cl_store _ _ _ _ _ Hcl). destruct Hi as [Hw Hs Hls Hd Hq].
  assert (l_ID l' = l_ID l ∧ l_SlotID l' = l_SlotID l ∧ l_Status l' ≠ LeaseStatusActive) as (Hid & Hsid & Hna).
  { by destruct Hc as [[-> _]|[-> _]]. }
  destruct (Hls _ _ Hl) as (_ & Hok & Hslot & Hn).
  split; cbn; try done.
  - intros k m [[<- <-]|[_ Hm]]%lookup_insert_Some; [|by apply Hls]. rewrite Hid, Hsid. split_and!; try done.
    pose proof (cl_valid _ _ _ _ _ Hcl) as Hv.
    destruct Hc as [[-> _]|[-> _]]; split; try apply Hok; try exact Hv; cbn.
    + right. left. done.
    + right. right. done.
  - intros k k' l1 l2 [[<- <-]|[? Ha]]%lookup_insert_Some [[<- <-]|[? Hb]]%lookup_insert_Some ? ? ? ?; try done.
    by eapply Hd.
Qed.

Lemma closes_surplus now to_ l l' s s' d : leases s !! l_ID l = Some l → closed_as now l l' to_ →
  closes to_ l l' s s' → surplus d s' = surplus d s.
Proof.
  intros Hl Hc Hcl. unfold surplus. rewrite (cl_module _ _ _ _ _ Hcl), (cl_store _ _ _ _ _ Hcl). cbn [leases set_leases].
  rewrite (sum_over_replace _ _ _ _ l) by done.
  assert (escrow d l' = 0) as -> by (unfold escrow; destruct Hc as [[-> _]|[-> _]]; cbn; by case_decide). lia.
Qed.

(** ** The payments go through *)

(** The recipients of the open leases may receive coins. *)
Definition payees_ok (s : Store) : Prop := ∀ k l to_ a, leases s !! k = Some l → l_Status l = LeaseStatusActive →
  to_ = l_Publisher l ∨ to_ = l_Lessee l → AccAddressFromBech32 to_ = Some a → blocked a = false.

Lemma lease_facts s l : market_inv s → leases s !! l_ID l = Some l → l_Status l = LeaseStatusActive →
  l_EscrowRemaining l = l_EscrowTotal l ∧ l_PaidOut l = 0 ∧ 0 ≤ l_EscrowTotal l < 2 ^ 256 ∧
  (∀ to_, to_ = l_Publisher l ∨ to_ = l_Lessee l → is_Some (AccAddressFromBech32 to_)).
Proof.
  intros Hi Hl Hact. destruct (mi_leases s Hi _ _ Hl) as (_ & Hok & _).
  destruct (valid_lease _ (lo_valid _ Hok)) as (Hp & He & _ & _ & _ & ? & _).
  rewrite (lo_publisher _ Hok), (lo_lessee _ Hok) in *. pose proof (lo_range _ Hok).
  destruct (lo_books _ Hok) as [(_ & ? & ?)|[(Hs & _)|(Hs & _)]]; [|rewrite Hs in Hact; discriminate..].
  split_and!; try done. by intros to_ [->| ->].
Qed.

Lemma release_goes_through s l to_ : market_inv s → leases s !! l_ID l = Some l → l_Status l = LeaseStatusActive →
  to_ = l_Publisher l ∨ to_ = l_Lessee l → solvent s → payees_ok s → ∃ s', release to_ l s = Ok s'.
Proof.
  intros Hi Hl Hact Hto Hsol Hpay. destruct (lease_facts s l Hi Hl Hact) as (Hr & _ & _ & Ha).
  destruct (mi_leases s Hi _ _ Hl) as (_ & Hok & _). unfold release. destruct (Z.ltb_spec 0 (l_EscrowRemaining l)); [|eauto].
  destruct (Ha to_ Hto) as [a Ea]. rewrite Ea, (lo_denom _ Hok) by lia. cbn.
  destruct (from_module_ok (bank s) a (l_RateDenom l) (l_EscrowRemaining l)) as [b ->]; [|by eapply Hpay|eauto].
  split; [done|]. specialize (Hsol (l_RateDenom l)). unfold surplus in Hsol.
  pose proof (sum_over_ge (escrow (l_RateDenom l)) (leases s) _ _ (λ k v, escrow_nonneg s _ k v Hi) Hl) as Hge.
  unfold escrow at 1 in Hge. rewrite decide_True in Hge by done. lia.
Qed.

(** ** Closing many leases *)

(** One iteration: nothing, or the lease closed as [out] says. *)
Definition outcome := option (gostr * SlotLease).
Definition after (l : SlotLease) (o : outcome) : SlotLease := match o with Some (_, l') => l' | None => l end.
Definition due (l : SlotLease) (o : outcome) (a : list Z) (d : gostr) : Z :=
  match o with Some (to_, _) => credit to_ l a d | None => 0 end.
Definition handled (now : Z) (l : SlotLease) (o : outcome) (s s' : Store) : Prop :=
  match o with
  | None => s' = s
  | Some (to_, l') => l_Status l = LeaseStatusActive ∧ closed_as now l l' to_ ∧ closes to_ l l' s s'
  end.

Lemma handled_effect now l o s s' : market_inv s → leases s !! l_ID l = Some l → handled now l o s s' →
  market_inv s' ∧ (∀ d, surplus d s' = surplus d s) ∧ websites s' = websites s ∧ slots s' = slots s ∧
  leaseSeq s' = leaseSeq s ∧ slotSeq s' = slotSeq s ∧ primaryDomains s' = primaryDomains s ∧
  leases s' = <[l_ID l := after l o]> (leases s) ∧
  ∀ a d, account_bal (bank s') a d = account_bal (bank s) a d + due l o a d.
Proof.
  intros Hi Hl. destruct o as [[to_ l']|]; cbn.
  - intros (Hact & Hc & Hcl). split; [by eapply closes_inv|]. split; [intros d; by eapply closes_surplus|].
    pose proof (cl_account _ _ _ _ _ Hcl). rewrite (cl_store _ _ _ _ _ Hcl) in *. by cbn in *.
  - intros ->. split_and!; try done; [by rewrite insert_id|]. intros. lia.
Qed.

Lemma payees_ok_after now l o s s' : payees_ok s → leases s !! l_ID l = Some l → handled now l o s s' →
  payees_ok s'.
Proof.
  intros Hp Hl Hh. destruct o as [[to_ l']|]; cbn in Hh; [|by subst].
  destruct Hh as (_ & Hc & Hcl). rewrite (cl_store _ _ _ _ _ Hcl). unfold payees_ok. cbn.
  intros k m to' a [[<- <-]|[_ Hm]]%lookup_insert_Some Hact; [|by eapply Hp].
  exfalso. by destruct Hc as [[-> _]|[-> _]].
Qed.

(** A loop whose body handles each lease as [out] says, in stores with the same
    slots and websites. *)
Section Loop.
Context (now : Z) (f : SlotLease → Store → result err Store) (out : SlotLease → outcome).
Context (ws : gmap gostr Website) (xs : gmap gostr Slot).
Hypothesis f_sound : ∀ l s s', market_inv s → websites s = ws → slots s = xs →
  leases s !! l_ID l = Some l → f l s = Ok s' → handled now l (out l) s s'.
Hypothesis f_total : ∀ l s, market_inv s → websites s = ws → slots s = xs → solvent s → payees_ok s →
  leases s !! l_ID l = Some l → ∃ s', f l s = Ok s'.

Definition here (ls : list SlotLease) (s : Store) : Prop :=
  market_inv s ∧ websites s = ws ∧ slots s = xs ∧ NoDup (l_ID <$> ls) ∧ ∀ l, l ∈ ls → leases s !! l_ID l = Some l.

Lemma here_step l ls s s' : here (l :: ls) s → handled now l (out l) s s' → here ls s'.
Proof.
  intros (Hi & Hw & Hx & Hnd & Hget) Hh. rewrite fmap_cons in Hnd. apply list.NoDup_cons in Hnd as [Hni Hnd].
  destruct (handled_effect now l (out l) s s' Hi (Hget l ltac:(by left)) Hh) as (? & _ & Hw' & Hx' & _ & _ & _ & Hl & _).
  split_and!; try done; try congruence. intros m Hm. rewrite Hl, lookup_insert_ne; [apply Hget; by right|].
  intros E. apply Hni. rewrite E. by apply list_elem_of_fmap_2.
Qed.

Lemma loop_effect ls s s' : here ls s → each f ls s = Ok s' →
  market_inv s' ∧ (∀ d, surplus d s' = surplus d s) ∧ slotSeq s' = slotSeq s ∧ leaseSeq s' = leaseSeq s ∧
  primaryDomains s' = primaryDomains s ∧ websites s' = ws ∧ slots s' = xs ∧
  (∀ l, l ∈ ls → leases s' !! l_ID l = Some (after l (out l))) ∧
  (∀ k, k ∉ l_ID <$> ls → leases s' !! k = leases s !! k) ∧
  (∀ a d, account_bal (bank s') a d = account_bal (bank s) a d + sumZ ((λ l, due l (out l) a d) <$> ls)).
Proof.
  revert s. induction ls as [|l ls IH]; intros s Hh HE; cbn in HE.
  - injection HE as <-. destruct Hh as (? & ? & ? & _). split_and!; try done.
    + by intros l ?%elem_of_nil.
    + intros. cbn. lia.
  - run_ok HE. destruct (Hh) as (Hi & Hw & Hx & Hnd & Hget). specialize (Hget l ltac:(by left)).
    pose proof (f_sound l s r Hi Hw Hx Hget E) as Hd. pose proof (here_step _ _ _ _ Hh Hd) as Hh'.
    destruct (handled_effect now l (out l) s r Hi Hget Hd) as (_ & Hs & _ & _ & Hq1 & Hq2 & Hpd & Hl & Ha).
    destruct (IH r Hh' HE) as (? & Hs' & Hq3 & Hq4 & Hpd' & ? & ? & Hin & Hout & Hacc).
    rewrite fmap_cons in Hnd. apply list.NoDup_cons in Hnd as [Hni Hnd].
    split_and!; try done; try congruence.
    + intros m [->|Hm]%elem_of_cons; [|by apply Hin]. rewrite Hout, Hl by done. apply lookup_insert_eq.
    + intros k [Hk1 Hk2]%not_elem_of_cons. rewrite Hout, Hl by done. by rewrite lookup_insert_ne.
    + intros a d. rewrite Hacc, Ha. cbn. unfold sumZ. lia.
Qed.

Lemma loop_total ls s : here ls s → solvent s → payees_ok s → ∃ s', each f ls s = Ok s'.
Proof.
  revert s. induction ls as [|l ls IH]; intros s Hh Hsol Hp; cbn; [eauto|].
  destruct (Hh) as (Hi & Hw & Hx & _ & Hget). specialize (Hget l ltac:(by left)).
  destruct (f_total l s Hi Hw Hx Hsol Hp Hget) as [r Hr]. rewrite Hr. cbn.
  pose proof (f_sound l s r Hi Hw Hx Hget Hr) as Hd. apply IH.
  - by eapply here_step.
  - intros d. destruct (handled_effect now l (out l) s r Hi Hget Hd) as (_ & -> & _). apply Hsol.
  - by eapply payees_ok_after.
Qed.
End Loop.

Lemma here_all s P `{∀ l, Decision (P l)} : market_inv s →
  here (websites s) (slots s) (filter P (values (leases s))) s.
Proof.
  intros Hi. destruct (filter_keyed l_ID (leases s) P) as [Hn Hv].
  { intros k l Hk. by apply (mi_leases s Hi). }
  split_and!; try done. intros l Hl. by apply Hv.
Qed.

(** ** Settlement *)

(** The publisher of the lease's slot is in cooldown. *)
Definition in_cooldown (now : Z) (s : Store) (l : SlotLease) : bool :=
  match GetSlot (l_SlotID l) s with
  | Some x => match GetWebsite (s_Domain x) s with Some w => now <? w_CooldownUntilUnix w | None => false end
  | None => false
  end.

(** What becomes of a lease at [now]: an ended one is paid to its publisher, or
    refunded to its lessee when the publisher is in cooldown. *)
Definition settlement (now : Z) (s : Store) (l : SlotLease) : outcome :=
  if negb (l_Status l =? LeaseStatusActive) || (now <? l_EndsAtUnix l) then None
  else if in_cooldown now s l then Some (l_Lessee l, refunded_lease now l)
  else Some (l_Publisher l, paid_lease now l).

Lemma settlement_store now s s' l : websites s = websites s' → slots s = slots s' →
  settlement now s l = settlement now s' l.
Proof. intros Hw Hx. unfold settlement, in_cooldown, GetSlot, GetWebsite. by rewrite Hw, Hx. Qed.

Lemma settle_one_sound now l s s' : market_inv s → leases s !! l_ID l = Some l → settle_one now l s = Ok s' →
  handled now l (settlement now s l) s s'.
Proof.
  intros Hi Hl HS. unfold settle_one in HS. unfold settlement, in_cooldown.
  destruct (negb (l_Status l =? LeaseStatusActive)) eqn:Hact; cbn; [by injection HS as <-|].
  destruct (now <? l_EndsAtUnix l); [by injection HS as <-|]. zb.
  destruct (lease_facts s l Hi Hl Hact) as (Hr & Hp & ? & _).
  destruct (GetSlot _ _) as [x|]; [|done]. destruct (GetWebsite _ _) as [w|]; [|done].
  destruct (now <? w_CooldownUntilUnix w); cbn.
  - split; [done|]. split; [by right|]. change (refunded_lease now l) with (close_lease l 0 LeaseStatusViolated now now). rewrite <- Hp.
    apply refundLease_closes; [lia|done].
  - split; [done|]. split; [by left|]. change (paid_lease now l) with (close_lease l (l_EscrowTotal l) LeaseStatusCompleted now (l_EndsAtUnix l)).
    replace (l_EscrowTotal l) with (l_PaidOut l + l_EscrowRemaining l) by lia. apply payoutLease_closes; [lia|done].
Qed.

Lemma close_total now s l to_ paid st through : 0 ≤ now → market_inv s → leases s !! l_ID l = Some l →
  l_Status l = LeaseStatusActive → to_ = l_Publisher l ∨ to_ = l_Lessee l → 0 ≤ paid → solvent s → payees_ok s →
  ∃ s' s'', release to_ l s = Ok s' ∧ SetLease (close_lease l paid st now through) s' = Ok s''.
Proof.
  intros Hn Hi Hl Hact Hto Hp Hsol Hpay. destruct (release_goes_through s l to_) as [s' Hs]; try done.
  exists s'. unfold SetLease. destruct (mi_leases s Hi _ _ Hl) as (_ & Hok & _).
  rewrite close_lease_valid by (done || apply Hok). cbn. eauto.
Qed.

Lemma refundLease_total now s l st : 0 ≤ now → market_inv s → leases s !! l_ID l = Some l →
  l_Status l = LeaseStatusActive → solvent s → payees_ok s → ∃ s', refundLease l st now s = Ok s'.
Proof.
  intros Hn Hi Hl Hact Hsol Hpay. destruct (lease_facts s l Hi Hl Hact) as (_ & Hp & _).
  destruct (close_total now s l (l_Lessee l) (l_PaidOut l) st now) as (s' & s'' & E1 & E2); try done; [by right|lia|].
  exists s''. unfold refundLease. rewrite E1. by cbn.
Qed.

Lemma settle_one_total now l s : 0 ≤ now → market_inv s → solvent s → payees_ok s → leases s !! l_ID l = Some l →
  ∃ s', settle_one now l s = Ok s'.
Proof.
  intros Hn Hi Hsol Hpay Hl. unfold settle_one. destruct (negb _) eqn:Hact; [eauto|]. zb.
  destruct (now <? l_EndsAtUnix l); [eauto|].
  destruct (mi_leases s Hi _ _ Hl) as (_ & _ & [x Hx] & _). unfold GetSlot. rewrite Hx.
  destruct (mi_slots s Hi _ _ Hx) as (_ & _ & Hw & _). destruct (inv_website s x Hi Hw) as [w Hweb]. rewrite Hweb.
  destruct (lease_facts s l Hi Hl Hact) as (Hr & Hp & Hrange & _).
  destruct (now <? w_CooldownUntilUnix w); [by apply refundLease_total|].
  destruct (close_total now s l (l_Publisher l) (l_PaidOut l + l_EscrowRemaining l) LeaseStatusCompleted
              (l_EndsAtUnix l)) as (s' & s'' & E1 & E2); try done; [by left|lia|].
  exists s''. unfold payoutLease. rewrite E1. cbn.
  replace (int_in_range (l_PaidOut l + l_EscrowRemaining l)) with true; [exact E2|].
  symmetry. apply Z.ltb_lt. lia.
Qed.

Lemma filter_true {A} (l : list A) : filter (λ _, True) l = l.
Proof. induction l as [|x l IH]; [done|]. rewrite filter_cons_True by done. by rewrite IH. Qed.

Lemma settle_here s : market_inv s → here (websites s) (slots s) (values (leases s)) s.
Proof. intros Hi. rewrite <- (filter_true (values (leases s))). by apply here_all. Qed.

Lemma settleLeases_effect now s s' : market_inv s → settleLeases now s = Ok s' →
  market_inv s' ∧ (∀ d, surplus d s' = surplus d s) ∧ slotSeq s' = slotSeq s ∧ leaseSeq s' = leaseSeq s ∧
  primaryDomains s' = primaryDomains s ∧ websites s' = websites s ∧ slots s' = slots s ∧
  (∀ l, l ∈ values (leases s) → leases s' !! l_ID l = Some (after l (settlement now s l))) ∧
  (∀ k, k ∉ l_ID <$> values (leases s) → leases s' !! k = leases s !! k) ∧
  (∀ a d, account_bal (bank s') a d = account_bal (bank s) a d + sumZ ((λ l, due l (settlement now s l) a d) <$> values (leases s))).
Proof.
  intros Hi HS. eapply (loop_effect now (settle_one now)); [|by apply settle_here|done].
  intros l t t' Ht Hw Hx Hl Hf. rewrite <- (settlement_store now t s) by done. by apply settle_one_sound.
Qed.

Lemma settleLeases_total now s : 0 ≤ now → market_inv s → solvent s → payees_ok s → ∃ s', settleLeases now s = Ok s'.
Proof.
  intros Hn Hi Hsol Hpay.
  eapply (loop_total now (settle_one now) (settlement now s) (websites s) (slots s)); try done.
  - intros l t t' Ht Hw Hx Hl Hf. rewrite <- (settlement_store now t s) by done. by apply settle_one_sound.
  - intros l t Ht _ _ Hts Htp Hl. by apply settle_one_total.
  - by apply settle_here.
Qed.

(** ** Violations *)

(** The leases of a domain that run at [now], its end included. *)
Definition running (domain : gostr) (now : Z) (s : Store) (l : SlotLease) : bool :=
  (l_Status l =? LeaseStatusActive) && (l_StartsAtUnix l <=? now) && (now <=? l_EndsAtUnix l) &&
  match slots s !! l_SlotID l with
  | Some x => bool_decide (s_Domain x = NormalizeDomain domain)
  | None => false
  end.

Lemma running_active d t (s : Store) l : running d t s l = true → l_Status l = LeaseStatusActive.
Proof. unfold running. intros Ha. zb. done. Qed.

Lemma active_for_running d now s l : market_inv s → active_for (NormalizeDomain d) now s l = running d now s l.
Proof.
  intros Hi. unfold active_for, running, GetSlot. rewrite negb_orb, <- !Z.leb_antisym, andb_assoc. f_equal.
  destruct (slots s !! l_SlotID l) as [x|] eqn:Hx; [|done]. destruct (mi_slots s Hi _ _ Hx) as (_ & _ & Hw & _).
  by rewrite (stored_domain_normal s).
Qed.

Lemma refund_sound now l s s' : market_inv s → leases s !! l_ID l = Some l → l_Status l = LeaseStatusActive →
  refundLease l LeaseStatusViolated now s = Ok s' → handled now l (Some (l_Lessee l, refunded_lease now l)) s s'.
Proof.
  intros Hi Hl Hact HR. destruct (lease_facts s l Hi Hl Hact) as (Hr & Hp & ? & _).
  cbn. split; [done|]. split; [by right|]. change (refunded_lease now l) with (close_lease l 0 LeaseStatusViolated now now). rewrite <- Hp.
    apply refundLease_closes; [lia|done].
Qed.

(** The body of the loop of [violateActiveLeasesForDomain] runs on active leases
    only; elsewhere the iteration may be taken to do nothing. *)
Definition violate_one (now : Z) (l : SlotLease) (s : Store) : result err Store :=
  if l_Status l =? LeaseStatusActive then refundLease l LeaseStatusViolated now s else Ok s.
Definition violation (now : Z) (l : SlotLease) : outcome :=
  if l_Status l =? LeaseStatusActive then Some (l_Lessee l, refunded_lease now l) else None.

Lemma violate_one_sound now l s s' : market_inv s → leases s !! l_ID l = Some l → violate_one now l s = Ok s' →
  handled now l (violation now l) s s'.
Proof.
  intros Hi Hl HV. unfold violate_one, violation in *. destruct (l_Status l =? LeaseStatusActive) eqn:E.
  - apply refund_sound; try done. by zb.
  - cbn. by injection HV as <-.
Qed.

Lemma each_ext {A S} (f g : A → S → result err S) xs s : (∀ x s, x ∈ xs → f x s = g x s) → each f xs s = each g xs s.
Proof.
  revert s. induction xs as [|x xs IH]; intros s Hf; cbn; [done|]. rewrite Hf by by left.
  destruct (g x s); cbn; [|done]. apply IH. intros. apply Hf. by right.
Qed.

Lemma violate_loop domain now bt (s : Store) : 0 < now → market_inv s → violateActiveLeasesForDomain domain now bt s =
  each (violate_one now) (filter (λ l, running domain now s l = true) (values (leases s))) s.
Proof.
  intros Hn Hi. unfold violateActiveLeasesForDomain, activeLeasesForDomain. destruct (Z.leb_spec now 0); [lia|].
  rewrite (list_filter_iff _ (λ l, running domain now s l = true)) by (intros l; by rewrite active_for_running).
  apply each_ext. intros l t [Ha _]%list_elem_of_filter. apply running_active in Ha. unfold violate_one. by rewrite Ha.
Qed.

Lemma violate_effect domain now bt s s' : 0 < now → market_inv s → violateActiveLeasesForDomain domain now bt s = Ok s' →
  market_inv s' ∧ (∀ d, surplus d s' = surplus d s) ∧ slotSeq s' = slotSeq s ∧ leaseSeq s' = leaseSeq s ∧
  primaryDomains s' = primaryDomains s ∧ websites s' = websites s ∧ slots s' = slots s ∧
  (∀ l, l ∈ filter (λ l, running domain now s l = true) (values (leases s)) →
    leases s' !! l_ID l = Some (after l (violation now l))) ∧
  (∀ k, k ∉ l_ID <$> filter (λ l, running domain now s l = true) (values (leases s)) → leases s' !! k = leases s !! k) ∧
  (∀ a d, account_bal (bank s') a d = account_bal (bank s) a d +
    sumZ ((λ l, due l (violation now l) a d) <$> filter (λ l, running domain now s l = true) (values (leases s)))).
Proof.
  intros Hn Hi HV. rewrite violate_loop in HV by done.
  eapply (loop_effect now (violate_one now)); [|by apply here_all|done].
  intros l t t' Ht Hw Hx Hl Hf. by apply violate_one_sound.
Qed.

Lemma violate_total domain now bt s : 0 < now → market_inv s → solvent s → payees_ok s →
  ∃ s', violateActiveLeasesForDomain domain now bt s = Ok s'.
Proof.
  intros Hn Hi Hsol Hpay. rewrite violate_loop by done.
  eapply (loop_total now (violate_one now) (violation now) (websites s) (slots s)); try done; [..|by apply here_all].
  - intros l t t' Ht Hw Hx Hl Hf. by apply violate_one_sound.
  - intros l t Ht _ _ Hts Htp Hl. unfold violate_one. destruct (l_Status l =? LeaseStatusActive) eqn:E; [|eauto].
    zb. apply refundLease_total; try done. lia.
Qed.

(** ** Cooldown *)

Lemma double_times_exact n d : 0 < d → d * 2 ^ Z.of_nat n < 2 ^ 63 → double_times n d = d * 2 ^ Z.of_nat n.
Proof.
  revert d. induction n as [|n IH]; intros d Hd Hb; [cbn; lia|]. cbn [double_times].
  rewrite Nat2Z.inj_succ, Z.pow_succ_r in * by lia. pose proof (pow2_pos (Z.of_nat n) ltac:(lia)).
  assert (i64 (d * 2) = d * 2) as -> by (apply swrap_small; [lia|]; unfold in_s; change (64 - 1) with 63; nia).
  rewrite IH; nia.
Qed.

Lemma applyPublisherCooldown_inv base now w s w' dur s' : market_inv s → applyPublisherCooldown base now w s = Ok (w', dur, s') →
  market_inv s'.
Proof.
  intros Hi HA. unfold applyPublisherCooldown in HA. run_ok HA. injection HA as <- <- <-. by eapply UpsertWebsite_inv.
Qed.

Lemma clearPublisherCooldown_inv w s w' c s' : market_inv s → clearPublisherCooldown w s = Ok (w', c, s') → market_inv s'.
Proof.
  intros Hi HA. unfold clearPublisherCooldown in HA. run_ok HA; injection HA as <- <- <-; [done|].
  by eapply UpsertWebsite_inv.
Qed.

(** Website updates leave leases and bank, and so the surplus, alone. *)
Lemma UpsertWebsite_frame w (s s' : Store) : UpsertWebsite w s = Ok s' →
  leases s' = leases s ∧ bank s' = bank s ∧ slots s' = slots s ∧ slotSeq s' = slotSeq s ∧ leaseSeq s' = leaseSeq s ∧
  websites s' = <[NormalizeDomain (w_Domain w) := with_w_domain (NormalizeDomain (w_Domain w)) w]> (websites s) ∧
  ValidateWebsite (with_w_domain (NormalizeDomain (w_Domain w)) w) = Ok tt ∧ primaryDomains s' = primaryDomains s.
Proof. intros HU. unfold UpsertWebsite in HU. run_ok HU. destruct r. by injection HU as <-. Qed.

Lemma transfer_frame d p n now (s s' : Store) : transferSlotsForDomain d p n now s = Ok s' →
  leases s' = leases s ∧ bank s' = bank s ∧ websites s' = websites s ∧ slotSeq s' = slotSeq s ∧ leaseSeq s' = leaseSeq s ∧
  primaryDomains s' = primaryDomains s.
Proof.
  intros HT. unfold transferSlotsForDomain in HT.
  eapply (each_ind (λ t, leases t = leases s ∧ bank t = bank s ∧ websites t = websites s ∧
    slotSeq t = slotSeq s ∧ leaseSeq t = leaseSeq s ∧ primaryDomains t = primaryDomains s)); [|done|exact HT].
  by intros x t t' _ Ht [_ ->]%SetSlot_Ok.
Qed.
End Inv.
