(* ===== verification/PublisherLeases.v ===== *)
(** The refund of the running leases of a publisher
    ([src/x/registry/lease_settlement.go]), beside that of a domain in [Market], and
    what the two share. *)

From S2P Require Import Prelude JsBase GoBase Market MarketProofs.

Section PublisherLeases.
Context `{GoEnv} {B : Type} `{!Bank B}.
Abbreviation Store := (Store B).

(** * The code *)

Definition active_of (publisher : gostr) (at_ : Z) (l : SlotLease) : bool :=
  (l_Status l =? LeaseStatusActive) && negb (negb (empty publisher) && negb (bool_decide (l_Publisher l = publisher))) &&
  negb ((at_ <? l_StartsAtUnix l) || (l_EndsAtUnix l <? at_)).

Definition activeLeasesForPublisher (publisher : gostr) (at_ now : Z) (s : Store) : list SlotLease :=
  filter (λ l, active_of (TrimSpace publisher) (if at_ <=? 0 then now else at_) l = true) (values (leases s)).

Definition violateActiveLeases (publisher : gostr) (now blockTime : Z) (s : Store) : result err Store :=
  each (λ l s, refundLease l LeaseStatusViolated now s) (activeLeasesForPublisher publisher now blockTime s) s.

(** * Refunds *)

(** What a loop does to the records of a filter, read off the whole map. *)
Lemma closed_leases now (P : SlotLease → bool) (s s' : Store) : market_inv s → (∀ l, P l = true → (l_Status l =? LeaseStatusActive) = true) →
  (∀ l, l ∈ filter (λ l, P l = true) (values (leases s)) → leases s' !! l_ID l = Some (after l (violation now l))) →
  (∀ k, k ∉ l_ID <$> filter (λ l, P l = true) (values (leases s)) → leases s' !! k = leases s !! k) →
  ∀ k, leases s' !! k = (λ l, if P l then refunded_lease now l else l) <$> leases s !! k.
Proof.
  intros Hi Ha Hin Hout k. destruct (leases s !! k) as [l|] eqn:Hk; cbn.
  - destruct (mi_leases s Hi _ _ Hk) as [Hid _]. destruct (P l) eqn:Hr.
    + rewrite <- Hid, Hin by (apply list_elem_of_filter; split; [done|]; apply elem_of_values; eauto). unfold violation. by rewrite (Ha _ Hr).
    + rewrite <- Hk. apply Hout. intros (l' & Ek & [Hr' [k' Hl']%elem_of_values]%list_elem_of_filter)%list_elem_of_fmap.
      destruct (mi_leases s Hi _ _ Hl') as [Hid' _]. congruence.
  - rewrite <- Hk. apply Hout. intros (l & -> & [_ [k' Hl]%elem_of_values]%list_elem_of_filter)%list_elem_of_fmap.
    destruct (mi_leases s Hi _ _ Hl) as [Hid _]. congruence.
Qed.

(** The loop of refunds over any active leases of the store: it goes through, returns
    the escrow of each to its lessee and closes it as violated. *)
Lemma refunds_of now (P : SlotLease → bool) (s : Store) : 0 < now → market_inv s → solvent s → payees_ok s →
  (∀ l, P l = true → (l_Status l =? LeaseStatusActive) = true) →
  ∃ s', each (λ l s, refundLease l LeaseStatusViolated now s) (filter (λ l, P l = true) (values (leases s))) s = Ok s' ∧
    market_inv s' ∧ (∀ d, surplus d s' = surplus d s) ∧
    (∀ k, leases s' !! k = (λ l, if P l then refunded_lease now l else l) <$> leases s !! k) ∧
    (∀ a d, account_bal (bank s') a d = account_bal (bank s) a d +
       sumZ ((λ l, credit (l_Lessee l) l a d) <$> filter (λ l, P l = true) (values (leases s)))).
Proof.
  intros Hn Hi Hsol Hp Hact. rewrite (each_ext _ (violate_one now)).
  2:{ intros l t [Hl _]%list_elem_of_filter. unfold violate_one. by rewrite (Hact l Hl). }
  destruct (loop_total now (violate_one now) (violation now) (websites s) (slots s)) with (ls := filter (λ l, P l = true) (values (leases s))) (s := s)
    as [s' Hs]; try done; [..|by apply here_all|].
  { intros l t t' Ht Hw Hx Hl Hf. by apply violate_one_sound. }
  { intros l t Ht _ _ Hts Htp Hl. unfold violate_one. destruct (l_Status l =? LeaseStatusActive) eqn:E; [|eauto]. zb. apply refundLease_total; try done. lia. }
  exists s'. split; [done|].
  destruct (loop_effect now (violate_one now) (violation now) (websites s) (slots s)) with (ls := filter (λ l, P l = true) (values (leases s))) (s := s) (s' := s')
    as (Hi' & Hd & _ & _ & _ & _ & _ & Hin & Hout & Ha); try done; [|by apply here_all|].
  { intros l t t' Ht Hw Hx Hl Hf. by apply violate_one_sound. }
  split_and!; [done|done|by apply closed_leases|]. intros a d. rewrite Ha. f_equal. f_equal. apply list_fmap_ext.
  intros i l [Hr _]%list_elem_of_lookup_2%list_elem_of_filter. unfold violation. by rewrite (Hact _ Hr).
Qed.

(** The refund of a publisher closes exactly the leases with its name that run at that
    time, or all that run where the name is blank. *)
Theorem publisher_violations_refunded publisher now (s : Store) : 0 < now → market_inv s → solvent s → payees_ok s →
  let hit l := (l_Status l =? LeaseStatusActive) && (blank publisher || bool_decide (l_Publisher l = TrimSpace publisher)) &&
    (l_StartsAtUnix l <=? now) && (now <=? l_EndsAtUnix l) in
  ∃ s', violateActiveLeases publisher now now s = Ok s' ∧ market_inv s' ∧ (∀ d, surplus d s' = surplus d s) ∧
    (∀ k, leases s' !! k = (λ l, if hit l then refunded_lease now l else l) <$> leases s !! k) ∧
    (∀ a d, account_bal (bank s') a d = account_bal (bank s) a d +
       sumZ ((λ l, credit (l_Lessee l) l a d) <$> filter (λ l, hit l = true) (values (leases s)))).
Proof.
  intros Hn Hi Hsol Hp hit. assert (∀ l, hit l = active_of (TrimSpace publisher) now l) as Hhit.
  { intros l. unfold hit, active_of, blank, empty. destruct (TrimSpace publisher); cbn [negb andb orb];
      destruct (Z.leb_spec (l_StartsAtUnix l) now), (Z.ltb_spec now (l_StartsAtUnix l)), (Z.leb_spec now (l_EndsAtUnix l)), (Z.ltb_spec (l_EndsAtUnix l) now); try lia;
      rewrite ?negb_involutive, ?andb_false_r, ?andb_true_r; done. }
  unfold violateActiveLeases, activeLeasesForPublisher. destruct (Z.leb_spec now 0); [lia|].
  rewrite (list_filter_iff _ (λ l, hit l = true)) by (intros l; by rewrite Hhit). apply refunds_of; try done.
  intros l Hl. unfold hit in Hl. by repeat (apply andb_prop in Hl as [Hl ?]).
Qed.
End PublisherLeases.
