(* ===== verification/PageToChain.v ===== *)
(** From a filled form of the page to the record on the chain: the message a form
    gives ([WalletApp]), the bytes the page's encoder writes for it ([WalletMsgs]),
    the message the chain reads from them, and what its handler ([Market]) stores.
    The chain's reader is the reference decoder of [ProtoWire] with the field
    numbers of [tx.proto]; strings are their bytes and integers signed 64-bit. *)

From S2P Require Import Prelude JsBase JsLong JsWriter ProtoWire WalletMsgs WalletFee WalletPure WalletApp WalletMachine WalletProofs WalletProps GoBase Market MarketProofs.

(** * The messages as the chain reads them *)

Definition go_string (n : Z) (fs : list (Z * payload)) : gostr := get_bytes n [] fs.
Definition go_int64 (n : Z) (fs : list (Z * payload)) : Z := i64 (get_varint n 0 fs).
Definition go_int32 (n : Z) (fs : list (Z * payload)) : Z := swrap 32 (get_varint n 0 fs).

Definition go_create_slot (bs : list Z) : option Market.MsgCreateSlot :=
  fs ← parse bs;
  Some {| mc_Publisher := go_string 1 fs; mc_Domain := go_string 2 fs; mc_Label := go_string 3 fs; mc_Summary := go_string 4 fs;
          mc_Category := go_string 5 fs; mc_Placement := go_string 6 fs; mc_Size := go_string 7 fs; mc_RateDenom := go_string 8 fs;
          mc_RateAmount := go_string 9 fs; mc_UnitSeconds := go_int64 10 fs; mc_MinDurationSeconds := go_int64 11 fs;
          mc_MaxDurationSeconds := go_int64 12 fs; mc_Tags := get_repeated 13 fs |}.
Definition go_update_slot_status (bs : list Z) : option Market.MsgUpdateSlotStatus :=
  fs ← parse bs;
  Some {| mu_Publisher := go_string 1 fs; mu_SlotId := go_string 2 fs; mu_Status := go_int32 3 fs |}.
Definition go_lease_slot (bs : list Z) : option Market.MsgLeaseSlot :=
  fs ← parse bs;
  Some {| ml_Lessee := go_string 1 fs; ml_SlotId := go_string 2 fs; ml_TargetUrl := go_string 3 fs;
          ml_StartsAtUnix := go_int64 4 fs; ml_DurationSeconds := go_int64 5 fs |}.
Definition go_register_publisher (bs : list Z) : option Market.MsgRegisterPublisher :=
  fs ← parse bs;
  Some {| mr_Owner := go_string 1 fs; mr_Domain := go_string 2 fs; mr_MetadataUri := go_string 3 fs; mr_Proof := go_string 4 fs;
          mr_Verifier := go_string 5 fs; mr_Referrer := go_string 6 fs |}.

(** ** What it reads of the page's bytes *)

Lemma go_str_ok s : match s with [] => [] | _ => utf8_write s end = utf8_write s.
Proof. by destruct s. Qed.

Lemma go_int_ok l : long_wf l → i64 (if isZero l then 0 else long_u64 l) = long_val l.
Proof.
  intros Hw. rewrite isZero_val by done. unfold i64. destruct (Z.eqb_spec (long_val l) 0) as [E|E]; [by rewrite E|].
  by rewrite long_val_u64.
Qed.

Lemma go_status_ok n : 0 ≤ n < 2147483648 → swrap 32 (if n =? 0 then 0 else n) = n.
Proof. apply i32_ok. Qed.

(** Parse what the encoder [enc m] wrote and read it as the chain does. *)
Ltac chain_reads enc m :=
  let He := fresh in
  eassert (WalletMsgs.emits _ (enc m)) as He by (unfold enc; repeat emit_step; emit_leaf);
  rewrite (emits_finish _ _ He); clear He; cbn [mbind option_bind];
  unfold go_string, go_int64, go_int32;
  repeat (autorewrite with wire; cbn -[i64 swrap utf8_write long_u64]);
  rewrite ?go_str_ok, ?go_int_ok, ?go_status_ok by assumption;
  reflexivity.

Lemma go_create_slot_reads m :
  Forall str_ok [cs_publisher m; cs_domain m; cs_label m; cs_summary m; cs_category m; cs_placement m; cs_size m; cs_rateDenom m; cs_rateAmount m] →
  Forall str_ok (cs_tags m) → Forall long_wf [cs_unitSeconds m; cs_minDurationSeconds m; cs_maxDurationSeconds m] →
  go_create_slot (finish (encode_create_slot m create)) = Some {|
    mc_Publisher := utf8_write (cs_publisher m); mc_Domain := utf8_write (cs_domain m); mc_Label := utf8_write (cs_label m);
    mc_Summary := utf8_write (cs_summary m); mc_Category := utf8_write (cs_category m); mc_Placement := utf8_write (cs_placement m);
    mc_Size := utf8_write (cs_size m); mc_RateDenom := utf8_write (cs_rateDenom m); mc_RateAmount := utf8_write (cs_rateAmount m);
    mc_UnitSeconds := long_val (cs_unitSeconds m); mc_MinDurationSeconds := long_val (cs_minDurationSeconds m);
    mc_MaxDurationSeconds := long_val (cs_maxDurationSeconds m); mc_Tags := utf8_write <$> cs_tags m |}.
Proof. intros Hs Ht Hl. split_foralls. unfold go_create_slot. chain_reads encode_create_slot m. Qed.

Lemma go_update_slot_status_reads m : Forall str_ok [us_publisher m; us_slotId m] → 0 ≤ us_status m < 2147483648 →
  go_update_slot_status (finish (encode_update_slot_status m create)) = Some {|
    mu_Publisher := utf8_write (us_publisher m); mu_SlotId := utf8_write (us_slotId m); mu_Status := us_status m |}.
Proof. intros Hs Hn. split_foralls. unfold go_update_slot_status. chain_reads encode_update_slot_status m. Qed.

Lemma go_lease_slot_reads m : Forall str_ok [ls_lessee m; ls_slotId m; ls_targetUrl m] → Forall long_wf [ls_startsAtUnix m; ls_durationSeconds m] →
  go_lease_slot (finish (encode_lease_slot m create)) = Some {|
    ml_Lessee := utf8_write (ls_lessee m); ml_SlotId := utf8_write (ls_slotId m); ml_TargetUrl := utf8_write (ls_targetUrl m);
    ml_StartsAtUnix := long_val (ls_startsAtUnix m); ml_DurationSeconds := long_val (ls_durationSeconds m) |}.
Proof. intros Hs Hl. split_foralls. unfold go_lease_slot. chain_reads encode_lease_slot m. Qed.

Lemma go_register_publisher_reads m : Forall str_ok [rp_owner m; rp_domain m; rp_metadataUri m; rp_proof m; rp_verifier m; rp_referrer m] →
  go_register_publisher (finish (encode_register_publisher m create)) = Some {|
    mr_Owner := utf8_write (rp_owner m); mr_Domain := utf8_write (rp_domain m); mr_MetadataUri := utf8_write (rp_metadataUri m);
    mr_Proof := utf8_write (rp_proof m); mr_Verifier := utf8_write (rp_verifier m); mr_Referrer := utf8_write (rp_referrer m) |}.
Proof. intros Hs. split_foralls. unfold go_register_publisher. chain_reads encode_register_publisher m. Qed.

(** * From the form to the record *)

Section Records.
Context `{PageEnv} `{GoEnv} {B : Type} `{Bank B}.
Abbreviation Store := (Store B).

Lemma page_long x : long_wf (long_or_zero (Some (LLong (fromValue x)))) ∧
  long_val (long_or_zero (Some (LLong (fromValue x)))) = long_val (fromValue x).
Proof. pose proof (fromValue_wf x). cbn [long_or_zero]. by rewrite fromValue_long. Qed.

Lemma LeaseSlot_target now m (s : Store) l s' : LeaseSlot now m s = Ok (l, s') → l_TargetURL l = TrimSpace (ml_TargetUrl m).
Proof. intros HL. unfold LeaseSlot in HL. run_ok HL. by injection HL as <- <-. Qed.

(** ASCII text is its own UTF-8. *)
Lemma utf8_ascii s : Forall (λ c, 0 ≤ c < 128) s → utf8_write s = s.
Proof.
  induction 1 as [|c s Hc _ IH]; [done|]. cbn [utf8_write]. destruct (Z.ltb_spec c 128); [|lia]. by rewrite IH.
Qed.

Lemma dec_print_ascii z : 0 ≤ z → Forall (λ c, 0 ≤ c < 128) (dec_print z).
Proof.
  intros Hz. eapply list.Forall_impl; [by apply dec_print_digits|]. intros c Hc%is_digit_iff. lia.
Qed.

(** The digits of a numeral have no space around them: no space starts or ends with
    a digit. *)
Definition not_digit_first (p : gostr) : bool := match p with c :: _ => negb (is_digit c) | [] => false end.

Lemma digits_not_space (runes : list gostr) s : forallb not_digit_first runes = true → Forall (λ c, is_digit c = true) s →
  strip_one runes s = None.
Proof.
  intros Hr%forallb_Forall Hs. apply strip_one_None. eapply list.Forall_impl; [exact Hr|]. intros [|c p] Hc; [done|].
  destruct s as [|d s]; [done|]. apply Forall_cons_1 in Hs as [Hd _]. cbn in *. destruct (Z.eqb_spec c d) as [->|]; [|done]. by rewrite Hd in Hc.
Qed.

Lemma dec_print_clean z : 0 ≤ z → TrimSpace (dec_print z) = dec_print z.
Proof.
  intros Hz. pose proof (dec_print_digits z Hz) as Hd. apply TrimSpace_clean; apply digits_not_space; try done.
  apply Forall_rev. done.
Qed.

(** C8 (functional).  A lease form whose duration is a decimal numeral below 2^53: the
    page encodes the message, the chain reads the bytes, and the lease that the
    chain grants for it is stored under a new identifier and is the one of the form:
    its slot, its lessee, the account of the page, its target, the typed duration to
    the second, and the start of the typed date, or the time of the block when no
    date was typed. *)
Theorem lease_form_to_record defs clock a data z m :
  0 ≤ clock ≤ max_time → field data (js "duration_seconds") = dec_print z → 0 < z < 2 ^ 53 →
  Forall str_ok [a; field data (js "slot_id"); field data (js "target_url")] →
  lease_msg clock a data = Ok m →
  ∃ bs g st, registry_encode (page_registry defs) m = Ok bs ∧ go_lease_slot bs = Some g ∧
    parseStartDate clock (field data (js "start_date")) = Ok st ∧
    ∀ now (s : Store) l s', market_inv s → 0 < now < 2 ^ 63 → leaseSeq s + 1 < 2 ^ 64 → LeaseSlot now g s = Ok (l, s') →
      leases s !! l_ID l = None ∧ leases s' !! l_ID l = Some l ∧
      l_SlotID l = TrimSpace (utf8_write (field data (js "slot_id"))) ∧ l_Lessee l = TrimSpace (utf8_write a) ∧
      l_TargetURL l = TrimSpace (utf8_write (field data (js "target_url"))) ∧
      l_StartsAtUnix l = (if st =? 0 then now else st) ∧ l_EndsAtUnix l = l_StartsAtUnix l + z.
Proof.
  intros Hn Hd Hz Hs Hm. unfold lease_msg in Hm.
  do 2 (apply bind_Ok_inv in Hm as ([] & _ & Hm)). apply bind_Ok_inv in Hm as (st & Hst & Hm). injection Hm as <-.
  assert (0 ≤ st < 2 ^ 53) as Hr.
  { destruct (parse_start_cases _ _ _ Hst) as [[_ ->]|(ms & Hms & Hge & ->)]; [lia|].
    unfold max_time in *. destruct (Z.ltb_spec ms clock); Z.to_euclidean_division_equations; lia. }
  assert (long_val (fromValue (LNum (num_of_Z st))) = st) as E1 by (by apply num_of_Z_long).
  assert (long_val (fromValue (LNum (to_number (field data (js "duration_seconds"))))) = z) as E2.
  { cbn [fromValue]. rewrite Hd. destruct (to_number_small z ltac:(lia)) as (mm & e & -> & Hmm & Ht & _).
    rewrite (fromNumber_val _ _ _ z) by done. lia. }
  destruct (page_long (LNum (num_of_Z st))) as [W1 V1]. destruct (page_long (LNum (to_number (field data (js "duration_seconds"))))) as [W2 V2].
  eexists _, {| ml_Lessee := utf8_write a; ml_SlotId := utf8_write (field data (js "slot_id"));
    ml_TargetUrl := utf8_write (field data (js "target_url")); ml_StartsAtUnix := st; ml_DurationSeconds := z |}, st.
  split; [reflexivity|]. split.
  { etrans; [apply go_lease_slot_reads; [exact Hs|constructor; [exact W1|constructor; [exact W2|constructor]]]|].
    do 2 f_equal; [exact (eq_trans V1 E1)|exact (eq_trans V2 E2)]. }
  split; [exact Hst|]. intros now s l s' Hi Hnow Hq HL.
  pose proof (LeaseSlot_target _ _ _ _ _ HL) as Ht. apply LeaseSlot_Ok in HL. cbn [ml_TargetUrl] in Ht.
  destruct (le_slot _ _ _ _ _ HL) as (x & w & Hx & _ & _ & _ & Hsid & _ & _ & _ & _ & He & _). cbn in Hx, He.
  destruct (mi_slots s Hi _ _ Hx) as [Hid _]. pose proof (le_start _ _ _ _ _ HL) as Hstart. pose proof (le_time _ _ _ _ _ HL) as Htime.
  pose proof (mi_seq s Hi). cbn [ml_StartsAtUnix] in Hstart.
  assert (l_ID l = lease_id (leaseSeq s + 1)) as Hlid by (rewrite (le_id _ _ _ _ _ HL); f_equal; apply uwrap_small; unfold in_u; lia).
  split.
  { destruct (leases s !! l_ID l) as [l0|] eqn:E0; [|done]. destruct (mi_leases s Hi _ _ E0) as (_ & _ & _ & n & Hn1 & Hn2).
    rewrite Hlid in Hn2. apply lease_id_inj in Hn2; lia. }
  split; [rewrite (le_store _ _ _ _ _ HL); cbn; by rewrite lookup_insert_eq|].
  split; [congruence|]. split; [apply (le_lessee _ _ _ _ _ HL)|]. split; [exact Ht|]. split.
  - rewrite Hstart. destruct (Z.leb_spec st 0), (Z.eqb_spec st 0); lia.
  - rewrite He. apply i64_sum; [|lia|rewrite <- He; apply Htime]. split; [lia|]. rewrite Hstart. destruct (Z.leb_spec st 0); lia.
Qed.

(** The whole number of a configured number of seconds, zero when it is unset. *)
Definition seconds (x : jsnum) : Z := long_val (fromValue (LNum (num_or x (num_of_Z 0)))).

(** C9 (functional).  A slot form whose rate is a decimal numeral below 2^53: the page
    encodes the message, the chain reads the bytes, and the slot that the chain
    creates for it is stored under a new identifier, paused, and is the one of the
    form: the account of the page, which owns the website and is the publisher, the
    texts, the rate to the coin, and the configured durations. *)
Theorem create_form_to_record defs a data z m :
  field data (js "rate") = dec_print z → 0 ≤ z < 2 ^ 53 →
  Forall str_ok [a; field data (js "publisher"); field data (js "label"); field data (js "summary"); field data (js "category");
                 field data (js "placement"); field data (js "size"); str_or (slot_rate_denom config) (js "ucongrid"); dec_print z] →
  create_slot_msg a data = Ok m →
  ∃ bs g, registry_encode (page_registry defs) m = Ok bs ∧ go_create_slot bs = Some g ∧
    ∀ now (s : Store) r s', market_inv s → slotSeq s + 1 < 2 ^ 64 → CreateSlot now g s = Ok (r, s') →
      ∃ x w, slots s !! s_ID r = None ∧ slots s' !! s_ID r = Some x ∧ websites s !! s_Domain x = Some w ∧ w_Owner w = s_Publisher x ∧
        s_ID x = s_ID r ∧ s_Publisher x = TrimSpace (utf8_write a) ∧
        s_Domain x = NormalizeDomain (NormalizeDomain (utf8_write (field data (js "publisher")))) ∧
        s_Label x = TrimSpace (utf8_write (field data (js "label"))) ∧ s_Summary x = TrimSpace (utf8_write (field data (js "summary"))) ∧
        s_Category x = TrimSpace (utf8_write (field data (js "category"))) ∧ s_Placement x = TrimSpace (utf8_write (field data (js "placement"))) ∧
        s_Size x = TrimSpace (utf8_write (field data (js "size"))) ∧ s_RateAmount x = z ∧
        s_RateDenom x = TrimSpace (utf8_write (str_or (slot_rate_denom config) (js "ucongrid"))) ∧
        s_UnitSeconds x = seconds (slot_unit_seconds config) ∧ s_MinDurationSeconds x = seconds (slot_min_duration_seconds config) ∧
        s_MaxDurationSeconds x = seconds (slot_max_duration_seconds config) ∧ s_Status x = SlotStatusPaused ∧ s_Tags x = [].
Proof.
  intros Hrate Hz Hs Hm. unfold create_slot_msg in Hm. cbv zeta in Hm. do 4 (apply bind_Ok_inv in Hm as ([] & _ & Hm)). injection Hm as <-.
  rewrite Hrate, (int_to_string_small z Hz).
  destruct (page_long (LNum (num_or (slot_unit_seconds config) (num_of_Z 0)))) as [W1 V1].
  destruct (page_long (LNum (num_or (slot_min_duration_seconds config) (num_of_Z 0)))) as [W2 V2].
  destruct (page_long (LNum (num_or (slot_max_duration_seconds config) (num_of_Z 0)))) as [W3 V3].
  eexists _, {| mc_Publisher := utf8_write a; mc_Domain := utf8_write (field data (js "publisher"));
    mc_Label := utf8_write (field data (js "label")); mc_Summary := utf8_write (field data (js "summary"));
    mc_Category := utf8_write (field data (js "category")); mc_Placement := utf8_write (field data (js "placement"));
    mc_Size := utf8_write (field data (js "size")); mc_RateDenom := utf8_write (str_or (slot_rate_denom config) (js "ucongrid"));
    mc_RateAmount := dec_print z; mc_UnitSeconds := seconds (slot_unit_seconds config);
    mc_MinDurationSeconds := seconds (slot_min_duration_seconds config);
    mc_MaxDurationSeconds := seconds (slot_max_duration_seconds config); mc_Tags := [] |}.
  split; [reflexivity|]. split.
  { etrans; [apply go_create_slot_reads; [exact Hs|constructor|constructor; [exact W1|constructor; [exact W2|constructor; [exact W3|constructor]]]]|].
    do 2 f_equal; [|exact V1|exact V2|exact V3]. apply utf8_ascii, dec_print_ascii. lia. }
  clear V1 V2 V3 W1 W2 W3. intros now s r s' Hi Hq HC. unfold CreateSlot in HC. cbn [mc_Publisher mc_Domain mc_Label mc_Summary mc_Category
    mc_Placement mc_Size mc_RateDenom mc_RateAmount mc_UnitSeconds mc_MinDurationSeconds mc_MaxDurationSeconds mc_Tags] in HC.
  rewrite dec_print_clean, NewIntFromString_dec in HC by lia. run_ok HC. injection HC as <- <-. guards. zb. pose proof (mi_seq s Hi) as [? _].
  match goal with E : nextSlotID s = _ |- _ => injection E as <- <- end.
  match goal with E : SetSlot _ _ = _ |- _ => apply SetSlot_Ok in E as [_ ->] end.
  match goal with E : GetWebsite _ s = Some ?w |- _ => rename E into Hw end.
  match goal with E : bool_decide _ = true |- _ => apply bool_decide_eq_true in E; rename E into Ho end.
  eexists _, _. split.
  { cbn. destruct (slots s !! slot_id _) as [x0|] eqn:E0; [|done]. destruct (mi_slots s Hi _ _ E0) as (_ & _ & _ & n & Hn1 & Hn2).
    unfold u64 in Hn2. rewrite uwrap_small in Hn2 by (unfold in_u; lia). apply slot_id_inj in Hn2; lia. }
  split; [cbn; by rewrite lookup_insert_eq|]. cbn. split; [exact Hw|]. split_and!; done.
Qed.

(** C10 (functional).  A registration form that passes the checks: its wallet is the
    connected account, the page encodes the message, the chain reads
    the bytes, and the registration that the chain accepts records, for a new
    domain, a pending website of the connected account with the form's referrer;
    for a domain that is registered, that account as the pending owner, with the
    owner, the status and everything else left as they were. *)
Theorem register_form_to_record defs a data domain referrer :
  register_checks a data = Ok (domain, referrer) → Forall str_ok [a; domain; referrer] →
  domain = toLowerCase (field data (js "domain")) ∧ referrer = field data (js "referrer") ∧ field data (js "wallet") = a ∧
  ∃ bs g, registry_encode (page_registry defs) (register_msg a domain referrer) = Ok bs ∧ go_register_publisher bs = Some g ∧
    ∀ height (s : Store) w s', market_inv s → RegisterPublisher height g s = Ok (w, s') →
      let d := NormalizeDomain (NormalizeDomain (utf8_write domain)) in
      websites s' !! d = Some w ∧ w_Domain w = d ∧
      (∀ k, k ≠ d → websites s' !! k = websites s !! k) ∧
      match websites s !! d with
      | None => w_Owner w = utf8_write a ∧ w_Status w = StatusPending ∧ w_Referrer w = TrimSpace (utf8_write referrer) ∧
                w_RegisteredAtHeight w = height ∧ w_PendingOwner w = []
      | Some old => w = with_pending (TrimSpace (utf8_write a)) (TrimSpace (utf8_write referrer)) old
      end.
Proof.
  intros Hc Hs. unfold register_checks in Hc. cbv zeta in Hc. do 2 (apply bind_Ok_inv in Hc as ([] & _ & Hc)).
  apply bind_Ok_inv in Hc as ([] & Hw%guard_err_Ok_inv & Hc). apply bind_Ok_inv in Hc as ([] & _ & Hc). injection Hc as <- <-.
  split; [done|]. split; [done|]. zb. apply bool_decide_eq_true in Hw. split; [done|]. set (domain := toLowerCase _) in *. set (referrer := field data (js "referrer")) in *.
  eexists _, {| mr_Owner := utf8_write a; mr_Domain := utf8_write domain; mr_MetadataUri := []; mr_Proof := []; mr_Verifier := [];
    mr_Referrer := utf8_write referrer |}.
  split; [reflexivity|]. split_foralls. split.
  { assert (str_ok []) by (split; [constructor|done]). apply go_register_publisher_reads. repeat (constructor; [assumption|]). constructor. }
  intros height s w s' Hi HR d. unfold RegisterPublisher in HR. cbn [mr_Owner mr_Domain mr_Referrer mr_MetadataUri mr_Proof mr_Verifier w_Domain w_Owner w_Referrer] in HR.
  change (websites s !! d) with (GetWebsite (NormalizeDomain (utf8_write domain)) s). run_ok HR.
  - injection HR as <- <-. change (websites s !! d = Some w0) in E0. destruct (mi_websites s Hi _ _ E0) as [Hd _].
    pose proof (stored_domain_normal s d Hi ltac:(eauto)) as Hn. unfold UpsertWebsite in E2. run_ok E2. injection E2 as <-.
    cbn [with_pending w_Domain with_w_domain]. rewrite Hd, Hn. cbn [set_websites websites]. split; [|split; [done|split; [|done]]].
    + rewrite lookup_insert_eq. unfold with_w_domain, with_pending. cbn. by rewrite Hd.
    + intros k Hk. by rewrite lookup_insert_ne.
  - change (websites s !! d = None) in E0. unfold RegisterWebsite in HR. cbn [w_Domain w_Owner w_Status w_MetadataURI w_Proof w_Verifier w_Referrer
      w_CooldownUntilUnix w_CooldownCount w_PendingOwner w_PendingReferrer] in HR. run_ok HR. injection HR as <- <-. cbn. fold d.
    split; [by rewrite lookup_insert_eq|]. split; [done|]. split; [|done]. intros k Hk. by rewrite lookup_insert_ne.
Qed.
End Records.
