(* ===== verification/GoHash.v ===== *)
(** [crypto/sha256], [encoding/hex], [encoding/binary] and [strconv.FormatInt], as
    the chain's commit hashes and store keys use them. *)

From S2P Require Import Prelude JsBase GoBase.

(** * Big-endian integers *)

(** The [n] low bytes of [z], most significant first ([binary.BigEndian]). *)
Fixpoint be_bytes (n : nat) (z : Z) : list Z :=
  match n with
  | O => []
  | S m => Z.land (Z.shiftr z (8 * Z.of_nat m)) 255 :: be_bytes m z
  end.
Definition be_val (bs : list Z) : Z := foldl (λ a b, a * 256 + b) 0 bs.

Lemma be_bytes_length n z : length (be_bytes n z) = n.
Proof. induction n; cbn; congruence. Qed.

Lemma be_val_app_bytes n z a : 0 ≤ z → foldl (λ a b, a * 256 + b) a (be_bytes n z) = a * 256 ^ Z.of_nat n + z mod 256 ^ Z.of_nat n.
Proof.
  intros Hz. revert a. induction n as [|n IH]; intros a; cbn [be_bytes foldl]; [cbn; rewrite Z.mod_1_r; lia|].
  rewrite IH. change 255 with (Z.ones 8). rewrite Z.land_ones, Z.shiftr_div_pow2 by lia.
  rewrite (Z.pow_mul_r 2 8) by lia. change (2 ^ 8) with 256. rewrite Nat2Z.inj_succ, Z.pow_succ_r by lia.
  pose proof (Z.pow_pos_nonneg 256 (Z.of_nat n)) as Hp. rewrite (Z.mul_comm 256 (256 ^ _)), Z.rem_mul_r by lia. nia.
Qed.

(** Eight bytes hold a 64-bit integer. *)
Lemma be_bytes_inj x y : in_u 64 x → in_u 64 y → be_bytes 8 x = be_bytes 8 y → x = y.
Proof.
  intros Hx Hy E%(f_equal be_val). unfold be_val, in_u in *. rewrite !be_val_app_bytes in E by lia.
  change (256 ^ Z.of_nat 8) with (2 ^ 64) in E. rewrite !Z.mod_small in E by lia. lia.
Qed.

(** * SHA-256 *)

Definition w32 (z : Z) : Z := uwrap 32 z.
Definition rotr (n x : Z) : Z := Z.lor (Z.shiftr x n) (w32 (Z.shiftl x (32 - n))).

(** The constants are the first 32 bits of the fractional parts of the cube roots
    of the first 64 primes, and of the square roots of the first eight. *)
Definition is_prime (n : Z) : bool :=
  forallb (λ d, negb (n mod d =? 0)) (filter (λ d, d * d ≤ n) (Z.of_nat <$> seq 2 18)).
Definition primes : list Z := filter (λ n, is_prime n = true) (Z.of_nat <$> seq 2 310).

(** The integer part of the cube root of [n], below [2 ^ bits]. *)
Definition cube_root (bits : nat) (n : Z) : Z :=
  foldr (λ i r, let r' := r + 2 ^ Z.of_nat i in if r' ^ 3 <=? n then r' else r) 0 (seq 0 bits).

Definition sha_k : list Z :=
  Eval vm_compute in (λ p, w32 (cube_root 36 (p * 2 ^ 96))) <$> take 64 primes.
Definition sha_h0 : list Z :=
  Eval vm_compute in (λ p, w32 (Z.sqrt (p * 2 ^ 64))) <$> take 8 primes.

(** The message schedule, newest word first. *)
Definition sched_next (w : list Z) : Z :=
  let at_ i := nth i w 0 in
  let s0 := Z.lxor (Z.lxor (rotr 7 (at_ 14%nat)) (rotr 18 (at_ 14%nat))) (Z.shiftr (at_ 14%nat) 3) in
  let s1 := Z.lxor (Z.lxor (rotr 17 (at_ 1%nat)) (rotr 19 (at_ 1%nat))) (Z.shiftr (at_ 1%nat) 10) in
  w32 (at_ 15%nat + s0 + at_ 6%nat + s1).
Definition schedule (block : list Z) : list Z := rev (Nat.iter 48 (λ w, sched_next w :: w) (rev block)).

Definition sha_round (v : list Z) (kw : Z * Z) : list Z :=
  match v with
  | [a; b; c; d; e; f; g; h] =>
      let s1 := Z.lxor (Z.lxor (rotr 6 e) (rotr 11 e)) (rotr 25 e) in
      let ch := Z.lxor (Z.land e f) (Z.land (Z.lxor e 0xffffffff) g) in
      let t1 := h + s1 + ch + kw.1 + kw.2 in
      let s0 := Z.lxor (Z.lxor (rotr 2 a) (rotr 13 a)) (rotr 22 a) in
      let maj := Z.lxor (Z.lxor (Z.land a b) (Z.land a c)) (Z.land b c) in
      [w32 (t1 + s0 + maj); a; b; c; w32 (d + t1); e; f; g]
  | _ => v
  end.
Definition sha_block (h block : list Z) : list Z :=
  zip_with (λ x y, w32 (x + y)) h (foldl sha_round h (zip sha_k (schedule block))).

(** Groups of [n] (a last, shorter group is dropped). *)
Fixpoint chunks (fuel n : nat) (l : list Z) : list (list Z) :=
  match fuel with
  | O => []
  | S f => if (length l <? n)%nat then [] else take n l :: chunks f n (drop n l)
  end.

Definition sha_pad (m : list Z) : list Z :=
  let n := Z.of_nat (length m) in
  m ++ [128] ++ repeat 0 (Z.to_nat ((55 - n) mod 64)) ++ be_bytes 8 (8 * n).

Definition Sum256 (m : list Z) : list Z :=
  let p := sha_pad m in
  let words := be_val <$> chunks (length p) 4 p in
  mjoin (be_bytes 4 <$> foldl sha_block sha_h0 (chunks (length words) 16 words)).

(** * Text *)

Definition hex_digit (d : Z) : Z := if d <? 10 then 48 + d else 87 + d.
Definition EncodeToString (bs : list Z) : gostr := mjoin ((λ b, [hex_digit (b / 16); hex_digit (b mod 16)]) <$> bs).

Definition hex_value (c : Z) : option Z :=
  if is_digit c then Some (c - 48)
  else if (97 <=? c) && (c <=? 102) then Some (c - 87)
  else if (65 <=? c) && (c <=? 70) then Some (c - 55) else None.
(** [hex.DecodeString] succeeds. *)
Definition is_hex (s : gostr) : bool :=
  (Nat.even (length s)) && forallb (λ c, match hex_value c with Some _ => true | None => false end) s.

Definition FormatInt (z : Z) : gostr := if z <? 0 then 45 :: dec_print (- z) else dec_print z.

Fixpoint Join (parts : list gostr) (sep : gostr) : gostr :=
  match parts with
  | [] => []
  | [p] => p
  | p :: r => p ++ sep ++ Join r sep
  end.

(** The published test vectors. *)
Example sha256_abc : EncodeToString (Sum256 (go "abc")) =
  go "ba7816bf8f01cfea414140de5dae2223b00361a396177a9cb410ff61f20015ad".
Proof. vm_compute. reflexivity. Qed.

Example sha256_two_blocks : EncodeToString (Sum256 (go "abcdbcdecdefdefgefghfghighijhijkijkljklmklmnlmnomnopnopq")) =
  go "248d6a61d20638b8e5c026930c3e6039a33ce45964ff2167f6ecedd419db06c1".
Proof. vm_compute. reflexivity. Qed.
