(* ===== verification/GoSdk.v ===== *)
(** What the modules use of the SDK: the arithmetic of [sdkmath.Int], coins, the
    text of addresses, and the bank with its module accounts, as classes whose
    laws state what the modules rely on.  The bank the market sees ([Bank]) is the
    view of this bank from the account of the registry module. *)

From S2P Require Import Prelude JsBase GoBase Market MarketProofs.

(** * Integers of 256 bits *)

(** [sdkmath.Int]: an operation whose result has more than 256 bits panics.
    Division truncates. *)
Definition chk (z : Z) : result err Z := if int_in_range z then Ok z else Err Panic.
Definition Int_Add (a b : Z) : result err Z := chk (a + b).
Definition Int_Sub (a b : Z) : result err Z := chk (a - b).
Definition Int_Mul (a b : Z) : result err Z := chk (a * b).

(** In range, as a proposition. *)
Definition int256 (z : Z) : Prop := Z.abs z < 2 ^ 256.

Lemma chk_Ok z r : chk z = Ok r → r = z ∧ int256 z.
Proof. unfold chk, int_in_range, int256. destruct (Z.ltb_spec (Z.abs z) (2 ^ 256)); [|done]. by intros [= ->]. Qed.

Lemma chk_in z : int256 z → chk z = Ok z.
Proof. unfold chk, int_in_range, int256. intros Hz. by destruct (Z.ltb_spec (Z.abs z) (2 ^ 256)); [|lia]. Qed.

Lemma int256_le a b : 0 ≤ a ≤ b → int256 b → int256 a.
Proof. unfold int256. lia. Qed.

Create HintDb int256.
#[export] Hint Resolve chk_in : int256.

(** Replace the arithmetic that succeeded by its value. *)
Ltac int_ops :=
  unfold Int_Add, Int_Sub, Int_Mul in *;
  repeat match goal with H : chk _ = Ok _ |- _ => apply chk_Ok in H as [? ?]; subst end.

(** * Decimals *)

(** [sdkmath.LegacyDec]: an integer in units of [10^-18].  Addition, comparison,
    multiplication and division by integers are exact or truncate; multiplication
    and division of two decimals round to a neighbour, and are parameters with
    that law.  The bound of 315 bits is left out. *)
Definition precision : Z := 10 ^ 18.
Definition LegacyOneDec : Z := precision.
Definition LegacyNewDec (n : Z) : Z := n * precision.
Definition Dec_MulInt (d n : Z) : Z := d * n.
Definition Dec_QuoInt (d n : Z) : Z := Z.quot d n.
Definition TruncateInt (d : Z) : Z := Z.quot d precision.

Class DecRounding := {
  Dec_Mul : Z → Z → Z;
  Dec_Quo : Z → Z → Z;
  Dec_Mul_near a b : 2 * Z.abs (Dec_Mul a b * precision - a * b) ≤ precision;
  Dec_Quo_near a b : b ≠ 0 → Z.abs (Dec_Quo a b * b - a * precision) < Z.abs b }.

(** A product that is a whole number of units is exact. *)
Lemma Dec_Mul_exact `{DecRounding} a n : Dec_Mul a (LegacyNewDec n) = a * n.
Proof. pose proof (Dec_Mul_near a (LegacyNewDec n)) as Hn. unfold LegacyNewDec, precision in *. lia. Qed.

(** * Coins *)

Record Coin := mkCoin { c_Denom : gostr; c_Amount : Z }.
#[global] Instance Coin_eq_dec : EqDecision Coin.
Proof. solve_decision. Defined.

Section Coins.
Context `{GoEnv}.

Definition Coin_IsValid (c : Coin) : bool := ValidDenom (c_Denom c) && (0 <=? c_Amount c).

(** [sdk.NewCoin] panics on a coin that is not valid, [Coin.Add] on two
    denominations. *)
Definition NewCoin (denom : gostr) (amount : Z) : result err Coin :=
  let c := mkCoin denom amount in guard_err (negb (Coin_IsValid c)) Panic;; Ok c.
Definition Coin_Add (a b : Coin) : result err Coin :=
  guard_err (negb (bool_decide (c_Denom a = c_Denom b))) Panic;;
  n ← Int_Add (c_Amount a) (c_Amount b);
  Ok (mkCoin (c_Denom a) n).

Lemma NewCoin_Ok d n c : NewCoin d n = Ok c → c = mkCoin d n ∧ ValidDenom d = true ∧ 0 ≤ n.
Proof.
  unfold NewCoin, Coin_IsValid. intros HN. run_ok HN. guards. injection HN as <-. cbn in *. zb. done.
Qed.

Lemma NewCoin_in d n : ValidDenom d = true → 0 ≤ n → NewCoin d n = Ok (mkCoin d n).
Proof. intros Hd Hn. unfold NewCoin, Coin_IsValid. cbn. rewrite Hd. by destruct (Z.leb_spec 0 n); [|lia]. Qed.

Lemma Coin_Add_Ok a b c : Coin_Add a b = Ok c → c_Denom a = c_Denom b ∧ c = mkCoin (c_Denom a) (c_Amount a + c_Amount b) ∧ int256 (c_Amount a + c_Amount b).
Proof.
  unfold Coin_Add. intros HC. run_ok HC. guards. zb. match goal with E : Int_Add _ _ = Ok _ |- _ => apply chk_Ok in E as [-> Hr] end.
  injection HC as <-. by case_bool_decide.
Qed.
End Coins.

(** * Addresses *)

(** [AccAddress.String]: the text of a decoded address decodes to it and has no
    space around it. *)
Class AddrText `{GoEnv} := {
  AccString : list Z → gostr;
  AccString_decodes s a : AccAddressFromBech32 s = Some a → AccAddressFromBech32 (AccString a) = Some a;
  AccString_clean s a : AccAddressFromBech32 s = Some a → TrimSpace (AccString a) = AccString a }.

(** * The bank *)

(** Accounts by address, module accounts by name, and the supply of each
    denomination.  [None] is an error or a panic.  A module of [minter] may mint,
    one of [burner] may burn. *)
Class BankKeeper (B : Type) := {
  mod_bal : B → gostr → gostr → Z;
  acc_bal : B → list Z → gostr → Z;
  supply : B → gostr → Z;
  blockedAddr : list Z → bool;
  minter : gostr → bool;
  burner : gostr → bool;
  AccountToModule : B → list Z → gostr → gostr → Z → option B;
  ModuleToAccount : B → gostr → list Z → gostr → Z → option B;
  MintCoins : B → gostr → gostr → Z → option B;
  BurnCoins : B → gostr → gostr → Z → option B;
  AccountToModule_spec b a m d n b' : 0 < n → AccountToModule b a m d n = Some b' →
    n ≤ acc_bal b a d ∧
    (∀ m' d', mod_bal b' m' d' = mod_bal b m' d' + if decide (m' = m ∧ d' = d) then n else 0) ∧
    (∀ a' d', acc_bal b' a' d' = acc_bal b a' d' - if decide (a' = a ∧ d' = d) then n else 0) ∧
    (∀ d', supply b' d' = supply b d');
  ModuleToAccount_spec b m a d n b' : 0 < n → ModuleToAccount b m a d n = Some b' →
    n ≤ mod_bal b m d ∧
    (∀ m' d', mod_bal b' m' d' = mod_bal b m' d' - if decide (m' = m ∧ d' = d) then n else 0) ∧
    (∀ a' d', acc_bal b' a' d' = acc_bal b a' d' + if decide (a' = a ∧ d' = d) then n else 0) ∧
    (∀ d', supply b' d' = supply b d');
  ModuleToAccount_ok b m a d n : 0 < n ≤ mod_bal b m d → blockedAddr a = false →
    is_Some (ModuleToAccount b m a d n);
  MintCoins_spec b m d n b' : 0 < n → MintCoins b m d n = Some b' →
    (∀ m' d', mod_bal b' m' d' = mod_bal b m' d' + if decide (m' = m ∧ d' = d) then n else 0) ∧
    (∀ a d', acc_bal b' a d' = acc_bal b a d') ∧
    (∀ d', supply b' d' = supply b d' + if decide (d' = d) then n else 0);
  MintCoins_ok b m d n : minter m = true → 0 < n → int256 (supply b d + n) → is_Some (MintCoins b m d n);
  BurnCoins_spec b m d n b' : 0 < n → BurnCoins b m d n = Some b' →
    n ≤ mod_bal b m d ∧
    (∀ m' d', mod_bal b' m' d' = mod_bal b m' d' - if decide (m' = m ∧ d' = d) then n else 0) ∧
    (∀ a d', acc_bal b' a d' = acc_bal b a d') ∧
    (∀ d', supply b' d' = supply b d' - if decide (d' = d) then n else 0);
  BurnCoins_ok b m d n : burner m = true → 0 < n ≤ mod_bal b m d → is_Some (BurnCoins b m d n) }.

Definition registry_module : gostr := go "registry".
Definition verifiers_module : gostr := go "verifiers".
Definition tokenomics_module : gostr := go "tokenomics".

Lemma registry_not_tokenomics : registry_module ≠ tokenomics_module.
Proof. vm_compute. discriminate. Qed.
Lemma verifiers_not_tokenomics : verifiers_module ≠ tokenomics_module.
Proof. vm_compute. discriminate. Qed.
Lemma verifiers_not_registry : verifiers_module ≠ registry_module.
Proof. vm_compute. discriminate. Qed.

(** The bank from the account of the registry. *)
#[global, refine] Instance registry_bank {B} `{BankKeeper B} : Bank B := {|
  module_bal b := mod_bal b registry_module;
  account_bal := acc_bal;
  blocked := blockedAddr;
  SendCoinsFromAccountToModule b a := AccountToModule b a registry_module;
  SendCoinsFromModuleToAccount b := ModuleToAccount b registry_module;
  to_module_spec := _; from_module_spec := _; from_module_ok := _ |}.
Proof.
  - intros b a d n b' Hn Hs. destruct (AccountToModule_spec b a registry_module d n b' Hn Hs) as (? & Hm & Ha & _).
    split_and!; [done| |done]. intros d'. rewrite Hm. f_equal. repeat case_decide; tauto.
  - intros b a d n b' Hn Hs. destruct (ModuleToAccount_spec b registry_module a d n b' Hn Hs) as (? & Hm & Ha & _).
    split_and!; [done| |done]. intros d'. rewrite Hm. f_equal. repeat case_decide; tauto.
  - intros b a d n. apply ModuleToAccount_ok.
Defined.
