(* ===== verification/Tokenomics.v ===== *)
(** The monetary policy, from [src/x/tokenomics]: the parameters and their checks
    ([params.go]), the split of issuance, fees and slashed stake ([rewards.go]),
    the genesis allocations ([types.go]), the yearly simulation ([simulate.go]) and
    the keeper that funds the emission pool and pays from it ([keeper.go]). *)

From S2P Require Import Prelude JsBase GoBase Market MarketProofs GoSdk.

Definition DefaultDenom : gostr := go "ucongrid".

(** * Parameters *)

Record IssuanceParams := mkIssuance {
  i_EmissionTotalSupply : Z; i_OperatorReserveBps : Z; i_PublisherEmissionBps : Z; i_VerifierEmissionBps : Z;
  i_EmissionDurationHours : Z }.
Record FeeSplit := mkFeeSplit { f_ToCommunityPool : Z; f_ToBurn : Z }.
Record SlashSplit := mkSlashSplit { x_ToBurn : Z; x_ToVictimComp : Z; x_ToCommunityPool : Z }.
Record TokParams := mkTokParams { Issuance : IssuanceParams; t_FeeSplit : FeeSplit; t_SlashSplit : SlashSplit }.

(** A decimal of [n] hundredths. *)
Definition hundredths (n : Z) : Z := n * 10 ^ 16.

Definition DefaultTokParams : TokParams :=
  mkTokParams (mkIssuance 1000000000000000 4000 1000 5000 (100 * 365 * 24))
    (mkFeeSplit (hundredths 80) (hundredths 20)) (mkSlashSplit (hundredths 50) (hundredths 30) (hundredths 20)).

Definition ensureUnitInterval (d : Z) : result err unit :=
  first_error [((d <? 0), Errorf "must be >= 0"); ((LegacyOneDec <? d), Errorf "must be <= 1")].

(** The loop adds while it checks; the tolerance is [10^-9]. *)
Definition ensureSharesSumToOne (shares : list Z) : result err unit :=
  total ← each (λ d total, (ensureUnitInterval d;; Ok (total + d))) shares 0;
  guard_err (negb (total =? LegacyOneDec) && (10 ^ 9 <? Z.abs (total - LegacyOneDec))) (Errorf "shares must sum to 1").

Definition ensureBps (v : Z) : result err unit := guard_err ((v <? 0) || (10000 <? v)) (Errorf "must be within [0,10000]").

(** The sum of three 64-bit integers in [0, 10000] does not wrap. *)
Definition Issuance_Validate (p : IssuanceParams) : result err unit :=
  guard_err (i_EmissionTotalSupply p <=? 0) (Errorf "emission total supply must be positive");;
  guard_err (i_EmissionDurationHours p <=? 0) (Errorf "emission duration hours must be positive");;
  ensureBps (i_OperatorReserveBps p);;
  ensureBps (i_PublisherEmissionBps p);;
  ensureBps (i_VerifierEmissionBps p);;
  guard_err (negb (i_OperatorReserveBps p + i_PublisherEmissionBps p + i_VerifierEmissionBps p =? 10000))
    (Errorf "issuance bps must sum to 10000").

Definition TokParams_Validate (p : TokParams) : result err unit :=
  Issuance_Validate (Issuance p);;
  ensureSharesSumToOne [f_ToCommunityPool (t_FeeSplit p); f_ToBurn (t_FeeSplit p)];;
  ensureSharesSumToOne [x_ToBurn (t_SlashSplit p); x_ToVictimComp (t_SlashSplit p); x_ToCommunityPool (t_SlashSplit p)].

(** * Splits *)

Record IssuanceAllocation := mkIssued { ia_OperatorReserve : Z; ia_Publishers : Z; ia_Verifiers : Z }.
Definition SplitIssuance (p : TokParams) (amount : Z) : IssuanceAllocation :=
  mkIssued (Dec_QuoInt (Dec_MulInt amount (i_OperatorReserveBps (Issuance p))) 10000)
    (Dec_QuoInt (Dec_MulInt amount (i_PublisherEmissionBps (Issuance p))) 10000)
    (Dec_QuoInt (Dec_MulInt amount (i_VerifierEmissionBps (Issuance p))) 10000).

Section Routes.
Context `{DecRounding}.
Record FeeAllocation := mkFees { fa_ToCommunityPool : Z; fa_Burned : Z }.
Definition RouteFees (p : TokParams) (fees : Z) : FeeAllocation :=
  mkFees (Dec_Mul fees (f_ToCommunityPool (t_FeeSplit p))) (Dec_Mul fees (f_ToBurn (t_FeeSplit p))).
Record SlashAllocation := mkSlashed { sa_Burned : Z; sa_ToVictims : Z; sa_ToCommunity : Z }.
Definition RouteSlash (p : TokParams) (amount : Z) : SlashAllocation :=
  mkSlashed (Dec_Mul amount (x_ToBurn (t_SlashSplit p))) (Dec_Mul amount (x_ToVictimComp (t_SlashSplit p)))
    (Dec_Mul amount (x_ToCommunityPool (t_SlashSplit p))).
End Routes.

(** * Genesis *)

Record GenesisAllocation := mkAlloc {
  g_Category : gostr; g_Percent : Z; g_Address : gostr; g_Notes : gostr; g_CliffMonths : Z; g_VestingMonths : Z }.

Record TokGenesis := mkTokGenesis {
  tg_Denom : gostr; tg_InitialSupply : Z; tg_Allocations : list GenesisAllocation; tg_Params : TokParams }.

Definition Allocation_Validate (a : GenesisAllocation) : result err unit :=
  guard_err (empty (g_Category a)) (Errorf "allocation category required");;
  ensureUnitInterval (g_Percent a);;
  guard_err (g_CliffMonths a <? 0) (Errorf "cliff months must be >= 0");;
  guard_err (g_VestingMonths a <? 0) (Errorf "vesting months must be >= 0");;
  guard_err ((0 <? g_VestingMonths a) && (g_VestingMonths a <? g_CliffMonths a)) (Errorf "cliff months must be <= vesting months").

(** One round of the loop; the state is the categories seen and their total. *)
Definition check_allocation (a : GenesisAllocation) (st : list gostr * Z) : result err (list gostr * Z) :=
  Allocation_Validate a;;
  guard_err (bool_decide (g_Category a ∈ st.1)) (Errorf "duplicate allocation category");;
  Ok (g_Category a :: st.1, st.2 + g_Percent a).

Definition TokGenesis_Validate (g : TokGenesis) : result err unit :=
  guard_err (empty (tg_Denom g)) (Errorf "denom required");;
  guard_err (tg_InitialSupply g <=? 0) (Errorf "initial supply must be positive");;
  guard_err (match tg_Allocations g with [] => true | _ => false end) (Errorf "at least one allocation required");;
  TokParams_Validate (tg_Params g);;
  r ← each check_allocation (tg_Allocations g) ([] : list gostr, 0);
  ensureSharesSumToOne [r.2].

(** The loop of [AllocationBreakdown]: the last category gets what remains. *)
Fixpoint breakdown (supply remaining : Z) (allocs : list GenesisAllocation) (m : gmap gostr Z) : gmap gostr Z :=
  match allocs with
  | [] => m
  | [a] => <[g_Category a := remaining]> m
  | a :: rest =>
      let share := TruncateInt (Dec_MulInt (g_Percent a) supply) in
      breakdown supply (remaining - share) rest (<[g_Category a := share]> m)
  end.
Definition AllocationBreakdown (g : TokGenesis) : result err (gmap gostr Z) :=
  TokGenesis_Validate g;;
  Ok (breakdown (tg_InitialSupply g) (tg_InitialSupply g) (tg_Allocations g) ∅).

Definition TokenAmount (supply percent : Z) : Z := TruncateInt (Dec_MulInt percent supply).

(** ** A slice behind a copied struct *)

(** A Go struct holds its slice by reference: [updated := gs] copies the
    reference.  Arrays live in a store of slices. *)
Record GenesisRef := mkGenesisRef { gr_Denom : gostr; gr_InitialSupply : Z; gr_Allocations : nat; gr_Params : TokParams }.
Abbreviation slices := (gmap nat (list GenesisAllocation)).

Fixpoint set_address (category address : gostr) (l : list GenesisAllocation) : list GenesisAllocation :=
  match l with
  | [] => []
  | a :: r => if bool_decide (g_Category a = category)
              then mkAlloc (g_Category a) (g_Percent a) address (g_Notes a) (g_CliffMonths a) (g_VestingMonths a) :: r
              else a :: set_address category address r
  end.
Definition WithAllocationAddress (h : slices) (gs : GenesisRef) (category address : gostr) : slices * GenesisRef :=
  let updated := gs in
  (alter (set_address category address) (gr_Allocations updated) h, updated).
Definition load (h : slices) (gs : GenesisRef) : TokGenesis :=
  mkTokGenesis (gr_Denom gs) (gr_InitialSupply gs) (default [] (h !! gr_Allocations gs)) (gr_Params gs).

(** * Simulation *)

Section Simulate.
Context `{DecRounding}.

Record SimulationConfig := mkSim { sc_Years : Z; sc_InitialSupply : Z; sc_AnnualProtocolFees : Z; sc_AnnualSlashingLoss : Z }.
Record YearProjection := mkYear {
  y_Year : Z; y_StartSupply : Z; y_OperatorIssued : Z; y_PublisherIssued : Z; y_VerifierIssued : Z; y_NewlyIssued : Z;
  y_CumulativeIssued : Z; y_FeeBurned : Z; y_SlashBurned : Z; y_NetIssuance : Z; y_EndSupply : Z }.

Definition hoursPerYear : Z := 365 * 24.

(** What a bucket of [bps] is issued in [hours]; the product of the duration is a
    64-bit integer. *)
Definition issued_in (p : IssuanceParams) (bps hours : Z) : Z :=
  Dec_Quo (Dec_Mul (Dec_MulInt (LegacyNewDec (i_EmissionTotalSupply p)) bps) (LegacyNewDec hours))
    (LegacyNewDec (i64 (i_EmissionDurationHours p * 10000))).

(** The body of the loop; the state is the supply, what has been issued, and the
    hours that remain. *)
Definition simulate_year (p : TokParams) (cfg : SimulationConfig) (year : Z) (st : Z * Z * Z) : YearProjection * (Z * Z * Z) :=
  let '(supply, cumulative, remainingHours) := st in
  let yearHours := if remainingHours <? hoursPerYear then remainingHours else hoursPerYear in
  let issued bps := if 0 <? yearHours then issued_in (Issuance p) bps yearHours else 0 in
  let operatorIssued := issued (i_OperatorReserveBps (Issuance p)) in
  let publisherIssued := issued (i_PublisherEmissionBps (Issuance p)) in
  let verifierIssued := issued (i_VerifierEmissionBps (Issuance p)) in
  let remainingHours := if 0 <? yearHours then remainingHours - yearHours else remainingHours in
  let newlyIssued := operatorIssued + publisherIssued + verifierIssued in
  let cumulative := cumulative + newlyIssued in
  let feeBurn := Dec_Mul (sc_AnnualProtocolFees cfg) (f_ToBurn (t_FeeSplit p)) in
  let slashBurn := Dec_Mul (sc_AnnualSlashingLoss cfg) (x_ToBurn (t_SlashSplit p)) in
  let net := newlyIssued - feeBurn - slashBurn in
  let endSupply := supply + net in
  (mkYear year supply operatorIssued publisherIssued verifierIssued newlyIssued cumulative feeBurn slashBurn net endSupply,
   (endSupply, cumulative, remainingHours)).

Fixpoint simulate_from (p : TokParams) (cfg : SimulationConfig) (n : nat) (year : Z) (st : Z * Z * Z) : list YearProjection :=
  match n with
  | O => []
  | S n' => let '(y, st) := simulate_year p cfg year st in y :: simulate_from p cfg n' (year + 1) st
  end.

Definition SimulateYears (p : TokParams) (cfg : SimulationConfig) : result err (list YearProjection) :=
  guard_err (sc_Years cfg <=? 0) (Errorf "years must be positive");;
  guard_err (sc_InitialSupply cfg <? 0) (Errorf "initial supply must be non-negative");;
  guard_err ((sc_AnnualProtocolFees cfg <? 0) || (sc_AnnualSlashingLoss cfg <? 0)) (Errorf "annual inputs must be non-negative");;
  TokParams_Validate p;;
  Ok (simulate_from p cfg (Z.to_nat (sc_Years cfg)) 1 (sc_InitialSupply cfg, 0, i_EmissionDurationHours (Issuance p))).
End Simulate.

(** * The keeper *)

Section Keeper.
Context `{GoEnv} {B : Type} `{BankKeeper B}.

(** Errors of the bank. *)
Definition or_err {A} (o : option A) (text : string) : result err A := match o with Some a => Ok a | None => Err (Errorf text) end.

Definition MintAndSend (recipient : list Z) (c : Coin) (b : B) : result err B :=
  if c_Amount c =? 0 then Ok b
  else
    b ← or_err (MintCoins b tokenomics_module (c_Denom c) (c_Amount c)) "failed to mint coins";
    or_err (ModuleToAccount b tokenomics_module recipient (c_Denom c) (c_Amount c)) "failed to send coins".

Definition MintAndBurn (c : Coin) (b : B) : result err B :=
  if c_Amount c =? 0 then Ok b
  else
    b ← or_err (MintCoins b tokenomics_module (c_Denom c) (c_Amount c)) "failed to mint coins for burn";
    or_err (BurnCoins b tokenomics_module (c_Denom c) (c_Amount c)) "failed to burn coins".

(** The amount funded so far is stored when it is positive; absent reads as zero. *)
Definition setEmissionFundedAmount (amount : Z) : Z := if amount <=? 0 then 0 else amount.

Definition EnsureEmissionPool (denom : gostr) (target : Z) (funded : Z) (b : B) : result err (Z * B) :=
  let denom := if blank denom then DefaultDenom else denom in
  if target <=? 0 then Ok (funded, b)
  else if target <=? funded then Ok (funded, b)
  else
    delta ← Int_Sub target funded;
    c ← NewCoin denom delta;
    b ← or_err (MintCoins b tokenomics_module (c_Denom c) (c_Amount c)) "failed to fund emission pool";
    Ok (setEmissionFundedAmount target, b).

Definition SendFromPool (recipient : list Z) (c : Coin) (b : B) : result err B :=
  if c_Amount c =? 0 then Ok b
  else or_err (ModuleToAccount b tokenomics_module recipient (c_Denom c) (c_Amount c)) "failed to send from pool".

Definition BurnFromPool (c : Coin) (b : B) : result err B :=
  if c_Amount c =? 0 then Ok b
  else or_err (BurnCoins b tokenomics_module (c_Denom c) (c_Amount c)) "failed to burn from pool".

(** Stored parameters are valid ones; what does not decode reads as the default. *)
Definition SetTokParams (p : TokParams) : result err (option TokParams) := TokParams_Validate p;; Ok (Some p).
Definition GetTokParams (o : option TokParams) : TokParams := default DefaultTokParams o.
End Keeper.

(** * The genesis allocations *)

Lemma ensureUnitInterval_Ok d u : ensureUnitInterval d = Ok u → 0 ≤ d ≤ LegacyOneDec.
Proof.
  unfold ensureUnitInterval. intros Hd. apply first_error_ok in Hd. repeat (apply Forall_cons_1 in Hd as [? Hd]). cbn in *. zb. lia.
Qed.

Lemma ensureShares_single d u : ensureSharesSumToOne [d] = Ok u → 0 ≤ d ≤ LegacyOneDec.
Proof.
  unfold ensureSharesSumToOne. intros Hd. run_ok Hd. cbn [each] in E.
  destruct (ensureUnitInterval d) eqn:Hu; [by eapply ensureUnitInterval_Ok|discriminate E].
Qed.

(** What the loop of the validation has seen. *)
Lemma allocations_checked l seen total r :
  each check_allocation l (seen, total) = Ok r →
  NoDup (g_Category <$> l) ∧ (∀ a, a ∈ l → (g_Category a ∉ seen) ∧ 0 ≤ g_Percent a) ∧ r.2 = total + sumZ (g_Percent <$> l).
Proof.
  revert seen total. induction l as [|a l IH]; intros seen total HE; cbn [each] in HE.
  - injection HE as <-. cbn. split_and!; [constructor|by intros a ?%elem_of_nil|lia].
  - run_ok HE. unfold check_allocation in E. run_ok E. guards. cbn [fst snd] in *. injection E as <-.
    match goal with Hq : bool_decide _ = false |- _ => apply bool_decide_eq_false in Hq end.
    match goal with Hq : Allocation_Validate _ = _ |- _ => unfold Allocation_Validate in Hq; run_ok Hq end.
    match goal with Hu : ensureUnitInterval _ = _ |- _ => apply ensureUnitInterval_Ok in Hu end.
    destruct (IH _ _ HE) as (Hn & Hf & Hr). split_and!.
    + rewrite fmap_cons. constructor; [|done]. intros (x & Ex & Hx)%list_elem_of_fmap. destruct (Hf x Hx) as [Hs _]. apply Hs. rewrite <- Ex. by left.
    + intros x [->|Hx]%elem_of_cons; [split; [done|lia]|]. destruct (Hf x Hx) as [Hs ?]. split; [|done]. intros ?. apply Hs. by right.
    + rewrite Hr, fmap_cons. unfold sumZ. cbn. lia.
Qed.

Lemma TokGenesis_Ok g u : TokGenesis_Validate g = Ok u →
  0 < tg_InitialSupply g ∧ tg_Allocations g ≠ [] ∧ NoDup (g_Category <$> tg_Allocations g) ∧
  (∀ a, a ∈ tg_Allocations g → 0 ≤ g_Percent a) ∧ sumZ (g_Percent <$> tg_Allocations g) ≤ LegacyOneDec.
Proof.
  intros HV. unfold TokGenesis_Validate in HV. run_ok HV. guards. zb. apply ensureShares_single in HV as [_ HV].
  match goal with E : each _ _ _ = Ok _ |- _ => apply allocations_checked in E as (Hn & Hf & Hr) end. rewrite Hr in HV.
  split_and!; try done; [by destruct (tg_Allocations g)|intros a Ha; by apply Hf].
Qed.

Definition share_of (supply : Z) (a : GenesisAllocation) : Z := g_Percent a * supply / precision.

Lemma share_truncates supply a : 0 ≤ supply → 0 ≤ g_Percent a → TruncateInt (Dec_MulInt (g_Percent a) supply) = share_of supply a.
Proof. intros. unfold TruncateInt, Dec_MulInt, share_of. apply Z.quot_div_nonneg; unfold precision; nia. Qed.

Lemma breakdown_cons supply remaining a l m : l ≠ [] → breakdown supply remaining (a :: l) m =
  let share := TruncateInt (Dec_MulInt (g_Percent a) supply) in
  breakdown supply (remaining - share) l (<[g_Category a := share]> m).
Proof. by destruct l. Qed.

Lemma breakdown_spec supply l remaining m : 0 ≤ supply → l ≠ [] → NoDup (g_Category <$> l) →
  (∀ a, a ∈ l → 0 ≤ g_Percent a ∧ m !! g_Category a = None) → sumZ (g_Percent <$> l) * supply ≤ remaining * precision →
  let m' := breakdown supply remaining l m in
  dom m' = dom m ∪ list_to_set (g_Category <$> l) ∧ sum_over id m' = sum_over id m + remaining ∧
  (∀ k, k ∉ g_Category <$> l → m' !! k = m !! k) ∧
  (∀ a, a ∈ l → ∃ n, m' !! g_Category a = Some n ∧ share_of supply a ≤ n).
Proof.
  intros Hs. revert remaining m. induction l as [|a l IH]; [done|]. intros remaining m _ Hn Hf Hsum.
  rewrite fmap_cons in Hn. apply list.NoDup_cons in Hn as [Hna Hn]. destruct (Hf a ltac:(by left)) as [Hpa Hma].
  change (sumZ (g_Percent <$> a :: l)) with (g_Percent a + sumZ (g_Percent <$> l)) in Hsum.
  destruct (decide (l = [])) as [->|Hne].
  - cbn. split_and!.
    + rewrite dom_insert_L. clear. set_solver.
    + rewrite sum_over_fresh by done. cbn. lia.
    + intros k Hk. rewrite lookup_insert_ne; [done|]. clear - Hk. set_solver.
    + intros x ->%list_elem_of_singleton. exists remaining. rewrite lookup_insert_eq. split; [done|].
      apply Z.div_le_upper_bound; [done|]. cbn in Hsum. nia.
  - rewrite breakdown_cons, share_truncates by done. cbv zeta.
    assert (share_of supply a * precision ≤ g_Percent a * supply) as Hsh by (unfold share_of; rewrite Z.mul_comm; by apply Z.mul_div_le).
    destruct (IH (remaining - share_of supply a) (<[g_Category a := share_of supply a]> m)) as (Hd & Hsm & Hout & Hin); [done|done| |nia|].
    { intros x Hx. destruct (Hf x ltac:(by right)) as [? Hmx]. split; [done|]. rewrite lookup_insert_ne; [done|].
      intros Hc. apply Hna. rewrite Hc. by apply list_elem_of_fmap_2. }
    split_and!.
    + rewrite Hd, dom_insert_L, fmap_cons, list_to_set_cons. clear. set_solver.
    + rewrite Hsm, sum_over_fresh by done. cbn. lia.
    + intros k [Hk1 Hk2]%not_elem_of_cons. rewrite Hout by done. by rewrite lookup_insert_ne.
    + intros x [->|Hx]%elem_of_cons; [|by apply Hin]. exists (share_of supply a). rewrite Hout by done. by rewrite lookup_insert_eq.
Qed.

(** The genesis allocations are exact: for a valid genesis the
    breakdown succeeds, every category gets an amount that is at least its
    percentage of the supply, rounded down, and the amounts add up to the supply. *)
Theorem allocation_breakdown_exact g : TokGenesis_Validate g = Ok tt →
  ∃ m, AllocationBreakdown g = Ok m ∧
  dom m = list_to_set (g_Category <$> tg_Allocations g) ∧ sum_over id m = tg_InitialSupply g ∧
  ∀ a, a ∈ tg_Allocations g → ∃ n, m !! g_Category a = Some n ∧ 0 ≤ g_Percent a * tg_InitialSupply g / precision ≤ n.
Proof.
  intros HV. unfold AllocationBreakdown. rewrite HV. cbn [mbind result_bind]. eexists. split; [reflexivity|].
  apply TokGenesis_Ok in HV as (Hpos & Hne & Hn & Hp & Hsum).
  destruct (breakdown_spec (tg_InitialSupply g) (tg_Allocations g) (tg_InitialSupply g) ∅) as (Hd & Hs & _ & Hin); try done; try lia.
  - intros a Ha. split; [by apply Hp|apply lookup_empty].
  - unfold LegacyOneDec in Hsum. nia.
  - rewrite dom_empty_L, (left_id_L ∅ (∪)) in Hd. split_and!; [done|by rewrite Hs|].
    intros a Ha. destruct (Hin a Ha) as (n & Hk & Hle). exists n. split; [done|]. split; [|exact Hle].
    specialize (Hp a Ha). apply Z.div_pos; [nia|done].
Qed.

(** [WithAllocationAddress] does not copy the allocations: the value
    it is called on shares them with the value it returns, so after the call both
    have the new address. *)
Theorem with_address_aliases h gs category address : let r := WithAllocationAddress h gs category address in
  load r.1 gs = load r.1 r.2 ∧ tg_Allocations (load r.1 gs) = set_address category address (tg_Allocations (load h gs)).
Proof.
  cbn. split; [done|]. rewrite lookup_alter_eq. by destruct (h !! gr_Allocations gs).
Qed.

(** * The simulation *)

Section Projection.
Context `{DecRounding} (p : TokParams) (cfg : SimulationConfig).
Hypothesis valid : Issuance_Validate (Issuance p) = Ok tt.
Hypothesis fits : i_EmissionDurationHours (Issuance p) * 10000 < 2 ^ 63.

Abbreviation dur := (i_EmissionDurationHours (Issuance p)).
Abbreviation total := (i_EmissionTotalSupply (Issuance p) * precision).

Lemma issuance_facts : 0 < dur ∧ 0 < i_EmissionTotalSupply (Issuance p) ∧
  i_OperatorReserveBps (Issuance p) + i_PublisherEmissionBps (Issuance p) + i_VerifierEmissionBps (Issuance p) = 10000.
Proof. unfold Issuance_Validate in valid. pose proof valid as HV. run_ok HV. guards. zb. lia. Qed.

(** A bucket is off by less than one unit of [10^-18]. *)
Lemma issued_in_near bps hours :
  Z.abs (issued_in (Issuance p) bps hours * (dur * 10000) - total * bps * hours) < dur * 10000.
Proof.
  destruct issuance_facts as (Hd & _ & _). unfold issued_in.
  assert (i64 (dur * 10000) = dur * 10000) as -> by (apply swrap_small; [lia|]; unfold in_s; lia).
  rewrite Dec_Mul_exact. pose proof (Dec_Quo_near (Dec_MulInt (LegacyNewDec (i_EmissionTotalSupply (Issuance p))) bps * hours)
    (LegacyNewDec (dur * 10000))) as Hq. unfold LegacyNewDec, Dec_MulInt, precision in *. ospecialize (Hq _); [lia|].
  revert Hq. set (q := Dec_Quo _ _). intros Hq. replace (10 ^ 18) with 1000000000000000000 in * by reflexivity. lia.
Qed.

(** The hours of emission that have passed after [k] years. *)
Definition hours_after (k : Z) : Z := Z.min (hoursPerYear * k) dur.

Lemma simulate_year_spec year supply cum k y st : 0 ≤ k →
  simulate_year p cfg year (supply, cum, dur - hours_after k) = (y, st) →
  Z.abs (cum * dur - total * hours_after k) ≤ 3 * k * dur →
  st = (y_EndSupply y, y_CumulativeIssued y, dur - hours_after (k + 1)) ∧ y_Year y = year ∧ y_StartSupply y = supply ∧
  y_EndSupply y = supply + y_NewlyIssued y - y_FeeBurned y - y_SlashBurned y ∧ y_CumulativeIssued y = cum + y_NewlyIssued y ∧
  Z.abs (y_CumulativeIssued y * dur - total * hours_after (k + 1)) ≤ 3 * (k + 1) * dur.
Proof.
  intros Hk HS Hc. destruct issuance_facts as (Hd & Hsup & Hbps). unfold simulate_year in HS.
  set (yh := if dur - hours_after k <? hoursPerYear then dur - hours_after k else hoursPerYear) in HS.
  assert (0 ≤ yh ∧ hours_after (k + 1) = hours_after k + yh) as [Hyh Hn].
  { subst yh. unfold hours_after, hoursPerYear. destruct (Z.ltb_spec (dur - Z.min (365 * 24 * k) dur) (365 * 24)); lia. }
  clearbody yh. injection HS as <- <-. cbn.
  pose proof (issued_in_near (i_OperatorReserveBps (Issuance p)) yh) as H1.
  pose proof (issued_in_near (i_PublisherEmissionBps (Issuance p)) yh) as H2.
  pose proof (issued_in_near (i_VerifierEmissionBps (Issuance p)) yh) as H3.
  split_and!; try done; [|lia|].
  - f_equal. destruct (Z.ltb_spec 0 yh); lia.
  - rewrite Hn. destruct (Z.ltb_spec 0 yh).
    + revert H1 H2 H3. set (a := issued_in _ _ _). set (b := issued_in _ _ _). set (c := issued_in _ _ _). intros H1 H2 H3.
      assert (Z.abs ((a + b + c) * dur - total * yh) ≤ 3 * dur) by nia. nia.
    + assert (yh = 0) as -> by lia. rewrite !Z.add_0_r. lia.
Qed.

Lemma simulate_from_spec n year supply cum k i y : 0 ≤ k →
  Z.abs (cum * dur - total * hours_after k) ≤ 3 * k * dur →
  simulate_from p cfg n year (supply, cum, dur - hours_after k) !! i = Some y →
  let j := Z.of_nat i in
  y_Year y = year + j ∧ y_EndSupply y = y_StartSupply y + y_NewlyIssued y - y_FeeBurned y - y_SlashBurned y ∧
  Z.abs (y_CumulativeIssued y * dur - total * hours_after (k + j + 1)) ≤ 3 * (k + j + 1) * dur.
Proof.
  revert year supply cum k i. induction n as [|n IH]; intros year supply cum k i Hk Hc Hy; [done|].
  cbn [simulate_from] in Hy. destruct (simulate_year p cfg year (supply, cum, dur - hours_after k)) as [z st] eqn:E.
  destruct (simulate_year_spec _ _ _ _ _ _ Hk E Hc) as (-> & Hyr & Hs & He & Hcum & Hn). destruct i as [|i].
  - injection Hy as <-. cbv zeta. replace (k + Z.of_nat 0 + 1) with (k + 1) by lia. split_and!; [lia|lia|exact Hn].
  - change (simulate_from p cfg n (year + 1) (y_EndSupply z, y_CumulativeIssued z, dur - hours_after (k + 1)) !! i = Some y) in Hy.
    destruct (IH (year + 1) (y_EndSupply z) (y_CumulativeIssued z) (k + 1) i ltac:(lia) Hn Hy) as (H1 & H2 & H3).
    cbv zeta in *. replace (k + 1 + Z.of_nat i + 1) with (k + Z.of_nat (S i) + 1) in H3 by lia. split_and!; [lia|done|done].
Qed.
End Projection.

Lemma simulate_from_length `{DecRounding} p cfg n k st : length (simulate_from p cfg n k st) = n.
Proof. revert k st. induction n as [|n IH]; intros k st; [done|]. cbn [simulate_from]. destruct (simulate_year _ _ _ _). cbn. by rewrite IH. Qed.

(** The simulation issues the supply linearly: for valid parameters and
    inputs it projects as many years as it was asked for; after the year [k] the
    amount issued differs from the share of the total supply that falls to the
    hours passed by at most three units of [10^-18] per year, nothing more is
    issued after the emission has ended, and each year ends with its start plus
    what was issued less what was burned. *)
Theorem simulation_issues_supply `{DecRounding} p cfg : 0 < sc_Years cfg → 0 ≤ sc_InitialSupply cfg →
  0 ≤ sc_AnnualProtocolFees cfg → 0 ≤ sc_AnnualSlashingLoss cfg → TokParams_Validate p = Ok tt →
  i_EmissionDurationHours (Issuance p) * 10000 < 2 ^ 63 →
  let dur := i_EmissionDurationHours (Issuance p) in
  ∃ ys, SimulateYears p cfg = Ok ys ∧ Z.of_nat (length ys) = sc_Years cfg ∧
  ∀ i y, ys !! i = Some y → let k := Z.of_nat i + 1 in
    y_Year y = k ∧ y_EndSupply y = y_StartSupply y + y_NewlyIssued y - y_FeeBurned y - y_SlashBurned y ∧
    Z.abs (y_CumulativeIssued y * dur - i_EmissionTotalSupply (Issuance p) * precision * Z.min (365 * 24 * k) dur) ≤ 3 * k * dur.
Proof.
  intros Hy Hs Hfe Hsl HV Hf dur. unfold SimulateYears.
  rewrite guard_pass by (apply Z.leb_gt; lia). rewrite guard_pass by (apply Z.ltb_ge; lia).
  rewrite guard_pass by (apply orb_false_iff; split; apply Z.ltb_ge; lia). rewrite HV. cbn [mbind result_bind].
  eexists. split; [reflexivity|]. split; [rewrite simulate_from_length; lia|]. intros i y Hyi.
  unfold TokParams_Validate in HV. run_ok HV.
  match goal with E : Issuance_Validate _ = Ok ?u |- _ => destruct u; rename E into Hv end.
  assert (hours_after p 0 = 0) as H0 by (destruct (issuance_facts p Hv) as [? _]; unfold hours_after; lia).
  pose proof (simulate_from_spec p cfg Hv Hf (Z.to_nat (sc_Years cfg)) 1 (sc_InitialSupply cfg) 0 0 i y) as HP.
  rewrite H0, Z.sub_0_r in HP. destruct (HP ltac:(lia) ltac:(lia) Hyi) as (H1 & H2 & H3).
  cbv zeta. split_and!; [lia|exact H2|]. replace (0 + Z.of_nat i + 1) with (Z.of_nat i + 1) in H3 by lia. exact H3.
Qed.
