(* ===== verification/TokenDemo.v ===== *)
(** The theorems on the token's genesis and its projection, applied to a genesis of
    three categories and to the default parameters. *)

From S2P Require Import Prelude JsBase GoBase GoSdk Tokenomics.

Module TokenWitness.

(** A third for each of two, the rest for the last. *)
Definition category (n p : _) : GenesisAllocation := mkAlloc (go n) p [] [] 0 0.
Definition genesis : TokGenesis := mkTokGenesis DefaultDenom 100
  [category "foundation" 333333333333333333; category "team" 333333333333333333; category "pool" 333333333333333334] DefaultTokParams.

Lemma allocation_breakdown_exact_witness : ∃ m, AllocationBreakdown genesis = Ok m ∧ m !! go "pool" = Some 34 ∧ sum_over id m = 100.
Proof.
  destruct (allocation_breakdown_exact genesis ltac:(vm_compute; reflexivity)) as (m & E & _ & Hs & _). exists m. split; [exact E|].
  split; [|exact Hs]. assert (match AllocationBreakdown genesis with Ok m => m !! go "pool" | Err _ => None end = Some 34) as Hm by (vm_compute; reflexivity).
  rewrite E in Hm. exact Hm.
Defined.

(** Products round half up, quotients truncate. *)
#[local, refine] Instance half_up : DecRounding := {|
  Dec_Mul a b := (2 * (a * b) + precision) / (2 * precision); Dec_Quo a b := Z.quot (a * precision) b; Dec_Mul_near := _; Dec_Quo_near := _ |}.
Proof.
  - intros a b. assert (0 < 2 * precision) as Hp by (unfold precision; lia).
    pose proof (Z.div_mod (2 * (a * b) + precision) (2 * precision) ltac:(lia)) as E.
    pose proof (Z.mod_pos_bound (2 * (a * b) + precision) (2 * precision) Hp). lia.
  - intros a b Hb. pose proof (Z.quot_rem (a * precision) b Hb) as E. pose proof (Z.rem_bound_abs (a * precision) b Hb). lia.
Defined.

Lemma simulation_issues_supply_witness : ∃ ys, SimulateYears DefaultTokParams (mkSim 100 0 0 0) = Ok ys ∧ Z.of_nat (length ys) = 100.
Proof.
  destruct (simulation_issues_supply DefaultTokParams (mkSim 100 0 0 0) ltac:(cbn; lia) ltac:(cbn; lia) ltac:(cbn; lia) ltac:(cbn; lia)
    ltac:(vm_compute; reflexivity) ltac:(vm_compute; reflexivity)) as (ys & E & Hl & _).
  exists ys. exact (conj E Hl).
Defined.
End TokenWitness.
