(* ===== verification/Verifiers.v ===== *)
(** The bonding of verifiers, from [src/x/verifiers]: the table of bonds and its
    parameters, [BondCoins] and [UnbondCoins] of [keeper.go], the two messages of
    [msg_server.go] and the genesis import of [module.go]; the invariant of the
    table, that the module account covers the bonds, and what becomes of a bond
    that falls below the minimum. *)

From stdpp Require Import sorting.
From S2P Require Import Prelude JsBase GoBase Market MarketProofs GoSdk Tokenomics.

(** * Data *)

Definition VerifierStatusActive : Z := 1.

Record Verifier := mkVerifier { v_Address : gostr; v_Bond : Coin; v_Status : Z }.
Record BondParams := mkBondParams { bp_BondDenom : gostr; bp_MinBond : Z }.
Definition DefaultBondParams : BondParams := mkBondParams DefaultDenom 1.

(** The store of the module; absent parameters read as the default ones. *)
Record BondTable := mkBonds { bond_params : option BondParams; verifiers : gmap gostr Verifier }.

Record MsgBond := { mb_Verifier : gostr; mb_Denom : gostr; mb_Amount : gostr }.

Section Module.
Context `{GoEnv} `{!AddrText} {B : Type} `{BankKeeper B}.

Definition BondParams_Validate (p : BondParams) : result err unit :=
  first_error [
   ((blank (bp_BondDenom p)), Errorf "bond denom required");
   ((negb (ValidDenom (bp_BondDenom p))), Errorf "invalid bond denom");
   ((bp_MinBond p <? 0), Errorf "min bond must be >= 0")].

Definition ValidateVerifier (v : Verifier) (p : BondParams) : result err unit :=
  first_error [
   ((negb (addr_ok (v_Address v))), Errorf "invalid verifier address");
   ((negb (Coin_IsValid (v_Bond v))), Errorf "invalid bond coin");
   ((empty (c_Denom (v_Bond v))), Errorf "bond denom required");
   ((negb (bool_decide (c_Denom (v_Bond v) = bp_BondDenom p))), Errorf "bond denom must match");
   ((c_Amount (v_Bond v) <? 0), Errorf "bond amount must be >= 0");
   ((c_Amount (v_Bond v) <? bp_MinBond p), Errorf "bond below the minimum");
   ((negb (v_Status v =? VerifierStatusActive)), Errorf "invalid verifier status")].

(** * The keeper *)

Definition SetBondParams (p : BondParams) (t : BondTable) : result err BondTable :=
  BondParams_Validate p;; Ok (mkBonds (Some p) (verifiers t)).
Definition GetBondParams (t : BondTable) : BondParams := default DefaultBondParams (bond_params t).

Definition GetVerifier (addr : gostr) (t : BondTable) : option Verifier := verifiers t !! addr.
Definition SetVerifier (v : Verifier) (t : BondTable) : result err BondTable :=
  ValidateVerifier v (GetBondParams t);;
  Ok (mkBonds (bond_params t) (<[v_Address v := v]> (verifiers t))).
Definition ListVerifiers (t : BondTable) : list Verifier := values (verifiers t).

(** The coin as the keeper reads it: no denomination means that of the bonds. *)
Definition bond_coin (p : BondParams) (amount : Coin) : result err Coin :=
  if empty (c_Denom amount) then NewCoin (bp_BondDenom p) (c_Amount amount) else Ok amount.

Definition BondCoins (addr : list Z) (amount : Coin) (t : BondTable) (b : B) : result err (Verifier * BondTable * B) :=
  let p := GetBondParams t in
  amount ← bond_coin p amount;
  guard_err (negb (bool_decide (c_Denom amount = bp_BondDenom p))) (Errorf "bond denom must match");;
  guard_err (c_Amount amount <=? 0) (Errorf "bond amount must be positive");;
  match AccountToModule b addr verifiers_module (c_Denom amount) (c_Amount amount) with
  | None => Err (Errorf "bank transfer failed")
  | Some b =>
      existing ← match GetVerifier (AccString addr) t with
                 | Some v => Ok v
                 | None => zero ← NewCoin (bp_BondDenom p) 0; Ok (mkVerifier (AccString addr) zero VerifierStatusActive)
                 end;
      bond ← Coin_Add (v_Bond existing) amount;
      let existing := mkVerifier (v_Address existing) bond VerifierStatusActive in
      t ← SetVerifier existing t;
      Ok (existing, t, b)
  end.

Definition UnbondCoins (addr : list Z) (amount : Coin) (t : BondTable) (b : B) : result err (Verifier * BondTable * B) :=
  let p := GetBondParams t in
  amount ← bond_coin p amount;
  guard_err (negb (bool_decide (c_Denom amount = bp_BondDenom p))) (Errorf "bond denom must match");;
  guard_err (c_Amount amount <=? 0) (Errorf "unbond amount must be positive");;
  match GetVerifier (AccString addr) t with
  | None => Err (Errorf "verifier not bonded")
  | Some v =>
      guard_err (c_Amount (v_Bond v) <? c_Amount amount) (Errorf "insufficient bonded amount");;
      match ModuleToAccount b verifiers_module addr (c_Denom amount) (c_Amount amount) with
      | None => Err (Errorf "bank transfer failed")
      | Some b =>
          left ← Int_Sub (c_Amount (v_Bond v)) (c_Amount amount);
          bond ← NewCoin (bp_BondDenom p) left;
          if c_Amount bond <? bp_MinBond p then
            Ok (mkVerifier (v_Address v) bond (v_Status v), mkBonds (bond_params t) (delete (v_Address v) (verifiers t)), b)
          else
            let v := mkVerifier (v_Address v) bond VerifierStatusActive in
            t ← SetVerifier v t;
            Ok (v, t, b)
      end
  end.

(** * The messages *)

Definition MsgBond_ValidateBasic (m : MsgBond) : result err unit :=
  first_error [
   ((negb (addr_ok (TrimSpace (mb_Verifier m)))), Errorf "invalid verifier address");
   ((blank (mb_Denom m)), Errorf "denom required");
   ((blank (mb_Amount m)), Errorf "amount required")].

(** The two handlers differ in the keeper's function only. *)
Definition bond_message (f : list Z → Coin → BondTable → B → result err (Verifier * BondTable * B))
    (m : MsgBond) (t : BondTable) (b : B) : result err (Verifier * BondTable * B) :=
  match AccAddressFromBech32 (mb_Verifier m) with
  | None => Err (Errorf "invalid verifier")
  | Some addr =>
      match NewIntFromString (mb_Amount m) with
      | None => Err (Errorf "invalid amount")
      | Some amt => coin ← NewCoin (mb_Denom m) amt; f addr coin t b
      end
  end.
Definition Bond (m : MsgBond) (t : BondTable) (b : B) : result err (Verifier * BondTable * B) := bond_message BondCoins m t b.
Definition Unbond (m : MsgBond) (t : BondTable) (b : B) : result err (Verifier * BondTable * B) := bond_message UnbondCoins m t b.

(** * Genesis *)

Definition Bonds_Validate (p : BondParams) (vs : list Verifier) : result err unit :=
  BondParams_Validate p;;
  each (λ v seen, guard_err (bool_decide (v_Address v ∈ seen)) (Errorf "duplicate verifier");;
          ValidateVerifier v p;; Ok (v_Address v :: seen)) vs ([] : list gostr);;
  Ok tt.

Definition Bonds_InitGenesis (p : BondParams) (vs : list Verifier) (t : BondTable) : result err BondTable :=
  Bonds_Validate p vs;;
  t ← SetBondParams p t;
  each SetVerifier vs t.

Definition Bonds_ExportGenesis (t : BondTable) : BondParams * list Verifier := (GetBondParams t, ListVerifiers t).

(** * The invariant *)

Record bonds_inv (t : BondTable) : Prop := {
  bi_params p : bond_params t = Some p → BondParams_Validate p = Ok tt;
  bi_verifiers k v : verifiers t !! k = Some v → v_Address v = k ∧ ValidateVerifier v (GetBondParams t) = Ok tt;
  bi_range k v : verifiers t !! k = Some v → int256 (c_Amount (v_Bond v)) }.

(** What is bonded in [d], over all verifiers. *)
Definition bond_in (d : gostr) (v : Verifier) : Z := if decide (c_Denom (v_Bond v) = d) then c_Amount (v_Bond v) else 0.
Definition bonded (d : gostr) (t : BondTable) : Z := sum_over (bond_in d) (verifiers t).

(** The stake of one address. *)
Definition stake (t : BondTable) (a : gostr) : Z := match verifiers t !! a with Some v => c_Amount (v_Bond v) | None => 0 end.

Lemma valid_verifier v p : ValidateVerifier v p = Ok tt →
  addr_ok (v_Address v) = true ∧ ValidDenom (bp_BondDenom p) = true ∧ c_Denom (v_Bond v) = bp_BondDenom p ∧
  0 ≤ c_Amount (v_Bond v) ∧ bp_MinBond p ≤ c_Amount (v_Bond v) ∧ v_Status v = VerifierStatusActive.
Proof.
  unfold ValidateVerifier, Coin_IsValid. intros Hv. apply first_error_ok in Hv. repeat (apply Forall_cons_1 in Hv as [? Hv]). cbn in *. zb.
  match goal with H : bool_decide _ = true |- _ => apply bool_decide_eq_true in H as Hd end. rewrite <- Hd. done.
Qed.

Lemma valid_verifier_intro a n p : addr_ok a = true → ValidDenom (bp_BondDenom p) = true → bp_BondDenom p ≠ [] → 0 ≤ n → bp_MinBond p ≤ n →
  ValidateVerifier (mkVerifier a (mkCoin (bp_BondDenom p) n) VerifierStatusActive) p = Ok tt.
Proof.
  intros Ha Hd Hne Hn Hm. unfold ValidateVerifier, Coin_IsValid. apply first_error_ok. cbn. rewrite Ha, Hd, bool_decide_true by done.
  repeat constructor; cbn; try apply Z.ltb_ge; try done; [|by destruct (bp_BondDenom p)]. by destruct (Z.leb_spec 0 n); [|lia].
Qed.

Lemma SetVerifier_Ok v t t' : SetVerifier v t = Ok t' →
  ValidateVerifier v (GetBondParams t) = Ok tt ∧ t' = mkBonds (bond_params t) (<[v_Address v := v]> (verifiers t)).
Proof. intros HS. unfold SetVerifier in HS. run_ok HS. destruct r. by injection HS as <-. Qed.

Lemma bonds_inv_set v t : bonds_inv t → ValidateVerifier v (GetBondParams t) = Ok tt → int256 (c_Amount (v_Bond v)) →
  bonds_inv (mkBonds (bond_params t) (<[v_Address v := v]> (verifiers t))).
Proof.
  intros [Hp Hv Hn] Hok Hr. split; [done|..]; cbn; intros k w [[<- <-]|[_ Hw]]%lookup_insert_Some; [done|by apply Hv|done|by eapply Hn].
Qed.

Lemma bonds_inv_delete k t : bonds_inv t → bonds_inv (mkBonds (bond_params t) (delete k (verifiers t))).
Proof. intros [Hp Hv Hn]. split; [done|..]; cbn; intros k' w [_ Hw]%lookup_delete_Some; [by apply Hv|by eapply Hn]. Qed.

(** ** What a bond and an unbond do *)

Lemma bond_coin_Ok p c c' : bond_coin p c = Ok c' → c_Amount c' = c_Amount c.
Proof. unfold bond_coin. destruct (empty _); [|by intros [= ->]]. by intros (-> & _)%NewCoin_Ok. Qed.

(** [n] coins of the bond denomination move from the account to the module, and
    into the stake. *)
Record bonds (addr : list Z) (n : Z) (t : BondTable) (b : B) (t' : BondTable) (b' : B) : Prop := {
  bo_pos : 0 < n;
  bo_send : AccountToModule b addr verifiers_module (bp_BondDenom (GetBondParams t)) n = Some b';
  bo_params : bond_params t' = bond_params t;
  bo_table : verifiers t' = <[AccString addr := mkVerifier (AccString addr)
    (mkCoin (bp_BondDenom (GetBondParams t)) (stake t (AccString addr) + n)) VerifierStatusActive]> (verifiers t);
  bo_valid : bonds_inv t' }.

Lemma BondCoins_Ok addr c t b v t' b' : bonds_inv t → BondCoins addr c t b = Ok (v, t', b') →
  bonds addr (c_Amount c) t b t' b' ∧ verifiers t' !! AccString addr = Some v.
Proof.
  intros Hi HB. unfold BondCoins in HB. apply bind_Ok_inv in HB as (c' & Ec & HB). apply bond_coin_Ok in Ec. rewrite <- Ec. clear Ec c.
  run_ok HB. guards. zb. injection HB as <- <- <-. case_bool_decide as Hd; [|done].
  assert (v_Address r1 = AccString addr ∧ c_Denom (v_Bond r1) = bp_BondDenom (GetBondParams t) ∧
    c_Amount (v_Bond r1) = stake t (AccString addr)) as (Ha & Hdn & Hn).
  { unfold stake. unfold GetVerifier in *. destruct (verifiers t !! AccString addr) as [x|] eqn:Hx.
    - match goal with E : Ok _ = Ok _ |- _ => injection E as -> end. destruct (bi_verifiers t Hi _ _ Hx) as [-> Hv].
      apply valid_verifier in Hv as (_ & _ & -> & _). done.
    - match goal with E : mbind _ _ = Ok r1 |- _ => apply bind_Ok_inv in E as (z & (-> & _)%NewCoin_Ok & [= <-]) end. done. }
  match goal with E : Coin_Add _ _ = Ok _ |- _ => apply Coin_Add_Ok in E as (_ & -> & Hr) end.
  match goal with E : SetVerifier _ _ = Ok _ |- _ => apply SetVerifier_Ok in E as [Hv ->] end.
  rewrite Ha, Hdn, Hn in *. split; [|cbn; apply lookup_insert_eq]. split; cbn; try done; [by rewrite <- Hd|].
  by apply (bonds_inv_set (mkVerifier _ _ _)).
Qed.

(** [n] coins move back; the rest stays bonded unless it is below the minimum. *)
Record unbonds (addr : list Z) (n : Z) (t : BondTable) (b : B) (t' : BondTable) (b' : B) : Prop := {
  ub_pos : 0 < n ≤ stake t (AccString addr);
  ub_send : ModuleToAccount b verifiers_module addr (bp_BondDenom (GetBondParams t)) n = Some b';
  ub_params : bond_params t' = bond_params t;
  ub_table : let rest := stake t (AccString addr) - n in
    verifiers t' = if rest <? bp_MinBond (GetBondParams t) then delete (AccString addr) (verifiers t)
      else <[AccString addr := mkVerifier (AccString addr) (mkCoin (bp_BondDenom (GetBondParams t)) rest) VerifierStatusActive]> (verifiers t);
  ub_was : is_Some (verifiers t !! AccString addr);
  ub_valid : bonds_inv t' }.

Lemma UnbondCoins_Ok addr c t b v t' b' : bonds_inv t → UnbondCoins addr c t b = Ok (v, t', b') →
  unbonds addr (c_Amount c) t b t' b'.
Proof.
  intros Hi HB. unfold UnbondCoins in HB. apply bind_Ok_inv in HB as (c' & Ec & HB). apply bond_coin_Ok in Ec. rewrite <- Ec. clear Ec c.
  run_ok HB; guards; zb; case_bool_decide as Hd; try done; int_ops; unfold GetVerifier in *;
    match goal with E : verifiers t !! _ = Some ?x |- _ => destruct (bi_verifiers t Hi _ _ E) as [Ha Hv]; rename E into Hx;
      assert (stake t (AccString addr) = c_Amount (v_Bond x)) as Hs by (unfold stake; by rewrite Hx) end;
    match goal with E : NewCoin _ _ = Ok _ |- _ => apply NewCoin_Ok in E as (-> & _ & _) end; cbn [c_Amount c_Denom] in *.
  - injection HB as <- <- <-. split; cbn; rewrite ?Hs; try done; [by rewrite <- Hd| |by apply bonds_inv_delete].
    destruct (Z.ltb_spec (c_Amount (v_Bond v0) - c_Amount c') (bp_MinBond (GetBondParams t))); [|lia]. by rewrite Ha.
  - match goal with E : SetVerifier _ _ = Ok _ |- _ => apply SetVerifier_Ok in E as [Hv' ->] end. injection HB as <- <- <-.
    split; cbn; rewrite ?Hs; try done; [by rewrite <- Hd| |apply (bonds_inv_set (mkVerifier _ _ _)); [done..|]].
    2: { eapply int256_le; [|by eapply (bi_range t Hi)]. cbn. lia. }
    destruct (Z.ltb_spec (c_Amount (v_Bond v0) - c_Amount c') (bp_MinBond (GetBondParams t))); [lia|]. by rewrite Ha.
Qed.

Lemma Bond_Ok m t b v t' b' : bonds_inv t → Bond m t b = Ok (v, t', b') →
  ∃ addr n, AccAddressFromBech32 (mb_Verifier m) = Some addr ∧ NewIntFromString (mb_Amount m) = Some n ∧ bonds addr n t b t' b' ∧
    verifiers t' !! AccString addr = Some v.
Proof.
  intros Hi HB. unfold Bond, bond_message in HB. run_ok HB. exists l, z. split_and!; try done;
  match goal with E : NewCoin _ _ = Ok _ |- _ => apply NewCoin_Ok in E as (-> & _) end; by apply BondCoins_Ok in HB as [? ?].
Qed.

Lemma Unbond_Ok m t b v t' b' : bonds_inv t → Unbond m t b = Ok (v, t', b') →
  ∃ addr n, AccAddressFromBech32 (mb_Verifier m) = Some addr ∧ NewIntFromString (mb_Amount m) = Some n ∧ unbonds addr n t b t' b'.
Proof.
  intros Hi HB. unfold Unbond, bond_message in HB. run_ok HB. exists l, z. split_and!; try done.
  match goal with E : NewCoin _ _ = Ok _ |- _ => apply NewCoin_Ok in E as (-> & _) end. by apply UnbondCoins_Ok in HB.
Qed.
(** ** The module account covers the bonds *)

(** What the module account holds beyond the bonds. *)
Definition slack (d : gostr) (t : BondTable) (b : B) : Z := mod_bal b verifiers_module d - bonded d t.

Lemma bonded_insert d t k v : bonds_inv t → c_Denom (v_Bond v) = bp_BondDenom (GetBondParams t) →
  sum_over (bond_in d) (<[k := v]> (verifiers t)) =
    bonded d t + if decide (bp_BondDenom (GetBondParams t) = d) then c_Amount (v_Bond v) - stake t k else 0.
Proof.
  intros Hi Hd. unfold bonded, stake. destruct (verifiers t !! k) as [w|] eqn:Hk.
  - rewrite (sum_over_replace _ _ _ _ w) by done. destruct (bi_verifiers t Hi _ _ Hk) as [_ (_ & _ & Hw & _)%valid_verifier].
    unfold bond_in. rewrite Hd, Hw. case_decide; lia.
  - rewrite sum_over_fresh by done. unfold bond_in at 1. rewrite Hd. case_decide; lia.
Qed.

Lemma bonded_delete d t k : bonds_inv t → is_Some (verifiers t !! k) →
  sum_over (bond_in d) (delete k (verifiers t)) = bonded d t - if decide (bp_BondDenom (GetBondParams t) = d) then stake t k else 0.
Proof.
  intros Hi [w Hk]. unfold bonded, stake. rewrite Hk. destruct (bi_verifiers t Hi _ _ Hk) as [_ (_ & _ & Hw & _)%valid_verifier].
  rewrite <- (insert_delete_id (verifiers t) k w) at 2 by done. rewrite sum_over_fresh by apply lookup_delete_eq.
  unfold bond_in at 2. rewrite Hw. case_decide; lia.
Qed.

Lemma bonds_slack addr n t b t' b' d : bonds_inv t → bonds addr n t b t' b' → slack d t' b' = slack d t b.
Proof.
  intros Hi [Hn Hs Hp Ht _]. destruct (AccountToModule_spec _ _ _ _ _ _ Hn Hs) as (_ & Hm & _).
  unfold slack. rewrite Hm. unfold bonded at 1. rewrite Ht, bonded_insert by done. cbn.
  repeat case_decide; destruct_and?; simplify_eq; try lia; tauto.
Qed.

(** What an unbond leaves behind. *)
Definition residue (addr : list Z) (n : Z) (t : BondTable) : Z :=
  let rest := stake t (AccString addr) - n in if rest <? bp_MinBond (GetBondParams t) then rest else 0.

Lemma unbonds_slack addr n t b t' b' d : bonds_inv t → unbonds addr n t b t' b' →
  slack d t' b' = slack d t b + if decide (bp_BondDenom (GetBondParams t) = d) then residue addr n t else 0.
Proof.
  intros Hi [Hn Hs Hp Ht Hwas _]. destruct (ModuleToAccount_spec _ _ _ _ _ _ (proj1 Hn) Hs) as (_ & Hm & _).
  unfold slack, residue. rewrite Hm. unfold bonded at 1. cbv zeta in Ht |- *. rewrite Ht. destruct (_ <? _).
  - rewrite bonded_delete by done. repeat case_decide; destruct_and?; simplify_eq; try lia; tauto.
  - rewrite bonded_insert by done. cbn. repeat case_decide; destruct_and?; simplify_eq; try lia; tauto.
Qed.

Lemma residue_nonneg addr n t : n ≤ stake t (AccString addr) → 0 ≤ residue addr n t.
Proof. unfold residue. intros Hn. cbv zeta. destruct (_ <? _); lia. Qed.

(** ** An unbond goes through *)

Lemma coin_eta c : mkCoin (c_Denom c) (c_Amount c) = c.
Proof. by destruct c. Qed.

(** What is bonded covers each bond. *)
Lemma bonded_covers t k v : bonds_inv t → verifiers t !! k = Some v → c_Amount (v_Bond v) ≤ bonded (bp_BondDenom (GetBondParams t)) t.
Proof.
  intros Hi Hv. destruct (bi_verifiers t Hi _ _ Hv) as [_ (_ & _ & Hd & _)%valid_verifier]. unfold bonded.
  trans (bond_in (bp_BondDenom (GetBondParams t)) v); [unfold bond_in; by rewrite decide_True|]. apply (sum_over_ge _ _ k); [|done].
  intros k' w Hw. destruct (bi_verifiers t Hi _ _ Hw) as [_ (_ & _ & _ & ? & _)%valid_verifier]. unfold bond_in. case_decide; lia.
Qed.

Lemma UnbondCoins_total addr n t b v : bonds_inv t → verifiers t !! AccString addr = Some v →
  0 < n ≤ c_Amount (v_Bond v) → c_Amount (v_Bond v) ≤ mod_bal b verifiers_module (bp_BondDenom (GetBondParams t)) →
  blockedAddr addr = false →
  ∃ w t' b', UnbondCoins addr (mkCoin (bp_BondDenom (GetBondParams t)) n) t b = Ok (w, t', b').
Proof.
  intros Hi Hv Hn Hm Hb. destruct (bi_verifiers t Hi _ _ Hv) as [Ha Hok]. pose proof (bi_range t Hi _ _ Hv) as Hr.
  destruct (valid_verifier _ _ Hok) as (Hao & Hd & Hde & Hge & Hmin & Hst).
  assert (bp_BondDenom (GetBondParams t) ≠ []) as Hne.
  { pose proof (bi_params t Hi) as Hp. unfold GetBondParams. destruct (bond_params t) as [q|]; [|done]. specialize (Hp q eq_refl).
    unfold BondParams_Validate in Hp. apply first_error_ok, Forall_cons_1 in Hp as [Hp _]. cbn in Hp |- *. intros E. by rewrite E in Hp. }
  unfold UnbondCoins, bond_coin. cbn [c_Denom c_Amount]. destruct (bp_BondDenom (GetBondParams t)) as [|x r] eqn:Ed; [done|].
  cbn [empty mbind result_bind]. cbn [c_Denom c_Amount]. rewrite guard_pass by (by rewrite bool_decide_true).
  rewrite guard_pass by (apply Z.leb_gt; lia). unfold GetVerifier. rewrite Hv. rewrite guard_pass by (apply Z.ltb_ge; lia).
  destruct (ModuleToAccount_ok b verifiers_module addr (x :: r) n) as [b' ->]; [lia|done|].
  unfold Int_Sub. rewrite chk_in by (unfold int256 in *; lia). cbn [mbind result_bind]. rewrite NewCoin_in by (done || lia). cbn [mbind result_bind c_Amount].
  destruct (Z.ltb_spec (c_Amount (v_Bond v) - n) (bp_MinBond (GetBondParams t))); [eauto|].
  unfold SetVerifier. rewrite <- Ed, valid_verifier_intro; [cbn; eauto|done|by rewrite Ed|by rewrite Ed|lia|lia].
Qed.

(** ** Genesis *)

Lemma Bonds_InitGenesis_inv p vs t t' : verifiers t = ∅ → Forall (λ v, int256 (c_Amount (v_Bond v))) vs → Bonds_InitGenesis p vs t = Ok t' → bonds_inv t' ∧ GetBondParams t' = p.
Proof.
  intros He Hf HG. rewrite list.Forall_forall in Hf. unfold Bonds_InitGenesis in HG. run_ok HG.
  match goal with E : SetBondParams _ _ = Ok _ |- _ => unfold SetBondParams in E; run_ok E; injection E as <- end.
  match goal with E : BondParams_Validate p = Ok ?u |- _ => destruct u end.
  eapply (each_ind (λ s, bonds_inv s ∧ GetBondParams s = p)); [| |exact HG].
  - intros v s s' Hin [Hi Hs] HS. apply SetVerifier_Ok in HS as [Hv ->]. split; [apply bonds_inv_set; auto|done].
  - split; [|done]. split; [by intros q [= <-]|..]; cbn; rewrite He; by intros ? ? ?%lookup_empty_Some.
Qed.
End Module.
#[global] Arguments ValidateVerifier : simpl never.
#[global] Arguments BondParams_Validate : simpl never.
