(* ===== verification/Nodes.v ===== *)
(** The registry of nodes, from [src/x/nodes]: the records and their checks
    ([types.go]), the in-memory keeper ([keeper.go]) and the genesis hooks of the
    module ([module.go]).  A Go [map] has no order: what ranges over one is given
    the order as an argument, and the theorems hold for every order. *)

From S2P Require Import Prelude JsBase GoBase Market.

Module Nodes.

(** * Data *)

(** A status is a 32-bit integer; three of its values have names. *)
Abbreviation NodeStatus := Z.
Definition NodeStatusPending : NodeStatus := 0.
Definition NodeStatusActive : NodeStatus := 1.
Definition NodeStatusJailed : NodeStatus := 2.

(** [%d] of a 32-bit integer. *)
Definition print_int (z : Z) : gostr := if z <? 0 then go "-" ++ dec_print (- z) else dec_print z.
Definition NodeStatus_String (s : NodeStatus) : gostr :=
  if s =? NodeStatusPending then go "PENDING"
  else if s =? NodeStatusActive then go "ACTIVE"
  else if s =? NodeStatusJailed then go "JAILED"
  else go "UNKNOWN(" ++ print_int s ++ go ")".

Record Node := mkNode { n_Operator : gostr; n_Stake : Z; n_Endpoint : gostr; n_Status : NodeStatus }.
Record Params := mkNodeParams { MinStake : Z; MaxEndpointLength : Z }.
Definition DefaultParams : Params := mkNodeParams 1000000 256.

Definition Validate (p : Params) : result err unit :=
  guard_err (MinStake p =? 0) (Errorf "min stake must be positive");;
  guard_err (MaxEndpointLength p <=? 0) (Errorf "max endpoint length must be positive").

Section Operations.
Context `{GoEnv}.

Definition ValidateNode (n : Node) (p : Params) : result err unit :=
  first_error [
    (empty (n_Operator n), Errorf "operator address required");
    (n_Stake n <? MinStake p, Errorf "insufficient stake");
    ((n_Status n <? NodeStatusPending) || (NodeStatusJailed <? n_Status n), Errorf "invalid status");
    (MaxEndpointLength p <? Z.of_nat (length (n_Endpoint n)), Errorf "endpoint too long");
    (negb (empty (n_Endpoint n)) && negb (ParseRequestURI (n_Endpoint n)), Errorf "invalid endpoint url")].

(** ** Genesis *)

Record GenesisState := mkNodeGenesis { ng_Params : Params; ng_Nodes : list Node }.
Definition DefaultGenesis : GenesisState := mkNodeGenesis DefaultParams [].

(** The loop of [Validate]: the state is the set of operators seen. *)
Definition check_node (p : Params) (n : Node) (seen : list gostr) : result err (list gostr) :=
  ValidateNode n p;;
  guard_err (bool_decide (n_Operator n ∈ seen)) (Errorf "duplicate operator in genesis");;
  Ok (n_Operator n :: seen).
Definition NodeGenesis_Validate (gs : GenesisState) : result err unit :=
  Validate (ng_Params gs);;
  _ ← each (check_node (ng_Params gs)) (ng_Nodes gs) [];
  Ok tt.

(** ** The keeper *)

Record Keeper := mkKeeper { k_params : Params; k_nodes : gmap gostr Node }.

Definition NewKeeper (p : Params) : result err Keeper := Validate p;; Ok (mkKeeper p ∅).
Definition UpsertNode (n : Node) (k : Keeper) : result err Keeper :=
  ValidateNode n (k_params k);;
  Ok (mkKeeper (k_params k) (<[n_Operator n := n]> (k_nodes k))).
Definition with_stake (stake : Z) (n : Node) : Node := mkNode (n_Operator n) stake (n_Endpoint n) (n_Status n).
Definition UpdateStake (operator : gostr) (stake : Z) (k : Keeper) : result err Keeper :=
  match k_nodes k !! operator with
  | None => Err (Errorf "node not found")
  | Some n => UpsertNode (with_stake stake n) k
  end.
Definition with_node_status (st : NodeStatus) (n : Node) : Node := mkNode (n_Operator n) (n_Stake n) (n_Endpoint n) st.
Definition SetStatus (operator : gostr) (st : NodeStatus) (k : Keeper) : result err Keeper :=
  match k_nodes k !! operator with
  | None => Err (Errorf "node not found")
  | Some n => UpsertNode (with_node_status st n) k
  end.
Definition GetNode (operator : gostr) (k : Keeper) : option Node := k_nodes k !! operator.

(** [range k.nodes] visits the entries in some order [visit]. *)
Definition ListNodes (visit : gmap gostr Node → list (gostr * Node)) (k : Keeper) : list Node := snd <$> visit (k_nodes k).

(** ** The module's hooks *)

(** The data is the genesis after [json.Unmarshal], or [None] when there is none.
    The hook checks it and keeps nothing of it; the export is a constant. *)
Definition genesis_or_default (data : option GenesisState) : GenesisState := default DefaultGenesis data.
Definition Module_InitGenesis (data : option GenesisState) : result err unit :=
  match NodeGenesis_Validate (genesis_or_default data) with Ok u => Ok u | Err _ => Err Panic end.
Definition Module_ExportGenesis : GenesisState := DefaultGenesis.
End Operations.

(** * Histories *)

#[local] Arguments ValidateNode : simpl never.

Inductive call : Type :=
| CUpsert (n : Node)
| CStake (operator : gostr) (stake : Z)
| CStatus (operator : gostr) (st : NodeStatus).

Section Histories.
Context `{GoEnv}.

Definition perform (c : call) (k : Keeper) : result err Keeper :=
  match c with
  | CUpsert n => UpsertNode n k
  | CStake o st => UpdateStake o st k
  | CStatus o st => SetStatus o st k
  end.
Definition attempt (k : Keeper) (c : call) : Keeper := match perform c k with Ok k' => k' | Err _ => k end.
Definition calls (cs : list call) (k : Keeper) : Keeper := foldl attempt k cs.

(** ** A node that may be stored *)

Record node_ok (p : Params) (n : Node) : Prop := {
  no_operator : n_Operator n ≠ [];
  no_stake : MinStake p ≤ n_Stake n;
  no_status : n_Status n = NodeStatusPending ∨ n_Status n = NodeStatusActive ∨ n_Status n = NodeStatusJailed;
  no_length : Z.of_nat (length (n_Endpoint n)) ≤ MaxEndpointLength p;
  no_url : n_Endpoint n = [] ∨ ParseRequestURI (n_Endpoint n) = true }.

Lemma ValidateNode_spec n p : (∃ u, ValidateNode n p = Ok u) ↔ node_ok p n.
Proof.
  unfold ValidateNode. split.
  - intros [u Hu]. apply first_error_ok in Hu. repeat (apply Forall_cons_1 in Hu as [? Hu]). cbn in *. zb.
    unfold NodeStatusPending, NodeStatusJailed in *. constructor; unfold NodeStatusPending, NodeStatusActive, NodeStatusJailed.
    + by destruct (n_Operator n).
    + lia.
    + lia.
    + lia.
    + destruct (n_Endpoint n); [by left|]. right. by destruct (ParseRequestURI _).
  - intros [Ho Hs Ht Hl Hp]. exists tt. apply first_error_ok. unfold NodeStatusPending, NodeStatusActive, NodeStatusJailed in *.
    repeat (constructor; cbn).
    + by destruct (n_Operator n).
    + by apply Z.ltb_ge.
    + apply orb_false_iff. rewrite !Z.ltb_ge. lia.
    + apply Z.ltb_ge. lia.
    + destruct Hp as [-> | ->]; [done|]. by rewrite andb_false_r.
Qed.

(** The books of the keeper: a record is valid and is filed under its operator. *)
Record books (k : Keeper) : Prop := {
  bk_params : 0 ≠ MinStake (k_params k) ∧ 0 < MaxEndpointLength (k_params k);
  bk_nodes : map_Forall (λ o n, n_Operator n = o ∧ node_ok (k_params k) n) (k_nodes k) }.

Lemma NewKeeper_books p k : NewKeeper p = Ok k → books k ∧ k_params k = p ∧ k_nodes k = ∅.
Proof.
  unfold NewKeeper, Validate. intros ([] & Hv & [= <-])%bind_Ok_inv.
  apply bind_Ok_inv in Hv as ([] & H1'%guard_err_Ok_inv & H2'%guard_err_Ok_inv). zb.
  split; [|done]. split; cbn; [lia|]. apply map_Forall_empty.
Qed.

(** What a call does: it files one valid node under its operator, or fails. *)
Definition writes (c : call) (k : Keeper) : option Node :=
  match c with
  | CUpsert n => Some n
  | CStake o st => with_stake st <$> k_nodes k !! o
  | CStatus o st => with_node_status st <$> k_nodes k !! o
  end.

Lemma perform_spec c k : perform c k =
  match writes c k with
  | None => Err (Errorf "node not found")
  | Some n => match ValidateNode n (k_params k) with
              | Ok _ => Ok (mkKeeper (k_params k) (<[n_Operator n := n]> (k_nodes k)))
              | Err e => Err e
              end
  end.
Proof.
  destruct c as [n|o st|o st]; cbn; unfold UpdateStake, SetStatus, UpsertNode; [|destruct (k_nodes k !! o); cbn; [|done]..];
    by destruct (ValidateNode _ _).
Qed.

Lemma perform_books c k k' : books k → perform c k = Ok k' → books k' ∧ k_params k' = k_params k.
Proof.
  intros [Hp Hn]. rewrite perform_spec. destruct (writes c k) as [n|]; [|done].
  destruct (ValidateNode n (k_params k)) eqn:E; [|done]. intros [= <-]. split; [|done]. split; cbn; [done|].
  apply map_Forall_insert_2; [|done]. split; [done|]. apply ValidateNode_spec. eauto.
Qed.

Lemma calls_books cs k : books k → books (calls cs k) ∧ k_params (calls cs k) = k_params k.
Proof.
  revert k. induction cs as [|c cs IH]; intros k Hk; cbn; [done|].
  assert (books (attempt k c) ∧ k_params (attempt k c) = k_params k) as [Hk' <-].
  { unfold attempt. destruct (perform c k) eqn:E; [|done]. by eapply perform_books. }
  by apply IH.
Qed.

(** ** The genesis check *)

Lemma check_nodes_spec p l seen :
  (∃ r, each (check_node p) l seen = Ok r) ↔
  Forall (node_ok p) l ∧ NoDup (n_Operator <$> l) ∧ Forall (λ n, n_Operator n ∉ seen) l.
Proof.
  revert seen. induction l as [|n l IH]; intros seen.
  - split; [|by eexists]. intros _. cbn. repeat split; constructor.
  - cbn [each].
    change (check_node p n seen) with (ValidateNode n p;; guard_err (bool_decide (n_Operator n ∈ seen)) (Errorf "duplicate operator in genesis");;
      Ok (n_Operator n :: seen)).
    rewrite list.Forall_cons, fmap_cons, list.NoDup_cons, list.Forall_cons, <- ValidateNode_spec.
    destruct (ValidateNode n p) as [[]|e]; cbn [mbind result_bind].
    2: { split; [by intros [? ?]|]. intros [[[? Hu] _] _]. discriminate Hu. }
    destruct (bool_decide_reflect (n_Operator n ∈ seen)) as [Hs|Hs]; cbn [guard_err mbind result_bind].
    { split; [by intros [? ?]|]. intros (_ & _ & [Hu _]). done. }
    rewrite IH. split.
    + intros (Ha & Hd & Hf). rewrite list.Forall_forall in Hf. split_and!; try done; [by exists ()| |].
      * intros (m & E & Hm)%list_elem_of_fmap. apply (Hf m Hm). rewrite E. by left.
      * apply list.Forall_forall. intros m Hm. intros E. apply (Hf m Hm). by right.
    + intros ([_ Ha] & [Hi Hd] & _ & Hf). rewrite list.Forall_forall in Hf. split_and!; [done..|].
      apply list.Forall_forall. intros m Hm. rewrite not_elem_of_cons. split; [|by apply Hf].
      intros E. apply Hi. rewrite <- E. by apply list_elem_of_fmap_2.
Qed.

Lemma NodeGenesis_Validate_spec gs : NodeGenesis_Validate gs = Ok tt ↔
  (MinStake (ng_Params gs) ≠ 0 ∧ 0 < MaxEndpointLength (ng_Params gs)) ∧
  Forall (node_ok (ng_Params gs)) (ng_Nodes gs) ∧ NoDup (n_Operator <$> ng_Nodes gs).
Proof.
  unfold NodeGenesis_Validate, Validate, guard_err.
  destruct (Z.eqb_spec (MinStake (ng_Params gs)) 0); cbn [mbind result_bind]; [by split; [|intros [[? _] _]]|].
  destruct (Z.leb_spec (MaxEndpointLength (ng_Params gs)) 0); cbn [mbind result_bind]; [split; [done|lia]|].
  pose proof (check_nodes_spec (ng_Params gs) (ng_Nodes gs) []) as [Hf Hb].
  destruct (each _ _ _) as [r|e]; cbn [mbind result_bind].
  - split; [|done]. intros _. destruct Hf as (? & ? & _); [by eexists|]. done.
  - split; [done|]. intros (_ & Ha & Hd). destruct Hb as [? ?]; [|done]. split_and!; [done..|].
    apply list.Forall_forall. intros m _. set_solver.
Qed.

(** ** Listing and filing again *)

(** Whatever the order of a visit, it meets every entry once. *)
Definition visits (visit : gmap gostr Node → list (gostr * Node)) : Prop := ∀ m, visit m ≡ₚ map_to_list m.

Lemma ListNodes_operators visit k : visits visit → books k → n_Operator <$> ListNodes visit k ≡ₚ (map_to_list (k_nodes k)).*1.
Proof.
  intros Hv [_ Hk]. unfold ListNodes. rewrite <- list_fmap_compose, (Hv (k_nodes k)). apply reflexive_eq, list_fmap_ext.
  intros i [o n] Hi. apply list_elem_of_lookup_2, elem_of_map_to_list in Hi. by destruct (Hk _ _ Hi).
Qed.

Lemma ListNodes_elem visit k n : visits visit → books k → n ∈ ListNodes visit k ↔ GetNode (n_Operator n) k = Some n.
Proof.
  intros Hv [_ Hk]. unfold ListNodes, GetNode. rewrite list_elem_of_fmap. split.
  - intros ([o m] & -> & Hm). rewrite (Hv (k_nodes k)) in Hm. apply elem_of_map_to_list in Hm. destruct (Hk _ _ Hm) as [E _]. cbn. by rewrite E.
  - intros Hn. exists (n_Operator n, n). split; [done|]. by rewrite (Hv (k_nodes k)), elem_of_map_to_list.
Qed.

Lemma upsert_all p l m : Forall (node_ok p) l → NoDup (n_Operator <$> l) →
  calls (CUpsert <$> l) (mkKeeper p m) = mkKeeper p (list_to_map ((λ n, (n_Operator n, n)) <$> l) ∪ m).
Proof.
  revert m. induction l as [|n l IH]; intros m Hl Hd; cbn; [by rewrite (left_id_L ∅ (∪))|].
  apply Forall_cons_1 in Hl as [[u Hn]%ValidateNode_spec Hl]. apply list.NoDup_cons in Hd as [Hi Hd].
  assert (attempt (mkKeeper p m) (CUpsert n) = mkKeeper p (<[n_Operator n := n]> m)) as ->.
  { unfold attempt. rewrite perform_spec. cbn [writes k_params]. by rewrite Hn. }
  unfold calls in IH. rewrite IH by done. f_equal. rewrite <- insert_union_r, insert_union_l; [done|].
  apply not_elem_of_list_to_map_1. rewrite <- list_fmap_compose. by rewrite list_fmap_ext with (g := n_Operator).
Qed.
End Histories.
End Nodes.
