(* ===== verification/RegParams.v ===== *)
(** The parameters of the registry module, from [src/x/registry/types.go]: the
    record, its defaults, its checks, the effective values the module reads, the
    emission of a round, and the strict drand upgrade. *)

From S2P Require Import Prelude JsBase GoBase GoHash Market MarketProofs GoSdk Tokenomics.

(** * Data *)

Definition DefaultDrandSchemeID : gostr := go "bls-unchained-g1-rfc9380".
Definition DefaultDrandChainHash : gostr := go "52db9ba70e0cc0f6eaf7803dd07447a1f5477735fd3f661792ba94600c84e971".
Definition DefaultDrandPublicKeyHex : gostr := go "83cf0f2896adee7eb8b5f01fcad3912212c437e0073e911fb90022d3e760183c8c4b450b6a0a6c3ac6a5776a2d1064510d1fec758c921cc22b0e17e63aaf4bcb5ed66304de9cf809bd274ca73bab4af5a6e9c76a4bc09e76eae8991ef5ece45a".
Definition DefaultDrandGenesisTimeUnix : Z := 1692803367.
Definition DefaultDrandPeriodSeconds : Z := 3.
Definition DefaultDrandRoundOffsetSec : Z := 60.

Record PublisherScoreWeights := mkScoreWeights { sw_Availability : Z; sw_Engagement : Z; sw_Freshness : Z }.
Record PublisherRewardSplit := mkRewardSplit { rw_PublisherShare : Z; rw_VerifierShare : Z; rw_ProtocolShare : Z }.
Record VerifierRewardWeights := mkVerifierWeights { vw_Accuracy : Z; vw_Coverage : Z; vw_Latency : Z; vw_Freshness : Z }.

Record PublisherParams := mkParams {
  p_VerifierBond : Z; p_VerificationTTL : Z; p_MinVerifierCount : Z; p_MinPublisherScore : Z; p_MinVerifierScore : Z;
  p_RewardWeights : PublisherScoreWeights; p_RewardSplit : PublisherRewardSplit; p_VerifierWeights : VerifierRewardWeights;
  p_CommitWindowSeconds : Z; p_SubmissionWindowSeconds : Z; p_RoundIntervalSeconds : Z; p_AssignmentDelayMaxSeconds : Z;
  p_CooldownBaseSeconds : Z; p_PublisherVerificationReward : Z; p_VerifierVerificationReward : Z;
  p_VerifierRewardBaseShareBps : Z; p_RequiredExternalLinksForFullReward : Z; p_PublisherMinRewardBps : Z;
  p_EmissionTotalSupply : Z; p_OperatorReserveBps : Z; p_PublisherEmissionBps : Z; p_VerifierEmissionBps : Z;
  p_EmissionDurationHours : Z; p_PublisherRevokeFailureThreshold : Z; p_VerifierPenaltySuspendThreshold : Z;
  p_VerifierPenaltySuspendRounds : Z; p_DrandEnabled : bool; p_DrandStrictMode : bool; p_DrandSchemeID : gostr;
  p_DrandPublicKeyHex : gostr; p_DrandChainHash : gostr; p_DrandGenesisTimeUnix : Z; p_DrandPeriodSeconds : Z;
  p_DrandRoundOffsetSeconds : Z }.

Definition DefaultPublisherParams : PublisherParams := {|
  p_VerifierBond := 50000000; p_VerificationTTL := 2000; p_MinVerifierCount := 3;
  p_MinPublisherScore := hundredths 55; p_MinVerifierScore := hundredths 40;
  p_RewardWeights := mkScoreWeights (hundredths 50) (hundredths 30) (hundredths 20);
  p_RewardSplit := mkRewardSplit (hundredths 70) (hundredths 25) (hundredths 5);
  p_VerifierWeights := mkVerifierWeights (hundredths 50) (hundredths 20) (hundredths 15) (hundredths 15);
  p_CommitWindowSeconds := 300; p_SubmissionWindowSeconds := 600; p_RoundIntervalSeconds := 3600;
  p_AssignmentDelayMaxSeconds := 3600; p_CooldownBaseSeconds := 604800;
  p_PublisherVerificationReward := 1000000; p_VerifierVerificationReward := 500000;
  p_VerifierRewardBaseShareBps := 4000; p_RequiredExternalLinksForFullReward := 15; p_PublisherMinRewardBps := 1000;
  p_EmissionTotalSupply := 1000000000000000; p_OperatorReserveBps := 4000; p_PublisherEmissionBps := 1000;
  p_VerifierEmissionBps := 5000; p_EmissionDurationHours := 100 * 365 * 24;
  p_PublisherRevokeFailureThreshold := 3; p_VerifierPenaltySuspendThreshold := 3; p_VerifierPenaltySuspendRounds := 3;
  p_DrandEnabled := true; p_DrandStrictMode := true; p_DrandSchemeID := DefaultDrandSchemeID;
  p_DrandPublicKeyHex := DefaultDrandPublicKeyHex; p_DrandChainHash := DefaultDrandChainHash;
  p_DrandGenesisTimeUnix := DefaultDrandGenesisTimeUnix; p_DrandPeriodSeconds := DefaultDrandPeriodSeconds;
  p_DrandRoundOffsetSeconds := DefaultDrandRoundOffsetSec |}.

(** * Effective values *)

Definition EffectiveRequiredExternalLinksForFullReward (p : PublisherParams) : Z :=
  if 0 <? p_RequiredExternalLinksForFullReward p then p_RequiredExternalLinksForFullReward p else p_RequiredExternalLinksForFullReward DefaultPublisherParams.
Definition EffectivePublisherMinRewardBps (p : PublisherParams) : Z :=
  if (0 <? p_PublisherMinRewardBps p) && (p_PublisherMinRewardBps p <=? 10000) then p_PublisherMinRewardBps p else p_PublisherMinRewardBps DefaultPublisherParams.
Definition EffectiveVerifierRewardBaseShareBps (p : PublisherParams) : Z :=
  if (p_VerifierRewardBaseShareBps p <? 0) || (10000 <? p_VerifierRewardBaseShareBps p) then p_VerifierRewardBaseShareBps DefaultPublisherParams else p_VerifierRewardBaseShareBps p.
Definition EffectiveEmissionTotalSupply (p : PublisherParams) : Z :=
  if 0 <? p_EmissionTotalSupply p then p_EmissionTotalSupply p else p_EmissionTotalSupply DefaultPublisherParams.
Definition EffectivePublisherEmissionBps (p : PublisherParams) : Z :=
  if 0 <? p_PublisherEmissionBps p then p_PublisherEmissionBps p else p_PublisherEmissionBps DefaultPublisherParams.
Definition EffectiveVerifierEmissionBps (p : PublisherParams) : Z :=
  if 0 <? p_VerifierEmissionBps p then p_VerifierEmissionBps p else p_VerifierEmissionBps DefaultPublisherParams.
Definition EffectiveEmissionDurationHours (p : PublisherParams) : Z :=
  if 0 <? p_EmissionDurationHours p then p_EmissionDurationHours p else p_EmissionDurationHours DefaultPublisherParams.
Definition EffectivePublisherRevokeFailureThreshold (p : PublisherParams) : Z :=
  if 0 <? p_PublisherRevokeFailureThreshold p then p_PublisherRevokeFailureThreshold p else p_PublisherRevokeFailureThreshold DefaultPublisherParams.
Definition EffectiveVerifierPenaltySuspendThreshold (p : PublisherParams) : Z :=
  if 0 <? p_VerifierPenaltySuspendThreshold p then p_VerifierPenaltySuspendThreshold p else p_VerifierPenaltySuspendThreshold DefaultPublisherParams.
Definition EffectiveVerifierPenaltySuspendRounds (p : PublisherParams) : Z :=
  if 0 <? p_VerifierPenaltySuspendRounds p then p_VerifierPenaltySuspendRounds p else p_VerifierPenaltySuspendRounds DefaultPublisherParams.
Definition EffectiveDrandEnabled (p : PublisherParams) : bool := p_DrandEnabled p.
Definition EffectiveDrandGenesisTimeUnix (p : PublisherParams) : Z :=
  if 0 <? p_DrandGenesisTimeUnix p then p_DrandGenesisTimeUnix p else DefaultDrandGenesisTimeUnix.
Definition EffectiveDrandPeriodSeconds (p : PublisherParams) : Z :=
  if 0 <? p_DrandPeriodSeconds p then p_DrandPeriodSeconds p else DefaultDrandPeriodSeconds.
Definition EffectiveDrandRoundOffsetSeconds (p : PublisherParams) : Z :=
  if 0 <? p_DrandRoundOffsetSeconds p then p_DrandRoundOffsetSeconds p else DefaultDrandRoundOffsetSec.

Section Texts.
Context `{GoEnv}.

Definition EffectiveDrandSchemeID (p : PublisherParams) : gostr :=
  if blank (p_DrandSchemeID p) then DefaultDrandSchemeID else TrimSpace (p_DrandSchemeID p).
Definition EffectiveDrandPublicKeyHex (p : PublisherParams) : gostr :=
  if blank (p_DrandPublicKeyHex p) then DefaultDrandPublicKeyHex else TrimSpace (p_DrandPublicKeyHex p).
Definition EffectiveDrandChainHash (p : PublisherParams) : gostr :=
  if blank (p_DrandChainHash p) then DefaultDrandChainHash else ToLower (TrimSpace (p_DrandChainHash p)).

Definition drandSchemePedersenUnchained : gostr := go "pedersen-bls-unchained".
Definition drandSchemeShortSigG1 : gostr := go "bls-unchained-on-g1".
Definition drandSchemeRFC9380G1 : gostr := go "bls-unchained-g1-rfc9380".
Definition isSupportedDrandSchemeID (id : gostr) : bool :=
  bool_decide (TrimSpace id ∈ [drandSchemePedersenUnchained; drandSchemeShortSigG1; drandSchemeRFC9380G1]).

(** * Checks *)

(** The module's own check of shares has no tolerance. *)
Definition sharesSumToOne (shares : list Z) : result err unit :=
  total ← each (λ d total, (ensureUnitInterval d;; Ok (total + d))) shares 0;
  guard_err (negb (total =? LegacyOneDec)) (Errorf "must sum to 1").

Definition windows_ok (p : PublisherParams) : result err unit :=
  first_error [
   ((p_CommitWindowSeconds p <=? 0), Errorf "commit window seconds must be positive");
   ((p_VerificationTTL p <=? p_CommitWindowSeconds p), Errorf "commit window seconds must be < verification ttl");
   ((p_SubmissionWindowSeconds p <=? 0), Errorf "submission window seconds must be positive");
   ((p_RoundIntervalSeconds p <=? 0), Errorf "round interval seconds must be positive");
   ((p_AssignmentDelayMaxSeconds p <=? 0), Errorf "assignment delay max seconds must be positive");
   ((p_RoundIntervalSeconds p <? p_AssignmentDelayMaxSeconds p), Errorf "assignment delay max seconds must be <= round interval seconds");
   ((p_CooldownBaseSeconds p <=? 0), Errorf "cooldown base seconds must be positive");
   ((p_SubmissionWindowSeconds p <=? p_CommitWindowSeconds p), Errorf "commit window seconds must be < submission window seconds")].

(** The sum of three checked 64-bit integers does not wrap. *)
Definition amounts_ok (p : PublisherParams) : result err unit :=
  first_error [
   ((p_PublisherVerificationReward p <? 0), Errorf "publisher verification reward must be >= 0");
   ((p_VerifierVerificationReward p <? 0), Errorf "verifier verification reward must be >= 0");
   (((p_VerifierRewardBaseShareBps p <? 0) || (10000 <? p_VerifierRewardBaseShareBps p)), Errorf "verifier reward base share bps must be within [0,10000]");
   ((p_RequiredExternalLinksForFullReward p <? 0), Errorf "required external links for full reward must be >= 0");
   (((p_PublisherMinRewardBps p <? 0) || (10000 <? p_PublisherMinRewardBps p)), Errorf "publisher min reward bps must be within [0,10000]");
   ((p_EmissionTotalSupply p <? 0), Errorf "emission total supply must be >= 0");
   (((p_OperatorReserveBps p <? 0) || (10000 <? p_OperatorReserveBps p)), Errorf "operator reserve bps must be within [0,10000]");
   (((p_PublisherEmissionBps p <? 0) || (10000 <? p_PublisherEmissionBps p)), Errorf "publisher emission bps must be within [0,10000]");
   (((p_VerifierEmissionBps p <? 0) || (10000 <? p_VerifierEmissionBps p)), Errorf "verifier emission bps must be within [0,10000]");
   ((p_EmissionDurationHours p <? 0), Errorf "emission duration hours must be >= 0");
   ((10000 <? p_OperatorReserveBps p + p_PublisherEmissionBps p + p_VerifierEmissionBps p), Errorf "operator reserve + publisher emission + verifier emission bps must be <= 10000");
   ((p_PublisherRevokeFailureThreshold p <? 0), Errorf "publisher revoke failure threshold must be >= 0");
   ((p_VerifierPenaltySuspendThreshold p <? 0), Errorf "verifier penalty suspend threshold must be >= 0");
   ((p_VerifierPenaltySuspendRounds p <? 0), Errorf "verifier penalty suspend rounds must be >= 0")].

(** 32 bytes in hexadecimal are 64 digits. *)
Definition drand_ok (p : PublisherParams) : result err unit :=
  first_error [
   ((negb (blank (p_DrandSchemeID p)) && negb (isSupportedDrandSchemeID (TrimSpace (p_DrandSchemeID p)))), Errorf "unsupported drand scheme id");
   ((negb (empty (EffectiveDrandPublicKeyHex p)) && negb (is_hex (EffectiveDrandPublicKeyHex p))), Errorf "invalid drand public key hex");
   ((negb (empty (EffectiveDrandChainHash p)) && negb (is_hex (EffectiveDrandChainHash p) && (length (EffectiveDrandChainHash p) =? 64)%nat)), Errorf "drand_chain_hash must be 32-byte hex");
   ((p_DrandEnabled p && empty (EffectiveDrandPublicKeyHex p)), Errorf "drand_enabled requires drand_public_key_hex");
   ((p_DrandEnabled p && empty (EffectiveDrandChainHash p)), Errorf "drand_enabled requires drand_chain_hash");
   ((p_DrandEnabled p && (EffectiveDrandGenesisTimeUnix p <=? 0)), Errorf "drand_enabled requires positive drand_genesis_time_unix");
   ((p_DrandEnabled p && (EffectiveDrandPeriodSeconds p <=? 0)), Errorf "drand_enabled requires positive drand_period_seconds");
   ((p_DrandEnabled p && (EffectiveDrandRoundOffsetSeconds p <=? 0)), Errorf "drand_enabled requires positive drand_round_offset_seconds");
   ((p_DrandEnabled p && (p_RoundIntervalSeconds p <? EffectiveDrandRoundOffsetSeconds p)), Errorf "drand_round_offset_seconds must be <= round_interval_seconds")].

Definition Params_Validate (p : PublisherParams) : result err unit :=
  guard_err (p_VerifierBond p <? 0) (Errorf "verifier bond must be non-negative");;
  guard_err (p_VerificationTTL p <=? 0) (Errorf "verification ttl must be positive");;
  guard_err (p_MinVerifierCount p <=? 0) (Errorf "min verifier count must be positive");;
  ensureUnitInterval (p_MinPublisherScore p);;
  ensureUnitInterval (p_MinVerifierScore p);;
  sharesSumToOne [sw_Availability (p_RewardWeights p); sw_Engagement (p_RewardWeights p); sw_Freshness (p_RewardWeights p)];;
  sharesSumToOne [rw_PublisherShare (p_RewardSplit p); rw_VerifierShare (p_RewardSplit p); rw_ProtocolShare (p_RewardSplit p)];;
  sharesSumToOne [vw_Accuracy (p_VerifierWeights p); vw_Coverage (p_VerifierWeights p); vw_Latency (p_VerifierWeights p); vw_Freshness (p_VerifierWeights p)];;
  windows_ok p;;
  amounts_ok p;;
  drand_ok p.

(** * The strict drand upgrade *)

Definition WithStrictDrandEnabled (p : PublisherParams) : PublisherParams := {|
  p_VerifierBond := p_VerifierBond p; p_VerificationTTL := p_VerificationTTL p; p_MinVerifierCount := p_MinVerifierCount p;
  p_MinPublisherScore := p_MinPublisherScore p; p_MinVerifierScore := p_MinVerifierScore p; p_RewardWeights := p_RewardWeights p;
  p_RewardSplit := p_RewardSplit p; p_VerifierWeights := p_VerifierWeights p; p_CommitWindowSeconds := p_CommitWindowSeconds p;
  p_SubmissionWindowSeconds := p_SubmissionWindowSeconds p; p_RoundIntervalSeconds := p_RoundIntervalSeconds p;
  p_AssignmentDelayMaxSeconds := p_AssignmentDelayMaxSeconds p; p_CooldownBaseSeconds := p_CooldownBaseSeconds p;
  p_PublisherVerificationReward := p_PublisherVerificationReward p; p_VerifierVerificationReward := p_VerifierVerificationReward p;
  p_VerifierRewardBaseShareBps := p_VerifierRewardBaseShareBps p;
  p_RequiredExternalLinksForFullReward := p_RequiredExternalLinksForFullReward p; p_PublisherMinRewardBps := p_PublisherMinRewardBps p;
  p_EmissionTotalSupply := p_EmissionTotalSupply p; p_OperatorReserveBps := p_OperatorReserveBps p;
  p_PublisherEmissionBps := p_PublisherEmissionBps p; p_VerifierEmissionBps := p_VerifierEmissionBps p;
  p_EmissionDurationHours := p_EmissionDurationHours p; p_PublisherRevokeFailureThreshold := p_PublisherRevokeFailureThreshold p;
  p_VerifierPenaltySuspendThreshold := p_VerifierPenaltySuspendThreshold p;
  p_VerifierPenaltySuspendRounds := p_VerifierPenaltySuspendRounds p; p_DrandEnabled := true; p_DrandStrictMode := true;
  p_DrandSchemeID := EffectiveDrandSchemeID p; p_DrandPublicKeyHex := EffectiveDrandPublicKeyHex p;
  p_DrandChainHash := EffectiveDrandChainHash p; p_DrandGenesisTimeUnix := EffectiveDrandGenesisTimeUnix p;
  p_DrandPeriodSeconds := EffectiveDrandPeriodSeconds p; p_DrandRoundOffsetSeconds := EffectiveDrandRoundOffsetSeconds p |}.
End Texts.

(** * The emission of a round *)

(** The denominator is a 64-bit integer. *)
Definition RoundEmissionPools (p : PublisherParams) (roundIntervalSeconds : Z) : result err (Z * Z) :=
  let totalSupply := EffectiveEmissionTotalSupply p in
  if totalSupply <=? 0 then Ok (0, 0)
  else
    let publisherBps := EffectivePublisherEmissionBps p in
    let verifierBps := EffectiveVerifierEmissionBps p in
    let durationHours := EffectiveEmissionDurationHours p in
    guard_err (durationHours <=? 0) (Errorf "emission duration hours must be positive");;
    let interval := if roundIntervalSeconds <=? 0 then 3600 else roundIntervalSeconds in
    let denominator := i64 (i64 (durationHours * 3600) * 10000) in
    guard_err (denominator <=? 0) (Errorf "invalid emission denominator");;
    let pool bps := if 0 <? bps then x ← Int_Mul totalSupply bps; y ← Int_Mul x interval; Ok (Z.quot y denominator) else Ok 0 in
    publisherPool ← pool publisherBps;
    verifierPool ← pool verifierBps;
    Ok (publisherPool, verifierPool).

(** The values of the documentation, for one hour of the default emission. *)
Example hourly_pools : RoundEmissionPools DefaultPublisherParams 3600 = Ok (114155251, 570776255).
Proof. vm_compute. reflexivity. Qed.

(** What the pool is funded with, in the denomination of the rewards. *)
Definition emission_target (p : PublisherParams) : Z :=
  Z.quot (EffectiveEmissionTotalSupply p * (EffectivePublisherEmissionBps p + EffectiveVerifierEmissionBps p)) 10000.
