(* ===== verification/Scores.v ===== *)
(** The scores of publishers and verifiers and the split of a publisher's reward, from
    [src/x/registry/types.go]; they prepare settlements off the chain, and no message
    calls them.  Decimals are integers in units of [10^-18], and their products and
    quotients round by the class [DecRounding]. *)

From S2P Require Import Prelude JsBase GoBase GoHash Market MarketProofs GoSdk Tokenomics RegParams.

(** * Data *)

Record PublisherSnapshot := mkSnapshot {
  ps_Domain : gostr; ps_VerifiedCongridLinks : Z; ps_OnlineMinutes : Z; ps_ExpectedMinutes : Z; ps_ReferralClicks : Z;
  ps_BaselineClicks : Z; ps_LastVerifiedHeight : Z; ps_CurrentHeight : Z; ps_VerificationTTL : Z }.
Record VerifierReport := mkReport {
  vr_Worker : gostr; vr_Checks : Z; vr_Matches : Z; vr_ExpectedChecks : Z; vr_MedianLatencyMs : Z; vr_TargetLatencyMs : Z;
  vr_SubmittedAtHeight : Z; vr_ReferralVerified24h : Z; vr_WrongVerifications : Z }.
Record PublisherRewardOutcome := mkOutcome {
  o_PublisherAmount : Z; o_VerifierAmounts : gmap gostr Z; o_ProtocolAmount : Z; o_RolloverAmount : Z }.

Definition DefaultPublisherScoreWeights : PublisherScoreWeights := mkScoreWeights (hundredths 50) (hundredths 30) (hundredths 20).
Definition ScoreWeights_Validate (w : PublisherScoreWeights) : result err unit :=
  sharesSumToOne [sw_Availability w; sw_Engagement w; sw_Freshness w].
Definition VerifierWeights_Validate (w : VerifierRewardWeights) : result err unit :=
  sharesSumToOne [vw_Accuracy w; vw_Coverage w; vw_Latency w; vw_Freshness w].

Definition maxInt (value floor : Z) : Z := if value <? floor then floor else value.
Definition minInt (a b : Z) : Z := if a <? b then a else b.

(** * Scores *)

Section Scores.
Context `{DecRounding}.

Definition ratioDec (numerator denominator : Z) : Z :=
  if (denominator <=? 0) || (numerator <=? 0) then 0
  else
    let val := Dec_Quo (LegacyNewDec numerator) (LegacyNewDec denominator) in
    if LegacyOneDec <? val then LegacyOneDec else val.

Definition Snapshot_Score (s : PublisherSnapshot) (weights : PublisherScoreWeights) : result err Z :=
  ScoreWeights_Validate weights;;
  let availability := ratioDec (ps_OnlineMinutes s) (ps_ExpectedMinutes s) in
  let engagement := ratioDec (ps_ReferralClicks s) (maxInt (ps_BaselineClicks s) 1) in
  let engagementCap := LegacyNewDec 3 in
  let engagement := if engagementCap <? engagement then engagementCap else engagement in
  let engagement := Dec_Quo engagement engagementCap in
  let freshness :=
    if (0 <? ps_VerificationTTL s) && (ps_LastVerifiedHeight s <? ps_CurrentHeight s) then
      let delta := i64 (ps_CurrentHeight s - ps_LastVerifiedHeight s) in
      if ps_VerificationTTL s <? delta then 0
      else LegacyOneDec - Dec_QuoInt (LegacyNewDec delta) (ps_VerificationTTL s)
    else LegacyOneDec in
  Ok (0 + Dec_Mul (sw_Availability weights) availability + Dec_Mul (sw_Engagement weights) engagement +
      Dec_Mul (sw_Freshness weights) freshness).

Definition Report_Validate (r : VerifierReport) : result err unit :=
  first_error [
   ((empty (vr_Worker r)), Errorf "verifier worker address required");
   ((vr_Checks r <=? 0), Errorf "checks must be positive");
   (((vr_Matches r <? 0) || (vr_Checks r <? vr_Matches r)), Errorf "matches must lie within [0,checks]");
   ((vr_ExpectedChecks r <? 0), Errorf "expected checks must be >= 0");
   ((vr_TargetLatencyMs r <=? 0), Errorf "target latency must be positive");
   ((vr_ReferralVerified24h r <? 0), Errorf "referral verified 24h must be >= 0");
   ((vr_WrongVerifications r <? 0), Errorf "wrong verifications must be >= 0");
   ((vr_Checks r <? vr_WrongVerifications r), Errorf "wrong verifications cannot exceed checks")].

Definition Report_Score (r : VerifierReport) (weights : VerifierRewardWeights) (currentHeight ttl : Z) : result err Z :=
  VerifierWeights_Validate weights;;
  Report_Validate r;;
  guard_err (ttl <=? 0) (Errorf "ttl must be positive");;
  guard_err (currentHeight <=? 0) (Errorf "current height must be positive");;
  let accuracy := ratioDec (vr_Matches r) (vr_Checks r) in
  let expected := maxInt (vr_ExpectedChecks r) 1 in
  let coverage := ratioDec (minInt (vr_Checks r) expected) expected in
  let latency := Dec_QuoInt (LegacyNewDec (vr_TargetLatencyMs r)) (maxInt (vr_MedianLatencyMs r) 1) in
  let latency := if LegacyOneDec <? latency then LegacyOneDec else latency in
  let freshness :=
    if (vr_SubmittedAtHeight r <=? 0) || (currentHeight <=? vr_SubmittedAtHeight r) then LegacyOneDec
    else
      let delta := i64 (currentHeight - vr_SubmittedAtHeight r) in
      if ttl <=? delta then 0 else LegacyOneDec - Dec_QuoInt (LegacyNewDec delta) ttl in
  let score := 0 + Dec_Mul (vw_Accuracy weights) accuracy + Dec_Mul (vw_Coverage weights) coverage +
      Dec_Mul (vw_Latency weights) latency + Dec_Mul (vw_Freshness weights) freshness in
  if (0 <? vr_Checks r) && (0 <? vr_WrongVerifications r) then
    let penalty := LegacyOneDec - ratioDec (vr_WrongVerifications r) (vr_Checks r) in
    let penalty := if penalty <? 0 then 0 else penalty in
    Ok (Dec_Mul score penalty)
  else Ok score.

(** * The split of a reward *)

(** Ten percent for each unit, at most the whole; the sum that is counted is a
    64-bit integer. *)
Definition tenths (n : Z) : Z :=
  let factor := Dec_Mul (hundredths 10) (LegacyNewDec n) in if LegacyOneDec <? factor then LegacyOneDec else factor.

(** The body of the loop over the reports; the state is the weights and their total. *)
Definition weigh_report (p : PublisherParams) (height : Z) (r : VerifierReport) (acc : list Z * Z) : result err (list Z * Z) :=
  score ← Report_Score r (p_VerifierWeights p) height (p_VerificationTTL p);
  if score <? p_MinVerifierScore p then Ok (acc.1 ++ [0], acc.2)
  else
    let effective := Dec_Mul score (tenths (i64 (vr_ReferralVerified24h r + 1))) in
    Ok (acc.1 ++ [effective], acc.2 + effective).

(** The body of the loop over the weights; the state is what is allocated and the amounts. *)
Definition allocate (pool totalWeight : Z) (acc : Z * gmap gostr Z) (rw : VerifierReport * Z) : Z * gmap gostr Z :=
  let weight := rw.2 in
  if weight =? 0 then acc
  else
    let portion := Dec_Quo (Dec_Mul pool weight) totalWeight in
    let existing := default 0 (acc.2 !! vr_Worker rw.1) in
    (acc.1 + portion, <[vr_Worker rw.1 := existing + portion]> acc.2).

(** What the verifiers get, and what is rolled over. *)
Definition share_pool (p : PublisherParams) (height : Z) (reports : list VerifierReport) (pool rollover : Z)
    : result err (gmap gostr Z * Z) :=
  if pool =? 0 then Ok (∅, rollover)
  else
    match reports with
    | [] => Ok (∅, rollover + pool)
    | _ =>
        w ← each (weigh_report p height) reports ([], 0);
        let '(weights, totalWeight) := w in
        if totalWeight =? 0 then Ok (∅, rollover + pool)
        else
          let '(allocated, amounts) := foldl (allocate pool totalWeight) (0, ∅) (zip reports weights) in
          Ok (amounts, if allocated <? pool then rollover + (pool - allocated) else rollover)
    end.
End Scores.

Definition SplitPublisherRewards `{GoEnv} `{DecRounding} (total : Z) (s : PublisherSnapshot) (reports : list VerifierReport) (p : PublisherParams)
    : result err PublisherRewardOutcome :=
  guard_err (total <? 0) (Errorf "total reward must be non-negative");;
  Params_Validate p;;
  if total =? 0 then Ok (mkOutcome 0 ∅ 0 0)
  else
    let links := if ps_VerifiedCongridLinks s <? 0 then 0 else ps_VerifiedCongridLinks s in
    let eligibleTotal := Dec_Mul total (tenths links) in
    let rollover := total - eligibleTotal in
    if eligibleTotal =? 0 then Ok (mkOutcome 0 ∅ 0 rollover)
    else
      let publisherAmount := Dec_Mul eligibleTotal (rw_PublisherShare (p_RewardSplit p)) in
      let verifierPool := Dec_Mul eligibleTotal (rw_VerifierShare (p_RewardSplit p)) in
      let protocolAmount := Dec_Mul eligibleTotal (rw_ProtocolShare (p_RewardSplit p)) in
      v ← share_pool p (ps_CurrentHeight s) reports verifierPool rollover;
      let consumedShares := publisherAmount + verifierPool + protocolAmount in
      Ok (mkOutcome publisherAmount v.1 protocolAmount
            (if consumedShares <? eligibleTotal then v.2 + (eligibleTotal - consumedShares) else v.2)).

(** * Bounds *)

Lemma shares_Ok l u : sharesSumToOne l = Ok u → Forall (λ d, 0 ≤ d ≤ LegacyOneDec) l ∧ sumZ l = LegacyOneDec.
Proof.
  unfold sharesSumToOne. intros HS. apply bind_Ok_inv in HS as (t & HE & HS). apply guard_err_Ok_inv in HS. zb.
  assert (∀ acc, each (λ d total, (ensureUnitInterval d;; Ok (total + d))) l acc = Ok t → Forall (λ d, 0 ≤ d ≤ LegacyOneDec) l ∧ t = acc + sumZ l) as Hl.
  { clear HE HS. induction l as [|d l IH]; intros acc HE; cbn [each] in HE; [injection HE as <-; split; [constructor|unfold sumZ; cbn; lia]|].
    apply bind_Ok_inv in HE as (t1 & H1 & HE). apply bind_Ok_inv in H1 as (u1 & Hu%ensureUnitInterval_Ok & [= <-]).
    destruct (IH _ HE) as [Hf ->]. split; [by constructor|]. unfold sumZ. cbn [foldr]. lia. }
  destruct (Hl 0 HE) as [Hf ->]. split; [done|lia].
Qed.

Section Bounds.
Context `{DecRounding}.

Lemma Dec_Mul_unit w x : 0 ≤ w → 0 ≤ x ≤ LegacyOneDec → 0 ≤ Dec_Mul w x ≤ w.
Proof. intros Hw Hx. pose proof (Dec_Mul_near w x). unfold LegacyOneDec, precision in *. nia. Qed.

Lemma Dec_Quo_nonneg a b : 0 ≤ a → 0 < b → 0 ≤ Dec_Quo a b.
Proof. intros Ha Hb. pose proof (Dec_Quo_near a b ltac:(lia)). unfold precision in *. nia. Qed.

Lemma ratio_unit n d : 0 ≤ ratioDec n d ≤ LegacyOneDec.
Proof.
  unfold ratioDec. destruct (Z.leb_spec d 0), (Z.leb_spec n 0); cbn [orb]; try (unfold LegacyOneDec, precision; lia).
  pose proof (Dec_Quo_nonneg (LegacyNewDec n) (LegacyNewDec d)) as Hq. unfold LegacyNewDec, precision in *.
  destruct (Z.ltb_spec LegacyOneDec (Dec_Quo (n * 10 ^ 18) (d * 10 ^ 18))); [unfold LegacyOneDec, precision; lia|]. split; [apply Hq; lia|done].
Qed.

Lemma tenths_unit n : 0 ≤ n → 0 ≤ tenths n ≤ LegacyOneDec ∧ (1 ≤ n → 10 ^ 17 ≤ tenths n).
Proof.
  intros Hn. unfold tenths. rewrite Dec_Mul_exact. unfold hundredths, LegacyOneDec, precision. destruct (Z.ltb_spec (10 ^ 18) (10 * 10 ^ 16 * n)); lia.
Qed.

(** What is left of a unit as time passes. *)
Lemma fresh_unit delta ttl : 0 ≤ delta ≤ ttl → 0 < ttl → 0 ≤ LegacyOneDec - Dec_QuoInt (LegacyNewDec delta) ttl ≤ LegacyOneDec.
Proof.
  intros Hd Ht. unfold Dec_QuoInt, LegacyNewDec, LegacyOneDec, precision.
  assert (0 ≤ Z.quot (delta * 10 ^ 18) ttl ≤ 10 ^ 18); [|lia]. split; [apply Z.quot_pos; lia|]. apply Z.quot_le_upper_bound; nia.
Qed.

(** The score of a verifier is a weight between zero and one. *)
Lemma report_score_unit r w height ttl score : height < 2 ^ 63 → Report_Score r w height ttl = Ok score → 0 ≤ score ≤ LegacyOneDec.
Proof.
  intros Hh HS. unfold Report_Score in HS. apply bind_Ok_inv in HS as (u & Hw%shares_Ok & HS). destruct Hw as [Hf Hsum].
  repeat (apply Forall_cons_1 in Hf as [? Hf]). unfold sumZ in Hsum. cbn [foldr] in Hsum.
  apply bind_Ok_inv in HS as (u1 & Hv & HS). unfold Report_Validate in Hv. apply first_error_ok in Hv. repeat (apply Forall_cons_1 in Hv as [? Hv]). cbn [fst] in *.
  apply bind_Ok_inv in HS as ([] & Ht%guard_err_Ok_inv & HS). apply bind_Ok_inv in HS as ([] & Hc%guard_err_Ok_inv & HS). zb. cbv zeta in HS.
  match type of HS with context [Dec_Mul (vw_Latency w) ?x] => assert (0 ≤ x ≤ LegacyOneDec) as Hl end.
  { match goal with |- context [LegacyOneDec <? ?q] => assert (0 ≤ q) as Hq end.
    { unfold Dec_QuoInt, LegacyNewDec, maxInt, precision. apply Z.quot_pos; [lia|]. destruct (Z.ltb_spec (vr_MedianLatencyMs r) 1); lia. }
    destruct (Z.ltb_spec LegacyOneDec (Dec_QuoInt (LegacyNewDec (vr_TargetLatencyMs r)) (maxInt (vr_MedianLatencyMs r) 1))); [unfold LegacyOneDec, precision; lia|lia]. }
  match type of HS with context [Dec_Mul (vw_Freshness w) ?x] => assert (0 ≤ x ≤ LegacyOneDec) as Hfr end.
  { destruct (Z.leb_spec (vr_SubmittedAtHeight r) 0); cbn [orb]; [unfold LegacyOneDec, precision; lia|].
    destruct (Z.leb_spec height (vr_SubmittedAtHeight r)); [unfold LegacyOneDec, precision; lia|].
    assert (i64 (height - vr_SubmittedAtHeight r) = height - vr_SubmittedAtHeight r) as -> by (apply swrap_small; unfold in_s; lia).
    destruct (Z.leb_spec ttl (height - vr_SubmittedAtHeight r)); [unfold LegacyOneDec, precision; lia|]. apply fresh_unit; lia. }
  pose proof (Dec_Mul_unit (vw_Accuracy w) _ ltac:(lia) (ratio_unit (vr_Matches r) (vr_Checks r))) as M1.
  pose proof (Dec_Mul_unit (vw_Coverage w) _ ltac:(lia) (ratio_unit (minInt (vr_Checks r) (maxInt (vr_ExpectedChecks r) 1)) (maxInt (vr_ExpectedChecks r) 1))) as M2.
  pose proof (Dec_Mul_unit (vw_Latency w) _ ltac:(lia) Hl) as M3. pose proof (Dec_Mul_unit (vw_Freshness w) _ ltac:(lia) Hfr) as M4.
  destruct (_ && _); injection HS as <-; [|lia].
  pose proof (ratio_unit (vr_WrongVerifications r) (vr_Checks r)) as Hr. destruct (Z.ltb_spec (LegacyOneDec - ratioDec (vr_WrongVerifications r) (vr_Checks r)) 0); [lia|].
  match goal with |- 0 ≤ Dec_Mul ?s ?x ≤ _ => pose proof (Dec_Mul_unit s x ltac:(lia) ltac:(lia)) end. lia.
Qed.

(** * What the split hands out *)

(** What is added to the amount of a worker is added to the sum. *)
Lemma sum_over_add (m : gmap gostr Z) k x : sum_over id (<[k := default 0 (m !! k) + x]> m) = sum_over id m + x.
Proof. destruct (m !! k) as [y|] eqn:E; cbn [from_option]; [rewrite (sum_over_replace id m k _ y E)|rewrite (sum_over_fresh id m k _ E)]; unfold id; lia. Qed.

(** The least weight other than nothing: a tenth of the least score, or one unit. *)
Definition lightest (p : PublisherParams) : Z := Z.max 1 (p_MinVerifierScore p / 10).

(** What the rounding of a product, half a unit of [10^-18], is worth once it is divided
    by the lightest weight. *)
Definition slack (p : PublisherParams) : Z := 5 * 10 ^ 17 / lightest p.

(** A score that reaches the minimum keeps a tenth of it, whatever the roundings. *)
Lemma weight_least p score x : 0 ≤ score → p_MinVerifierScore p ≤ score → 10 ^ 17 ≤ x →
  Dec_Mul score x = 0 ∨ lightest p ≤ Dec_Mul score x.
Proof.
  intros Hs Hm Hx. pose proof (Dec_Mul_near score x) as Hn. pose proof (Z.mul_div_le (p_MinVerifierScore p) 10 ltac:(lia)) as Hd.
  unfold lightest, precision in *. assert (score * 10 ^ 17 ≤ score * x) by nia. lia.
Qed.

(** The slack is half a token at most, and 50 units for a least score of a tenth. *)
Lemma slack_bounds p : 0 ≤ slack p ≤ 5 * 10 ^ 17 ∧ (10 ^ 17 ≤ p_MinVerifierScore p → slack p ≤ 50).
Proof.
  assert (1 ≤ lightest p) as Hu by (unfold lightest; lia). unfold slack. split_and!.
  - apply Z.div_pos; lia.
  - apply Z.div_le_upper_bound; lia.
  - intros Hm. pose proof (Z.div_le_mono (10 ^ 17) _ 10 ltac:(lia) Hm) as Hd. change (10 ^ 17 / 10) with (10 ^ 16) in Hd.
    apply Z.div_le_upper_bound; unfold lightest in *; lia.
Qed.

(** A weight is either nothing or at least the lightest. *)
Lemma weigh_reports p height reports acc acc' : height < 2 ^ 63 →
  Forall (λ r, vr_ReferralVerified24h r < 2 ^ 63 - 1) reports → each (weigh_report p height) reports acc = Ok acc' →
  ∃ ws, acc' = (acc.1 ++ ws, acc.2 + sumZ ws) ∧ length ws = length reports ∧ Forall (λ w, w = 0 ∨ lightest p ≤ w) ws.
Proof.
  intros Hh. revert acc. induction reports as [|r reports IH]; intros acc Hr HE; cbn [each] in HE.
  { injection HE as <-. exists []. rewrite app_nil_r. split; [|by split]. destruct acc as [a b]. unfold sumZ. cbn. f_equal; lia. }
  apply Forall_cons_1 in Hr as [Hr Hrs]. apply bind_Ok_inv in HE as (acc1 & H1 & HE). unfold weigh_report in H1.
  apply bind_Ok_inv in H1 as (score & Hs & H1). pose proof (report_score_unit _ _ _ _ _ Hh Hs) as Hu.
  assert (∃ w, acc1 = (acc.1 ++ [w], acc.2 + w) ∧ (w = 0 ∨ lightest p ≤ w)) as (w & -> & Hw).
  { destruct (Z.ltb_spec score (p_MinVerifierScore p)); injection H1 as <-; [exists 0; split; [f_equal; lia|by left]|]. eexists. split; [done|].
    assert (0 ≤ vr_ReferralVerified24h r) as Hpos.
    { unfold Report_Score in Hs. apply bind_Ok_inv in Hs as (? & _ & Hs). apply bind_Ok_inv in Hs as (? & Hv%first_error_ok & _).
      repeat (apply Forall_cons_1 in Hv as [? Hv]). cbn [fst] in *. zb. lia. }
    assert (i64 (vr_ReferralVerified24h r + 1) = vr_ReferralVerified24h r + 1) as -> by (apply swrap_small; unfold in_s; lia).
    destruct (tenths_unit (vr_ReferralVerified24h r + 1) ltac:(lia)) as [? Ht]. specialize (Ht ltac:(lia)).
    apply weight_least; lia. }
  destruct (IH _ Hrs HE) as (ws & -> & Hl & Hf). cbn [fst snd]. exists (w :: ws). rewrite <- app_assoc. split_and!; [|cbn; lia|by constructor].
  unfold sumZ. cbn. f_equal. lia.
Qed.

(** The amounts sum to what is allocated, which exceeds the shares by the roundings. *)
Lemma allocate_reports least pool W reports ws a m a' m' : 0 < least → 0 ≤ pool → 0 < W → length ws = length reports → Forall (λ w, w = 0 ∨ least ≤ w) ws →
  (∀ k v, m !! k = Some v → 0 ≤ v) → foldl (allocate pool W) (a, m) (zip reports ws) = (a', m') →
  a' - a = sum_over id m' - sum_over id m ∧ (∀ k v, m' !! k = Some v → 0 ≤ v) ∧
  (∀ k, is_Some (m' !! k) → is_Some (m !! k) ∨ k ∈ (vr_Worker <$> reports)) ∧
  least * (a' - a - Z.of_nat (length reports)) * W ≤ (least * pool + 5 * 10 ^ 17) * sumZ ws.
Proof.
  intros Hu Hp HW. revert ws a m. induction reports as [|r reports IH]; intros [|w ws] a m Hl Hf Hm HE; try discriminate Hl.
  { injection HE as <- <-. split_and!; [lia|done|by left|]. unfold sumZ. cbn. lia. }
  apply Forall_cons_1 in Hf as [Hw Hf]. injection Hl as Hl. cbn [zip zip_with foldl] in HE.
  replace (sumZ (w :: ws)) with (w + sumZ ws) by done. rewrite length_cons, Nat2Z.inj_succ.
  unfold allocate at 2 in HE. cbn [fst snd] in HE. destruct (Z.eqb_spec w 0) as [->|Hw0].
  { destruct (IH ws a m Hl Hf Hm HE) as (E & Hm' & Hk & Hb). split_and!; [done|done| |nia].
    intros k Hs. destruct (Hk k Hs) as [?|?]; [by left|right; rewrite fmap_cons; by right]. }
  set (portion := Dec_Quo (Dec_Mul pool w) W) in HE.
  assert (0 ≤ portion ∧ least * (portion - 1) * W ≤ (least * pool + 5 * 10 ^ 17) * w) as [P0 P1].
  { pose proof (Dec_Mul_near pool w) as H1. pose proof (Dec_Quo_near (Dec_Mul pool w) W ltac:(lia)) as H2.
    assert (0 ≤ Dec_Mul pool w) by (unfold precision in *; nia). split; [by apply Dec_Quo_nonneg|]. fold portion in H2.
    unfold precision in *. destruct Hw as [|Hw]; [done|]. assert (2 * ((portion - 1) * W) ≤ 2 * (pool * w) + 10 ^ 18) by lia. nia. }
  apply IH in HE as (E & Hm' & Hk & Hb); [|done|done|].
  - rewrite sum_over_add in E. split_and!; [lia|done| |nia]. intros k Hs. destruct (Hk k Hs) as [Hi|?]; [|right; rewrite fmap_cons; by right].
    destruct (decide (k = vr_Worker r)) as [->|Hn]; [right; rewrite fmap_cons; by left|]. rewrite lookup_insert_ne in Hi by done. by left.
  - intros k v Hv. destruct (decide (k = vr_Worker r)) as [->|Hn]; [|rewrite lookup_insert_ne in Hv by done; by eapply Hm].
    rewrite lookup_insert_eq in Hv. injection Hv as <-. destruct (m !! vr_Worker r) as [y|] eqn:Ey; [apply Hm in Ey|]; cbn; unfold id; lia.
Qed.

(** What the verifiers get and what is rolled over is the pool, up to the roundings. *)
Lemma share_pool_near p height reports pool rollover v : height < 2 ^ 63 →
  Forall (λ r, vr_ReferralVerified24h r < 2 ^ 63 - 1) reports → 0 ≤ pool → share_pool p height reports pool rollover = Ok v →
  (∀ k x, v.1 !! k = Some x → 0 ≤ x ∧ k ∈ (vr_Worker <$> reports)) ∧ rollover ≤ v.2 ∧
  rollover + pool ≤ sum_over id v.1 + v.2 ≤ rollover + pool + slack p + Z.of_nat (length reports).
Proof.
  intros Hh Hr Hp HS. unfold share_pool in HS.
  assert (0 < lightest p) as Hu by (unfold lightest; lia). assert (0 ≤ slack p) as Hsl by (unfold slack; apply Z.div_pos; lia).
  assert (∀ x, x = rollover + pool → rollover ≤ x → (∅, x) = v → (∀ k x, v.1 !! k = Some x → 0 ≤ x ∧ k ∈ (vr_Worker <$> reports)) ∧ rollover ≤ v.2 ∧
    rollover + pool ≤ sum_over id v.1 + v.2 ≤ rollover + pool + slack p + Z.of_nat (length reports)) as Hnone.
  { intros x -> Hx <-. cbn [fst snd]. split; [intros k y Hy; by rewrite lookup_empty in Hy|]. change (sum_over id (∅ : gmap gostr Z)) with 0. lia. }
  destruct (Z.eqb_spec pool 0); [apply (Hnone rollover); [lia|lia|by injection HS]|].
  destruct reports as [|r0 rest] eqn:Er; [apply (Hnone (rollover + pool)); [done|lia|by injection HS]|]. rewrite <- Er in *.
  apply bind_Ok_inv in HS as ([ws W] & HE & HS). destruct (weigh_reports _ _ _ _ _ Hh Hr HE) as (ws' & [= -> ->] & Hl & Hf).
  cbn [app fst snd] in *. rewrite Z.add_0_l in HS. destruct (Z.eqb_spec (sumZ ws') 0) as [?|?]; [apply (Hnone (rollover + pool)); [done|lia|by injection HS]|].
  assert (0 < sumZ ws') as HW. { enough (0 ≤ sumZ ws') by lia. apply sumZ_nonneg. eapply list.Forall_impl; [exact Hf|]. cbn. lia. }
  destruct (foldl _ _ _) as [a m] eqn:EF. injection HS as <-. cbn [fst snd].
  destruct (allocate_reports (lightest p) pool (sumZ ws') reports ws' 0 ∅ a m Hu Hp HW Hl Hf ltac:(intros ?? Hx; by rewrite lookup_empty in Hx) EF) as (E & Hm' & Hk & Hb).
  change (sum_over id (∅ : gmap gostr Z)) with 0 in E. rewrite Z.sub_0_r in Hb. replace (sum_over id m) with a by lia.
  split. { intros k x Hx. split; [by eapply Hm'|]. destruct (Hk k ltac:(by rewrite Hx)) as [[? Hy]|?]; [by rewrite lookup_empty in Hy|done]. }
  assert (a ≤ pool + slack p + Z.of_nat (length reports)).
  { enough (a - Z.of_nat (length reports) - pool ≤ slack p) by lia. apply Z.div_le_lower_bound; nia. } destruct (Z.ltb_spec a pool); lia.
Qed.
End Bounds.

(** * The contract of the split *)

Section Split.
Context `{GoEnv} `{DecRounding}.

(** The three shares of an amount miss it by at most one unit. *)
Lemma shares_near x a b c u : 0 ≤ x → sharesSumToOne [a; b; c] = Ok u →
  0 ≤ Dec_Mul x a ∧ 0 ≤ Dec_Mul x b ∧ 0 ≤ Dec_Mul x c ∧ x - 1 ≤ Dec_Mul x a + Dec_Mul x b + Dec_Mul x c ≤ x + 1.
Proof.
  intros Hx Hs. apply shares_Ok in Hs as [Hf Hsum]. repeat (apply Forall_cons_1 in Hf as [? Hf]). unfold sumZ in Hsum. cbn [foldr] in Hsum.
  pose proof (Dec_Mul_unit x a Hx ltac:(lia)). pose proof (Dec_Mul_unit x b Hx ltac:(lia)). pose proof (Dec_Mul_unit x c Hx ltac:(lia)).
  pose proof (Dec_Mul_near x a). pose proof (Dec_Mul_near x b). pose proof (Dec_Mul_near x c).
  assert (x * a + x * b + x * c = x * precision) by (unfold LegacyOneDec in *; nia). unfold precision in *. lia.
Qed.

(** The parts of a split reward, against the reward. *)
Lemma split_near total s reports p o : SplitPublisherRewards total s reports p = Ok o →
  ps_CurrentHeight s < 2 ^ 63 → Forall (λ r, vr_ReferralVerified24h r < 2 ^ 63 - 1) reports →
  0 ≤ o_PublisherAmount o ∧ 0 ≤ o_ProtocolAmount o ∧ 0 ≤ o_RolloverAmount o ∧
  (∀ k x, o_VerifierAmounts o !! k = Some x → 0 ≤ x ∧ k ∈ (vr_Worker <$> reports)) ∧
  total ≤ o_PublisherAmount o + sum_over id (o_VerifierAmounts o) + o_ProtocolAmount o + o_RolloverAmount o ≤
    total + 1 + slack p + Z.of_nat (length reports).
Proof.
  intros HS Hh Hr. pose proof (slack_bounds p) as Hsl. unfold SplitPublisherRewards in HS. apply bind_Ok_inv in HS as ([] & Ht%guard_err_Ok_inv & HS).
  apply bind_Ok_inv in HS as (u & HV & HS). unfold Params_Validate in HV. run_ok HV. zb.
  assert (0 ≤ total → (λ o, 0 ≤ o_PublisherAmount o ∧ 0 ≤ o_ProtocolAmount o ∧ 0 ≤ o_RolloverAmount o ∧
    (∀ k x, o_VerifierAmounts o !! k = Some x → 0 ≤ x ∧ k ∈ (vr_Worker <$> reports)) ∧
    total ≤ o_PublisherAmount o + sum_over id (o_VerifierAmounts o) + o_ProtocolAmount o + o_RolloverAmount o ≤
      total + 1 + slack p + Z.of_nat (length reports)) (mkOutcome 0 ∅ 0 total)) as Hnone.
  { intros ?. cbn [o_PublisherAmount o_VerifierAmounts o_ProtocolAmount o_RolloverAmount]. change (sum_over id (∅ : gmap gostr Z)) with 0.
    split_and!; try lia. intros k x Hx. by rewrite lookup_empty in Hx. }
  destruct (Z.eqb_spec total 0) as [->|Hn].
  { injection HS as <-. by apply Hnone. }
  cbv zeta in HS. set (links := if _ <? 0 then 0 else _) in HS.
  destruct (tenths_unit links ltac:(unfold links; destruct (Z.ltb_spec (ps_VerifiedCongridLinks s) 0); lia)) as [Hu _].
  pose proof (Dec_Mul_unit total (tenths links) ltac:(lia) Hu) as He. set (e := Dec_Mul total (tenths links)) in *.
  destruct (Z.eqb_spec e 0) as [Hz|Hz].
  { injection HS as <-. rewrite Hz, Z.sub_0_r. by apply Hnone. }
  match goal with Hs : sharesSumToOne [rw_PublisherShare _; _; _] = _ |- _ => pose proof (shares_near e _ _ _ _ ltac:(lia) Hs) as Hsh end.
  apply bind_Ok_inv in HS as (v & Hv & [= <-]). destruct (share_pool_near _ _ _ _ _ _ Hh Hr (proj1 (proj2 Hsh)) Hv) as (Hk & Hv0 & Hb). cbn.
  destruct (Z.ltb_spec (Dec_Mul e (rw_PublisherShare (p_RewardSplit p)) + Dec_Mul e (rw_VerifierShare (p_RewardSplit p)) +
    Dec_Mul e (rw_ProtocolShare (p_RewardSplit p))) e); split_and!; lia || exact Hk.
Qed.

(** C38 (bounds). For any parameters the code accepts, a reward that is split is not
    lost: what the publisher, the verifiers and the protocol get and what is rolled over
    are never negative, only workers that reported are paid, and together they are the
    reward or exceed it by the roundings alone.  In units of [10^-18] those are one for
    the shares, one for each report, and [slack]: half a unit divided by the lightest
    weight that is not nothing, which is a tenth of the least score and at least
    [10^-18].  The slack is at most half a token, and at most 50 units where the least
    score is a tenth or more; with a least score of zero the excess is real
    ([split_overpays]). *)
Theorem publisher_split_conserves total s reports p o : SplitPublisherRewards total s reports p = Ok o →
  ps_CurrentHeight s < 2 ^ 63 → Forall (λ r, vr_ReferralVerified24h r < 2 ^ 63 - 1) reports →
  0 ≤ o_PublisherAmount o ∧ 0 ≤ o_ProtocolAmount o ∧ 0 ≤ o_RolloverAmount o ∧
  (∀ k x, o_VerifierAmounts o !! k = Some x → 0 ≤ x ∧ k ∈ (vr_Worker <$> reports)) ∧
  total ≤ o_PublisherAmount o + sum_over id (o_VerifierAmounts o) + o_ProtocolAmount o + o_RolloverAmount o ≤
    total + 1 + slack p + Z.of_nat (length reports) ∧
  0 ≤ slack p ≤ 5 * 10 ^ 17 ∧ (10 ^ 17 ≤ p_MinVerifierScore p → slack p ≤ 50).
Proof.
  intros HS Hh Hr. destruct (split_near _ _ _ _ _ HS Hh Hr) as (? & ? & ? & ? & ?). pose proof (slack_bounds p) as [? ?].
  split_and!; assumption || lia.
Qed.

(** The clicks of a publisher count for at most a third of their weight: the ratio is
    capped at one before it is divided by the cap of three. *)
Theorem engagement_counts_third s w score : Snapshot_Score s w = Ok score → 0 ≤ ps_LastVerifiedHeight s → ps_CurrentHeight s < 2 ^ 63 →
  0 ≤ score ∧ 3 * score ≤ 3 * (sw_Availability w + sw_Freshness w) + sw_Engagement w + 3.
Proof.
  intros HS Hl Hh. unfold Snapshot_Score in HS. apply bind_Ok_inv in HS as (u & Hw%shares_Ok & HS). destruct Hw as [Hf _].
  repeat (apply Forall_cons_1 in Hf as [? Hf]). cbv zeta in HS.
  match type of HS with context [Dec_Mul (sw_Freshness w) ?x] => assert (0 ≤ x ≤ LegacyOneDec) as Hfr end.
  { destruct (Z.ltb_spec 0 (ps_VerificationTTL s)), (Z.ltb_spec (ps_LastVerifiedHeight s) (ps_CurrentHeight s)); cbn [andb]; try (unfold LegacyOneDec, precision; lia).
    assert (i64 (ps_CurrentHeight s - ps_LastVerifiedHeight s) = ps_CurrentHeight s - ps_LastVerifiedHeight s) as -> by (apply swrap_small; unfold in_s; lia).
    destruct (Z.ltb_spec (ps_VerificationTTL s) (ps_CurrentHeight s - ps_LastVerifiedHeight s)); [unfold LegacyOneDec, precision; lia|]. apply fresh_unit; lia. }
  pose proof (ratio_unit (ps_ReferralClicks s) (maxInt (ps_BaselineClicks s) 1)) as He. set (e := ratioDec (ps_ReferralClicks s) _) in *.
  destruct (Z.ltb_spec (LegacyNewDec 3) e) as [?|_]; [unfold LegacyNewDec, LegacyOneDec, precision in *; lia|]. injection HS as <-.
  pose proof (Dec_Mul_unit (sw_Availability w) _ ltac:(lia) (ratio_unit (ps_OnlineMinutes s) (ps_ExpectedMinutes s))).
  pose proof (Dec_Mul_unit (sw_Freshness w) _ ltac:(lia) Hfr).
  pose proof (Dec_Quo_near e (LegacyNewDec 3) ltac:(unfold LegacyNewDec, precision; lia)) as Hq.
  pose proof (Dec_Quo_nonneg e (LegacyNewDec 3) ltac:(lia) ltac:(unfold LegacyNewDec, precision; lia)) as Hq0.
  pose proof (Dec_Mul_near (sw_Engagement w) (Dec_Quo e (LegacyNewDec 3))) as Hm. set (q := Dec_Quo e (LegacyNewDec 3)) in *.
  assert (3 * q < 10 ^ 18 + 3) by (unfold LegacyNewDec, LegacyOneDec, precision in *; lia).
  assert (0 ≤ Dec_Mul (sw_Engagement w) q ∧ 3 * Dec_Mul (sw_Engagement w) q ≤ sw_Engagement w + 3); [|lia].
  unfold LegacyOneDec, precision in *. split; nia.
Qed.
End Split.
