(* ===== verification/Verification.v ===== *)
(** Publisher verification: commit and reveal messages of the assigned verifiers,
    and the finalisation of an assignment at the end of a block, from
    [src/x/registry]: [verification.go], [verification_keeper.go],
    [similar_settlement.go], [similar_store.go], the handlers
    [SubmitVerificationCommit] and [RevealVerification] of [msg_server.go],
    [finalizeAssignments] of [verification_rounds.go] and the hashes of
    [typespb/commit_hash.go].  Of [assignNewRound] only the writing of
    one assignment is here ([assign_one]); the schedule and the selection of
    verifiers are in [Rounds], the rewards in [Rewards]. *)

From stdpp Require Import sorting.
From S2P Require Import Prelude JsBase GoBase GoHash Market GoSdk Verifiers RegParams.

(** * Data *)

Record Assignment := mkAssignment {
  a_RoundStartUnix : Z; a_Domain : gostr; a_StartAtUnix : Z; a_DeadlineUnix : Z; a_Verifiers : list gostr;
  a_Finalized : bool; a_FinalizedAtUnix : Z; a_Verified : bool; a_RewardsSettled : bool;
  a_VerificationOwner : gostr; a_Reregistration : bool }.

Record Submission := mkSubmission {
  b_RoundStartUnix : Z; b_Domain : gostr; b_Verifier : gostr; b_Passed : bool; b_ObservedAtUnix : Z;
  b_LatencyMs : Z; b_SubmittedAtUnix : Z; b_ObservedSimilarDomains : Z; b_MatchedSimilarDomains : Z;
  b_ExpectedSimilarDomains : Z; b_ExpectedSetHash : gostr; b_ObservedSetHash : gostr }.

Record SimilarStats := mkSimilarStats {
  st_Domain : gostr; st_RoundStartUnix : Z; st_VerifiedSimilar : Z; st_ExpectedSetHash : gostr; st_VerifiedAtUnix : Z }.

Record Penalty := mkPenalty { pn_Count : Z; pn_SuspendedUntilUnix : Z }.

(** What [assignNewRound] records of a round, and a drand beacon. *)
Record RoundMeta := mkRoundMeta {
  rm_RoundStartUnix : Z; rm_SeedHex : gostr; rm_RoundIntervalSeconds : Z; rm_AssignmentDelayMaxSeconds : Z;
  rm_CreatedAtUnix : Z; rm_AnchorHeight : Z; rm_AnchorHashHex : gostr; rm_VerifierSetHash : gostr; rm_VerifierSetSize : Z;
  rm_DrandRound : Z; rm_DrandRandomnessHex : gostr }.
Record DrandBeacon := mkBeacon {
  db_Round : Z; db_RandomnessHex : gostr; db_SignatureHex : gostr; db_SubmittedAtUnix : Z; db_Submitter : gostr }.

(** The state of the schedule: the start of the last round, the records of rounds,
    the beacons and the number of the latest one. *)
Record RoundState := mkRounds {
  lastRoundStart : option Z; roundMetas : gmap gostr RoundMeta; drandBeacons : gmap gostr DrandBeacon; latestDrand : option Z }.

Record MsgCommit := { mk_Verifier : gostr; mk_Domain : gostr; mk_RoundStartUnix : Z; mk_CommitHash : gostr }.
Record MsgReveal := {
  mv_Verifier : gostr; mv_Domain : gostr; mv_RoundStartUnix : Z; mv_Passed : bool; mv_EvidenceHash : gostr;
  mv_Nonce : gostr; mv_VerificationOwner : gostr; mv_ObservedSimilarDomains : Z; mv_MatchedSimilarDomains : Z;
  mv_ExpectedSimilarDomains : Z; mv_ExpectedSetHash : gostr; mv_ObservedSetHash : gostr }.

(** The stores of the chain's modules: the market and the verification tables of
    the registry, under the byte keys the code builds, the bonds of [x/verifiers],
    and what [x/tokenomics] has minted into the emission pool. *)
Record VStore (B : Type) := mkVStore {
  market : Store B;
  assignments : gmap gostr Assignment;
  submissions : gmap gostr Submission;
  commits : gmap gostr gostr;
  streaks : gmap gostr Z;
  similar : gmap gostr SimilarStats;
  penalties : gmap gostr Penalty;
  unsettled : gset gostr;
  rounds : RoundState;
  bond_table : BondTable;
  pool_funded : Z }.
Arguments mkVStore {B}.
Arguments market {B}.
Arguments assignments {B}.
Arguments submissions {B}.
Arguments commits {B}.
Arguments streaks {B}.
Arguments similar {B}.
Arguments penalties {B}.
Arguments unsettled {B}.
Arguments rounds {B}.
Arguments bond_table {B}.
Arguments pool_funded {B}.

(** * Keys *)

Definition verificationRoundKey (round : Z) : gostr := be_bytes 8 (u64 round).
Definition assignmentKey (round : Z) (domain : gostr) : gostr := verificationRoundKey round ++ domain.
Definition submissionPrefix (round : Z) (domain : gostr) : gostr := assignmentKey round domain ++ [0].
Definition submissionKey (round : Z) (domain verifier : gostr) : gostr := submissionPrefix round domain ++ verifier.
Definition commitKey (round : Z) (domain verifier : gostr) : gostr := submissionPrefix round domain ++ verifier.

#[global] Arguments verificationRoundKey : simpl never.
#[global] Arguments assignmentKey : simpl never.
#[global] Arguments submissionPrefix : simpl never.
#[global] Arguments submissionKey : simpl never.
#[global] Arguments commitKey : simpl never.

(** * The statistics of a round *)

Definition SimilarTopN : Z := 15.

Record RoundStats := mkStats {
  MajorityExpectedHash : gostr; Passes : Z; Fails : Z; Quorum : Z; VerifiedSimilarDomains : Z }.

Definition requiredQuorum (assigned : Z) : Z := if assigned <=? 0 then 0 else Z.quot (assigned + 1) 2.

(** Byte order of strings, the Go [<]. *)
Definition str_ltb (a b : gostr) : bool := key_leb a b && negb (bool_decide (a = b)).

Definition count_hash (subs : list Submission) : gmap gostr Z :=
  foldl (λ m s, if b_Passed s && negb (empty (b_ExpectedSetHash s))
                then <[b_ExpectedSetHash s := default 0 (m !! b_ExpectedSetHash s) + 1]> m else m) ∅ subs.

(** The loop over [hashCounts], in whatever order the map is visited. *)
Definition best_step (best : gostr * Z) (hc : gostr * Z) : gostr * Z :=
  if (best.2 <? hc.2) || ((hc.2 =? best.2) && str_ltb hc.1 best.1) then hc else best.
Definition best_hash (counts : list (gostr * Z)) : gostr * Z := foldl best_step ([], 0) counts.

(** [order] is the order in which the runtime visits the map. *)
Definition computeSimilarRoundStats (order : gmap gostr Z → list (gostr * Z)) (assigned : Z) (subs : list Submission)
    : RoundStats :=
  let quorum := requiredQuorum assigned in
  match subs with
  | [] => mkStats [] 0 0 quorum 0
  | _ =>
      let passes := Z.of_nat (length (filter (λ s, b_Passed s = true) subs)) in
      let fails := Z.of_nat (length (filter (λ s, b_Passed s = false) subs)) in
      let '(bestHash, bestCount) := best_hash (order (count_hash subs)) in
      let bestHash := if bestCount <? quorum then [] else bestHash in
      let passMatched := b_MatchedSimilarDomains <$>
            filter (λ s, b_Passed s = true ∧ bestHash ≠ [] ∧ b_ExpectedSetHash s = bestHash) subs in
      match passMatched with
      | [] => mkStats bestHash passes fails quorum 0
      | _ =>
          let med := nth (Nat.div (length passMatched) 2) (merge_sort Z.le passMatched) 0 in
          let med := if med <? 0 then 0 else med in
          let med := if SimilarTopN <? med then SimilarTopN else med in
          mkStats bestHash passes fails quorum med
      end
  end.

(** * Hashes of a result *)

Section Hashes.
Context `{GoEnv}.

Definition VerificationResultString (passed : bool) : gostr := if passed then go "pass" else go "fail".

Definition ComputeVerificationCommitHash (domain : gostr) (round : Z) (verifier : gostr) (passed : bool)
    (evidenceHash nonce : gostr) : gostr :=
  EncodeToString (Sum256 (Join [TrimSpace (ToLower domain); FormatInt round; TrimSpace verifier;
    VerificationResultString passed; TrimSpace evidenceHash; TrimSpace nonce] (go "|"))).

Definition ComputeVerificationCommitHashV2 (domain : gostr) (round : Z) (verifier owner : gostr) (passed : bool)
    (evidenceHash nonce : gostr) : gostr :=
  EncodeToString (Sum256 (Join [go "publisher-verification-v2"; TrimSpace (ToLower domain); FormatInt round;
    TrimSpace verifier; TrimSpace owner; VerificationResultString passed; TrimSpace evidenceHash; TrimSpace nonce] (go "|"))).

Definition ComputeVerificationEvidenceHash (observed matched expected : Z) (expectedSet observedSet : gostr) : gostr :=
  EncodeToString (Sum256 (Join [go "publisher-similar-v1"; FormatInt observed; FormatInt matched; FormatInt expected;
    TrimSpace (ToLower expectedSet); TrimSpace (ToLower observedSet)] (go "|"))).

Definition HasVerificationEvidence (observed matched expected : Z) (expectedSet observedSet : gostr) : bool :=
  negb (observed =? 0) || negb (matched =? 0) || negb (expected =? 0) || negb (blank expectedSet) || negb (blank observedSet).

(** * Validation *)

Definition Assignment_ValidateBasic (a : Assignment) : result err unit :=
  first_error [
   ((a_RoundStartUnix a <=? 0), Errorf "round start unix must be positive");
   ((blank (a_Domain a)), Errorf "domain required");
   ((a_StartAtUnix a <=? 0), Errorf "start at unix must be positive");
   ((a_DeadlineUnix a <=? 0), Errorf "deadline unix must be positive");
   ((a_DeadlineUnix a <? a_StartAtUnix a), Errorf "deadline must be >= start at");
   ((negb (forallb (λ v, addr_ok (TrimSpace v)) (a_Verifiers a))), Errorf "invalid verifier address");
   ((negb (blank (a_VerificationOwner a)) && negb (addr_ok (TrimSpace (a_VerificationOwner a)))), Errorf "invalid verification owner address");
   ((blank (a_VerificationOwner a) && a_Reregistration a), Errorf "reregistration requires verification owner")].

Definition Submission_ValidateBasic (s : Submission) : result err unit :=
  first_error [
   ((b_RoundStartUnix s <=? 0), Errorf "round start unix must be positive");
   ((blank (b_Domain s)), Errorf "domain required");
   ((blank (b_Verifier s)), Errorf "verifier required");
   ((negb (addr_ok (TrimSpace (b_Verifier s)))), Errorf "invalid verifier address");
   ((b_ObservedAtUnix s <=? 0), Errorf "observed at unix must be positive");
   ((b_LatencyMs s <? 0), Errorf "latency ms must be >= 0");
   ((b_SubmittedAtUnix s <=? 0), Errorf "submitted at unix must be positive");
   (((b_ObservedSimilarDomains s <? 0) || (b_MatchedSimilarDomains s <? 0) || (b_ExpectedSimilarDomains s <? 0)), Errorf "similar domain counts must be >= 0");
   ((b_ExpectedSimilarDomains s <? b_MatchedSimilarDomains s), Errorf "matched_similar_domains cannot exceed expected_similar_domains");
   ((b_ObservedSimilarDomains s <? b_MatchedSimilarDomains s), Errorf "matched_similar_domains cannot exceed observed_similar_domains");
   (((0 <? b_ExpectedSimilarDomains s) && blank (b_ExpectedSetHash s)), Errorf "expected_set_hash required when expected_similar_domains > 0");
   (((0 <? b_ObservedSimilarDomains s) && blank (b_ObservedSetHash s)), Errorf "observed_set_hash required when observed_similar_domains > 0")].

Definition Stats_ValidateBasic (s : SimilarStats) : result err unit :=
  first_error [
   ((blank (st_Domain s)), Errorf "domain required");
   ((st_RoundStartUnix s <=? 0), Errorf "round_start_unix must be positive");
   (((st_VerifiedSimilar s <? 0) || (SimilarTopN <? st_VerifiedSimilar s)), Errorf "verified_similar_domains must be within [0,15]");
   ((blank (st_ExpectedSetHash s)), Errorf "expected_set_hash required");
   ((st_VerifiedAtUnix s <=? 0), Errorf "verified_at_unix must be positive")].

Definition Reveal_ValidateBasic (m : MsgReveal) : result err unit :=
  first_error [
   ((negb (addr_ok (mv_Verifier m))), Errorf "invalid verifier address");
   ((blank (mv_Domain m)), Errorf "domain required");
   ((mv_RoundStartUnix m <=? 0), Errorf "round start unix must be positive");
   ((blank (mv_Nonce m)), Errorf "nonce required");
   ((negb (blank (mv_VerificationOwner m)) && negb (addr_ok (TrimSpace (mv_VerificationOwner m)))), Errorf "invalid verification owner address");
   (((mv_ObservedSimilarDomains m <? 0) || (mv_MatchedSimilarDomains m <? 0) || (mv_ExpectedSimilarDomains m <? 0)), Errorf "similar domain counts must be >= 0");
   ((mv_ObservedSimilarDomains m <? mv_MatchedSimilarDomains m), Errorf "matched_similar_domains cannot exceed observed_similar_domains");
   ((mv_ExpectedSimilarDomains m <? mv_MatchedSimilarDomains m), Errorf "matched_similar_domains cannot exceed expected_similar_domains");
   (((0 <? mv_ExpectedSimilarDomains m) && blank (mv_ExpectedSetHash m)), Errorf "expected_set_hash required when expected_similar_domains > 0");
   (((0 <? mv_ObservedSimilarDomains m) && blank (mv_ObservedSetHash m)), Errorf "observed_set_hash required when observed_similar_domains > 0");
   ((HasVerificationEvidence (mv_ObservedSimilarDomains m) (mv_MatchedSimilarDomains m) (mv_ExpectedSimilarDomains m)
       (mv_ExpectedSetHash m) (mv_ObservedSetHash m) &&
     negb (bool_decide (ToLower (TrimSpace (mv_EvidenceHash m)) =
       ComputeVerificationEvidenceHash (mv_ObservedSimilarDomains m) (mv_MatchedSimilarDomains m)
         (mv_ExpectedSimilarDomains m) (mv_ExpectedSetHash m) (mv_ObservedSetHash m)))), Errorf "evidence_hash does not match similar-site evidence")].
End Hashes.
#[global] Arguments Assignment_ValidateBasic : simpl never.
#[global] Arguments Submission_ValidateBasic : simpl never.
#[global] Arguments Stats_ValidateBasic : simpl never.
#[global] Arguments Reveal_ValidateBasic : simpl never.

(** * The keeper *)

Section Keeper.
Context `{GoEnv} {B : Type} `{Bank B}.
Abbreviation VStore := (VStore B).

Definition set_market (x : Store B) (s : VStore) : VStore :=
  mkVStore x (assignments s) (submissions s) (commits s) (streaks s) (similar s) (penalties s) (unsettled s) (rounds s) (bond_table s) (pool_funded s).
Definition set_submissions (x : gmap gostr Submission) (s : VStore) : VStore :=
  mkVStore (market s) (assignments s) x (commits s) (streaks s) (similar s) (penalties s) (unsettled s) (rounds s) (bond_table s) (pool_funded s).
Definition set_commits (x : gmap gostr gostr) (s : VStore) : VStore :=
  mkVStore (market s) (assignments s) (submissions s) x (streaks s) (similar s) (penalties s) (unsettled s) (rounds s) (bond_table s) (pool_funded s).
Definition set_streaks (x : gmap gostr Z) (s : VStore) : VStore :=
  mkVStore (market s) (assignments s) (submissions s) (commits s) x (similar s) (penalties s) (unsettled s) (rounds s) (bond_table s) (pool_funded s).
Definition set_similar (x : gmap gostr SimilarStats) (s : VStore) : VStore :=
  mkVStore (market s) (assignments s) (submissions s) (commits s) (streaks s) x (penalties s) (unsettled s) (rounds s) (bond_table s) (pool_funded s).
Definition set_penalties (x : gmap gostr Penalty) (s : VStore) : VStore :=
  mkVStore (market s) (assignments s) (submissions s) (commits s) (streaks s) (similar s) x (unsettled s) (rounds s) (bond_table s) (pool_funded s).

(** An operation of the market on the whole store. *)
Definition on_market (f : Store B → result err (Store B)) (s : VStore) : result err VStore :=
  m ← f (market s); Ok (set_market m s).

Definition with_a_domain (d : gostr) (a : Assignment) : Assignment :=
  mkAssignment (a_RoundStartUnix a) d (a_StartAtUnix a) (a_DeadlineUnix a) (a_Verifiers a) (a_Finalized a)
    (a_FinalizedAtUnix a) (a_Verified a) (a_RewardsSettled a) (a_VerificationOwner a) (a_Reregistration a).

Definition SetAssignment (a : Assignment) (s : VStore) : result err VStore :=
  let a := with_a_domain (NormalizeDomain (a_Domain a)) a in
  Assignment_ValidateBasic a;;
  Ok (mkVStore (market s) (<[assignmentKey (a_RoundStartUnix a) (a_Domain a) := a]> (assignments s)) (submissions s)
        (commits s) (streaks s) (similar s) (penalties s)
        (if a_RewardsSettled a then unsettled s else {[verificationRoundKey (a_RoundStartUnix a)]} ∪ unsettled s)
        (rounds s) (bond_table s) (pool_funded s)).
Definition GetAssignment (round : Z) (domain : gostr) (s : VStore) : option Assignment :=
  assignments s !! assignmentKey round (NormalizeDomain domain).

Definition SetCommit (round : Z) (domain verifier hash : gostr) (s : VStore) : VStore :=
  set_commits (<[commitKey round (NormalizeDomain domain) verifier := hash]> (commits s)) s.
(** An empty value reads as an absent one. *)
Definition GetCommit (round : Z) (domain verifier : gostr) (s : VStore) : option gostr :=
  match commits s !! commitKey round (NormalizeDomain domain) verifier with
  | Some [] | None => None
  | Some h => Some h
  end.
Definition DeleteCommit (round : Z) (domain verifier : gostr) (s : VStore) : VStore :=
  set_commits (delete (commitKey round (NormalizeDomain domain) verifier) (commits s)) s.

Definition with_b_domain (d : gostr) (x : Submission) : Submission :=
  mkSubmission (b_RoundStartUnix x) d (b_Verifier x) (b_Passed x) (b_ObservedAtUnix x) (b_LatencyMs x)
    (b_SubmittedAtUnix x) (b_ObservedSimilarDomains x) (b_MatchedSimilarDomains x) (b_ExpectedSimilarDomains x)
    (b_ExpectedSetHash x) (b_ObservedSetHash x).
Definition SetSubmission (x : Submission) (s : VStore) : result err VStore :=
  let x := with_b_domain (NormalizeDomain (b_Domain x)) x in
  Submission_ValidateBasic x;;
  Ok (set_submissions (<[submissionKey (b_RoundStartUnix x) (b_Domain x) (b_Verifier x) := x]> (submissions s)) s).
Definition GetSubmission (round : Z) (domain verifier : gostr) (s : VStore) : option Submission :=
  submissions s !! submissionKey round (NormalizeDomain domain) verifier.
Definition ListSubmissions (round : Z) (domain : gostr) (s : VStore) : list Submission :=
  snd <$> filter (λ kv, starts_with (submissionPrefix round (NormalizeDomain domain)) kv.1 = true) (entries (submissions s)).

(** A stored streak is positive; 32 bits. *)
Definition GetPublisherFailureStreak (domain : gostr) (s : VStore) : Z := default 0 (streaks s !! NormalizeDomain domain).
Definition SetPublisherFailureStreak (domain : gostr) (count : Z) (s : VStore) : VStore :=
  let key := NormalizeDomain domain in
  set_streaks (if count <=? 0 then delete key (streaks s) else <[key := count]> (streaks s)) s.
Definition IncrementPublisherFailureStreak (domain : gostr) (s : VStore) : Z * VStore :=
  let next := swrap 32 (GetPublisherFailureStreak domain s + 1) in
  let next := if next <? 0 then 0 else next in
  (next, SetPublisherFailureStreak domain next s).
Definition ClearPublisherFailureStreak (domain : gostr) (s : VStore) : VStore := SetPublisherFailureStreak domain 0 s.

Definition GetVerifierPenalty (verifier : gostr) (s : VStore) : Penalty := default (mkPenalty 0 0) (penalties s !! verifier).
Definition SetVerifierPenalty (verifier : gostr) (p : Penalty) (s : VStore) : VStore :=
  set_penalties (if (pn_Count p <=? 0) && (pn_SuspendedUntilUnix p <=? 0) then delete verifier (penalties s)
                 else <[verifier := p]> (penalties s)) s.
Definition ClearVerifierPenalty (verifier : gostr) (s : VStore) : VStore := SetVerifierPenalty verifier (mkPenalty 0 0) s.
Definition ApplyVerifierPenalty (verifier : gostr) (now interval threshold rounds : Z) (s : VStore) : Penalty * VStore :=
  let state := GetVerifierPenalty verifier s in
  let count := swrap 32 (pn_Count state + 1) in
  let threshold := if threshold <=? 0 then 3 else threshold in
  let rounds := if rounds <=? 0 then 3 else rounds in
  let until :=
    if threshold <=? count then
      let duration := i64 (interval * rounds) in
      let duration := if duration <? 60 then 60 else duration in
      let suspendedUntil := i64 (now + duration) in
      if pn_SuspendedUntilUnix state <? suspendedUntil then suspendedUntil else pn_SuspendedUntilUnix state
    else pn_SuspendedUntilUnix state in
  let state := mkPenalty count until in
  (state, SetVerifierPenalty verifier state s).
Definition IsVerifierSuspended (verifier : gostr) (now : Z) (s : VStore) : bool :=
  now <? pn_SuspendedUntilUnix (GetVerifierPenalty verifier s).

Definition SetPublisherSimilarStats (x : SimilarStats) (s : VStore) : result err VStore :=
  let x := mkSimilarStats (NormalizeDomain (st_Domain x)) (st_RoundStartUnix x) (st_VerifiedSimilar x)
             (st_ExpectedSetHash x) (st_VerifiedAtUnix x) in
  Stats_ValidateBasic x;;
  Ok (set_similar (<[NormalizeDomain (st_Domain x) := x]> (similar s)) s).

(** * Assignments *)

(** What [assignNewRound] does for one publisher: [round], [startAt], [deadline]
    and [selected] are the values it has computed for it. *)
Definition assign_one (round startAt deadline : Z) (selected : list gostr) (w : Website) (s : VStore) : result err VStore :=
  match GetAssignment round (w_Domain w) s with
  | Some _ => Ok s
  | None =>
      let reregistration := negb (blank (w_PendingOwner w)) in
      let verificationOwner := if reregistration then TrimSpace (w_PendingOwner w) else w_Owner w in
      SetAssignment (mkAssignment round (w_Domain w) startAt deadline selected false 0 false false verificationOwner
                       reregistration) s
  end.

(** * Commit and reveal *)

Definition assignmentHasVerifier (a : Assignment) (verifier : gostr) : bool :=
  existsb (λ v, bool_decide (v = verifier)) (a_Verifiers a).

Definition SubmitVerificationCommit (p : PublisherParams) (now : Z) (m : MsgCommit) (s : VStore) : result err VStore :=
  let domain := NormalizeDomain (mk_Domain m) in
  match GetAssignment (mk_RoundStartUnix m) domain s with
  | None => Err ErrAssignmentNotFound
  | Some a =>
      guard_err (a_Finalized a) ErrAssignmentClosed;;
      guard_err (negb (assignmentHasVerifier a (mk_Verifier m))) ErrVerifierNotAssigned;;
      let commitDeadline := i64 (a_StartAtUnix a + p_CommitWindowSeconds p) in
      guard_err ((now <? a_StartAtUnix a) || (commitDeadline <? now)) ErrCommitWindowClosed;;
      guard_err (bool_decide (is_Some (GetCommit (mk_RoundStartUnix m) domain (mk_Verifier m) s))) ErrAlreadyCommitted;;
      guard_err (bool_decide (is_Some (GetSubmission (mk_RoundStartUnix m) domain (mk_Verifier m) s))) ErrAlreadySubmitted;;
      let commitHash := ToLower (TrimSpace (mk_CommitHash m)) in
      Ok (SetCommit (mk_RoundStartUnix m) domain (mk_Verifier m) commitHash s)
  end.

(** The hash a reveal must have committed to: the second version of the hash for
    an assignment with an owner, the first one otherwise. *)
Definition expected_hash (m : MsgReveal) (a : Assignment) : result err gostr :=
  let domain := NormalizeDomain (mv_Domain m) in
  let evidenceHash := TrimSpace (mv_EvidenceHash m) in
  let nonce := TrimSpace (mv_Nonce m) in
  let verificationOwner := TrimSpace (mv_VerificationOwner m) in
  let assignmentOwner := TrimSpace (a_VerificationOwner a) in
  if negb (empty assignmentOwner) then
    guard_err (negb (bool_decide (verificationOwner = assignmentOwner))) ErrCommitMismatch;;
    Ok (ComputeVerificationCommitHashV2 domain (mv_RoundStartUnix m) (mv_Verifier m) verificationOwner (mv_Passed m)
          evidenceHash nonce)
  else
    guard_err (negb (empty verificationOwner)) ErrCommitMismatch;;
    Ok (ComputeVerificationCommitHash domain (mv_RoundStartUnix m) (mv_Verifier m) (mv_Passed m) evidenceHash nonce).

Definition RevealVerification (p : PublisherParams) (now : Z) (m : MsgReveal) (s : VStore) : result err (Submission * VStore) :=
  Reveal_ValidateBasic m;;
  let domain := NormalizeDomain (mv_Domain m) in
  match GetAssignment (mv_RoundStartUnix m) domain s with
  | None => Err ErrAssignmentNotFound
  | Some a =>
      guard_err (a_Finalized a) ErrAssignmentClosed;;
      guard_err (negb (assignmentHasVerifier a (mv_Verifier m))) ErrVerifierNotAssigned;;
      let commitDeadline := i64 (a_StartAtUnix a + p_CommitWindowSeconds p) in
      guard_err (now <=? commitDeadline) ErrRevealWindowNotOpen;;
      guard_err (a_DeadlineUnix a <? now) ErrAssignmentClosed;;
      guard_err (bool_decide (is_Some (GetSubmission (mv_RoundStartUnix m) domain (mv_Verifier m) s))) ErrAlreadySubmitted;;
      match GetCommit (mv_RoundStartUnix m) domain (mv_Verifier m) s with
      | None => Err ErrCommitNotFound
      | Some commitHash =>
          expectedHash ← expected_hash m a;
          guard_err (negb (bool_decide (ToLower commitHash = expectedHash))) ErrCommitMismatch;;
          let submission := mkSubmission (mv_RoundStartUnix m) domain (mv_Verifier m) (mv_Passed m) now 0 now
                (mv_ObservedSimilarDomains m) (mv_MatchedSimilarDomains m) (mv_ExpectedSimilarDomains m)
                (ToLower (TrimSpace (mv_ExpectedSetHash m))) (ToLower (TrimSpace (mv_ObservedSetHash m))) in
          s' ← SetSubmission submission s;
          Ok (submission, DeleteCommit (mv_RoundStartUnix m) domain (mv_Verifier m) s')
      end
  end.

(** * Finalisation *)

Definition with_status (st : Z) (w : Website) : Website :=
  mkWebsite (w_Domain w) (w_Owner w) st (w_MetadataURI w) (w_Proof w) (w_RegisteredAtHeight w) (w_Verifier w)
    (w_Referrer w) (w_CooldownUntilUnix w) (w_CooldownCount w) (w_PendingOwner w) (w_PendingReferrer w).
(** The pending owner takes the domain over. *)
Definition take_over (height : Z) (w : Website) : Website :=
  mkWebsite (w_Domain w) (TrimSpace (w_PendingOwner w)) StatusVerified (w_MetadataURI w) (w_Proof w) height (w_Verifier w)
    (TrimSpace (w_PendingReferrer w)) 0 0 [] [].

(** The candidate of the assignment is still the pending owner. *)
Definition candidateMatches (a : Assignment) (w : Website) : bool :=
  negb (blank (w_PendingOwner w)) && bool_decide (TrimSpace (w_PendingOwner w) = TrimSpace (a_VerificationOwner a)).

(** The result of a re-registration. *)
Definition finalize_reregistration (now height : Z) (hasQuorum verified : bool) (a : Assignment) (w : Website) (s : VStore)
    : result err (bool * VStore) :=
  if negb (candidateMatches a w) then Ok (false, s)
  else if verified then
    let w' := take_over height w in
    s ← on_market (transferSlotsForDomain (w_Domain w) (w_Owner w) (w_Owner w') now) s;
    s ← on_market (UpsertWebsite w') s;
    Ok (true, ClearPublisherFailureStreak (w_Domain w) s)
  else if hasQuorum then
    s ← on_market (UpsertWebsite (with_pending [] [] w)) s;
    Ok (false, s)
  else Ok (false, s).

(** A verification that passed. *)
Definition finalize_verified (now : Z) (st : RoundStats) (a : Assignment) (w : Website) (s : VStore) : result err VStore :=
  let w' := if w_Status w =? StatusVerified then w else with_status StatusVerified w in
  s ← (if w_Status w =? StatusVerified then Ok s else on_market (UpsertWebsite w') s);
  let s := ClearPublisherFailureStreak (w_Domain w') s in
  (* an error of SetPublisherSimilarStats is discarded *)
  let s := if empty (MajorityExpectedHash st) then s
           else match SetPublisherSimilarStats (mkSimilarStats (w_Domain w') (a_RoundStartUnix a)
                        (VerifiedSimilarDomains st) (MajorityExpectedHash st) now) s with
                | Ok s' => s'
                | Err _ => s
                end in
  on_market (λ m, r ← clearPublisherCooldown w' m; Ok r.2) s.

(** The part of a failed verification that demotes the website. *)
Definition demote (p : PublisherParams) (w : Website) (s : VStore) : result err (Website * VStore) :=
  if (w_Status w =? StatusVerified) || (w_Status w =? StatusPending) then
    let '(failCount, s) := IncrementPublisherFailureStreak (w_Domain w) s in
    if w_Status w =? StatusVerified then
      let w := with_status (if EffectivePublisherRevokeFailureThreshold p <=? failCount then StatusRevoked else StatusPending) w in
      s ← on_market (UpsertWebsite w) s;
      Ok (w, s)
    else Ok (w, s)
  else Ok (w, s).

(** A verification that failed with a quorum. *)
Definition finalize_failed (p : PublisherParams) (now : Z) (w : Website) (s : VStore) : result err VStore :=
  r ← demote p w s;
  let '(w, s) := r in
  match activeLeasesForDomain (w_Domain w) now now (market s) with
  | [] => Ok s
  | _ =>
      if w_CooldownUntilUnix w <=? now then
        on_market (λ m,
          r ← applyPublisherCooldown (p_CooldownBaseSeconds p) now w m;
          violateActiveLeasesForDomain (w_Domain r.1.1) now now r.2) s
      else Ok s
  end.

Definition penalize_one (p : PublisherParams) (now : Z) (hasQuorum majorityPass : bool) (subs : gmap gostr Submission)
    (verifier : gostr) (s : VStore) : VStore :=
  let interval := if p_RoundIntervalSeconds p <=? 0 then 3600 else p_RoundIntervalSeconds p in
  let penalize := match subs !! verifier with
                  | None => true
                  | Some sub => hasQuorum && negb (eqb (b_Passed sub) majorityPass)
                  end in
  if penalize then
    (ApplyVerifierPenalty verifier now interval (EffectiveVerifierPenaltySuspendThreshold p)
       (EffectiveVerifierPenaltySuspendRounds p) s).2
  else ClearVerifierPenalty verifier s.

Definition finalized (now : Z) (verified : bool) (a : Assignment) : Assignment :=
  mkAssignment (a_RoundStartUnix a) (a_Domain a) (a_StartAtUnix a) (a_DeadlineUnix a) (a_Verifiers a) true now verified
    (a_RewardsSettled a) (a_VerificationOwner a) (a_Reregistration a).

(** What the submissions decide. *)
Definition has_quorum (st : RoundStats) (subs : list Submission) : bool :=
  (Quorum st <=? Z.of_nat (length subs)) && (0 <? Quorum st).
Definition majority_pass (st : RoundStats) (subs : list Submission) : bool := has_quorum st subs && (Fails st <? Passes st).

(** The callback of [finalizeAssignments] on one assignment. *)
Definition finalize_one (order : gmap gostr Z → list (gostr * Z)) (p : PublisherParams) (now height : Z) (a : Assignment) (s : VStore)
    : result err VStore :=
  if a_Finalized a || (now <? a_DeadlineUnix a) then Ok s
  else
    let subs := ListSubmissions (a_RoundStartUnix a) (a_Domain a) s in
    let byVerifier := foldl (λ m x, <[b_Verifier x := x]> m) (∅ : gmap gostr Submission) subs in
    let st := computeSimilarRoundStats order (Z.of_nat (length (a_Verifiers a))) subs in
    let hasQuorum := has_quorum st subs in
    let majorityPass := majority_pass st subs in
    let verified := hasQuorum && majorityPass in
    r ← match GetWebsite (a_Domain a) (market s) with
        | None => Ok (verified, s)
        | Some w =>
            if a_Reregistration a then finalize_reregistration now height hasQuorum verified a w s
            else if verified then s ← finalize_verified now st a w s; Ok (true, s)
            else if hasQuorum then s ← finalize_failed p now w s; Ok (false, s)
            else Ok (false, s)
        end;
    let '(verified, s) := r in
    let s := foldl (λ s v, penalize_one p now hasQuorum majorityPass byVerifier v s) s (a_Verifiers a) in
    SetAssignment (finalized now verified a) s.

(** The iterator sees the assignments as they were when it was opened; the body
    writes only the assignment it is at. *)
Definition finalizeAssignments (order : gmap gostr Z → list (gostr * Z)) (p : PublisherParams) (now height : Z) (s : VStore)
    : result err VStore :=
  each (finalize_one order p now height) (values (assignments s)) s.
End Keeper.
