(* ===== verification/VerificationProofs.v ===== *)
(** Lemmas on publisher verification: the majority hash does not depend on the
    order in which the runtime visits a map, and each branch of the finalisation
    of an assignment keeps the invariant of the market, its escrow and its
    registered domains. *)

From stdpp Require Import sorting.
From S2P Require Import Prelude JsBase GoBase GoHash Market MarketProofs GoSdk Verifiers RegParams Verification.

(** * The majority hash *)

(** [x] wins over [y]: more votes, or as many and first in the order. *)
Definition beats (x y : gostr * Z) : Prop := y.2 < x.2 ∨ (y.2 = x.2 ∧ key_leb x.1 y.1 = true).

Lemma beats_antisym x y : beats x y → beats y x → x = y.
Proof.
  intros [?|[? H1]] [?|[? H2]]; try lia. destruct x, y; cbn in *. f_equal; [|lia]. by apply key_leb_antisym.
Qed.

Lemma best_step_cases b x : (best_step b x = b ∨ best_step b x = x) ∧ beats (best_step b x) b ∧ beats (best_step b x) x.
Proof.
  unfold best_step, str_ltb, beats. destruct (_ || _) eqn:E; cbn.
  - split; [by right|]. rewrite orb_true_iff, !andb_true_iff, Z.ltb_lt, Z.eqb_eq in E. split; [|by auto using key_leb_refl].
    destruct E as [?|(? & ? & _)]; [by left|right]. split; [lia|done].
  - split; [by left|]. rewrite orb_false_iff, !andb_false_iff, Z.ltb_ge, Z.eqb_neq in E. split; [by auto using key_leb_refl|].
    destruct E as [? E]. destruct (decide (x.2 = b.2)) as [Heq|]; [|left; lia]. right. split; [done|].
    destruct E as [?|[E|E]]; [done| |].
    + destruct (key_leb_total b.1 x.1); congruence.
    + apply negb_false_iff, bool_decide_eq_true in E. rewrite E. apply key_leb_refl.
Qed.

Lemma beats_trans x y z : beats x y → beats y z → beats x z.
Proof.
  unfold beats. intros [?|[? H1]] [?|[? H2]]; [left; lia..|]. right. split; [lia|]. by eapply key_leb_trans.
Qed.

Lemma best_fold l b : (foldl best_step b l = b ∨ foldl best_step b l ∈ l) ∧ beats (foldl best_step b l) b ∧
  ∀ x, x ∈ l → beats (foldl best_step b l) x.
Proof.
  revert b. induction l as [|y l IH]; intros b; cbn [foldl].
  - split; [by left|]. split; [right; auto using key_leb_refl|]. by intros x ?%elem_of_nil.
  - destruct (IH (best_step b y)) as (Hin & Hb & Hl). destruct (best_step_cases b y) as (Hs & H1 & H2). split_and!.
    + rewrite elem_of_cons. destruct Hin as [-> |]; [|by auto]. destruct Hs as [-> | ->]; auto.
    + by eapply beats_trans.
    + intros x [-> |Hx]%elem_of_cons; [by eapply beats_trans|by apply Hl].
Qed.

(** The winner is the same in whatever order the votes are visited. *)
Lemma best_hash_perm l l' : l ≡ₚ l' → Forall (λ x, 0 < x.2) l → best_hash l = best_hash l'.
Proof.
  intros Hp Hpos. unfold best_hash. destruct (best_fold l ([], 0)) as (Hin & Hb & Hl).
  destruct (best_fold l' ([], 0)) as (Hin' & Hb' & Hl').
  assert (∀ x, x ∈ l → ¬ beats ([], 0) x) as Hz.
  { intros x Hx. rewrite list.Forall_forall in Hpos. specialize (Hpos x Hx). unfold beats. cbn. lia. }
  set (r := foldl _ _ l) in *. set (r' := foldl _ _ l') in *.
  destruct Hin as [Er|Hr], Hin' as [Er'|Hr']; [congruence|..].
  - exfalso. rewrite <- Hp in Hr'. apply (Hz r' Hr'). rewrite <- Er. by apply Hl.
  - exfalso. apply (Hz r Hr). rewrite <- Er'. apply Hl'. by rewrite <- Hp.
  - apply beats_antisym; [apply Hl; by rewrite Hp|apply Hl'; by rewrite <- Hp].
Qed.

Lemma count_hash_pos subs h c : count_hash subs !! h = Some c → 0 < c.
Proof.
  unfold count_hash.
  enough (∀ m : gmap gostr Z, (∀ k v, m !! k = Some v → 0 < v) → ∀ h c, foldl (λ m s, if b_Passed s && negb (empty (b_ExpectedSetHash s))
    then <[b_ExpectedSetHash s := default 0 (m !! b_ExpectedSetHash s) + 1]> m else m) m subs !! h = Some c → 0 < c) as Hg.
  { apply Hg. by intros k v ?%lookup_empty_Some. }
  induction subs as [|s subs IH]; intros m Hm h' c'; cbn [foldl]; [by apply Hm|]. apply IH.
  destruct (_ && _); [|done]. intros k v [[<- <-]|[_ Hv]]%lookup_insert_Some; [|by eapply Hm].
  destruct (m !! b_ExpectedSetHash s) as [w|] eqn:E; cbn; [|lia]. specialize (Hm _ _ E). lia.
Qed.

(** An order in which a map may be visited. *)
Definition visits (order : gmap gostr Z → list (gostr * Z)) : Prop := ∀ m, order m ≡ₚ map_to_list m.

Lemma stats_order o o' n subs : visits o → visits o' → computeSimilarRoundStats o n subs = computeSimilarRoundStats o' n subs.
Proof.
  intros Ho Ho'. unfold computeSimilarRoundStats. rewrite (best_hash_perm (o (count_hash subs)) (o' (count_hash subs))); [done| |].
  - by rewrite (Ho _), (Ho' _).
  - rewrite (Ho _). apply list.Forall_forall. intros [h c] Hx%elem_of_map_to_list. by eapply count_hash_pos.
Qed.

(** * What finalisation keeps of the market *)

Section Keeps.
Context `{GoEnv} {B : Type} `{Bank B}.
Abbreviation Store := (Store B).
Abbreviation VStore := (VStore B).

(** The invariant, the surplus of the escrow, the counters and the set of
    registered domains. *)
Definition keeps (m m' : Store) : Prop := market_inv m →
  market_inv m' ∧ (∀ d, surplus d m' = surplus d m) ∧ slotSeq m' = slotSeq m ∧ leaseSeq m' = leaseSeq m ∧
  primaryDomains m' = primaryDomains m ∧ dom (websites m') = dom (websites m).

#[global] Instance keeps_preorder : PreOrder keeps.
Proof.
  split.
  - intros m Hm. done.
  - intros m1 m2 m3 H1 H2 Hm. destruct (H1 Hm) as (Hm2 & ? & ? & ? & ? & ?). destruct (H2 Hm2) as (? & Hs & ? & ? & ? & ?).
    split_and!; try done; try congruence.
Qed.

Lemma UpsertWebsite_keeps w m m' : is_Some (websites m !! w_Domain w) → UpsertWebsite w m = Ok m' → keeps m m'.
Proof.
  intros Hd HU Hm. pose proof (UpsertWebsite_inv _ _ _ Hm HU).
  destruct (UpsertWebsite_frame _ _ _ HU) as (Hl & Hb & _ & Hq1 & Hq2 & Hw & _ & Hp).
  split_and!; try done.
  - intros d. unfold surplus. by rewrite Hl, Hb.
  - rewrite Hw, (stored_domain_normal m), dom_insert_lookup_L; done.
Qed.

Lemma GetWebsite_domain d w (m : Store) : market_inv m → GetWebsite d m = Some w →
  w_Domain w = NormalizeDomain d ∧ is_Some (websites m !! w_Domain w).
Proof. intros Hm Hw. destruct (mi_websites m Hm _ _ Hw) as [-> _]. eauto. Qed.

Lemma transfer_keeps d p n now m m' : transferSlotsForDomain d p n now m = Ok m' → keeps m m'.
Proof.
  intros HT Hm. pose proof (transferSlotsForDomain_inv _ _ _ _ _ _ Hm HT).
  destruct (transfer_frame _ _ _ _ _ _ HT) as (Hl & Hb & Hw & ? & ? & ?). split_and!; try done; [|by rewrite Hw].
  intros c. unfold surplus. by rewrite Hl, Hb.
Qed.

Lemma violate_keeps d now bt m m' : 0 < now →
  violateActiveLeasesForDomain d now bt m = Ok m' → keeps m m'.
Proof.
  intros Hn HV Hm. destruct (violate_effect _ _ _ _ _ Hn Hm HV) as (? & ? & ? & ? & ? & Hw & _). split_and!; try done. by rewrite Hw.
Qed.

Lemma applyPublisherCooldown_keeps base now w (m : Store) r : is_Some (websites m !! w_Domain w) →
  applyPublisherCooldown base now w m = Ok r → keeps m r.2 ∧ w_Domain r.1.1 = w_Domain w.
Proof.
  intros Hd HA. unfold applyPublisherCooldown in HA. run_ok HA. injection HA as <-. split; [|done].
  match goal with E : UpsertWebsite ?w' _ = _ |- _ => apply (UpsertWebsite_keeps w'); [exact Hd|exact E] end.
Qed.

Lemma clearPublisherCooldown_keeps w (m : Store) r : is_Some (websites m !! w_Domain w) →
  clearPublisherCooldown w m = Ok r → keeps m r.2.
Proof.
  intros Hd HA. unfold clearPublisherCooldown in HA. run_ok HA; injection HA as <-; [done|].
  eapply (UpsertWebsite_keeps (with_cooldown 0 0 w)); [exact Hd|eassumption].
Qed.

Lemma on_market_Ok f (s s' : VStore) : on_market f s = Ok s' → ∃ m, f (market s) = Ok m ∧ s' = set_market m s.
Proof. intros HO. unfold on_market in HO. run_ok HO. injection HO as <-. eauto. Qed.

(** ** The tables an operation leaves alone *)

(** Only the market, the streaks, the similar-site statistics and the penalties
    change; the market keeps what it has to. *)
Definition settles (s s' : VStore) : Prop :=
  keeps (market s) (market s') ∧ assignments s' = assignments s ∧ submissions s' = submissions s ∧
  commits s' = commits s ∧ unsettled s' = unsettled s ∧ rounds s' = rounds s ∧ bond_table s' = bond_table s ∧ pool_funded s' = pool_funded s.

#[global] Instance settles_preorder : PreOrder settles.
Proof.
  split.
  - intros s. by split_and!.
  - intros s1 s2 s3 (? & ? & ? & ? & ? & ? & ? & ?) (? & ? & ? & ? & ? & ? & ? & ?). split_and!; try congruence. by etrans.
Qed.

Lemma settles_frame (s s' : VStore) : market s' = market s → assignments s' = assignments s →
  submissions s' = submissions s → commits s' = commits s → unsettled s' = unsettled s → rounds s' = rounds s →
  bond_table s' = bond_table s → pool_funded s' = pool_funded s → settles s s'.
Proof. intros Hm ? ? ? ? ? ? ?. split_and!; try done. by rewrite Hm. Qed.

Lemma settles_dom s s' d : settles s s' → market_inv (market s) → is_Some (websites (market s) !! d) →
  market_inv (market s') ∧ is_Some (websites (market s') !! d).
Proof.
  intros [Hk _] Hi Hd. destruct (Hk Hi) as (? & _ & _ & _ & _ & Hdom). split; [done|].
  apply elem_of_dom. rewrite Hdom. by apply elem_of_dom.
Qed.

Lemma on_market_settles f (s s' : VStore) : (∀ m, f (market s) = Ok m → keeps (market s) m) →
  on_market f s = Ok s' → settles s s'.
Proof. intros Hf (m & Hm & ->)%on_market_Ok. split_and!; try done. by apply Hf. Qed.

Lemma penalize_settles p now q mp subs v (s : VStore) : settles s (penalize_one p now q mp subs v s).
Proof. unfold penalize_one. repeat case_match; by apply settles_frame. Qed.

Lemma penalties_settles p now q mp subs vs (s : VStore) :
  settles s (foldl (λ s v, penalize_one p now q mp subs v s) s vs).
Proof.
  revert s. induction vs as [|v vs IH]; intros s; cbn; [done|]. etrans; [apply penalize_settles|apply IH].
Qed.

(** The website of an assignment, as the finalisation finds it. *)
Section Website.
Context (s : VStore) (w : Website).
Hypothesis Hi : market_inv (market s).
Hypothesis Hw : is_Some (websites (market s) !! w_Domain w).

Lemma finalize_reregistration_settles now height q v a r :
  finalize_reregistration now height q v a w s = Ok r → settles s r.2.
Proof.
  intros HF. unfold finalize_reregistration in HF. run_ok HF; injection HF as <-; try done.
  - match goal with E1 : on_market _ s = Ok ?t, E2 : on_market _ ?t = Ok ?u |- _ =>
      assert (settles s t) as Hs by (eapply on_market_settles; [|exact E1]; intros m; apply transfer_keeps);
      destruct (settles_dom _ _ (w_Domain w) Hs Hi Hw) as [_ ?];
      assert (settles t u) as Hu by (eapply on_market_settles; [|exact E2]; intros m; by apply UpsertWebsite_keeps) end.
    etrans; [exact Hs|]. etrans; [exact Hu|by apply settles_frame].
  - eapply on_market_settles; [|eassumption]. intros m. by apply UpsertWebsite_keeps.
Qed.

Lemma upsert_then_settles b w' (t : VStore) : w_Domain w' = w_Domain w →
  (if b : bool then Ok s else on_market (UpsertWebsite w') s) = Ok t →
  settles s t ∧ market_inv (market t) ∧ is_Some (websites (market t) !! w_Domain w).
Proof.
  intros Hd HU. assert (settles s t) as Hs.
  { destruct b; [by injection HU as <-|]. eapply on_market_settles; [|exact HU]. intros m. apply UpsertWebsite_keeps.
    by rewrite Hd. }
  split; [done|]. by apply (settles_dom s t).
Qed.

Lemma finalize_verified_settles now st a s' : finalize_verified now st a w s = Ok s' → settles s s'.
Proof.
  intros HF. unfold finalize_verified in HF. run_ok HF.
  match goal with E : _ = Ok ?t |- _ => apply upsert_then_settles in E as (Hs & _ & Ht); [|by destruct (w_Status w =? StatusVerified)] end.
  etrans; [exact Hs|].
  match type of HF with on_market _ ?u = _ => assert (settles r u ∧ market u = market r) as [Hu Hm] end.
  { destruct (empty _); [by split; [apply settles_frame|]|].
    destruct (SetPublisherSimilarStats _ _) as [u|] eqn:E; [|by split; [apply settles_frame|]].
    unfold SetPublisherSimilarStats in E. run_ok E. injection E as <-. by split; [apply settles_frame|]. }
  etrans; [exact Hu|]. eapply on_market_settles; [|exact HF]. rewrite Hm. intros m Hc. run_ok Hc. injection Hc as <-.
  eapply clearPublisherCooldown_keeps; [|eassumption]. by destruct (w_Status w =? StatusVerified).
Qed.

Lemma demote_settles p w' (s' : VStore) : demote p w s = Ok (w', s') → settles s s' ∧ w_Domain w' = w_Domain w.
Proof.
  intros HF. unfold demote in HF. run_ok HF; injection HF as <- <-; try (by split);
    match goal with E : IncrementPublisherFailureStreak _ _ = _ |- _ => injection E as <- <- end; [|by split; [apply settles_frame|]].
  split; [|done]. match goal with E : on_market _ ?t = Ok _ |- _ => trans t; [by apply settles_frame|]; eapply on_market_settles; [|exact E] end.
  intros m. by apply UpsertWebsite_keeps.
Qed.

Lemma finalize_failed_settles p now s' : 0 < now → finalize_failed p now w s = Ok s' → settles s s'.
Proof.
  intros Hn HF. unfold finalize_failed in HF. run_ok HF.
  all: match goal with E : demote _ _ _ = Ok _ |- _ => apply demote_settles in E as [Hs Hd] end.
  all: try (injection HF as <-; exact Hs).
  etrans; [exact Hs|]. destruct (settles_dom _ _ (w_Domain w) Hs Hi Hw) as [Hi' Hw'].
  eapply on_market_settles; [|exact HF]. intros m Hm. run_ok Hm.
  match goal with E : applyPublisherCooldown _ _ _ _ = Ok _ |- _ => apply applyPublisherCooldown_keeps in E as [Hk _]; [|by rewrite Hd] end.
  etrans; [exact Hk|]. by eapply violate_keeps.
Qed.
End Website.
End Keeps.
