(* ===== verification/BankFrame.v ===== *)
(** What the market does to the rest of the bank: a property of the bank that the
    two transfers of the market keep is kept by leasing, by the settlement of
    leases and by the finalisation of assignments; so the accounts of the other
    modules and the supply are as they were. *)

From stdpp Require Import sorting.
From S2P Require Import Prelude JsBase GoBase GoHash Market MarketProofs GoSdk Verifiers RegParams Verification VerificationProofs.

Section Frame.
Context `{GoEnv} {B : Type} `{Bank B} (I : B → Prop).
Abbreviation Store := (Store B).
Abbreviation VStore := (VStore B).
Hypothesis to_kept : ∀ b a d n b', 0 < n → SendCoinsFromAccountToModule b a d n = Some b' → I b → I b'.
Hypothesis from_kept : ∀ b a d n b', 0 < n → SendCoinsFromModuleToAccount b a d n = Some b' → I b → I b'.

Lemma LeaseSlot_bank now m (s : Store) l s' : LeaseSlot now m s = Ok (l, s') → I (bank s) → I (bank s').
Proof.
  intros HL%LeaseSlot_Ok Hb. destruct (le_paid _ _ _ _ _ HL) as [[_ ->]|(Hpos & _ & a & _ & Hs)]; [done|]. by eapply to_kept.
Qed.

Lemma release_bank to_ l (s s' : Store) : release to_ l s = Ok s' → I (bank s) → I (bank s').
Proof.
  intros HR Hb. unfold release in HR. run_ok HR; injection HR as <-; [|done]. zb.
  eapply from_kept; [|eassumption|exact Hb]. done.
Qed.

Lemma refund_bank l st now (s s' : Store) : refundLease l st now s = Ok s' → I (bank s) → I (bank s').
Proof. intros HR Hb. unfold refundLease in HR. run_ok HR. apply SetLease_Ok in HR as [_ ->]. cbn. eapply release_bank; eassumption. Qed.

Lemma settleLeases_bank now (s s' : Store) : settleLeases now s = Ok s' → I (bank s) → I (bank s').
Proof.
  intros HS. unfold settleLeases in HS. intros Hb. eapply (each_ind (λ s, I (bank s))); [|exact Hb|exact HS].
  intros l t t' _ Ht HO. unfold settle_one in HO. run_ok HO; try (by injection HO as <-); [eapply refund_bank; eassumption|].
  unfold payoutLease in HO. run_ok HO. apply SetLease_Ok in HO as [_ ->]. cbn. eapply release_bank; eassumption.
Qed.

Lemma violate_bank d now bt (s s' : Store) : violateActiveLeasesForDomain d now bt s = Ok s' → I (bank s) → I (bank s').
Proof.
  intros HS Hb. unfold violateActiveLeasesForDomain in HS. eapply (each_ind (λ s, I (bank s))); [|exact Hb|exact HS].
  intros l t t' _ Ht HR. exact (refund_bank _ _ _ _ _ HR Ht).
Qed.

Lemma Upsert_bank w (s s' : Store) : UpsertWebsite w s = Ok s' → bank s' = bank s.
Proof. by intros (_ & ? & _)%UpsertWebsite_frame. Qed.

Lemma apply_bank base now w (s : Store) r : applyPublisherCooldown base now w s = Ok r → bank r.2 = bank s.
Proof. intros HA. unfold applyPublisherCooldown in HA. run_ok HA. injection HA as <-. by eapply Upsert_bank. Qed.

Lemma clear_bank w (s : Store) r : clearPublisherCooldown w s = Ok r → bank r.2 = bank s.
Proof. intros HA. unfold clearPublisherCooldown in HA. run_ok HA; injection HA as <-; [done|]. by eapply Upsert_bank. Qed.

Lemma reregistration_bank now h q v a w (s : VStore) r : finalize_reregistration now h q v a w s = Ok r →
  bank (market r.2) = bank (market s).
Proof.
  intros HF. unfold finalize_reregistration in HF. run_ok HF; injection HF as <-; try done.
  - match goal with E1 : on_market _ s = Ok _ |- _ => apply on_market_Ok in E1 as (m1 & Hm1 & ->) end.
    match goal with E2 : on_market _ _ = Ok _ |- _ => apply on_market_Ok in E2 as (m2 & Hm2 & ->) end.
    apply Upsert_bank in Hm2. destruct (transfer_frame _ _ _ _ _ _ Hm1) as (_ & Hb & _). cbn in *. congruence.
  - match goal with E1 : on_market _ s = Ok _ |- _ => apply on_market_Ok in E1 as (m1 & Hm1 & ->) end. by apply Upsert_bank in Hm1.
Qed.

Lemma verified_bank now st a w (s s' : VStore) : finalize_verified now st a w s = Ok s' → bank (market s') = bank (market s).
Proof.
  intros HF. unfold finalize_verified in HF. cbv zeta in HF. apply bind_Ok_inv in HF as (t & E & HF).
  apply on_market_Ok in HF as (m & Hm & ->). trans (bank (market t)).
  - match type of Hm with mbind _ (clearPublisherCooldown _ (market ?u)) = _ => assert (market u = market t) as Hu; [|rewrite Hu in Hm] end.
    { destruct (empty _); [done|]. destruct (SetPublisherSimilarStats _ _) as [u|] eqn:Es; [|done].
      unfold SetPublisherSimilarStats in Es. run_ok Es. by injection Es as <-. }
    run_ok Hm. injection Hm as <-. cbn. by eapply clear_bank.
  - destruct (w_Status w =? StatusVerified); [by injection E as <-|]. apply on_market_Ok in E as (u & Hu & ->). cbn. by eapply Upsert_bank.
Qed.

Lemma demote_bank p w (s : VStore) r : demote p w s = Ok r → bank (market r.2) = bank (market s).
Proof.
  intros HF. unfold demote in HF. run_ok HF; injection HF as <-; try done;
    match goal with E : IncrementPublisherFailureStreak _ _ = _ |- _ => injection E as <- <- end; [|done].
  match goal with E : on_market _ _ = Ok _ |- _ => apply on_market_Ok in E as (m & Hm & ->) end. cbn. by apply Upsert_bank in Hm.
Qed.

Lemma failed_bank p now w (s s' : VStore) : finalize_failed p now w s = Ok s' → I (bank (market s)) → I (bank (market s')).
Proof.
  intros HF Hb. unfold finalize_failed in HF. apply bind_Ok_inv in HF as ([w' t] & E & HF). apply demote_bank in E. cbn in E.
  rewrite <- E in Hb. run_ok HF; try (by injection HF as <-). apply on_market_Ok in HF as (m & Hm & ->). run_ok Hm.
  eapply violate_bank; [exact Hm|]. match goal with E : applyPublisherCooldown _ _ _ _ = Ok _ |- _ => by rewrite (apply_bank _ _ _ _ _ E) end.
Qed.

Lemma penalties_bank p now q mp subs vs (s : VStore) :
  bank (market (foldl (λ s v, penalize_one p now q mp subs v s) s vs)) = bank (market s).
Proof. revert s. induction vs as [|v vs IH]; intros s; [done|]. cbn [foldl]. rewrite IH. unfold penalize_one. by repeat case_match. Qed.

Lemma finalize_one_bank order p now h a (s s' : VStore) : finalize_one order p now h a s = Ok s' → I (bank (market s)) → I (bank (market s')).
Proof.
  intros HF Hb. unfold finalize_one in HF. destruct (a_Finalized a || _); [by injection HF as <-|]. cbv zeta in HF.
  apply bind_Ok_inv in HF as ([v t] & E & HF).
  assert (bank (market s') = bank (market t)) as ->.
  { unfold SetAssignment in HF. run_ok HF. injection HF as <-. apply penalties_bank. }
  destruct (GetWebsite (a_Domain a) (market s)) as [w|]; [|by injection E as <- <-]. destruct (a_Reregistration a).
  - apply reregistration_bank in E. cbn in E. by rewrite E.
  - run_ok E; injection E as <- <-; try done; [|by eapply failed_bank].
    match goal with E : finalize_verified _ _ _ _ _ = Ok _ |- _ => by rewrite (verified_bank _ _ _ _ _ _ E) end.
Qed.

Lemma finalizeAssignments_bank order p now h (s s' : VStore) : finalizeAssignments order p now h s = Ok s' →
  I (bank (market s)) → I (bank (market s')).
Proof.
  intros HF Hb. unfold finalizeAssignments in HF. eapply (each_ind (λ s, I (bank (market s)))); [|exact Hb|exact HF].
  intros a t t' _ Ht HO. exact (finalize_one_bank _ _ _ _ _ _ _ HO Ht).
Qed.
End Frame.

(** * The other modules *)

Section Elsewhere.
Context {B : Type} `{BankKeeper B}.

(** The accounts of the modules other than [m], and the supply, are the same. *)
Definition only_module (m : gostr) (b b' : B) : Prop :=
  (∀ m' d, m' ≠ m → mod_bal b' m' d = mod_bal b m' d) ∧ ∀ d, supply b' d = supply b d.

#[global] Instance only_module_preorder m : PreOrder (only_module m).
Proof.
  split.
  - by intros b.
  - intros b1 b2 b3 [M1 S1] [M2 S2]. split; [intros m' d Hm; by rewrite M2, M1|intros d; by rewrite S2, S1].
Qed.

Lemma AccountToModule_only b a m d n b' : 0 < n → AccountToModule b a m d n = Some b' → only_module m b b'.
Proof.
  intros Hn Hs. destruct (AccountToModule_spec _ _ _ _ _ _ Hn Hs) as (_ & Hm & _ & Hsup). split; [|done].
  intros m' d' Hne. rewrite Hm. case_decide; [tauto|lia].
Qed.

Lemma ModuleToAccount_only b a m d n b' : 0 < n → ModuleToAccount b m a d n = Some b' → only_module m b b'.
Proof.
  intros Hn Hs. destruct (ModuleToAccount_spec _ _ _ _ _ _ Hn Hs) as (_ & Hm & _ & Hsup). split; [|done].
  intros m' d' Hne. rewrite Hm. case_decide; [tauto|lia].
Qed.

(** The transfers of the market keep a bank within reach of [b0]. *)
Lemma market_to_only b0 b a d n b' : 0 < n → SendCoinsFromAccountToModule b a d n = Some b' →
  only_module registry_module b0 b → only_module registry_module b0 b'.
Proof. intros Hn Hs Hb. etrans; [exact Hb|]. exact (AccountToModule_only _ _ _ _ _ _ Hn Hs). Qed.

Lemma market_from_only b0 b a d n b' : 0 < n → SendCoinsFromModuleToAccount b a d n = Some b' →
  only_module registry_module b0 b → only_module registry_module b0 b'.
Proof. intros Hn Hs Hb. etrans; [exact Hb|]. exact (ModuleToAccount_only _ _ _ _ _ _ Hn Hs). Qed.
End Elsewhere.
