(* ===== verification/ChainInv.v ===== *)
(** The invariant of the registry's store ([chain_inv]): the keys of the tables, the
    assignments and submissions they hold, and that the finalisation of assignments
    keeps it. *)

From stdpp Require Import sorting.
From S2P Require Import Prelude JsBase GoBase GoHash Market MarketProofs GoSdk Verifiers RegParams Verification VerificationProofs.

Section Inv.
Context `{GoEnv} {B : Type} `{Bank B}.
Abbreviation Store := (Store B).
Abbreviation VStore := (VStore B).

(** * Finalisation of one assignment *)

(** What [finalize_one] does to an assignment that is due. *)
Definition done_with (now : Z) (a : Assignment) (s s' : VStore) : Prop :=
  keeps (market s) (market s') ∧ submissions s' = submissions s ∧ commits s' = commits s ∧
  ∃ verified, assignments s' =
    <[assignmentKey (a_RoundStartUnix a) (NormalizeDomain (a_Domain a)) :=
        finalized now verified (with_a_domain (NormalizeDomain (a_Domain a)) a)]> (assignments s).

Lemma SetAssignment_Ok a (s s' : VStore) : SetAssignment a s = Ok s' →
  let b := with_a_domain (NormalizeDomain (a_Domain a)) a in
  Assignment_ValidateBasic b = Ok tt ∧ market s' = market s ∧ submissions s' = submissions s ∧ commits s' = commits s ∧
  assignments s' = <[assignmentKey (a_RoundStartUnix a) (a_Domain b) := b]> (assignments s).
Proof. intros HS. unfold SetAssignment in HS. run_ok HS. destruct r. by injection HS as <-. Qed.

Definition is_due (now : Z) (a : Assignment) : bool := negb (a_Finalized a || (now <? a_DeadlineUnix a)).

Lemma finalize_one_effect order p now h a s s' : 0 < now → market_inv (market s) → finalize_one order p now h a s = Ok s' →
  if is_due now a then done_with now a s s' else s' = s.
Proof.
  intros Hn Hi HF. unfold finalize_one in HF. unfold is_due. destruct (a_Finalized a || _); cbn; [by injection HF as <-|].
  cbv zeta in HF. apply bind_Ok_inv in HF as ([v t] & E & HF).
  assert (settles s t) as Hs.
  { destruct (GetWebsite (a_Domain a) (market s)) as [w|] eqn:Ew; [|by injection E as <- <-].
    destruct (GetWebsite_domain _ _ _ Hi Ew) as [_ Hw]. destruct (a_Reregistration a).
    - by apply (finalize_reregistration_settles s w Hi Hw) in E.
    - run_ok E; injection E as <- <-; try done; [by eapply finalize_verified_settles|by eapply finalize_failed_settles]. }
  match type of HF with SetAssignment _ ?u = _ => assert (settles s u) as Hu by (etrans; [exact Hs|apply penalties_settles]) end.
  apply SetAssignment_Ok in HF as (_ & Hm & Hsub & Hc & Ha). destruct Hu as (Hk & Ha' & Hsub' & Hc' & _).
  split_and!; try congruence; [by rewrite Hm|]. exists v. rewrite Ha, Ha'. reflexivity.
Qed.

(** * Keys *)

Lemma starts_with_iff p s : starts_with p s = true ↔ ∃ t, s = p ++ t.
Proof.
  revert s. induction p as [|c p IH]; intros s; cbn; [split; eauto|]. destruct s as [|d s].
  - split; [done|]. by intros [t ?].
  - rewrite andb_true_iff, Z.eqb_eq, IH. split.
    + intros [-> [t ->]]. by exists t.
    + intros [t [= -> ->]]. eauto.
Qed.

Lemma roundKey_inj r r' : in_s 64 r → in_s 64 r' → 0 < r → 0 < r' → verificationRoundKey r = verificationRoundKey r' → r = r'.
Proof.
  unfold in_s, verificationRoundKey. change (64 - 1) with 63. intros ? ? ? ? E%be_bytes_inj; try apply uwrap_range; try lia.
  unfold u64 in E. rewrite !uwrap_small in E by (unfold in_u; lia). done.
Qed.

Lemma assignmentKey_inj r d r' d' : in_s 64 r → in_s 64 r' → 0 < r → 0 < r' →
  assignmentKey r d = assignmentKey r' d' → r = r' ∧ d = d'.
Proof.
  intros H1 H2 H3 H4 [Er Ed]%app_inj_1; [|by unfold verificationRoundKey; rewrite !be_bytes_length]. split; [by apply roundKey_inj|done].
Qed.

(** A domain with no zero byte is delimited by the zero of the key. *)
Lemma zero_delimits (d d' t v : gostr) : 0 ∉ d → 0 ∉ d' → d ++ 0 :: t = d' ++ 0 :: v → d = d' ∧ t = v.
Proof.
  revert d'. induction d as [|c d IH]; intros [|c' d'] H1 H2 E; cbn in E.
  - by injection E.
  - injection E as <- E. exfalso. apply H2. by left.
  - injection E as -> E. exfalso. apply H1. by left.
  - injection E as <- E. rewrite not_elem_of_cons in H1, H2. destruct (IH d') as [-> ->]; tauto.
Qed.

Lemma split_on_elem sep s c : c ∈ s → c = sep ∨ ∃ w, w ∈ split_on sep s ∧ c ∈ w.
Proof.
  induction s as [|x s IH]; [by intros ?%elem_of_nil|]. intros Hc. apply elem_of_cons in Hc. cbn.
  destruct (Z.eqb_spec x sep) as [->|Hx].
  - destruct Hc as [->|Hc]; [by left|]. destruct (IH Hc) as [|(w & ? & ?)]; [by left|]. right. exists w. split; [by right|done].
  - destruct (split_on sep s) as [|w ws]; destruct Hc as [->|Hc].
    + right. exists [x]. split; by left.
    + destruct (IH Hc) as [|(w & ?%elem_of_nil & ?)]; [by left|done].
    + right. exists (x :: w). split; by left.
    + destruct (IH Hc) as [|(u & Hu & ?)]; [by left|]. right. apply elem_of_cons in Hu as [->|Hu].
      * exists (x :: w). split; [by left|by right].
      * exists u. split; [by right|done].
Qed.

Lemma is_lower_alnum_pos c : is_lower_alnum c = true → 0 < c.
Proof.
  unfold is_lower_alnum. rewrite orb_true_iff, is_digit_iff, andb_true_iff, !Z.leb_le. lia.
Qed.

Lemma host_ok_pos parts w c : host_ok parts = true → w ∈ parts → c ∈ w → 0 < c.
Proof.
  unfold host_ok. intros Hh Hw Hc. assert (w ∈ rev parts) as Hw' by (apply list_elem_of_In; rewrite <- in_rev; by apply list_elem_of_In).
  destruct (rev parts) as [|tld [|l ls]]; [done..|]. rewrite !andb_true_iff, !forallb_Forall in Hh.
  destruct Hh as [[_ Ht] Hl]. apply elem_of_cons in Hw' as [->|Hw'].
  - rewrite list.Forall_forall in Ht. specialize (Ht c Hc). unfold is_lower in Ht. zb. lia.
  - rewrite list.Forall_forall in Hl. specialize (Hl w Hw'). unfold label_ok in Hl.
    destruct w; [done|]. destruct (rev _); [done|]. rewrite !andb_true_iff, forallb_Forall, list.Forall_forall in Hl.
    destruct Hl as [_ Hl]. specialize (Hl c Hc). apply orb_true_iff in Hl as [?%is_lower_alnum_pos|Hl]; [done|]. zb. lia.
Qed.

Lemma host_pos h c : host_ok (split_on 46 h) = true → c ∈ h → 0 < c.
Proof. intros Hh Hc. destruct (split_on_elem 46 h c Hc) as [->|(w & Hw & ?)]; [lia|]. by eapply host_ok_pos. Qed.

Lemma domainRe_pos d c : domainRe d = true → c ∈ d → 0 < c.
Proof.
  unfold domainRe. intros Hd Hc. destruct (split_on_elem 58 d c Hc) as [->|(w & Hw & Hcw)]; [lia|].
  destruct (split_on 58 d) as [|h [|p [|]]]; try done.
  - apply list_elem_of_singleton in Hw as ->. by eapply host_pos.
  - apply andb_true_iff in Hd as [Hh Hp]. apply elem_of_cons in Hw as [->|Hw]; [by eapply host_pos|].
    apply list_elem_of_singleton in Hw as ->. destruct p; [done|]. rewrite forallb_Forall, list.Forall_forall in Hp.
    specialize (Hp c Hcw). apply is_digit_iff in Hp. lia.
Qed.

(** * The invariant of the module *)

Record chain_inv (s : VStore) : Prop := {
  ci_market : market_inv (market s);
  ci_assignments k a : assignments s !! k = Some a →
    k = assignmentKey (a_RoundStartUnix a) (a_Domain a) ∧ in_s 64 (a_RoundStartUnix a) ∧ 0 < a_RoundStartUnix a ∧
    is_Some (websites (market s) !! a_Domain a);
  ci_submissions k x : submissions s !! k = Some x →
    k = submissionKey (b_RoundStartUnix x) (b_Domain x) (b_Verifier x) ∧
    ∃ a, assignments s !! assignmentKey (b_RoundStartUnix x) (b_Domain x) = Some a ∧ b_RoundStartUnix x = a_RoundStartUnix a ∧
      b_Domain x = a_Domain a ∧ b_Verifier x ∈ a_Verifiers a ∧ b_SubmittedAtUnix x ≤ a_DeadlineUnix a;
  ci_primary k : is_Some (websites (market s) !! k) →
    ∃ p, GetPrimaryDomain k = Ok p ∧ primaryDomains (market s) !! p = Some k }.

Lemma stored_domain_nonzero (m : Store) d : market_inv m → is_Some (websites m !! d) → 0 ∉ d.
Proof.
  intros Hi [w Hw]. destruct (mi_websites m Hi d w Hw) as [<- Hv]. unfold ValidateWebsite in Hv.
  apply first_error_ok in Hv. repeat (apply Forall_cons_1 in Hv as [? Hv]). cbn in *. zb. intros Hz.
  match goal with H : domainRe _ = true |- _ => apply (domainRe_pos _ _ H) in Hz end. lia.
Qed.

(** The registered domains are the same. *)
Definition same_sites (m m' : Store) : Prop := primaryDomains m' = primaryDomains m ∧ dom (websites m') = dom (websites m).

Lemma keeps_sites m m' : market_inv m → keeps m m' → market_inv m' ∧ same_sites m m'.
Proof. intros Hm Hk. by destruct (Hk Hm) as (? & _ & _ & _ & ? & ?). Qed.

(** Updates that keep the invariant of the market and its domains, the
    submissions and the coordinates of the assignments. *)
Lemma chain_inv_keeps s s' : chain_inv s → market_inv (market s') ∧ same_sites (market s) (market s') →
  submissions s' = submissions s →
  (∀ k a, assignments s' !! k = Some a → ∃ b, assignments s !! k = Some b ∧ a_RoundStartUnix a = a_RoundStartUnix b ∧
    a_Domain a = a_Domain b) →
  (∀ k b, assignments s !! k = Some b → ∃ a, assignments s' !! k = Some a ∧ a_RoundStartUnix a = a_RoundStartUnix b ∧
    a_Domain a = a_Domain b ∧ a_Verifiers a = a_Verifiers b ∧ a_DeadlineUnix a = a_DeadlineUnix b) →
  chain_inv s'.
Proof.
  intros [Hm Ha Hs Hp] (Hm' & Hpd & Hdom) Hsub H1 H2.
  assert (∀ k, is_Some (websites (market s') !! k) ↔ is_Some (websites (market s) !! k)) as Hd.
  { intros k. by rewrite <- !elem_of_dom, Hdom. }
  split; [done|..].
  - intros k a Hka. destruct (H1 k a Hka) as (b & Hb & -> & ->). rewrite Hd. by apply Ha.
  - rewrite Hsub. intros k x Hx. destruct (Hs k x Hx) as (Hkey & a & Hka & E1 & E2 & E3 & E4). split; [done|].
    destruct (H2 _ _ Hka) as (a' & Ha' & Er & Ed & Ev & El). exists a'. rewrite Er, Ed, Ev, El. by split_and!.
  - intros k. by rewrite Hd, Hpd; apply Hp.
Qed.

Lemma chain_inv_market s m : chain_inv s → market_inv m → same_sites (market s) m → chain_inv (set_market m s).
Proof. intros Hi Hm Hk. apply (chain_inv_keeps s); try done; eauto 6. Qed.

Lemma done_with_inv now a s s' : chain_inv s →
  assignments s !! assignmentKey (a_RoundStartUnix a) (a_Domain a) = Some a → done_with now a s s' → chain_inv s'.
Proof.
  intros Hi Ha (Hk & Hs & _ & v & Hv). destruct (ci_assignments s Hi _ _ Ha) as (_ & _ & _ & Hw).
  rewrite (stored_domain_normal (market s)) in Hv by (done || apply Hi).
  apply (chain_inv_keeps s); try done; [by apply keeps_sites; [apply Hi|]|..]; rewrite Hv.
  - intros k b [[<- <-]|[_ Hb]]%lookup_insert_Some; eauto.
  - intros k b Hb. destruct (decide (k = assignmentKey (a_RoundStartUnix a) (a_Domain a))) as [->|Hne].
    + rewrite lookup_insert_eq. simplify_eq. eexists. split; [done|]. done.
    + rewrite lookup_insert_ne by done. eauto 7.
Qed.

(** ** Finalisation *)

Definition a_key (a : Assignment) : gostr := assignmentKey (a_RoundStartUnix a) (a_Domain a).

Lemma finalize_loop order p now h s s' : 0 < now → chain_inv s → finalizeAssignments order p now h s = Ok s' →
  chain_inv s' ∧ keeps (market s) (market s') ∧ submissions s' = submissions s ∧ commits s' = commits s.
Proof.
  intros Hn Hi HF. unfold finalizeAssignments in HF. destruct (values_keyed a_key (assignments s)) as [Hnd Hv].
  { intros k a Hk. destruct (ci_assignments s Hi k a Hk) as [-> _]. reflexivity. }
  eapply (each_keyed a_key (λ s k, assignments s !! k)
    (λ t, chain_inv t ∧ keeps (market s) (market t) ∧ submissions t = submissions s ∧ commits t = commits s));
    [exact Hnd|exact Hv| |by split_and!|exact HF].
  intros a t t' (Hit & Hk & Hs & Hc) Ha Hf.
  pose proof (finalize_one_effect _ _ _ _ _ _ _ Hn (ci_market _ Hit) Hf) as He. destruct (is_due now a); [|by subst].
  destruct (He) as (Hk' & Hs' & Hc' & v & Hv'). split.
  - split; [by eapply done_with_inv|]. split; [etrans; [exact Hk|exact Hk']|]. split; [by rewrite Hs'|by rewrite Hc'].
  - intros k Hne. destruct (ci_assignments t Hit _ _ Ha) as (_ & _ & _ & Hw).
    rewrite Hv', (stored_domain_normal (market t)) by (done || apply Hit). by rewrite lookup_insert_ne.
Qed.
(** Each assignment that is due is finalised, the others stay. *)
Lemma finalize_marks order p now h s s' : 0 < now → chain_inv s → finalizeAssignments order p now h s = Ok s' →
  ∀ k, match assignments s !! k with
       | Some a => ∃ a', assignments s' !! k = Some a' ∧
           if a_Finalized a || (now <? a_DeadlineUnix a) then a' = a else ∃ verified, a' = finalized now verified a
       | None => assignments s' !! k = None
       end.
Proof.
  intros Hn Hi HF. unfold finalizeAssignments in HF.
  destruct (values_keyed a_key (assignments s)) as [Hnd Hv].
  { intros k a Hk. destruct (ci_assignments s Hi k a Hk) as [-> _]. reflexivity. }
  destruct (each_post a_key (λ s k, assignments s !! k) chain_inv
    (λ a o, ∃ a', o = Some a' ∧ if a_Finalized a || (now <? a_DeadlineUnix a) then a' = a else ∃ v, a' = finalized now v a)
    (finalize_one order p now h) (values (assignments s)) s s' Hnd Hv) as [Hin Hout]; [|done|done|].
  - intros a t t' Hit Ha Hf. pose proof (finalize_one_effect _ _ _ _ _ _ _ Hn (ci_market _ Hit) Hf) as He.
    unfold is_due in He. destruct (a_Finalized a || _); cbn in He; [subst t'; split_and!; eauto|].
    split; [by eapply done_with_inv|]. destruct He as (_ & _ & _ & v & ->).
    destruct (ci_assignments t Hit _ _ Ha) as (_ & _ & _ & Hw). rewrite (stored_domain_normal (market t)) by (done || apply Hit).
    split; [|intros k Hne; by rewrite lookup_insert_ne]. rewrite lookup_insert_eq. eexists. split; [done|]. exists v. by destruct a.
  - intros k. destruct (assignments s !! k) as [a|] eqn:Hk.
    + destruct (ci_assignments s Hi _ _ Hk) as [-> _]. apply (Hin a), elem_of_values. eauto.
    + rewrite <- Hk. apply Hout. intros (a & -> & [k' Ha]%elem_of_values)%list_elem_of_fmap.
      destruct (ci_assignments s Hi _ _ Ha) as [Hkey _]. unfold a_key in Hk. congruence.
Qed.
End Inv.
