(* ===== verification/Rounds.v ===== *)
(** The rounds of verification, from [src/x/registry]: their schedule
    ([drand_schedule.go], [typespb/assignment_random.go]), the drand beacons that
    seed them ([drand_verify.go], [SubmitDrandBeacon] of [msg_server.go]), the
    weighted selection of verifiers and the assignment of a round
    ([verification_rounds.go]). *)

From stdpp Require Import sorting.
From S2P Require Import Prelude JsBase GoBase GoHash Market GoSdk Verifiers RegParams Verification.

(** * The block *)

(** The header of the block: chain, height, time in nanoseconds since the epoch,
    and the hash of the last block. *)
Record BlockCtx := mkCtx { c_ChainID : gostr; c_Height : Z; c_TimeNs : Z; c_LastHash : list Z }.
Definition block_time (c : BlockCtx) : Z := c_TimeNs c / 10 ^ 9.

(** * Schedule *)

(** From the zero time of [time.Time], the start of year 1, to the epoch. *)
Definition zero_to_epoch : Z := 62135596800 * 10 ^ 9.

(** [Time.Truncate]: down to a multiple of [d] since the zero time. *)
Definition Truncate (t d : Z) : Z := if d <=? 0 then t else t - (t + zero_to_epoch) mod d.

Definition nextVerificationRoundStartUnix (nowNs intervalSeconds : Z) : Z :=
  let intervalSeconds := if intervalSeconds <=? 0 then 3600 else intervalSeconds in
  let interval := i64 (intervalSeconds * 10 ^ 9) in
  (Truncate nowNs interval + interval) / 10 ^ 9.

(** The drand round of a verification round, and the time it is emitted. *)
Definition requiredDrandRound (p : PublisherParams) (roundStartUnix : Z) : result err (Z * Z) :=
  let genesisUnix := EffectiveDrandGenesisTimeUnix p in
  let periodSeconds := EffectiveDrandPeriodSeconds p in
  let offsetSeconds := EffectiveDrandRoundOffsetSeconds p in
  guard_err (roundStartUnix <=? 0) (Errorf "round start unix must be positive");;
  guard_err ((genesisUnix <=? 0) || (periodSeconds <=? 0) || (offsetSeconds <=? 0)) (Errorf "invalid drand schedule parameters");;
  let latestAllowedUnix := i64 (roundStartUnix - offsetSeconds) in
  guard_err (latestAllowedUnix <? genesisUnix) (Errorf "verification round predates drand genesis");;
  let round := u64 (u64 (Z.quot (i64 (latestAllowedUnix - genesisUnix)) periodSeconds) + 1) in
  let beaconUnix := i64 (genesisUnix + i64 (i64 (i64 round - 1) * periodSeconds)) in
  Ok (round, beaconUnix).

(** ** Seeds *)

Definition ComputeRoundSeedWithAnchor (chainID : gostr) (roundStart anchorHeight : Z) (anchorHash : list Z) : list Z :=
  Sum256 (TrimSpace chainID ++ go "|" ++ FormatInt roundStart ++ go "|" ++ FormatInt anchorHeight ++ go "|" ++ EncodeToString anchorHash).
Definition ComputeRoundSeedWithDrand (chainID : gostr) (roundStart anchorHeight : Z) (anchorHash : list Z) (drandRound : Z)
    (randomness : list Z) : list Z :=
  Sum256 (TrimSpace chainID ++ go "|" ++ FormatInt roundStart ++ go "|" ++ FormatInt anchorHeight ++ go "|" ++
    EncodeToString anchorHash ++ go "|" ++ FormatInt drandRound ++ go "|" ++ EncodeToString randomness).

Section Offsets.
Context `{GoEnv}.

Definition ComputeAssignmentOffsetSeconds (seed : list Z) (domain : gostr) (interval delayMax : Z) : Z :=
  let raw := be_val (take 8 (Sum256 (seed ++ TrimSpace (ToLower domain)))) in
  if 3600 <=? interval then raw mod 60 * 60
  else
    let delayMax := if (delayMax <=? 0) || (interval <? delayMax) then interval else delayMax in
    if delayMax <=? 0 then 0 else raw mod delayMax.
Definition ComputeAssignmentStartAtUnix (seed : list Z) (domain : gostr) (roundStart interval delayMax : Z) : Z :=
  i64 (roundStart + ComputeAssignmentOffsetSeconds seed domain interval delayMax).
End Offsets.

(** * Selection *)

(** The hash of the seed and the number of the draw, modulo the total weight. *)
Definition deterministicPick (seed : list Z) (draw totalWeight : Z) : Z :=
  be_val (Sum256 (seed ++ be_bytes 8 (u64 draw))) mod totalWeight.

Definition total_weight (pool : list (gostr * Z)) : Z := sumZ (pool.*2).

(** The first entry at which the running sum exceeds the pick, the last one
    otherwise. *)
Fixpoint picked_idx (pick running : Z) (pool : list (gostr * Z)) : nat :=
  match pool with
  | [] | [_] => O
  | e :: r => if pick <? running + e.2 then O else S (picked_idx pick (running + e.2) r)
  end.

(** The loop over the draws: what stays in the pool, and what is selected. *)
Fixpoint draws (n : nat) (draw : Z) (seed : list Z) (pool : list (gostr * Z)) (selected : list gostr)
    : list (gostr * Z) * list gostr :=
  match n, pool with
  | O, _ | _, [] => (pool, selected)
  | S n', e :: _ =>
      if total_weight pool <=? 0 then (pool, selected)
      else
        let i := picked_idx (deterministicPick seed draw (total_weight pool)) 0 pool in
        draws n' (draw + 1) seed (delete i pool) (selected ++ [(nth i pool e).1])
  end.

(** The pool of candidates; a missing weight is a nil integer, whose use panics. *)
Definition weigh (stakes : gmap gostr Z) (addr : gostr) (pool : list (gostr * Z)) : result err (list (gostr * Z)) :=
  match stakes !! addr with
  | None => Err Panic
  | Some w => Ok (pool ++ [(addr, if 0 <? w then w else 1)])
  end.

Definition selectDeterministicWeighted (candidates : list gostr) (stakes : gmap gostr Z) (k : Z) (seed : list Z)
    : result err (list gostr) :=
  if (k <=? 0) || (match candidates with [] => true | _ => false end) then Ok []
  else if Z.of_nat (length candidates) <=? k then Ok (SortStrings candidates)
  else
    pool ← each (weigh stakes) candidates [];
    let '(pool, selected) := draws (Z.to_nat k) 0 seed pool [] in
    if Z.of_nat (length selected) <? k
    then Ok (selected ++ take (Z.to_nat k - length selected) (SortStrings (pool.*1)))
    else Ok selected.

Definition hashVerifierSet `{GoEnv} (vs : list gostr) : list Z :=
  Sum256 (mjoin ((λ a, TrimSpace a ++ [0]) <$> SortStrings vs)).

(** * Beacons *)

Definition roundMetaKey (round : Z) : gostr := [1] ++ be_bytes 8 (u64 round).
Definition drandBeaconKey (round : Z) : gostr := [3] ++ be_bytes 8 (u64 round).
#[global] Arguments roundMetaKey : simpl never.
#[global] Arguments drandBeaconKey : simpl never.

(** [hex.DecodeString] of an even number of digits. *)
Fixpoint hex_pairs (s : gostr) : list Z :=
  match s with
  | a :: b :: r => default 0 (hex_value a) * 16 + default 0 (hex_value b) :: hex_pairs r
  | _ => []
  end.
Definition DecodeString (s : gostr) : option (list Z) := if is_hex s then Some (hex_pairs s) else None.

(** The verification of a recovered threshold signature under the suite of a drand
    scheme, the decoding of the key included. *)
Class DrandSuite := { VerifyRecovered : gostr → list Z → list Z → list Z → bool }.

Definition digestUnchainedRound (round : Z) : list Z := Sum256 (be_bytes 8 round).

Record MsgSubmitDrandBeacon := { mdb_Submitter : gostr; mdb_Round : Z; mdb_RandomnessHex : gostr; mdb_SignatureHex : gostr }.

Record DrandRequirement := mkRequirement {
  dr_Enabled : bool; dr_Pending : bool; dr_RoundStartUnix : Z; dr_RequiredDrandRound : Z; dr_RequiredBeaconUnix : Z;
  dr_Submitted : bool; dr_DrandChainHash : gostr }.

Section Beacons.
Context `{GoEnv} `{DrandSuite} {B : Type}.
Abbreviation VStore := (VStore B).

Definition verifyDrandBeaconSignature (round : Z) (signatureHex randomnessHex publicKeyHex schemeID : gostr) : result err unit :=
  match DecodeString (TrimSpace signatureHex) with
  | None => Err (Errorf "decode drand signature")
  | Some sig =>
      match DecodeString (TrimSpace randomnessHex) with
      | None => Err (Errorf "decode drand randomness")
      | Some rand =>
          guard_err (negb (bool_decide (Sum256 sig = rand))) (Errorf "drand randomness mismatch");;
          match DecodeString (TrimSpace publicKeyHex) with
          | None => Err (Errorf "decode drand public key")
          | Some pub =>
              let schemeID := if blank schemeID then DefaultDrandSchemeID else TrimSpace schemeID in
              guard_err (negb (isSupportedDrandSchemeID schemeID)) (Errorf "unsupported drand scheme id");;
              guard_err (negb (VerifyRecovered schemeID pub (digestUnchainedRound round) sig)) (Errorf "verify drand signature")
          end
      end
  end.

Definition Meta_ValidateBasic (m : RoundMeta) : result err unit :=
  first_error [
   ((rm_RoundStartUnix m <=? 0), Errorf "round start unix must be positive");
   ((blank (rm_SeedHex m)), Errorf "seed_hex required");
   ((negb (is_hex (TrimSpace (rm_SeedHex m)))), Errorf "invalid seed_hex");
   ((rm_RoundIntervalSeconds m <=? 0), Errorf "round_interval_seconds must be positive");
   ((rm_AssignmentDelayMaxSeconds m <=? 0), Errorf "assignment_delay_max_seconds must be positive");
   ((rm_RoundIntervalSeconds m <? rm_AssignmentDelayMaxSeconds m), Errorf "assignment_delay_max_seconds must be <= round_interval_seconds");
   ((rm_CreatedAtUnix m <=? 0), Errorf "created_at_unix must be positive");
   ((rm_AnchorHeight m <? 0), Errorf "anchor_height must be >= 0");
   ((negb (blank (rm_AnchorHashHex m)) && negb (is_hex (TrimSpace (rm_AnchorHashHex m)))), Errorf "invalid anchor_hash_hex");
   ((negb (blank (rm_VerifierSetHash m)) && negb (is_hex (TrimSpace (rm_VerifierSetHash m)))), Errorf "invalid verifier_set_hash");
   ((rm_VerifierSetSize m <? 0), Errorf "verifier_set_size must be >= 0");
   ((negb (blank (rm_DrandRandomnessHex m)) && negb (length (TrimSpace (rm_DrandRandomnessHex m)) =? 64)%nat), Errorf "drand_randomness_hex must be 64 hex chars");
   ((negb (blank (rm_DrandRandomnessHex m)) && negb (is_hex (TrimSpace (rm_DrandRandomnessHex m)))), Errorf "invalid drand_randomness_hex")].

Definition Beacon_ValidateBasic (b : DrandBeacon) : result err unit :=
  let r := TrimSpace (ToLower (db_RandomnessHex b)) in
  let sg := TrimSpace (ToLower (db_SignatureHex b)) in
  first_error [
   ((db_Round b =? 0), Errorf "round must be positive");
   ((empty r), Errorf "randomness_hex required");
   ((negb (length r =? 64)%nat), Errorf "randomness_hex must be 64 hex chars");
   ((negb (is_hex r)), Errorf "invalid randomness_hex");
   ((negb (empty sg) && negb (is_hex sg)), Errorf "invalid signature_hex");
   ((db_SubmittedAtUnix b <=? 0), Errorf "submitted_at_unix must be positive");
   ((blank (db_Submitter b)), Errorf "submitter required");
   ((negb (addr_ok (TrimSpace (db_Submitter b)))), Errorf "invalid submitter")].

Definition set_rounds (x : RoundState) (s : VStore) : VStore :=
  mkVStore (market s) (assignments s) (submissions s) (commits s) (streaks s) (similar s) (penalties s) (unsettled s) x
    (bond_table s) (pool_funded s).

Definition SetLastRoundStart (round : Z) (s : VStore) : VStore :=
  let r := rounds s in set_rounds (mkRounds (Some round) (roundMetas r) (drandBeacons r) (latestDrand r)) s.
Definition GetLastRoundStart (s : VStore) : option Z := lastRoundStart (rounds s).

Definition SetRoundMeta (m : RoundMeta) (s : VStore) : result err VStore :=
  Meta_ValidateBasic m;;
  let r := rounds s in
  Ok (set_rounds (mkRounds (lastRoundStart r) (<[roundMetaKey (rm_RoundStartUnix m) := m]> (roundMetas r)) (drandBeacons r)
        (latestDrand r)) s).
Definition GetRoundMeta (round : Z) (s : VStore) : option RoundMeta := roundMetas (rounds s) !! roundMetaKey round.

Definition SetDrandBeacon (b : DrandBeacon) (s : VStore) : result err VStore :=
  Beacon_ValidateBasic b;;
  let r := rounds s in
  guard_err (bool_decide (is_Some (drandBeacons r !! drandBeaconKey (db_Round b)))) (Errorf "drand beacon already exists");;
  let latest := default 0 (latestDrand r) in
  Ok (set_rounds (mkRounds (lastRoundStart r) (roundMetas r) (<[drandBeaconKey (db_Round b) := b]> (drandBeacons r))
        (if latest <=? db_Round b then Some (db_Round b) else latestDrand r)) s).
Definition GetDrandBeacon (round : Z) (s : VStore) : option DrandBeacon :=
  if round =? 0 then None else drandBeacons (rounds s) !! drandBeaconKey round.
Definition GetLatestDrandBeacon (s : VStore) : option DrandBeacon :=
  match latestDrand (rounds s) with Some r => GetDrandBeacon r s | None => None end.

Definition PendingDrandRequirement (p : PublisherParams) (c : BlockCtx) (s : VStore) : result err DrandRequirement :=
  let enabled := EffectiveDrandEnabled p in
  let hash := EffectiveDrandChainHash p in
  if negb enabled then Ok (mkRequirement enabled false 0 0 0 false hash)
  else
    let roundStart := nextVerificationRoundStartUnix (c_TimeNs c) (p_RoundIntervalSeconds p) in
    if (match GetLastRoundStart s with Some last => roundStart <=? last | None => false end)
    then Ok (mkRequirement enabled false roundStart 0 0 false hash)
    else
      r ← requiredDrandRound p roundStart;
      Ok (mkRequirement enabled true roundStart r.1 r.2 (bool_decide (is_Some (GetDrandBeacon r.1 s))) hash).

Definition SubmitDrandBeacon (p : PublisherParams) (c : BlockCtx) (m : MsgSubmitDrandBeacon) (s : VStore)
    : result err (DrandBeacon * VStore) :=
  guard_err (negb (EffectiveDrandEnabled p)) (Errorf "drand disabled");;
  q ← PendingDrandRequirement p c s;
  guard_err (negb (dr_Pending q)) (Errorf "no pending drand round");;
  guard_err (negb (mdb_Round m =? dr_RequiredDrandRound q)) (Errorf "unexpected drand round");;
  guard_err (dr_Submitted q) (Errorf "drand beacon already submitted");;
  let randomnessHex := ToLower (TrimSpace (mdb_RandomnessHex m)) in
  let signatureHex := ToLower (TrimSpace (mdb_SignatureHex m)) in
  guard_err (negb (length randomnessHex =? 64)%nat) (Errorf "randomness_hex must be 64 hex chars");;
  guard_err (negb (is_hex randomnessHex)) (Errorf "invalid randomness_hex");;
  guard_err (negb (empty signatureHex) && negb (is_hex signatureHex)) (Errorf "invalid signature_hex");;
  guard_err (empty signatureHex) (Errorf "signature_hex required when drand is enabled");;
  let pubKeyHex := EffectiveDrandPublicKeyHex p in
  guard_err (empty pubKeyHex) (Errorf "drand_public_key_hex not configured");;
  verifyDrandBeaconSignature (mdb_Round m) signatureHex randomnessHex pubKeyHex (EffectiveDrandSchemeID p);;
  let beacon := mkBeacon (mdb_Round m) randomnessHex signatureHex (block_time c) (TrimSpace (mdb_Submitter m)) in
  Beacon_ValidateBasic beacon;;
  s' ← SetDrandBeacon beacon s;
  Ok (beacon, s').

(** * The assignment of a round *)

(** The verifiers that may be selected, and their stakes. *)
Definition is_eligible (now : Z) (s : VStore) (v : Verifier) : bool :=
  let p := GetBondParams (bond_table s) in
  (v_Status v =? VerifierStatusActive) && bool_decide (c_Denom (v_Bond v) = bp_BondDenom p) &&
  (bp_MinBond p <=? c_Amount (v_Bond v)) && negb (IsVerifierSuspended (v_Address v) now s).
Definition eligibleVerifierAddrs (now : Z) (s : VStore) : list gostr * gmap gostr Z :=
  let vs := filter (λ v, is_eligible now s v = true) (ListVerifiers (bond_table s)) in
  (SortStrings (v_Address <$> vs), foldl (λ m v, <[v_Address v := c_Amount (v_Bond v)]> m) ∅ vs).

(** The publishers that a round starting at [nowUnix] verifies. *)
Definition is_verifiable (nowUnix : Z) (w : Website) : bool :=
  if negb (blank (w_PendingOwner w)) then true
  else if nowUnix <? w_CooldownUntilUnix w then false
  else (w_Status w =? StatusPending) || (w_Status w =? StatusVerified).
Definition round_publishers (nowUnix : Z) (s : VStore) : list Website :=
  merge_sort site_le (filter (λ w, is_verifiable nowUnix w = true) (values (websites (market s)))).

(** The seed of a round with the drand round and randomness it used; [None] when
    the required beacon is missing. *)
Definition round_seed (p : PublisherParams) (c : BlockCtx) (roundStart anchorHeight : Z) (s : VStore)
    : result err (option (list Z * Z * gostr)) :=
  if EffectiveDrandEnabled p then
    r ← requiredDrandRound p roundStart;
    match GetDrandBeacon r.1 s with
    | None => Ok None
    | Some beacon =>
        match DecodeString (TrimSpace (db_RandomnessHex beacon)) with
        | None => Err (Errorf "decode stored drand beacon")
        | Some randomness =>
            Ok (Some (ComputeRoundSeedWithDrand (c_ChainID c) roundStart anchorHeight (c_LastHash c) r.1 randomness, r.1,
                      TrimSpace (db_RandomnessHex beacon)))
        end
    end
  else Ok (Some (ComputeRoundSeedWithAnchor (c_ChainID c) roundStart anchorHeight (c_LastHash c), 0, [])).

(** The body of the loop over the publishers. *)
Definition assign_publisher (p : PublisherParams) (seed : list Z) (roundStart interval delayMax : Z) (eligible : list gostr)
    (stakes : gmap gostr Z) (w : Website) (s : VStore) : result err VStore :=
  match GetAssignment roundStart (w_Domain w) s with
  | Some _ => Ok s
  | None =>
      let startAt := ComputeAssignmentStartAtUnix seed (w_Domain w) roundStart interval delayMax in
      let deadline := i64 (startAt + p_SubmissionWindowSeconds p) in
      selected ← selectDeterministicWeighted eligible stakes (p_MinVerifierCount p) (seed ++ w_Domain w);
      assign_one roundStart startAt deadline (SortStrings selected) w s
  end.

(** The record of the round, written once. *)
Definition record_round (p : PublisherParams) (c : BlockCtx) (roundStart interval delayMax anchorHeight : Z) (eligible : list gostr)
    (seed : list Z) (drandRound : Z) (randomness : gostr) (s : VStore) : result err VStore :=
  match GetRoundMeta roundStart s with
  | Some _ => Ok s
  | None => SetRoundMeta (mkRoundMeta roundStart (EncodeToString seed) interval delayMax (block_time c) anchorHeight
              (EncodeToString (c_LastHash c)) (EncodeToString (hashVerifierSet eligible)) (swrap 32 (Z.of_nat (length eligible)))
              drandRound randomness) s
  end.

Definition round_interval (p : PublisherParams) : Z := if p_RoundIntervalSeconds p <=? 0 then 3600 else p_RoundIntervalSeconds p.
Definition delay_max (p : PublisherParams) : Z :=
  let d := p_AssignmentDelayMaxSeconds p in if (d <=? 0) || (round_interval p <? d) then round_interval p else d.

Definition assignNewRound (p : PublisherParams) (c : BlockCtx) (s : VStore) : result err VStore :=
  guard_err (p_SubmissionWindowSeconds p <=? 0) (Errorf "submission window seconds must be positive");;
  let interval := round_interval p in
  let delayMax := delay_max p in
  let roundStart := nextVerificationRoundStartUnix (c_TimeNs c) interval in
  if roundStart <=? 0 then Ok s
  else if (match GetLastRoundStart s with Some last => roundStart <=? last | None => false end) then Ok s
  else
    let publishers := round_publishers roundStart s in
    let '(eligible, stakes) := eligibleVerifierAddrs (block_time c) s in
    let anchorHeight := let h := i64 (c_Height c - 1) in if h <? 0 then 0 else h in
    o ← round_seed p c roundStart anchorHeight s;
    match o with
    | None => Ok s
    | Some (seed, drandRound, randomness) =>
        s ← record_round p c roundStart interval delayMax anchorHeight eligible seed drandRound randomness s;
        s ← each (assign_publisher p seed roundStart interval delayMax eligible stakes) publishers s;
        Ok (SetLastRoundStart roundStart s)
    end.
End Beacons.
#[global] Arguments Meta_ValidateBasic : simpl never.
#[global] Arguments Beacon_ValidateBasic : simpl never.
