(* ===== verification/RoundProofs.v ===== *)
(** Lemmas on the rounds: the weighted draw picks each candidate in proportion to
    its weight, a selection is a set of distinct candidates of the right size, and
    the schedule keeps rounds, assignments and beacons within their bounds. *)

From stdpp Require Import sorting.
From S2P Require Import Prelude JsBase GoBase GoHash Market MarketProofs GoSdk Verifiers RegParams Verification VerificationProofs Rounds.

Lemma i64_id z : - 2 ^ 63 ≤ z < 2 ^ 63 → i64 z = z.
Proof. intros Hz. apply swrap_small; [lia|]. unfold in_s. change (64 - 1) with 63. lia. Qed.

(** * The weighted draw *)

Lemma total_weight_cons e pool : total_weight (e :: pool) = e.2 + total_weight pool.
Proof. done. Qed.

Lemma total_weight_nonneg pool : Forall (λ e, 0 < e.2) pool → 0 ≤ total_weight pool.
Proof. intros Hp. apply sumZ_nonneg, Forall_fmap. eapply list.Forall_impl; [exact Hp|]. cbn. lia. Qed.

Lemma total_weight_pos pool : Forall (λ e, 0 < e.2) pool → pool ≠ [] → 0 < total_weight pool.
Proof. intros Hp. destruct Hp as [|e pool He Hp]; [done|]. intros _. rewrite total_weight_cons. pose proof (total_weight_nonneg pool Hp). lia. Qed.

(** Entry [i] is picked exactly when the pick falls in its interval of the
    cumulative weights. *)
Lemma picked_idx_spec pick running pool i : Forall (λ e, 0 < e.2) pool → (i < length pool)%nat →
  running ≤ pick < running + total_weight pool →
  picked_idx pick running pool = i ↔
    running + total_weight (take i pool) ≤ pick < running + total_weight (take (S i) pool).
Proof.
  revert running i. induction pool as [|e pool IH]; intros running i Hp Hi Hpick; cbn in Hi; [lia|].
  apply Forall_cons_1 in Hp as [He Hp]. rewrite total_weight_cons in Hpick. destruct (decide (pool = [])) as [->|Hne].
  - cbn in Hi |- *. assert (i = 0%nat) as -> by lia. split; [|done]. intros _. unfold total_weight, sumZ in *. cbn in *. lia.
  - assert (picked_idx pick running (e :: pool) = if pick <? running + e.2 then 0%nat else S (picked_idx pick (running + e.2) pool)) as ->
      by (by destruct pool). destruct (Z.ltb_spec pick (running + e.2)) as [Hlt|Hge].
    + destruct i as [|i]; cbn [take]; rewrite !total_weight_cons; [change (take 0 pool) with (@nil (gostr * Z)); cbn; lia|].
      split; [done|]. pose proof (total_weight_nonneg (take i pool) ltac:(by apply Forall_take)). lia.
    + destruct i as [|i]; cbn [take].
      * split; [done|]. change (take 0 pool) with (@nil (gostr * Z)). rewrite total_weight_cons. cbn. lia.
      * rewrite !total_weight_cons. rewrite (inj_iff S). rewrite (IH (running + e.2) i) by (done || lia). lia.
Qed.

Lemma picked_idx_lt pick running pool : pool ≠ [] → (picked_idx pick running pool < length pool)%nat.
Proof.
  revert running. induction pool as [|e pool IH]; intros running Hne; [done|]. destruct (decide (pool = [])) as [->|Hne']; [cbn; lia|].
  assert (picked_idx pick running (e :: pool) = if pick <? running + e.2 then 0%nat else S (picked_idx pick (running + e.2) pool)) as ->
    by (by destruct pool). specialize (IH (running + e.2) Hne'). destruct (_ <? _); cbn; lia.
Qed.

(** Filters that agree on the elements of the list. *)
Lemma list_filter_ext_in {A} (P Q : A → Prop) `{!∀ x, Decision (P x), !∀ x, Decision (Q x)} (l : list A) :
  (∀ x, x ∈ l → P x ↔ Q x) → filter P l = filter Q l.
Proof.
  induction l as [|x l IH]; intros Hl; [done|]. assert (filter P l = filter Q l) as Heq by (apply IH; intros; apply Hl; by right).
  pose proof (Hl x ltac:(by left)) as Hx. destruct (decide (P x)) as [Hp|Hp].
  - rewrite !filter_cons_True by tauto. by rewrite Heq.
  - rewrite !filter_cons_False by tauto. done.
Qed.

Lemma filter_none {A} (P : A → Prop) `{!∀ x, Decision (P x)} (l : list A) : (∀ x, x ∈ l → ¬ P x) → filter P l = [].
Proof. induction l as [|x l IH]; intros Hl; [done|]. rewrite filter_cons_False by (apply Hl; by left). apply IH. intros y Hy. apply Hl. by right. Qed.

Lemma filter_all {A} (P : A → Prop) `{!∀ x, Decision (P x)} (l : list A) : (∀ x, x ∈ l → P x) → filter P l = l.
Proof. induction l as [|x l IH]; intros Hl; [done|]. rewrite filter_cons_True by (apply Hl; by left). f_equal. apply IH. intros y Hy. apply Hl. by right. Qed.

(** The integers of an interval, counted. *)
Lemma count_interval a b n : 0 ≤ a ≤ b → b ≤ n → length (filter (λ p, a ≤ p < b) (seqZ 0 n)) = Z.to_nat (b - a).
Proof.
  intros Hab Hbn. replace n with (a + ((b - a) + (n - b))) by lia. rewrite seqZ_app, seqZ_app by lia.
  rewrite !list.filter_app, !length_app. rewrite !Z.add_0_l.
  rewrite (filter_none _ (seqZ 0 a)) by (intros x Hx%elem_of_seqZ; lia).
  rewrite (filter_all _ (seqZ a (b - a))) by (intros x Hx%elem_of_seqZ; lia).
  rewrite (filter_none _ (seqZ (a + (b - a)) (n - b))) by (intros x Hx%elem_of_seqZ; lia).
  rewrite length_seqZ. cbn. lia.
Qed.

Lemma total_weight_take_S pool i e : pool !! i = Some e → total_weight (take (S i) pool) = total_weight (take i pool) + e.2.
Proof.
  intros Hi. rewrite (take_S_r _ _ _ Hi). unfold total_weight. rewrite fmap_app, sumZ_app. unfold sumZ. cbn. lia.
Qed.

Lemma total_weight_take pool i : Forall (λ e, 0 < e.2) pool → 0 ≤ total_weight (take i pool) ≤ total_weight pool.
Proof.
  intros Hp. split; [by apply total_weight_nonneg, Forall_take|]. rewrite <- (take_drop i pool) at 2.
  unfold total_weight. rewrite fmap_app, sumZ_app. pose proof (total_weight_nonneg (drop i pool) ltac:(by apply Forall_drop)) as Hn.
  unfold total_weight in Hn. lia.
Qed.

(** One draw is proportional to stake: of the values that the
    hash can take modulo the total weight, exactly as many pick a candidate as its
    weight. *)
Theorem draw_proportional pool i addr w : Forall (λ e, 0 < e.2) pool → pool !! i = Some (addr, w) →
  Z.of_nat (length (filter (λ pick, picked_idx pick 0 pool = i) (seqZ 0 (total_weight pool)))) = w.
Proof.
  intros Hp Hi. pose proof (lookup_lt_Some _ _ _ Hi) as Hlt. pose proof (total_weight_take_S pool i _ Hi) as Hs. cbn in Hs.
  pose proof (total_weight_take pool i Hp) as H1. pose proof (total_weight_take pool (S i) Hp) as H2.
  assert (0 < w) as Hw by (rewrite list.Forall_forall in Hp; apply (Hp (addr, w)), list_elem_of_lookup_2 with i; done).
  rewrite (list_filter_ext_in _ (λ pick, total_weight (take i pool) ≤ pick < total_weight (take (S i) pool))).
  - rewrite count_interval by lia. lia.
  - intros x Hx%elem_of_seqZ. rewrite picked_idx_spec by (done || lia). lia.
Qed.

(** * Selection without replacement *)

Lemma draws_cons n d seed e pool sel : draws (S n) d seed (e :: pool) sel =
  if total_weight (e :: pool) <=? 0 then (e :: pool, sel)
  else
    let i := picked_idx (deterministicPick seed d (total_weight (e :: pool))) 0 (e :: pool) in
    draws n (d + 1) seed (delete i (e :: pool)) (sel ++ [(nth i (e :: pool) e).1]).
Proof. done. Qed.

(** The draws move candidates from the pool to the selection, one per draw while
    any are left. *)
Lemma draws_perm n d seed pool sel : Forall (λ e, 0 < e.2) pool →
  let r := draws n d seed pool sel in
  r.1.*1 ++ r.2 ≡ₚ pool.*1 ++ sel ∧ length r.2 = (length sel + n `min` length pool)%nat.
Proof.
  revert d pool sel. induction n as [|n IH]; intros d pool sel Hp; [cbn; split; [done|lia]|].
  destruct pool as [|e pool]; [cbn; split; [done|lia]|].
  set (P := e :: pool) in *. assert (P ≠ []) as Hne by done. pose proof (total_weight_pos P Hp Hne) as Hw.
  set (i := picked_idx (deterministicPick seed d (total_weight P)) 0 P). pose proof (picked_idx_lt (deterministicPick seed d (total_weight P)) 0 P Hne) as Hi.
  fold i in Hi. destruct (lookup_lt_is_Some_2 P i Hi) as [x Hx].
  assert (draws (S n) d seed P sel = draws n (d + 1) seed (delete i P) (sel ++ [x.1])) as ->.
  { unfold P at 1. rewrite draws_cons. fold P i. destruct (Z.leb_spec (total_weight P) 0); [lia|]. cbv zeta. fold i. by rewrite (nth_lookup_Some _ _ _ _ Hx). }
  destruct (IH (d + 1) (delete i P) (sel ++ [x.1]) ltac:(by apply Forall_delete)) as [H1 H2]. split.
  - rewrite H1, (fmap_Permutation fst _ _ (delete_Permutation P i x Hx)). cbn. rewrite (Permutation_app_comm sel [x.1]). cbn.
    by rewrite Permutation_middle.
  - rewrite H2, length_app, length_delete by done. cbn [length]. pose proof (nil_length_inv P). destruct (length P); lia.
Qed.

Lemma each_weigh stakes l acc : Forall (λ a, is_Some (stakes !! a)) l →
  ∃ pool, each (weigh stakes) l acc = Ok (acc ++ pool) ∧ pool.*1 = l ∧ Forall (λ e, 0 < e.2) pool.
Proof.
  intros Hl. revert acc. induction Hl as [|a l [w Ha] Hl IH]; intros acc; [exists []; by rewrite app_nil_r|].
  cbn [each]. assert (weigh stakes a acc = Ok (acc ++ [(a, if 0 <? w then w else 1)])) as -> by (unfold weigh; by rewrite Ha). cbn. set (e := (a, if 0 <? w then w else 1)).
  destruct (IH (acc ++ [e])) as (pool & -> & Hf & Hp). exists (e :: pool). rewrite <- app_assoc. split; [done|].
  split; [by cbn; f_equal|]. constructor; [|done]. cbn. destruct (Z.ltb_spec 0 w); lia.
Qed.

Lemma select_all candidates stakes k seed : Z.of_nat (length candidates) ≤ k →
  ∃ sel, selectDeterministicWeighted candidates stakes k seed = Ok sel ∧ sel ≡ₚ candidates.
Proof.
  intros Hk. unfold selectDeterministicWeighted. destruct candidates as [|a l]; [rewrite orb_true_r; by eexists|].
  cbn [length] in *. destruct (Z.leb_spec k 0); [lia|]. cbn [orb]. destruct (Z.leb_spec (Z.of_nat (S (length l))) k); [|lia].
  eexists. split; [done|]. apply SortStrings_perm.
Qed.

(** A selection is made of candidates, none of them twice, and it has as many as
    were asked for and there are. *)
Lemma select_spec candidates stakes k seed : Forall (λ a, is_Some (stakes !! a)) candidates → 0 ≤ k →
  ∃ sel, selectDeterministicWeighted candidates stakes k seed = Ok sel ∧ sel ⊆+ candidates ∧
    Z.of_nat (length sel) = k `min` Z.of_nat (length candidates).
Proof.
  intros Hs Hk. destruct (Z_le_gt_dec (Z.of_nat (length candidates)) k) as [Hle|Hgt].
  { destruct (select_all candidates stakes k seed Hle) as (sel & -> & Hp). exists sel. split; [done|]. rewrite Hp. split; [done|lia]. }
  unfold selectDeterministicWeighted. destruct (Z.leb_spec k 0) as [Hz|Hpos].
  { exists []. split; [done|]. split; [apply submseteq_nil_l|]. cbn. lia. }
  destruct candidates as [|a l]; [cbn in *; lia|]. set (cs := a :: l) in *. cbn [orb].
  destruct (Z.leb_spec (Z.of_nat (length cs)) k); [lia|].
  destruct (each_weigh stakes cs [] Hs) as (pool & -> & Hf & Hp). cbn.
  destruct (draws_perm (Z.to_nat k) 0 seed pool [] Hp) as [H1 H2]. destruct (draws _ _ _ _ _) as [pool' sel]. cbn [fst snd length] in H1, H2.
  assert (length pool = length cs) as Hlen by (by rewrite <- Hf, length_fmap). rewrite Hlen in H2.
  change (S (length l)) with (length cs). set (m := length cs) in *. destruct (Z.ltb_spec (Z.of_nat (length sel)) k); [lia|].
  exists sel. split; [done|]. split; [|lia].
  rewrite app_nil_r, Hf in H1. rewrite <- H1. apply submseteq_inserts_l. done.
Qed.

(** * The schedule *)

(** The next round starts within an interval, at a multiple of the interval since
    the zero time. *)
Lemma next_round_start nowNs interval : 0 < interval ≤ 9223372036 →
  let r := nextVerificationRoundStartUnix nowNs interval in
  nowNs < r * 10 ^ 9 ≤ nowNs + interval * 10 ^ 9 ∧ (r + 62135596800) mod interval = 0.
Proof.
  intros Hi. unfold nextVerificationRoundStartUnix, Truncate. destruct (Z.leb_spec interval 0); [lia|].
  rewrite (i64_id (interval * 10 ^ 9)) by lia. destruct (Z.leb_spec (interval * 10 ^ 9) 0); [lia|].
  set (q := (nowNs + zero_to_epoch) / (interval * 10 ^ 9)).
  pose proof (Z.div_mod (nowNs + zero_to_epoch) (interval * 10 ^ 9) ltac:(lia)) as Hd. fold q in Hd.
  pose proof (Z.mod_pos_bound (nowNs + zero_to_epoch) (interval * 10 ^ 9) ltac:(lia)) as Hm.
  replace (nowNs - (nowNs + zero_to_epoch) mod (interval * 10 ^ 9) + interval * 10 ^ 9)
    with (((q + 1) * interval - 62135596800) * 10 ^ 9) by (unfold zero_to_epoch in *; lia).
  rewrite Z.div_mul by lia. split; [unfold zero_to_epoch in *; lia|].
  replace ((q + 1) * interval - 62135596800 + 62135596800) with ((q + 1) * interval) by lia. apply Z.mod_mul. lia.
Qed.

(** The offset of a publisher lies within the round. *)
Lemma offset_in_round `{GoEnv} seed domain interval delay : 0 < interval → 0 ≤ ComputeAssignmentOffsetSeconds seed domain interval delay < interval.
Proof.
  intros Hi. unfold ComputeAssignmentOffsetSeconds. set (raw := be_val _). destruct (Z.leb_spec 3600 interval).
  - pose proof (Z.mod_pos_bound raw 60 ltac:(lia)). lia.
  - set (d := if _ || _ then interval else delay). assert (0 < d ≤ interval) as Hd.
    { subst d. destruct (Z.leb_spec delay 0), (Z.ltb_spec interval delay); cbn; lia. }
    clearbody d. destruct (Z.leb_spec d 0); [lia|]. pose proof (Z.mod_pos_bound raw d ltac:(lia)). lia.
Qed.

Lemma effective_drand_pos p : 0 < EffectiveDrandGenesisTimeUnix p ∧ 0 < EffectiveDrandPeriodSeconds p ∧ 0 < EffectiveDrandRoundOffsetSeconds p.
Proof.
  unfold EffectiveDrandGenesisTimeUnix, EffectiveDrandPeriodSeconds, EffectiveDrandRoundOffsetSeconds.
  unfold DefaultDrandGenesisTimeUnix, DefaultDrandPeriodSeconds, DefaultDrandRoundOffsetSec. repeat case_match; zb; lia.
Qed.

(** The schedule of drand fits 64 bits. *)
Definition drand_typed (p : PublisherParams) : Prop :=
  EffectiveDrandGenesisTimeUnix p < 2 ^ 62 ∧ EffectiveDrandPeriodSeconds p < 2 ^ 62 ∧ EffectiveDrandRoundOffsetSeconds p < 2 ^ 62.

(** The required round is the last one emitted no later than the offset before the
    verification round. *)
Lemma required_drand p rs : drand_typed p → 0 < rs < 2 ^ 62 →
  EffectiveDrandGenesisTimeUnix p ≤ rs - EffectiveDrandRoundOffsetSeconds p →
  ∃ n, requiredDrandRound p rs = Ok (n, EffectiveDrandGenesisTimeUnix p + (n - 1) * EffectiveDrandPeriodSeconds p) ∧ 0 < n < 2 ^ 63 ∧
    EffectiveDrandGenesisTimeUnix p + (n - 1) * EffectiveDrandPeriodSeconds p ≤ rs - EffectiveDrandRoundOffsetSeconds p <
      EffectiveDrandGenesisTimeUnix p + n * EffectiveDrandPeriodSeconds p.
Proof.
  intros (Hg & Hp & Ho) Hr Hle. destruct (effective_drand_pos p) as (Hg0 & Hp0 & Ho0). unfold requiredDrandRound. cbv zeta.
  revert Hg Hp Ho Hg0 Hp0 Ho0 Hle. generalize (EffectiveDrandGenesisTimeUnix p), (EffectiveDrandPeriodSeconds p), (EffectiveDrandRoundOffsetSeconds p).
  intros g per off Hg Hp Ho Hg0 Hp0 Ho0 Hle. rewrite guard_pass by (apply Z.leb_gt; lia).
  rewrite guard_pass by (destruct (Z.leb_spec g 0), (Z.leb_spec per 0), (Z.leb_spec off 0); (done || lia)).
  rewrite (i64_id (rs - off)) by lia. rewrite guard_pass by (apply Z.ltb_ge; lia). rewrite (i64_id (rs - off - g)) by lia.
  set (q := Z.quot (rs - off - g) per). assert (q * per ≤ rs - off - g < (q + 1) * per ∧ 0 ≤ q < 2 ^ 62) as [Hq Hq0].
  { subst q. rewrite Z.quot_div_nonneg by lia. pose proof (Z.div_mod (rs - off - g) per ltac:(lia)). pose proof (Z.mod_pos_bound (rs - off - g) per ltac:(lia)).
    assert (0 ≤ (rs - off - g) / per) by (apply Z.div_pos; lia). nia. }
  clearbody q. assert (u64 (u64 q + 1) = q + 1) as -> by (unfold u64; rewrite (uwrap_small 64 q), uwrap_small by (unfold in_u; lia); done).
  rewrite (i64_id (q + 1)) by lia. replace (q + 1 - 1) with q by lia. rewrite (i64_id q) by lia. rewrite (i64_id (q * per)) by nia.
  rewrite (i64_id (g + q * per)) by nia. exists (q + 1). replace (q + 1 - 1) with q by lia. split; [done|]. lia.
Qed.

(** ** Eligible verifiers *)

Section Eligible.
Context `{GoEnv} {B : Type}.
Abbreviation VStore := (VStore B).

Lemma stakes_lookup (vs : list Verifier) a v m : NoDup (v_Address <$> vs) → v ∈ vs → v_Address v = a →
  foldl (λ m v, <[v_Address v := c_Amount (v_Bond v)]> m) (m : gmap gostr Z) vs !! a = Some (c_Amount (v_Bond v)).
Proof.
  revert m. induction vs as [|x vs IH]; intros m Hn Hv Ha; [by apply elem_of_nil in Hv|]. cbn [foldl]. rewrite fmap_cons in Hn.
  apply list.NoDup_cons in Hn as [Hx Hn]. apply elem_of_cons in Hv as [<-|Hv]; [|by apply IH].
  assert (∀ l (m : gmap gostr Z), a ∉ v_Address <$> l → foldl (λ m v, <[v_Address v := c_Amount (v_Bond v)]> m) m l !! a = m !! a) as Hout.
  { intros l. induction l as [|y l IHl]; intros m' Hl; [done|]. rewrite fmap_cons, not_elem_of_cons in Hl. destruct Hl as [H1 H2]. cbn [foldl].
    rewrite IHl by done. by rewrite lookup_insert_ne. }
  rewrite Hout; [by rewrite Ha, lookup_insert_eq|]. by rewrite <- Ha.
Qed.

Lemma eligible_spec now (s : VStore) el st : bonds_inv (bond_table s) → eligibleVerifierAddrs now s = (el, st) →
  NoDup el ∧ Forall (λ a, is_Some (st !! a)) el ∧
  ∀ a, a ∈ el ↔ ∃ v, verifiers (bond_table s) !! a = Some v ∧ is_eligible now s v = true.
Proof.
  intros Hi. unfold eligibleVerifierAddrs. set (vs := filter _ _). intros [= <- <-].
  assert (∀ v, v ∈ vs ↔ verifiers (bond_table s) !! v_Address v = Some v ∧ is_eligible now s v = true) as Hvs.
  { intros v. subst vs. rewrite list_elem_of_filter. unfold ListVerifiers. rewrite elem_of_values. split.
    - intros [He [k Hk]]. destruct (bi_verifiers _ Hi _ _ Hk) as [-> _]. done.
    - intros [Hv He]. eauto. }
  assert (NoDup (v_Address <$> vs)) as Hn.
  { subst vs. destruct (values_keyed v_Address (verifiers (bond_table s))) as [Hn _]; [by intros k v Hk; apply (bi_verifiers _ Hi)|].
    eapply sublist_NoDup; [exact Hn|]. apply fmap_sublist, sublist_filter. }
  assert (∀ a, a ∈ v_Address <$> vs ↔ ∃ v, verifiers (bond_table s) !! a = Some v ∧ is_eligible now s v = true) as Hin.
  { intros a. rewrite list_elem_of_fmap. split.
    - intros (v & -> & [? ?]%Hvs). eauto.
    - intros (v & Hv & He). destruct (bi_verifiers _ Hi _ _ Hv) as [Ha _]. exists v. split; [done|]. apply Hvs. by rewrite Ha. }
  split_and!.
  - by rewrite SortStrings_perm.
  - rewrite SortStrings_perm. apply list.Forall_forall. intros a (v & -> & Hv)%list_elem_of_fmap. by rewrite (stakes_lookup vs _ v).
  - intros a. by rewrite SortStrings_perm.
Qed.
End Eligible.
