(* ===== verification/Rewards.v ===== *)
(** The rewards of the rounds of verification, from
    [src/x/registry/verification_rounds.go] and [verification_keeper.go]: the
    unsettled rounds, the split of a reward between verifiers, and the settlement
    of a round out of the emission pool of [src/x/tokenomics]; what a settlement
    moves, mints and burns. *)

From stdpp Require Import sorting.
From S2P Require Import Prelude JsBase GoBase GoHash Market MarketProofs GoSdk Tokenomics Verifiers RegParams Verification VerificationProofs Rounds RoundProofs.

(** * Amounts *)

Definition verificationRewardDenom : gostr := DefaultDenom.

(** The share of a publisher: at least the minimum, in proportion to the links
    that were found, at most the whole. *)
Definition publisherClaimableAmount (baseShare matchedLinks requiredLinks minimumRewardBps : Z) : result err Z :=
  if baseShare <=? 0 then Ok 0
  else if requiredLinks <=? 0 then Ok baseShare
  else
    let minimumRewardBps := if minimumRewardBps <? 0 then 0 else minimumRewardBps in
    let minimumRewardBps := if 10000 <? minimumRewardBps then 10000 else minimumRewardBps in
    let matchedLinks := if matchedLinks <? 0 then 0 else matchedLinks in
    let proportionalBps := Z.quot (i64 (matchedLinks * 10000)) requiredLinks in
    let proportionalBps := if 10000 <? proportionalBps then 10000 else proportionalBps in
    let claimBps := if minimumRewardBps <? proportionalBps then proportionalBps else minimumRewardBps in
    n ← Int_Mul baseShare claimBps;
    Ok (Z.quot n 10000).

(** The variables of the split: the payouts, and the amounts [distributed] by the
    running loop and [remaining]. *)
Record Split := mkSplit { sp_payout : gmap gostr Z; sp_distributed : Z; sp_remaining : Z }.

(** A share that is not positive is skipped. *)
Definition give_share (addr : gostr) (share : Z) (t : Split) : result err Split :=
  if share <=? 0 then Ok t
  else
    n ← match sp_payout t !! addr with Some existing => Int_Add existing share | None => Ok share end;
    d ← Int_Add (sp_distributed t) share;
    r ← Int_Sub (sp_remaining t) share;
    Ok (mkSplit (<[addr := n]> (sp_payout t)) d r).

(** A loop that divides [pool]: the last one gets what the others have left. *)
Fixpoint deal {A} (addr : A → gostr) (share : A → result err Z) (pool : Z) (l : list A) (t : Split) : result err Split :=
  match l with
  | [] => Ok t
  | [x] => n ← Int_Sub pool (sp_distributed t); give_share (addr x) n t
  | x :: r => n ← share x; t ← give_share (addr x) n t; deal addr share pool r t
  end.

(** The verifiers with a weight, and their total. *)
Definition weighted_verifier (weightByAddr : gmap gostr Z) (addr : gostr) (acc : list (gostr * Z) * Z)
    : result err (list (gostr * Z) * Z) :=
  match weightByAddr !! addr with
  | Some weight => if weight <=? 0 then Ok acc else total ← Int_Add acc.2 weight; Ok (acc.1 ++ [(addr, weight)], total)
  | None => Ok acc
  end.

Definition splitVerifierAssignmentRewards (total : Z) (successful : list gostr) (weightByAddr : gmap gostr Z) (baseShareBps : Z)
    : result err (gmap gostr Z * Z) :=
  if (total <=? 0) || (length successful =? 0)%nat then Ok (∅, total)
  else
    let baseShareBps := if baseShareBps <? 0 then 0 else baseShareBps in
    let baseShareBps := if 10000 <? baseShareBps then 10000 else baseShareBps in
    x ← Int_Mul total baseShareBps;
    let basePool := Z.quot x 10000 in
    weightedPool ← Int_Sub total basePool;
    t ← (if 0 <? basePool
         then let per := Z.quot basePool (Z.of_nat (length successful)) in
              deal id (λ _, Ok per) basePool successful (mkSplit ∅ 0 total)
         else Ok (mkSplit ∅ 0 total));
    w ← each (weighted_verifier weightByAddr) successful ([], 0);
    let '(weighted, totalWeight) := w in
    t ← (if (0 <? weightedPool) && (0 <? length weighted)%nat && (0 <? totalWeight)
         then deal fst (λ e, n ← Int_Mul weightedPool e.2; Ok (Z.quot n totalWeight)) weightedPool weighted
                (mkSplit (sp_payout t) 0 (sp_remaining t))
         else Ok t);
    Ok (sp_payout t, if sp_remaining t <? 0 then 0 else sp_remaining t).

(** * The keeper *)

Section Settlement.
Context `{GoEnv} {B : Type} `{BankKeeper B}.
Abbreviation VStore := (VStore B).

Definition ListAssignmentsForRound (round : Z) (s : VStore) : list Assignment :=
  snd <$> filter (λ kv, starts_with (verificationRoundKey round) kv.1 = true) (entries (assignments s)).

Definition set_unsettled (x : gset gostr) (s : VStore) : VStore :=
  mkVStore (market s) (assignments s) (submissions s) (commits s) (streaks s) (similar s) (penalties s) x (rounds s)
    (bond_table s) (pool_funded s).
Definition clearVerificationRoundUnsettled (round : Z) (s : VStore) : VStore :=
  set_unsettled (unsettled s ∖ {[verificationRoundKey round]}) s.

(** The keys in order, as signed numbers. *)
Definition listUnsettledVerificationRounds (s : VStore) : result err (list Z) :=
  each (λ k rounds, (guard_err (negb (length k =? 8)%nat) Panic;; Ok (rounds ++ [i64 (be_val k)])))
    (SortStrings (elements (unsettled s))) [].

Definition CountActiveReferredPublishers (verifier : gostr) (s : VStore) : Z :=
  let verifier := TrimSpace verifier in
  Z.of_nat (length (filter (λ w, w_Status w = StatusVerified ∧ TrimSpace (w_Referrer w) = verifier) (values (websites (market s))))).

(** ** Verifiers *)

Definition bonds_of (s : VStore) : gmap gostr Z :=
  let bondDenom := bp_BondDenom (GetBondParams (bond_table s)) in
  foldl (λ m v, if decide (c_Denom (v_Bond v) = bondDenom) then <[v_Address v := c_Amount (v_Bond v)]> m else m) ∅
    (ListVerifiers (bond_table s)).

(** The stake of a verifier times the verified publishers it has referred. *)
Definition weigh_verifier (s : VStore) (addr : gostr) (m : gmap gostr Z) : result err (gmap gostr Z) :=
  match bonds_of s !! addr with
  | Some stake =>
      if stake <=? 0 then Ok m
      else
        let refFactor := CountActiveReferredPublishers addr s in
        let refFactor := if refFactor <=? 0 then 1 else refFactor in
        n ← Int_Mul stake refFactor;
        Ok (<[addr := n]> m)
  | None => Ok m
  end.

(** A verifier with no payout is a nil integer, whose use panics. *)
Definition send_share (payout : gmap gostr Z) (addr : gostr) (b : B) : result err B :=
  match payout !! addr with
  | None => Err Panic
  | Some share =>
      if share <=? 0 then Ok b
      else
        match AccAddressFromBech32 addr with
        | None => Err (Errorf "invalid verifier address")
        | Some acc => c ← NewCoin verificationRewardDenom share; SendFromPool acc c b
        end
  end.

(** The verifiers whose submission passed, sorted. *)
Definition successful_verifiers (a : Assignment) (s : VStore) : list gostr :=
  SortStrings (elements (list_to_set (b_Verifier <$> filter (λ x, b_Passed x = true)
    (ListSubmissions (a_RoundStartUnix a) (a_Domain a) s)) : gset gostr)).

(** The amount sent, and the bank. *)
Definition payVerifierAssignmentRewards (p : PublisherParams) (a : Assignment) (total : Z) (s : VStore) (b : B) : result err (Z * B) :=
  if total <=? 0 then Ok (0, b)
  else
    let successful := successful_verifiers a s in
    match successful with
    | [] => Ok (0, b)
    | _ =>
        weightByAddr ← each (weigh_verifier s) successful ∅;
        r ← splitVerifierAssignmentRewards total successful weightByAddr (EffectiveVerifierRewardBaseShareBps p);
        let '(payoutByAddr, remaining) := r in
        b ← each (send_share payoutByAddr) successful b;
        sent ← Int_Sub total remaining;
        Ok (sent, b)
    end.

(** ** A round *)

Definition rewards_settled (a : Assignment) : Assignment :=
  mkAssignment (a_RoundStartUnix a) (a_Domain a) (a_StartAtUnix a) (a_DeadlineUnix a) (a_Verifiers a) (a_Finalized a)
    (a_FinalizedAtUnix a) (a_Verified a) true (a_VerificationOwner a) (a_Reregistration a).

Definition markVerificationRoundRewardsSettled (l : list Assignment) (s : VStore) : result err VStore :=
  s ← each (λ a, SetAssignment (rewards_settled a)) l s;
  Ok (match l with [] => s | a :: _ => clearVerificationRoundUnsettled (a_RoundStartUnix a) s end).

(** The pools of a round; a pool that is zero falls back to the fixed reward. *)
Definition round_pools (p : PublisherParams) : result err (Z * Z) :=
  r ← RoundEmissionPools p (round_interval p);
  let '(publisherRoundPool, verifierRoundPool) := r in
  let publisherRoundPool := if (publisherRoundPool =? 0) && (0 <? p_PublisherVerificationReward p)
                            then p_PublisherVerificationReward p else publisherRoundPool in
  let verifierRoundPool := if (verifierRoundPool =? 0) && (0 <? p_VerifierVerificationReward p)
                           then p_VerifierVerificationReward p else verifierRoundPool in
  Ok (publisherRoundPool, verifierRoundPool).

Definition fund_pool (p : PublisherParams) (funded : Z) (b : B) : result err (Z * B) :=
  let emissionPoolBps := i64 (EffectivePublisherEmissionBps p + EffectiveVerifierEmissionBps p) in
  if 0 <? emissionPoolBps then
    x ← Int_Mul (EffectiveEmissionTotalSupply p) emissionPoolBps;
    let totalPoolAmount := Z.quot x 10000 in
    if 0 <? totalPoolAmount then EnsureEmissionPool verificationRewardDenom totalPoolAmount funded b else Ok (funded, b)
  else Ok (funded, b).

(** The body of the loop over the verified publishers; the bank and what remains
    of the pool are the variables. *)
Definition pay_publisher (order : gmap gostr Z → list (gostr * Z)) (p : PublisherParams) (baseShare : Z) (s : VStore) (a : Assignment)
    (v : B * Z) : result err (B * Z) :=
  match GetWebsite (a_Domain a) (market s) with
  | None => Ok v
  | Some website =>
      let stats := computeSimilarRoundStats order (Z.of_nat (length (a_Verifiers a)))
                     (ListSubmissions (a_RoundStartUnix a) (a_Domain a) s) in
      claimable ← publisherClaimableAmount baseShare (VerifiedSimilarDomains stats)
                    (EffectiveRequiredExternalLinksForFullReward p) (EffectivePublisherMinRewardBps p);
      if claimable <=? 0 then Ok v
      else
        match AccAddressFromBech32 (w_Owner website) with
        | None => Err (Errorf "invalid owner address")
        | Some ownerAddr =>
            c ← NewCoin verificationRewardDenom claimable;
            b ← SendFromPool ownerAddr c v.1;
            r ← Int_Sub v.2 claimable;
            Ok (b, r)
        end
  end.

Definition pay_verifiers (p : PublisherParams) (perAssignment : Z) (s : VStore) (a : Assignment) (v : B * Z) : result err (B * Z) :=
  x ← payVerifierAssignmentRewards p a perAssignment s v.1;
  r ← Int_Sub v.2 x.1;
  Ok (x.2, r).

Definition burn_rest (v : B * Z) : result err B :=
  if 0 <? v.2 then c ← NewCoin verificationRewardDenom v.2; BurnFromPool c v.1 else Ok v.1.

Definition by_domain (a b : Assignment) : Prop := key_leb (a_Domain a) (a_Domain b) = true.
#[global] Instance by_domain_dec : RelDecision by_domain.
Proof. intros a b. unfold by_domain. apply _. Defined.

Definition set_bank_funded (b : B) (funded : Z) (s : VStore) : VStore :=
  mkVStore (set_bank b (market s)) (assignments s) (submissions s) (commits s) (streaks s) (similar s) (penalties s) (unsettled s)
    (rounds s) (bond_table s) funded.

(** The payments of a round; the sum at the end is the one of the event. *)
Definition pay_round (order : gmap gostr Z → list (gostr * Z)) (p : PublisherParams) (assignments : list Assignment) (s : VStore)
    : result err VStore :=
  pools ← round_pools p;
  let '(publisherRoundPool, verifierRoundPool) := pools in
  f ← fund_pool p (pool_funded s) (bank (market s));
  let '(funded, b) := f in
  let active := filter (λ a, a_Verified a = true) assignments in
  v ← (if (0 <? publisherRoundPool) && (0 <? length active)%nat
       then each (pay_publisher order p (Z.quot publisherRoundPool (Z.of_nat (length active))) s) active (b, publisherRoundPool)
       else Ok (b, publisherRoundPool));
  let publisherRemaining := v.2 in
  b ← burn_rest v;
  v ← (if (0 <? verifierRoundPool) && (0 <? length assignments)%nat
       then each (pay_verifiers p (Z.quot verifierRoundPool (Z.of_nat (length assignments))) s) active (b, verifierRoundPool)
       else Ok (b, verifierRoundPool));
  b ← burn_rest v;
  _ ← Int_Add publisherRemaining v.2;
  Ok (set_bank_funded b funded s).

Definition settleVerificationRound (order : gmap gostr Z → list (gostr * Z)) (p : PublisherParams) (assignments : list Assignment)
    (s : VStore) : result err VStore :=
  match assignments with
  | [] => Ok s
  | _ =>
      let assignments := merge_sort by_domain assignments in
      s ← pay_round order p assignments s;
      markVerificationRoundRewardsSettled assignments s
  end.

(** The body of the loop over the unsettled rounds. *)
Definition settle_round (order : gmap gostr Z → list (gostr * Z)) (p : PublisherParams) (round : Z) (s : VStore) : result err VStore :=
  let assignments := ListAssignmentsForRound round s in
  match assignments with
  | [] => Ok (clearVerificationRoundUnsettled round s)
  | _ =>
      let allFinalized := forallb a_Finalized assignments in
      let settledCount := length (filter (λ a, a_RewardsSettled a = true) assignments) in
      if (settledCount =? length assignments)%nat then Ok (clearVerificationRoundUnsettled round s)
      else if negb allFinalized then Ok s
      else
        guard_err (negb (settledCount =? 0)%nat) (Errorf "verification round has partially settled rewards");;
        settleVerificationRound order p assignments s
  end.

Definition settleFinalizedVerificationRounds (order : gmap gostr Z → list (gostr * Z)) (p : PublisherParams) (s : VStore)
    : result err VStore :=
  rounds ← listUnsettledVerificationRounds s;
  each (settle_round order p) rounds s.
End Settlement.
