(* ===== verification/RewardProofs.v ===== *)
(** Lemmas on the rewards: a split divides its total to the last unit, and the
    settlement of a round takes its two pools out of the emission pool, paying
    part of them and burning the rest. *)

From stdpp Require Import sorting.
From S2P Require Import Prelude JsBase GoBase GoHash Market MarketProofs GoSdk Tokenomics Verifiers RegParams Verification VerificationProofs Rounds RoundProofs Rewards.

(** * The split *)

(** From [t] to [t'] a loop has distributed [n]: to addresses of [who], each payout
    positive. *)
Record dealt (who : list gostr) (n : Z) (t t' : Split) : Prop := {
  dl_sum : sum_over id (sp_payout t') = sum_over id (sp_payout t) + n;
  dl_remaining : sp_remaining t' = sp_remaining t - n;
  dl_distributed : sp_distributed t' = sp_distributed t + n;
  dl_entries a x : sp_payout t' !! a = Some x → (a ∈ who ∧ 0 < x) ∨ sp_payout t !! a = Some x }.

Lemma dealt_nil who t : dealt who 0 t t.
Proof. split; try lia. by right. Qed.

Lemma dealt_trans l l' n n' t t' t'' : dealt l n t t' → dealt l' n' t' t'' → dealt (l ++ l') (n + n') t t''.
Proof.
  intros [S1 R1 D1 E1] [S2 R2 D2 E2]. split; try lia. intros a x Hx. rewrite elem_of_app.
  destruct (E2 a x Hx) as [[? ?]|Hx']; [left; auto|]. destruct (E1 a x Hx') as [[? ?]|?]; [left; auto|by right].
Qed.

(** Every payout so far is positive. *)
Definition payouts_pos (t : Split) : Prop := ∀ a x, sp_payout t !! a = Some x → 0 < x.

Lemma dealt_pos l n t t' : payouts_pos t → dealt l n t t' → payouts_pos t'.
Proof. intros Hp [_ _ _ He] a x Hx. destruct (He a x Hx) as [[_ ?]|?]; [done|by eapply Hp]. Qed.

Lemma give_share_Ok addr n t t' : payouts_pos t → 0 ≤ n → give_share addr n t = Ok t' → dealt [addr] n t t'.
Proof.
  intros Hp Hn HG. unfold give_share in HG. destruct (Z.leb_spec n 0) as [Hz|Hpos].
  { injection HG as <-. assert (n = 0) as -> by lia. apply dealt_nil. }
  apply bind_Ok_inv in HG as (m & Em & HG). run_ok HG. int_ops. injection HG as <-. split; cbn; [|lia|lia|].
  - destruct (sp_payout t !! addr) as [x|] eqn:Ex.
    + int_ops. rewrite (sum_over_replace id _ _ _ x) by done. cbn. lia.
    + injection Em as <-. rewrite sum_over_fresh by done. cbn. lia.
  - intros a x [[<- <-]|[_ Hx]]%lookup_insert_Some; [left|by right]. split; [by left|].
    destruct (sp_payout t !! addr) as [y|] eqn:Ey; [|by injection Em as <-]. int_ops. specialize (Hp addr y Ey). lia.
Qed.

(** A loop whose shares fit the pool distributes the whole pool. *)
Lemma deal_Ok {A} addr (share : A → result err Z) (g : A → Z) pool l t t' : l ≠ [] → payouts_pos t →
  (∀ x n, x ∈ l → share x = Ok n → n = g x) → (∀ x, x ∈ l → 0 ≤ g x) → sp_distributed t + sumZ (g <$> l) ≤ pool →
  deal addr share pool l t = Ok t' → dealt (addr <$> l) (pool - sp_distributed t) t t'.
Proof.
  revert t. induction l as [|x l IH]; intros t Hne Hp Hs Hg Hle HD; [done|]. rewrite fmap_cons in Hle. cbn in Hle.
  pose proof (Hg x ltac:(by left)) as Hx.
  assert (0 ≤ sumZ (g <$> l)) as Hr by (apply sumZ_nonneg, Forall_fmap, list.Forall_forall; intros y Hy; apply Hg; by right).
  unfold sumZ in Hle, Hr. destruct l as [|y l].
  - cbn [deal] in HD. run_ok HD. int_ops. apply give_share_Ok in HD; [done|done|cbn in *; lia].
  - change (deal addr share pool (x :: y :: l) t)
      with (n ← share x; t ← give_share (addr x) n t; deal addr share pool (y :: l) t) in HD.
    apply bind_Ok_inv in HD as (n & En & HD). apply (Hs x _ ltac:(by left)) in En as ->.
    apply bind_Ok_inv in HD as (t1 & Hd & HD). apply give_share_Ok in Hd; [|done|done].
    pose proof (dl_distributed _ _ _ _ Hd) as Hdist. apply IH in HD; [|done|by eapply dealt_pos|intros; apply Hs; [by right|done]|
      intros; apply Hg; by right|unfold sumZ; lia].
    replace (pool - sp_distributed t) with (g x + (pool - sp_distributed t1)) by lia. rewrite fmap_cons.
    exact (dealt_trans [addr x] _ _ _ _ _ _ Hd HD).
Qed.

Lemma weighted_verifiers ws l acc r : each (weighted_verifier ws) l acc = Ok r →
  ∃ m, r.1 = acc.1 ++ m ∧ r.2 = acc.2 + total_weight m ∧ Forall (λ e, 0 < e.2 ∧ ws !! e.1 = Some e.2) m ∧ m.*1 ⊆+ l ∧
  ∀ a w, a ∈ l → ws !! a = Some w → 0 < w → (a, w) ∈ m.
Proof.
  revert acc. induction l as [|a l IH]; intros acc HE; cbn [each] in HE.
  - injection HE as <-. exists []. rewrite app_nil_r. split_and!; [done|unfold total_weight, sumZ; cbn; lia|done|done|by intros a w ?%elem_of_nil].
  - apply bind_Ok_inv in HE as (acc' & E & HE). destruct (IH acc' HE) as (m & H1 & H2 & H3 & H4 & H5). unfold weighted_verifier in E.
    destruct (ws !! a) as [w|] eqn:Ea; [destruct (Z.leb_spec w 0)|].
    + injection E as <-. exists m. split_and!; try done; [by apply submseteq_cons|].
      intros b x [->|Hb]%elem_of_cons Hx Hp; [rewrite Ea in Hx; injection Hx as <-; lia|by apply H5].
    + run_ok E. int_ops. injection E as <-. exists ((a, w) :: m). cbn in H1, H2. rewrite <- app_assoc in H1. split_and!; [done| | | |].
      * rewrite total_weight_cons. cbn. lia.
      * constructor; [done|exact H3].
      * cbn. by apply submseteq_skip.
      * intros b x [->|Hb]%elem_of_cons Hx Hp; [rewrite Ea in Hx; injection Hx as <-; by left|right; by apply H5].
    + injection E as <-. exists m. split_and!; try done; [by apply submseteq_cons|].
      intros b x [->|Hb]%elem_of_cons Hx Hp; [congruence|by apply H5].
Qed.

(** Shares in proportion, rounded down, do not exceed what is shared. *)
Lemma proportional_le (pool : Z) (m : list (gostr * Z)) total : 0 ≤ pool → 0 < total → Forall (λ e, 0 < e.2) m →
  sumZ ((λ e : gostr * Z, Z.quot (pool * e.2) total) <$> m) * total ≤ pool * total_weight m.
Proof.
  intros Hp Ht Hm. induction Hm as [|e m He Hm IH]; [unfold total_weight, sumZ; cbn; lia|].
  rewrite total_weight_cons, fmap_cons. unfold sumZ in *. cbn [foldr].
  pose proof (Z.mul_quot_le (pool * e.2) total ltac:(nia) ltac:(lia)). nia.
Qed.

(** The loop of the equal shares. *)
Lemma base_deal base successful t t' : 0 ≤ base → successful ≠ [] → payouts_pos t → sp_distributed t = 0 →
  (if 0 <? base then deal id (λ _, Ok (Z.quot base (Z.of_nat (length successful)))) base successful t else Ok t) = Ok t' →
  dealt successful base t t'.
Proof.
  intros Hb Hne Hp Hd HB. destruct (Z.ltb_spec 0 base); [|injection HB as <-; replace base with 0 by lia; apply dealt_nil].
  set (n := Z.of_nat (length successful)) in HB. assert (0 < n) as Hn by (subst n; destruct successful; [done|cbn; lia]).
  apply (deal_Ok id _ (λ _, Z.quot base n)) in HB; [|done|done|by intros ? ? _ [= ->]|intros _ _; apply Z.quot_pos; lia|].
  - rewrite list_fmap_id, Hd, Z.sub_0_r in HB. exact HB.
  - rewrite Hd. assert (∀ l : list gostr, sumZ ((λ _, Z.quot base n) <$> l) = Z.of_nat (length l) * Z.quot base n) as ->.
    { intros l. induction l as [|y l IH]; [done|]. unfold sumZ in *. cbn in *. rewrite IH. lia. }
    fold n. pose proof (Z.mul_quot_le base n ltac:(lia) ltac:(lia)). lia.
Qed.

(** The loop of the weighted shares gives the whole pool, when anybody has a weight. *)
Lemma weighted_deal pool (m : list (gostr * Z)) t t' : 0 ≤ pool → Forall (λ e, 0 < e.2) m → payouts_pos t →
  (if (0 <? pool) && (0 <? length m)%nat && (0 <? total_weight m)
   then deal fst (λ e, n ← Int_Mul pool e.2; Ok (Z.quot n (total_weight m))) pool m (mkSplit (sp_payout t) 0 (sp_remaining t))
   else Ok t) = Ok t' →
  let k := match m with [] => 0 | _ => pool end in
  sum_over id (sp_payout t') = sum_over id (sp_payout t) + k ∧ sp_remaining t' = sp_remaining t - k ∧
  ∀ a x, sp_payout t' !! a = Some x → (a ∈ m.*1 ∧ 0 < x) ∨ sp_payout t !! a = Some x.
Proof.
  intros Hp Hm Hpos HW. pose proof (total_weight_pos m Hm) as Htw. destruct (_ && _) eqn:Hc.
  - apply andb_true_iff in Hc as [[Hwp Hlw]%andb_true_iff Htp]. zb. apply Nat.ltb_lt in Hlw.
    assert (m ≠ []) as Hne by (by intros ->). replace (match m with [] => 0 | _ => pool end) with pool by (by destruct m).
    apply (deal_Ok fst _ (λ e, Z.quot (pool * e.2) (total_weight m))) in HW as [S2 R2 _ E2]; [|done|exact Hpos| | |].
    + cbn in S2, R2, E2. rewrite Z.sub_0_r in S2, R2. split_and!; [done|done|]. exact E2.
    + intros e n He HI. run_ok HI. int_ops. by injection HI as <-.
    + intros e He. rewrite list.Forall_forall in Hm. specialize (Hm e He). cbn in Hm. apply Z.quot_pos; nia.
    + cbn. pose proof (proportional_le pool m (total_weight m) Hp ltac:(lia) Hm). nia.
  - injection HW as <-. assert (match m with [] => 0 | _ => pool end = 0) as ->; [|split_and!; [lia|lia|auto]].
    destruct m as [|e m]; [done|]. specialize (Htw ltac:(done)). cbn [length] in Hc.
    destruct (Z.ltb_spec 0 pool); [|lia]. apply Z.ltb_lt in Htw. by rewrite Htw in Hc.
Qed.

(** The two parts of a split: equal shares of [base], and the rest by weight. *)
Lemma split_parts total successful ws bps payout rest : 0 < total → successful ≠ [] →
  splitVerifierAssignmentRewards total successful ws bps = Ok (payout, rest) →
  ∃ base m, 0 ≤ base ≤ total ∧ (bps ≤ 0 → base = 0) ∧
    Forall (λ e, 0 < e.2 ∧ ws !! e.1 = Some e.2) m ∧ m.*1 ⊆+ successful ∧ (∀ a w, a ∈ successful → ws !! a = Some w → 0 < w → (a, w) ∈ m) ∧
    rest = match m with [] => total - base | _ => 0 end ∧ sum_over id payout = total - rest ∧
    ∀ a x, payout !! a = Some x → 0 < x ∧ ((a ∈ successful ∧ 0 < base) ∨ a ∈ m.*1).
Proof.
  intros Hpos Hne HS. unfold splitVerifierAssignmentRewards in HS. destruct (Z.leb_spec total 0); [lia|].
  destruct (Nat.eqb_spec (length successful) 0) as [Hl|_]; [by destruct successful|]. cbn [orb] in HS.
  set (b := if 10000 <? _ then _ else _) in HS. assert (0 ≤ b ≤ 10000 ∧ (bps ≤ 0 → b = 0)) as [Hb Hb0] by (subst b; repeat case_match; zb; lia).
  clearbody b. apply bind_Ok_inv in HS as (x & Hx & HS). int_ops. set (base := Z.quot (total * b) 10000) in HS.
  assert (0 ≤ base ≤ total) as Hbase by (split; [apply Z.quot_pos; nia|apply Z.quot_le_upper_bound; nia]).
  assert (bps ≤ 0 → base = 0) as Hbase0 by (intros ->%Hb0; subst base; by rewrite Z.mul_0_r).
  apply bind_Ok_inv in HS as (wp & Hw & HS). int_ops. set (t0 := mkSplit ∅ 0 total) in HS.
  assert (payouts_pos t0) as Hp0 by (intros a y Hy; cbn in Hy; by apply lookup_empty_Some in Hy).
  apply bind_Ok_inv in HS as (t1 & HB & HS). apply bind_Ok_inv in HS as ([m tw] & HV & HS). apply bind_Ok_inv in HS as (t2 & HW & HS).
  apply base_deal in HB as Hd1; [|lia|done|done|done]. pose proof (dealt_pos _ _ _ _ Hp0 Hd1) as Hp1.
  assert (∀ a x, sp_payout t1 !! a = Some x → 0 < x ∧ a ∈ successful ∧ 0 < base) as He1.
  { intros a x Hax. split; [by eapply Hp1|]. destruct (Z.ltb_spec 0 base) as [Hbp|Hbp].
    - split; [|done]. destruct (dl_entries _ _ _ _ Hd1 a x Hax) as [[? _]|Hax']; [done|]. cbn in Hax'. by apply lookup_empty_Some in Hax'.
    - injection HB as <-. cbn in Hax. by apply lookup_empty_Some in Hax. }
  destruct Hd1 as [S1 R1 _ _]. change (sp_payout t0) with (∅ : gmap gostr Z) in S1. rewrite (sum_over_list id ∅), map_to_list_empty in S1. cbn in S1, R1.
  apply weighted_verifiers in HV as (m' & Em & Etw & Hm & Hsub & Hin). cbn in Em, Etw. subst m tw.
  apply weighted_deal in HW as (S2 & R2 & E2); [|lia|eapply list.Forall_impl; [exact Hm|]; cbn; tauto|done].
  injection HS as <- <-. exists base, m'. rewrite R2, S2. split; [done|]. split; [done|]. split; [done|]. split; [done|]. split; [done|].
  split; [|split].
  - destruct m'; cbn beta iota; rewrite R1; match goal with |- context [?z <? 0] => destruct (Z.ltb_spec z 0) end; lia.
  - destruct m'; cbn beta iota; rewrite R1; match goal with |- context [?z <? 0] => destruct (Z.ltb_spec z 0) end; lia.
  - intros a x Hax. destruct (E2 a x Hax) as [[? ?]|Hax']; [auto|]. destruct (He1 a x Hax') as (? & ? & ?). auto.
Qed.

(** A split pays positive amounts to successful verifiers, and these with what
    remains are the total. *)
Lemma split_Ok total successful ws bps payout rest : 0 ≤ total →
  splitVerifierAssignmentRewards total successful ws bps = Ok (payout, rest) →
  sum_over id payout + rest = total ∧ 0 ≤ rest ≤ total ∧ (∀ a x, payout !! a = Some x → a ∈ successful ∧ 0 < x) ∧
  ((∃ a w, a ∈ successful ∧ ws !! a = Some w ∧ 0 < w) → 0 < total → rest = 0).
Proof.
  intros Ht HS. destruct (decide (0 < total ∧ successful ≠ [])) as [[Hpos Hne]|Hno].
  - destruct (split_parts _ _ _ _ _ _ Hpos Hne HS) as (base & m & Hb & _ & _ & Hsub & Hin & -> & -> & He). split_and!; [lia|destruct m; lia|destruct m; lia| |].
    + intros a x Hax. destruct (He a x Hax) as [? [[? _]|Ha]]; [done|]. split; [|done]. by eapply elem_of_submseteq.
    + intros (a & w & Ha & Hw & Hwp) _. specialize (Hin a w Ha Hw Hwp). destruct m; [by apply elem_of_nil in Hin|done].
  - assert ((total <=? 0) || (length successful =? 0)%nat = true) as Hc.
    { apply orb_true_iff. rewrite Z.leb_le, Nat.eqb_eq. destruct (decide (0 < total)); [right|left; lia]. destruct successful; [done|naive_solver]. }
    unfold splitVerifierAssignmentRewards in HS. rewrite Hc in HS. injection HS as <- <-. rewrite sum_over_list, map_to_list_empty. cbn.
    split_and!; [lia..|by intros a x ?%lookup_empty_Some|]. intros (a & w & Ha & _) Hp. exfalso. apply Hno. split; [done|]. intros ->. by apply elem_of_nil in Ha.
Qed.

Lemma claimable_Ok base matched required min n : 0 ≤ base → publisherClaimableAmount base matched required min = Ok n → 0 ≤ n ≤ base.
Proof.
  intros Hb HC. unfold publisherClaimableAmount in HC. destruct (Z.leb_spec base 0); [injection HC as <-; lia|].
  destruct (Z.leb_spec required 0); [injection HC as <-; lia|].
  set (m := if 10000 <? _ then 10000 else if min <? 0 then _ else _) in HC. assert (0 ≤ m ≤ 10000) as Hm by (subst m; repeat case_match; zb; lia).
  clearbody m. set (q := if 10000 <? Z.quot _ _ then _ else _) in HC. assert (q ≤ 10000) as Hq by (subst q; match goal with |- context [10000 <? ?z] => destruct (Z.ltb_spec 10000 z) end; lia).
  clearbody q.
  set (c := if m <? q then q else m) in HC. assert (0 ≤ c ≤ 10000) as Hc by (subst c; case_match; zb; lia). clearbody c.
  run_ok HC. int_ops. injection HC as <-. split; [apply Z.quot_pos; nia|]. apply Z.quot_le_upper_bound; nia.
Qed.

(** The entries of a map over a list of its keys. *)
Lemma sum_over_keys (m : gmap gostr Z) l : NoDup l → (∀ a, is_Some (m !! a) ↔ a ∈ l) →
  sum_over id m = sumZ ((λ a, default 0 (m !! a)) <$> l).
Proof.
  intros Hn. revert m. induction Hn as [|a l Ha Hn IH]; intros m Hm.
  - assert (m = ∅) as ->.
    { apply map_empty. intros i. apply eq_None_not_Some. rewrite Hm. apply not_elem_of_nil. }
    by rewrite sum_over_list, map_to_list_empty.
  - destruct (proj2 (Hm a) ltac:(by left)) as [x Hx]. rewrite <- (insert_delete_id m a x) at 1 by done.
    rewrite sum_over_fresh by apply lookup_delete_eq. rewrite (IH (delete a m)).
    + rewrite fmap_cons. unfold sumZ. cbn [foldr]. rewrite Hx. cbn. f_equal. f_equal. apply list_fmap_ext. intros i b Hb.
      rewrite lookup_delete_ne; [done|]. intros <-. apply Ha. by eapply list_elem_of_lookup_2.
    + intros b. rewrite lookup_delete_is_Some, Hm, elem_of_cons. split; [intros [? [->|?]]; done|]. intros Hb. split; [|by right].
      intros ->. done.
Qed.

(** * The pools of a round *)

Lemma effective_pos p : 0 < EffectiveEmissionTotalSupply p ∧ 0 < EffectivePublisherEmissionBps p ∧ 0 < EffectiveVerifierEmissionBps p ∧
  0 < EffectiveEmissionDurationHours p.
Proof.
  unfold EffectiveEmissionTotalSupply, EffectivePublisherEmissionBps, EffectiveVerifierEmissionBps, EffectiveEmissionDurationHours.
  cbn [p_EmissionTotalSupply p_PublisherEmissionBps p_VerifierEmissionBps p_EmissionDurationHours DefaultPublisherParams].
  repeat case_match; zb; lia.
Qed.

Lemma round_interval_pos p : 0 < round_interval p.
Proof. unfold round_interval. destruct (Z.leb_spec (p_RoundIntervalSeconds p) 0); lia. Qed.

Definition emission_denominator (p : PublisherParams) : Z := i64 (i64 (EffectiveEmissionDurationHours p * 3600) * 10000).

Lemma emission_pools_Ok p interval x y : 0 < interval → RoundEmissionPools p interval = Ok (x, y) →
  0 < emission_denominator p ∧
  x = Z.quot (EffectiveEmissionTotalSupply p * EffectivePublisherEmissionBps p * interval) (emission_denominator p) ∧
  y = Z.quot (EffectiveEmissionTotalSupply p * EffectiveVerifierEmissionBps p * interval) (emission_denominator p).
Proof.
  intros Hi HE. destruct (effective_pos p) as (H1 & H2 & H3 & H4). unfold RoundEmissionPools in HE.
  destruct (Z.leb_spec (EffectiveEmissionTotalSupply p) 0); [lia|]. destruct (Z.leb_spec interval 0); [lia|]. cbv zeta in HE.
  fold (emission_denominator p) in HE. apply bind_Ok_inv in HE as (u & _ & HE). apply bind_Ok_inv in HE as (u' & Hd & HE). guards. zb.
  destruct (Z.ltb_spec 0 (EffectivePublisherEmissionBps p)); [|lia]. destruct (Z.ltb_spec 0 (EffectiveVerifierEmissionBps p)); [|lia].
  run_ok HE. run_ok E. run_ok E0. int_ops. injection HE as <- <-. injection E as <-. injection E0 as <-. done.
Qed.

(** * The emission pool *)

Section Pool.
Context `{GoEnv} {B : Type} `{BankKeeper B}.
Abbreviation VStore := (VStore B).

(** The payments out of the pool: account and amount. *)
Abbreviation payments := (list (list Z * Z)).
Definition paid (log : payments) : Z := sumZ (log.*2).
Definition received (a : list Z) (log : payments) : Z := sumZ (snd <$> filter (λ e, e.1 = a) log).

(** From [b] to [b'] the payments of [log] were made out of the emission pool and
    [burnt] was burnt, and nothing else. *)
Record spent (log : payments) (burnt : Z) (b b' : B) : Prop := {
  sp_mod m d : mod_bal b' m d = mod_bal b m d - if decide (m = tokenomics_module ∧ d = verificationRewardDenom) then paid log + burnt else 0;
  sp_acc a d : acc_bal b' a d = acc_bal b a d + if decide (d = verificationRewardDenom) then received a log else 0;
  sp_supply d : supply b' d = supply b d - if decide (d = verificationRewardDenom) then burnt else 0;
  sp_pos : Forall (λ e, 0 < e.2) log;
  sp_burnt : 0 ≤ burnt;
  sp_covered : 0 < paid log + burnt → 0 ≤ mod_bal b' tokenomics_module verificationRewardDenom }.

Lemma spent_nil b : spent [] 0 b b.
Proof.
  split; try done; [intros; case_decide; unfold paid, sumZ; cbn; lia|intros; case_decide; unfold received, sumZ; cbn; lia|intros; case_decide; lia].
Qed.

Lemma paid_nonneg log : Forall (λ e, 0 < e.2) log → 0 ≤ paid log.
Proof. intros Hl. apply sumZ_nonneg, Forall_fmap. eapply list.Forall_impl; [exact Hl|]. cbn. lia. Qed.

Lemma paid_app l l' : paid (l ++ l') = paid l + paid l'.
Proof. unfold paid. by rewrite fmap_app, sumZ_app. Qed.

Lemma spent_trans l l' n n' b b1 b2 : spent l n b b1 → spent l' n' b1 b2 → spent (l ++ l') (n + n') b b2.
Proof.
  intros [M1 A1 S1 P1 B1 C1] [M2 A2 S2 P2 B2 C2]. pose proof (paid_nonneg l P1) as N1. pose proof (paid_nonneg l' P2) as N2. split.
  - intros m d. rewrite M2, M1. unfold paid. rewrite fmap_app, sumZ_app. case_decide; lia.
  - intros a d. rewrite A2, A1. unfold received. rewrite list.filter_app, fmap_app, sumZ_app. case_decide; lia.
  - intros d. rewrite S2, S1. case_decide; lia.
  - by apply Forall_app.
  - lia.
  - rewrite paid_app. intros Hp. destruct (decide (0 < paid l' + n')) as [Hq|Hq]; [by apply C2|].
    rewrite M2, decide_True by done. assert (0 ≤ mod_bal b1 tokenomics_module verificationRewardDenom) by (apply C1; lia). lia.
Qed.

Lemma SendFromPool_Ok acc n c (b b' : B) : 0 < n → NewCoin verificationRewardDenom n = Ok c → SendFromPool acc c b = Ok b' →
  spent [(acc, n)] 0 b b'.
Proof.
  intros Hn Hc HS. apply NewCoin_Ok in Hc as [-> _]. unfold SendFromPool in HS. cbn in HS. destruct (Z.eqb_spec n 0); [lia|].
  unfold or_err in HS. destruct (ModuleToAccount _ _ _ _ _) as [b1|] eqn:E; [|done]. injection HS as <-.
  destruct (ModuleToAccount_spec _ _ _ _ _ _ Hn E) as (Hle & Hm & Ha & Hs). split.
  - intros m d. rewrite Hm. unfold paid, sumZ. cbn. repeat case_decide; lia.
  - intros a d. rewrite Ha. unfold received. destruct (decide (acc = a)) as [<-|Hne].
    + rewrite filter_cons_True by done. unfold sumZ. cbn. repeat case_decide; try tauto; lia.
    + rewrite filter_cons_False by done. unfold sumZ. cbn. destruct (decide (a = acc ∧ _)) as [[-> _]|]; [done|]. case_decide; lia.
  - intros d. rewrite Hs. case_decide; lia.
  - by constructor.
  - done.
  - intros _. rewrite Hm, decide_True by done. lia.
Qed.

Lemma BurnFromPool_Ok n c (b b' : B) : 0 < n → NewCoin verificationRewardDenom n = Ok c → BurnFromPool c b = Ok b' → spent [] n b b'.
Proof.
  intros Hn Hc HS. apply NewCoin_Ok in Hc as [-> _]. unfold BurnFromPool in HS. cbn in HS. destruct (Z.eqb_spec n 0); [lia|].
  unfold or_err in HS. destruct (BurnCoins _ _ _ _) as [b1|] eqn:E; [|done]. injection HS as <-.
  destruct (BurnCoins_spec _ _ _ _ _ Hn E) as (Hle & Hm & Ha & Hs). split.
  - intros m d. rewrite Hm. unfold paid, sumZ. cbn. repeat case_decide; lia.
  - intros a d. rewrite Ha. unfold received, sumZ. cbn. case_decide; lia.
  - intros d. rewrite Hs. done.
  - done.
  - lia.
  - intros _. rewrite Hm, decide_True by done. lia.
Qed.

Lemma burn_rest_Ok (v : B * Z) b' : 0 ≤ v.2 → burn_rest v = Ok b' → spent [] v.2 v.1 b'.
Proof.
  intros Hv HB. unfold burn_rest in HB. destruct (Z.ltb_spec 0 v.2).
  - run_ok HB. by eapply BurnFromPool_Ok.
  - injection HB as <-. replace v.2 with 0 by lia. apply spent_nil.
Qed.

(** ** Verifiers *)

(** Only accounts that [ok] allows are paid. *)
Definition payees (ok : list Z → Prop) (log : payments) : Prop := ∀ e, e ∈ log → ok e.1.

Lemma payees_app ok l l' : payees ok l → payees ok l' → payees ok (l ++ l').
Proof. intros H1' H2' e [He|He]%elem_of_app; auto. Qed.

Lemma send_shares payout l (b b' : B) : (∀ a x, payout !! a = Some x → 0 < x) → each (send_share payout) l b = Ok b' →
  (∀ a, a ∈ l → is_Some (payout !! a)) ∧ ∃ log, spent log 0 b b' ∧ paid log = sumZ ((λ a, default 0 (payout !! a)) <$> l) ∧
    payees (λ acc, ∃ a, a ∈ l ∧ AccAddressFromBech32 a = Some acc) log.
Proof.
  intros Hp. revert b. induction l as [|a l IH]; intros b HE; cbn [each] in HE.
  - injection HE as <-. split; [by intros a ?%elem_of_nil|]. exists []. split_and!; [apply spent_nil|done|]. by intros e ?%elem_of_nil.
  - apply bind_Ok_inv in HE as (b1 & E & HE). destruct (IH b1 HE) as (Hs & log & Hlog & Hsum & Hpay).
    unfold send_share in E. destruct (payout !! a) as [x|] eqn:Ea; [|done]. specialize (Hp a x Ea) as Hx.
    destruct (Z.leb_spec x 0); [lia|]. destruct (AccAddressFromBech32 a) as [acc|] eqn:Hacc; [|done]. run_ok E.
    split; [intros c [->|Hc]%elem_of_cons; [by rewrite Ea|by apply Hs]|].
    apply (SendFromPool_Ok _ x) in E; [|done..]. exists ((acc, x) :: log). split_and!.
    + exact (spent_trans _ _ _ _ _ _ _ E Hlog).
    + rewrite fmap_cons, Ea. change (paid ((acc, x) :: log)) with (x + paid log). rewrite Hsum. done.
    + intros e [->|He]%elem_of_cons; [exists a; split; [by left|done]|]. destruct (Hpay e He) as (c & ? & ?). exists c. split; [by right|done].
Qed.

Lemma successful_nodup a (s : VStore) : NoDup (successful_verifiers a s).
Proof. unfold successful_verifiers. rewrite SortStrings_perm. apply NoDup_elements. Qed.

Lemma successful_passed a (s : VStore) v : v ∈ successful_verifiers a s ↔
  ∃ x, x ∈ ListSubmissions (a_RoundStartUnix a) (a_Domain a) s ∧ b_Passed x = true ∧ b_Verifier x = v.
Proof.
  unfold successful_verifiers. rewrite SortStrings_perm, elem_of_elements, elem_of_list_to_set, list_elem_of_fmap.
  split.
  - intros (x & -> & [? ?]%list_elem_of_filter). eauto.
  - intros (x & ? & ? & <-). exists x. split; [done|]. by apply list_elem_of_filter.
Qed.

(** The account of a verifier whose submission for [a] passed. *)
Definition passed_for (a : Assignment) (s : VStore) (acc : list Z) : Prop :=
  ∃ v, v ∈ successful_verifiers a s ∧ AccAddressFromBech32 v = Some acc.

Lemma payVerifier_Ok p a total (s : VStore) (b : B) r : payVerifierAssignmentRewards p a total s b = Ok r → 0 ≤ total →
  0 ≤ r.1 ≤ total ∧ ∃ log, spent log 0 b r.2 ∧ paid log = r.1 ∧ payees (passed_for a s) log.
Proof.
  intros HP Ht. unfold payVerifierAssignmentRewards in HP.
  assert (∀ x : Z * B, x = (0, b) → 0 ≤ x.1 ≤ total ∧ ∃ log, spent log 0 b x.2 ∧ paid log = x.1 ∧ payees (passed_for a s) log) as Hnone.
  { intros x ->. split; [cbn; lia|]. exists []. split_and!; [apply spent_nil|done|]. by intros e ?%elem_of_nil. }
  destruct (Z.leb_spec total 0); [by injection HP as <-; apply Hnone|].
  destruct (successful_verifiers a s) as [|v0 vs] eqn:Hsv; [by injection HP as <-; apply Hnone|]. rewrite <- Hsv in HP.
  apply bind_Ok_inv in HP as (ws & _ & HP). apply bind_Ok_inv in HP as ([payout rest] & Hsplit & HP).
  apply split_Ok in Hsplit as (Hsum & Hrest & Hpay & _); [|lia]. apply bind_Ok_inv in HP as (b1 & HE & HP). run_ok HP. int_ops.
  injection HP as <-. cbn [fst snd]. apply send_shares in HE as (Hall & log & Hlog & Hpaid & Hp); [|intros; by eapply Hpay].
  split; [lia|]. exists log. split_and!; [done| |exact Hp]. rewrite Hpaid, <- sum_over_keys; [lia|apply successful_nodup|].
  intros c. split; [intros [x Hx]; by eapply Hpay|apply Hall].
Qed.

(** A weight is a bond's. *)
Lemma weights_bonded (s : VStore) l m m' a : each (weigh_verifier s) l m = Ok m' → is_Some (m' !! a) → is_Some (m !! a) ∨ is_Some (bonds_of s !! a).
Proof.
  intros HE Hm'. revert Hm'.
  refine (each_ind (λ m', is_Some (m' !! a) → is_Some (m !! a) ∨ is_Some (bonds_of s !! a)) _ l m m' _ (λ H, or_introl H) HE).
  intros v t t' _ Ht HW Ht'. unfold weigh_verifier in HW. destruct (bonds_of s !! v) as [st|] eqn:Hv; [|by injection HW as <-; apply Ht].
  destruct (st <=? 0); [by injection HW as <-; apply Ht|]. run_ok HW. injection HW as <-. destruct (decide (a = v)) as [->|Hne]; [right; by eexists|].
  apply Ht. by rewrite lookup_insert_ne in Ht'.
Qed.

(** Without equal shares, a successful verifier with no bond has no payout. *)
Lemma unbonded_no_pay p a total (s : VStore) (b : B) v r : EffectiveVerifierRewardBaseShareBps p = 0 → 0 < total →
  v ∈ successful_verifiers a s → bonds_of s !! v = None → payVerifierAssignmentRewards p a total s b ≠ Ok r.
Proof.
  intros Hbps Hpos Hv Hnb HP. unfold payVerifierAssignmentRewards in HP. destruct (Z.leb_spec total 0); [lia|].
  destruct (successful_verifiers a s) as [|v0 vs] eqn:Hsv; [by apply elem_of_nil in Hv|]. rewrite <- Hsv in HP, Hv.
  apply bind_Ok_inv in HP as (ws & Hws & HP). apply bind_Ok_inv in HP as ([payout rest] & Hsplit & HP). rewrite Hbps in Hsplit.
  pose proof (split_Ok _ _ _ _ _ _ (Z.lt_le_incl _ _ Hpos) Hsplit) as (_ & _ & Hpay & _).
  apply split_parts in Hsplit as (base & m & _ & Hb & Hm & _ & _ & _ & _ & He); [|done|by rewrite Hsv].
  specialize (Hb ltac:(lia)). apply bind_Ok_inv in HP as (b1 & HE & _). apply send_shares in HE as (Hall & _); [|intros; by eapply Hpay].
  destruct (Hall v Hv) as [x Hx]. destruct (He v x Hx) as [_ [[_ ?]|Hin]]; [lia|].
  apply list_elem_of_fmap in Hin as ([u w] & -> & Hin). rewrite list.Forall_forall in Hm. destruct (Hm _ Hin) as [_ Hw]. cbn in *.
  destruct (weights_bonded s _ _ _ u Hws (mk_is_Some _ _ Hw)) as [[? ?%lookup_empty_Some]|[? ?]]; [done|congruence].
Qed.

(** ** A round *)

(** A step of a loop pays at most [k], to accounts that [ok] allows. *)
Definition pays_step (ok : list Z → Prop) (k : Z) (v v' : B * Z) : Prop :=
  ∃ log, spent log 0 v.1 v'.1 ∧ v'.2 = v.2 - paid log ∧ paid log ≤ k ∧ payees ok log.

Lemma pays_loop {A} (f : A → B * Z → result err (B * Z)) ok k l v v' :
  (∀ x v v', x ∈ l → f x v = Ok v' → pays_step (ok x) k v v') → each f l v = Ok v' →
  pays_step (λ acc, ∃ x, x ∈ l ∧ ok x acc) (k * Z.of_nat (length l)) v v'.
Proof.
  revert v. induction l as [|x l IH]; intros v Hf HE; cbn [each] in HE.
  - injection HE as <-. exists []. split_and!; [apply spent_nil|unfold paid, sumZ; cbn; lia|unfold paid, sumZ; cbn; lia|by intros e ?%elem_of_nil].
  - apply bind_Ok_inv in HE as (v1 & E & HE). destruct (Hf x v v1 ltac:(by left) E) as (l1 & S1 & R1 & K1 & P1).
    destruct (IH v1 ltac:(intros; eapply Hf; [by right|done]) HE) as (l2 & S2 & R2 & K2 & P2). exists (l1 ++ l2). rewrite paid_app. split_and!.
    + exact (spent_trans _ _ _ _ _ _ _ S1 S2).
    + lia.
    + cbn [length]. lia.
    + apply payees_app; [intros e He; exists x; split; [by left|by apply P1]|]. intros e He. destruct (P2 e He) as (y & ? & ?).
      exists y. split; [by right|done].
Qed.

(** The owner of the site of an assignment. *)
Definition owner_for (a : Assignment) (s : VStore) (acc : list Z) : Prop :=
  ∃ w, GetWebsite (a_Domain a) (market s) = Some w ∧ AccAddressFromBech32 (w_Owner w) = Some acc.

Lemma pay_publisher_Ok order p base (s : VStore) a v v' : 0 ≤ base → pay_publisher order p base s a v = Ok v' →
  pays_step (owner_for a s) base v v'.
Proof.
  intros Hb HP. unfold pay_publisher in HP.
  assert (pays_step (owner_for a s) base v v) as Hnone.
  { exists []. split_and!; [apply spent_nil|unfold paid, sumZ; cbn; lia|unfold paid, sumZ; cbn; lia|by intros e ?%elem_of_nil]. }
  destruct (GetWebsite (a_Domain a) (market s)) as [w|] eqn:Ew; [|by injection HP as <-].
  apply bind_Ok_inv in HP as (n & Hn & HP). apply claimable_Ok in Hn; [|done].
  destruct (Z.leb_spec n 0); [by injection HP as <-|]. destruct (AccAddressFromBech32 (w_Owner w)) as [acc|] eqn:Ea; [|done].
  run_ok HP. int_ops. injection HP as <-. exists [(acc, n)]. cbn [fst snd]. split_and!.
  - by eapply SendFromPool_Ok.
  - unfold paid, sumZ. cbn. lia.
  - unfold paid, sumZ. cbn. lia.
  - intros e ->%list_elem_of_singleton. by exists w.
Qed.

Lemma pay_verifiers_Ok p per (s : VStore) a v v' : 0 ≤ per → pay_verifiers p per s a v = Ok v' → pays_step (passed_for a s) per v v'.
Proof.
  intros Hb HP. unfold pay_verifiers in HP. apply bind_Ok_inv in HP as (x & Hx & HP). run_ok HP. int_ops. injection HP as <-.
  destruct (payVerifier_Ok _ _ _ _ _ _ Hx Hb) as (Hle & log & Hs & Hp & Hpay). exists log. cbn. split_and!; [done|lia|lia|done].
Qed.

(** What is left of a pool after a loop that pays it out share by share is burnt. *)
Lemma pool_loop {A} (f : Z → A → B * Z → result err (B * Z)) ok pool n l (c : bool) b v b' : 0 ≤ pool → (length l ≤ n)%nat →
  (∀ per x v v', 0 ≤ per → x ∈ l → f per x v = Ok v' → pays_step (ok x) per v v') → (c = true → (0 < n)%nat) →
  (if c then each (f (Z.quot pool (Z.of_nat n))) l (b, pool) else Ok (b, pool)) = Ok v → burn_rest v = Ok b' →
  0 ≤ v.2 ∧ ∃ log, spent log v.2 b b' ∧ paid log + v.2 = pool ∧ payees (λ acc, ∃ x, x ∈ l ∧ ok x acc) log.
Proof.
  intros Hp Hn Hf Hc HE HB.
  assert (0 ≤ v.2 ∧ ∃ log, spent log 0 b v.1 ∧ v.2 = pool - paid log ∧ payees (λ acc, ∃ x, x ∈ l ∧ ok x acc) log) as (Hv & log & Hs & Hr & Hpay).
  { destruct c.
    - specialize (Hc eq_refl). apply (pays_loop _ ok (Z.quot pool (Z.of_nat n))) in HE as (log & Hs & Hr & Hle & Hpay).
      + pose proof (Z.mul_quot_le pool (Z.of_nat n) ltac:(lia) ltac:(lia)). pose proof (Z.quot_pos pool (Z.of_nat n) ltac:(lia) ltac:(lia)).
        cbn in Hr. split; [nia|]. exists log. done.
      + intros x w w' Hx. apply Hf; [|done]. apply Z.quot_pos; lia.
    - injection HE as <-. split; [done|]. exists []. split_and!; [apply spent_nil|unfold paid, sumZ; cbn; lia|by intros e ?%elem_of_nil]. }
  split; [done|]. exists log. split_and!; [|lia|done]. rewrite <- (app_nil_r log). replace v.2 with (0 + v.2) by lia.
  eapply spent_trans; [exact Hs|by apply burn_rest_Ok].
Qed.

(** The pool is topped up to its target once. *)
Definition funded_to (p : PublisherParams) (funded : Z) : Z :=
  let bps := i64 (EffectivePublisherEmissionBps p + EffectiveVerifierEmissionBps p) in
  let target := Z.quot (EffectiveEmissionTotalSupply p * bps) 10000 in
  if 0 <? bps then Z.max target funded else funded.

Record minted (n : Z) (b b' : B) : Prop := {
  mt_mod m d : mod_bal b' m d = mod_bal b m d + if decide (m = tokenomics_module ∧ d = verificationRewardDenom) then n else 0;
  mt_acc a d : acc_bal b' a d = acc_bal b a d;
  mt_supply d : supply b' d = supply b d + if decide (d = verificationRewardDenom) then n else 0 }.

Lemma minted_none b : minted 0 b b.
Proof. split; intros; try case_decide; lia. Qed.

Lemma fund_pool_Ok p funded (b : B) r : 0 ≤ funded → fund_pool p funded b = Ok r →
  r.1 = funded_to p funded ∧ minted (r.1 - funded) b r.2.
Proof.
  intros Hf HP. unfold fund_pool in HP. unfold funded_to. cbv zeta in HP |- *. set (bps := i64 _) in *.
  destruct (0 <? bps); [|injection HP as <-; cbn; rewrite Z.sub_diag; split; [done|apply minted_none]].
  run_ok HP; int_ops; zb; try (injection HP as <-; cbn; split; [lia|]; rewrite Z.sub_diag; apply minted_none).
  unfold EnsureEmissionPool in HP. set (target := Z.quot _ _) in *.
  destruct (Z.leb_spec target 0); [lia|]. destruct (Z.leb_spec target funded).
  { injection HP as <-. cbn. split; [lia|]. rewrite Z.sub_diag. apply minted_none. }
  run_ok HP. int_ops. injection HP as <-. unfold setEmissionFundedAmount. destruct (Z.leb_spec target 0); [lia|]. cbn. split; [lia|].
  match goal with E : NewCoin _ _ = Ok _ |- _ => apply NewCoin_Ok in E as [-> _] end. cbn in *.
  match goal with E : or_err _ _ = Ok _ |- _ => unfold or_err in E; destruct (MintCoins _ _ _ _) as [b1|] eqn:Em; [|done]; injection E as <- end.
  apply MintCoins_spec in Em as (Hm & Ha & Hs); [|lia]. change (if blank _ then DefaultDenom else _) with verificationRewardDenom in *.
  split; try done.
Qed.

Lemma round_pools_nonneg p P V : round_pools p = Ok (P, V) → 0 ≤ P ∧ 0 ≤ V.
Proof.
  intros HR. unfold round_pools in HR. apply bind_Ok_inv in HR as ([x y] & HE & HR).
  assert (0 ≤ x ∧ 0 ≤ y) as [Hx Hy].
  { pose proof (effective_pos p). apply emission_pools_Ok in HE as (Hd & -> & ->); [|apply round_interval_pos].
    pose proof (round_interval_pos p). split; apply Z.quot_pos; nia. }
  injection HR as <- <-. split; case_match; zb; try lia.
Qed.

(** The effect of the payments of a round: the emission pool is topped up, and the
    two pools of the round leave it, paid to the owners of verified sites and to
    the verifiers that passed them, or burnt. *)
Record round_paid (p : PublisherParams) (l : list Assignment) (s s' : VStore) (P V : Z) (log : payments) (burnt : Z) : Prop := {
  rp_pools : round_pools p = Ok (P, V);
  rp_total : paid log + burnt = P + V;
  rp_burnt : 0 ≤ burnt;
  rp_store : s' = set_bank_funded (bank (market s')) (funded_to p (pool_funded s)) s;
  rp_bank : ∃ b, minted (pool_funded s' - pool_funded s) (bank (market s)) b ∧ spent log burnt b (bank (market s'));
  rp_payees : payees (λ acc, ∃ a, a ∈ l ∧ a_Verified a = true ∧ (owner_for a s acc ∨ passed_for a s acc)) log }.

Lemma pay_round_Ok order p l (s s' : VStore) : 0 ≤ pool_funded s → pay_round order p l s = Ok s' →
  ∃ P V log burnt, round_paid p l s s' P V log burnt.
Proof.
  intros Hf HP. unfold pay_round in HP. apply bind_Ok_inv in HP as ([P V] & Hpools & HP).
  apply bind_Ok_inv in HP as ([funded b] & Hfund & HP). apply fund_pool_Ok in Hfund as [Hfe Hmint]; [|done]. cbn in Hfe, Hmint. subst funded.
  destruct (round_pools_nonneg _ _ _ Hpools) as [HP0 HV0]. set (act := filter _ l) in HP.
  apply bind_Ok_inv in HP as (v & Hv & HP). apply bind_Ok_inv in HP as (b1 & Hb1 & HP).
  apply bind_Ok_inv in HP as (w & Hw & HP). apply bind_Ok_inv in HP as (b2 & Hb2 & HP). run_ok HP. injection HP as <-.
  eapply (pool_loop (λ per, pay_publisher order p per s) (λ a, owner_for a s) P (length act)) in Hv as (Hr1 & l1 & S1 & T1 & Y1);
    [|done|done|by intros; eapply pay_publisher_Ok|intros [_ Hc]%andb_true_iff; by apply Nat.ltb_lt|exact Hb1].
  eapply (pool_loop (λ per, pay_verifiers p per s) (λ a, passed_for a s) V (length l)) in Hw as (Hr2 & l2 & S2 & T2 & Y2);
    [|done|apply length_filter|by intros; eapply pay_verifiers_Ok|intros [_ Hc]%andb_true_iff; by apply Nat.ltb_lt|exact Hb2].
  exists P, V, (l1 ++ l2), (v.2 + w.2). split; cbn; try done.
  - rewrite paid_app. lia.
  - lia.
  - exists b. split; [done|]. exact (spent_trans _ _ _ _ _ _ _ S1 S2).
  - apply payees_app.
    + intros e He. destruct (Y1 e He) as (a & [? ?]%list_elem_of_filter & ?). eauto 6.
    + intros e He. destruct (Y2 e He) as (a & [? ?]%list_elem_of_filter & ?). eauto 6.
Qed.

(** A loop with a step that fails in every state it can reach does not succeed. *)
Lemma each_fails_at {A S} (I : S → Prop) (f : A → S → result err S) x l s s' : x ∈ l →
  (∀ y t t', y ∈ l → I t → f y t = Ok t' → I t') → (∀ t t', I t → f x t ≠ Ok t') → I s → each f l s ≠ Ok s'.
Proof.
  intros Hx Hkeep Hf. revert s. induction l as [|y l IH]; intros s HI HE; [by apply elem_of_nil in Hx|]. cbn [each] in HE.
  apply bind_Ok_inv in HE as (t & Ht & HE). apply elem_of_cons in Hx as [->|Hx]; [by eapply Hf|].
  apply (IH Hx) in HE; [done| |by eapply (Hkeep y); [left| |]]. intros z u u' Hz. apply Hkeep. by right.
Qed.

Lemma unbonded_fails order p P V l (s s' : VStore) a v : round_pools p = Ok (P, V) → Z.of_nat (length l) ≤ V → a ∈ l → a_Verified a = true →
  EffectiveVerifierRewardBaseShareBps p = 0 → v ∈ successful_verifiers a s → bonds_of s !! v = None → pay_round order p l s ≠ Ok s'.
Proof.
  intros Hpools HV Ha Hver Hbps Hv Hnb HP. unfold pay_round in HP. rewrite Hpools in HP. cbn [mbind result_bind] in HP.
  apply bind_Ok_inv in HP as ([f b] & _ & HP). apply bind_Ok_inv in HP as (x & _ & HP). apply bind_Ok_inv in HP as (b1 & _ & HP).
  apply bind_Ok_inv in HP as (w & Hw & _). assert (0 < length l)%nat as Hl by (destruct l; [by apply elem_of_nil in Ha|cbn; lia]).
  destruct (Z.ltb_spec 0 V); [|lia]. destruct (Nat.ltb_spec 0 (length l)); [|lia]. cbn [andb] in Hw. revert Hw.
  apply (each_fails_at (λ _, True) _ a); [by apply list_elem_of_filter|done| |done]. intros t t' _ Ht. unfold pay_verifiers in Ht.
  apply bind_Ok_inv in Ht as (y & Hy & _). revert Hy. apply (unbonded_no_pay _ _ _ _ _ v); try done.
  apply Z.quot_str_pos. lia.
Qed.

(** The rewards do not depend on the order in which the runtime visits a map. *)
Lemma pay_round_order o o' p l (s : VStore) : visits o → visits o' → pay_round o p l s = pay_round o' p l s.
Proof.
  intros Ho Ho'. unfold pay_round. destruct (round_pools p) as [[P V]|]; [|reflexivity]. cbn [mbind result_bind].
  destruct (fund_pool _ _ _) as [[f b]|]; [|reflexivity]. cbn [mbind result_bind].
  set (n := Z.quot P _). rewrite (each_ext (pay_publisher o p n s) (pay_publisher o' p n s)); [reflexivity|].
  intros a w _. unfold pay_publisher. by rewrite (stats_order o o').
Qed.

Lemma settle_round_order o o' p r (s : VStore) : visits o → visits o' → settle_round o p r s = settle_round o' p r s.
Proof.
  intros Ho Ho'. unfold settle_round, settleVerificationRound. destruct (ListAssignmentsForRound r s) as [|a l]; [reflexivity|].
  cbv zeta. by rewrite (pay_round_order o o').
Qed.

Lemma rewards_order o o' p (s : VStore) : visits o → visits o' →
  settleFinalizedVerificationRounds o p s = settleFinalizedVerificationRounds o' p s.
Proof.
  intros Ho Ho'. unfold settleFinalizedVerificationRounds. destruct (listUnsettledVerificationRounds s) as [rs|];
    cbn [mbind result_bind]; [|reflexivity]. apply each_ext. intros r t _. by apply settle_round_order.
Qed.
End Pool.
