(* ===== verification/RoundSteps.v ===== *)
(** The steps of the rounds on the registry's store: what bonding, the beacons, the
    assignment of a round and the settlement of rewards leave as it was ([aside]),
    so that the invariant of the store and the market survive them. *)

From stdpp Require Import sorting.
From S2P Require Import Prelude JsBase GoBase GoHash Market MarketProofs GoSdk Tokenomics Verifiers RegParams Verification VerificationProofs BankFrame ChainInv Rounds RoundProofs Rewards RewardProofs.

Section Steps.
Context `{GoEnv} `{!AddrText} `{DrandSuite} {B : Type} `{BankKeeper B}.
Abbreviation Store := (Store B).
Abbreviation VStore := (VStore B).

(** * Bonds *)

Definition set_bonds (t : BondTable) (b : B) (s : VStore) : VStore :=
  mkVStore (set_bank b (market s)) (assignments s) (submissions s) (commits s) (streaks s) (similar s) (penalties s) (unsettled s)
    (rounds s) t (pool_funded s).

(** The messages of the verifiers module, on the store and the bank they share with
    the registry. *)
Definition bond_step (f : MsgBond → BondTable → B → result err (Verifier * BondTable * B)) (m : MsgBond) (s : VStore) : result err VStore :=
  r ← f m (bond_table s) (bank (market s)); Ok (set_bonds r.1.2 r.2 s).

(** * Beside the market *)

(** The market is the same but for the bank, where the account of the registry is;
    submissions and commits are the same; an assignment that was there is there,
    its rewards settled or not; and a new one is in order. *)
Record aside (s s' : VStore) : Prop := {
  as_market : market s' = set_bank (bank (market s')) (market s);
  as_escrow d : mod_bal (bank (market s')) registry_module d = mod_bal (bank (market s)) registry_module d;
  as_submissions : submissions s' = submissions s;
  as_commits : commits s' = commits s;
  as_old k a : assignments s !! k = Some a → assignments s' !! k = Some a ∨ assignments s' !! k = Some (rewards_settled a);
  as_new k a : assignments s !! k = None → assignments s' !! k = Some a →
    k = assignmentKey (a_RoundStartUnix a) (a_Domain a) ∧ in_s 64 (a_RoundStartUnix a) ∧ 0 < a_RoundStartUnix a ∧
    is_Some (websites (market s) !! a_Domain a) }.

Lemma rewards_settled_idem a : rewards_settled (rewards_settled a) = rewards_settled a.
Proof. done. Qed.

#[global] Instance aside_preorder : PreOrder aside.
Proof.
  split.
  - intros s. split; try done; [by rewrite set_bank_id|by left|congruence].
  - intros s1 s2 s3 [M1 E1 S1 C1 O1 N1] [M2 E2 S2 C2 O2 N2].
    assert (websites (market s2) = websites (market s1)) as Hw by (by rewrite M1).
    split; try congruence; [by rewrite M2, M1| |].
    + intros k a Ha. destruct (O1 k a Ha) as [Ha'|Ha']; destruct (O2 k _ Ha') as [Ha''|Ha'']; auto.
    + intros k a Hn Ha. destruct (assignments s2 !! k) as [b|] eqn:Hb.
      * destruct (N1 k b Hn Hb) as (? & ? & ? & ?). destruct (O2 k b Hb) as [Ha'|Ha']; rewrite Ha in Ha'; by injection Ha' as ->.
      * destruct (N2 k a Hb Ha) as (? & ? & ? & Hd). rewrite Hw in Hd. done.
Qed.

Lemma aside_inv s s' : chain_inv s → aside s s' → chain_inv s'.
Proof.
  intros [Hm Ha Hs Hp] [M E S _ O N]. assert (websites (market s') = websites (market s)) as Hw by (by rewrite M).
  assert (primaryDomains (market s') = primaryDomains (market s)) as Hpd by (by rewrite M).
  split.
  - rewrite M. destruct Hm. by split.
  - intros k a Hk. rewrite Hw. destruct (assignments s !! k) as [b|] eqn:Hb; [|by apply N].
    specialize (Ha k b Hb). destruct (O k b Hb) as [Hk'|Hk']; rewrite Hk in Hk'; by injection Hk' as ->.
  - rewrite S. intros k x Hx. destruct (Hs k x Hx) as (Hkey & a & Hka & E1 & E2 & E3 & E4). split; [done|].
    destruct (O _ _ Hka) as [Hk'|Hk']; eexists; by split_and!.
  - intros k. rewrite Hw, Hpd. apply Hp.
Qed.

(** ** Bonds and beacons *)

Lemma same_assignments s s' : market s' = set_bank (bank (market s')) (market s) →
  (∀ d, mod_bal (bank (market s')) registry_module d = mod_bal (bank (market s)) registry_module d) →
  submissions s' = submissions s → commits s' = commits s → assignments s' = assignments s → aside s s'.
Proof. intros Hm He Hs Hc Ha. split; try done; rewrite Ha; [by left|congruence]. Qed.

Lemma bonds_aside b' t s : only_module verifiers_module (bank (market s)) b' → aside s (set_bonds t b' s).
Proof. intros [Hb _]. apply same_assignments; try done. intros d. cbn. apply Hb. intros E. by apply verifiers_not_registry. Qed.

Lemma Bond_moves m s s' : bonds_inv (bond_table s) → bond_step Bond m s = Ok s' →
  ∃ addr n, AccAddressFromBech32 (mb_Verifier m) = Some addr ∧ s' = set_bonds (bond_table s') (bank (market s')) s ∧
    bonds addr n (bond_table s) (bank (market s)) (bond_table s') (bank (market s')).
Proof.
  intros Hi HB. unfold bond_step in HB. apply bind_Ok_inv in HB as ([[v t] b] & HB & [= <-]).
  destruct (Bond_Ok _ _ _ _ _ _ Hi HB) as (addr & n & ? & _ & ? & _). by exists addr, n.
Qed.

Lemma Unbond_moves m s s' : bonds_inv (bond_table s) → bond_step Unbond m s = Ok s' →
  ∃ addr n, AccAddressFromBech32 (mb_Verifier m) = Some addr ∧ s' = set_bonds (bond_table s') (bank (market s')) s ∧
    unbonds addr n (bond_table s) (bank (market s)) (bond_table s') (bank (market s')).
Proof.
  intros Hi HB. unfold bond_step in HB. apply bind_Ok_inv in HB as ([[v t] b] & HB & [= <-]).
  destruct (Unbond_Ok _ _ _ _ _ _ Hi HB) as (addr & n & ? & _ & ?). by exists addr, n.
Qed.

Lemma bonds_only addr n t b t' b' : bonds addr n t b t' b' → only_module verifiers_module b b'.
Proof. intros [Hn Hs _ _ _]. exact (AccountToModule_only _ _ _ _ _ _ Hn Hs). Qed.

Lemma unbonds_only addr n t b t' b' : unbonds addr n t b t' b' → only_module verifiers_module b b'.
Proof. intros [Hn Hs _ _ _ _]. exact (ModuleToAccount_only _ _ _ _ _ _ (proj1 Hn) Hs). Qed.

Lemma SetDrandBeacon_Ok x (s s' : VStore) : SetDrandBeacon x s = Ok s' →
  Beacon_ValidateBasic x = Ok tt ∧ drandBeacons (rounds s) !! drandBeaconKey (db_Round x) = None ∧
  ∃ latest, s' = set_rounds (mkRounds (lastRoundStart (rounds s)) (roundMetas (rounds s))
    (<[drandBeaconKey (db_Round x) := x]> (drandBeacons (rounds s))) latest) s.
Proof.
  intros HS. unfold SetDrandBeacon in HS. run_ok HS. guards. injection HS as <-. destruct r. split; [done|].
  match goal with E : bool_decide _ = false |- _ => apply bool_decide_eq_false, eq_None_not_Some in E end. split; [done|]. by eexists.
Qed.

Lemma set_rounds_aside r (s : VStore) : aside s (set_rounds r s).
Proof. apply same_assignments; try done. cbn. by rewrite set_bank_id. Qed.

Lemma beacon_aside p c m (s : VStore) x s' : SubmitDrandBeacon p c m s = Ok (x, s') → aside s s'.
Proof.
  intros HS. unfold SubmitDrandBeacon in HS. run_ok HS. injection HS as <- <-.
  match goal with E : SetDrandBeacon _ _ = Ok _ |- _ => apply SetDrandBeacon_Ok in E as (_ & _ & lt & ->) end. apply set_rounds_aside.
Qed.

(** ** The assignment of a round *)

Section Assigning.
Context (p : PublisherParams) (seed : list Z) (rs : Z) (eligible : list gostr) (stakes : gmap gostr Z).
Abbreviation interval := (round_interval p).
Abbreviation delay := (delay_max p).

(** The assignment that a round makes for a publisher, with the verifiers selected. *)
Definition round_assignment (w : Website) (sel : list gostr) : Assignment :=
  let startAt := ComputeAssignmentStartAtUnix seed (w_Domain w) rs interval delay in
  let reregistration := negb (blank (w_PendingOwner w)) in
  mkAssignment rs (w_Domain w) startAt (i64 (startAt + p_SubmissionWindowSeconds p)) (SortStrings sel) false 0 false false
    (if reregistration then TrimSpace (w_PendingOwner w) else w_Owner w) reregistration.

(** [t] has the assignments of [s], and one for each publisher of [l]. *)
Record assigns (l : list Website) (s t : VStore) : Prop := {
  ag_frame : t = mkVStore (market s) (assignments t) (submissions s) (commits s) (streaks s) (similar s) (penalties s) (unsettled t)
    (rounds s) (bond_table s) (pool_funded s);
  ag_old k a : assignments s !! k = Some a → assignments t !! k = Some a;
  ag_new k a : assignments s !! k = None → assignments t !! k = Some a → ∃ w sel, w ∈ l ∧
    selectDeterministicWeighted eligible stakes (p_MinVerifierCount p) (seed ++ w_Domain w) = Ok sel ∧
    a = round_assignment w sel ∧ k = assignmentKey rs (w_Domain w) ∧ Assignment_ValidateBasic a = Ok tt ∧
    verificationRoundKey rs ∈ unsettled t;
  ag_unsettled : unsettled s ⊆ unsettled t ⊆ {[verificationRoundKey rs]} ∪ unsettled s;
  ag_all w : w ∈ l → is_Some (assignments t !! assignmentKey rs (w_Domain w)) }.

Lemma assigns_nil s : assigns [] s s.
Proof. split; try done; [by destruct s|congruence|set_solver|by intros w ?%elem_of_nil]. Qed.

Lemma assigns_trans l l' s t u : assigns l s t → assigns l' t u → assigns (l ++ l') s u.
Proof.
  intros [F1 O1 N1 U1 A1] [F2 O2 N2 U2 A2]. split.
  - rewrite F2, F1. done.
  - auto.
  - intros k a Hn Ha. destruct (assignments t !! k) as [b|] eqn:Hb.
    + specialize (O2 k b Hb). rewrite Ha in O2. injection O2 as ->. destruct (N1 k b Hn Hb) as (w & sel & Hw & ? & ? & ? & ? & ?).
      exists w, sel. rewrite elem_of_app. split_and!; auto. by apply (proj1 U2).
    + destruct (N2 k a Hb Ha) as (w & sel & Hw & ? & ? & ? & ? & ?). exists w, sel. rewrite elem_of_app. split_and!; auto.
  - split; [etrans; [apply U1|apply U2]|]. etrans; [apply U2|]. apply union_least; [apply union_subseteq_l|apply U1].
  - intros w [Hw|Hw]%elem_of_app; [|by apply A2]. destruct (A1 w Hw) as [a Ha]. exists a. by apply O2.
Qed.

Lemma assign_publisher_Ok w s s' : NormalizeDomain (w_Domain w) = w_Domain w →
  assign_publisher p seed rs interval delay eligible stakes w s = Ok s' → assigns [w] s s'.
Proof.
  intros Hd HA. unfold assign_publisher, GetAssignment in HA. rewrite Hd in HA.
  destruct (assignments s !! assignmentKey rs (w_Domain w)) as [a|] eqn:E.
  { injection HA as <-. split; try done; [by destruct s|congruence|set_solver|]. intros x ->%list_elem_of_singleton. by eexists. }
  apply bind_Ok_inv in HA as (sel & Hsel & HA). unfold assign_one, GetAssignment in HA. rewrite Hd, E in HA. unfold SetAssignment in HA.
  apply bind_Ok_inv in HA as ([] & Hv & HA). injection HA as <-. cbn [a_Domain with_a_domain a_RoundStartUnix] in *. rewrite Hd in *.
  change (with_a_domain _ _) with (round_assignment w sel) in *. split; cbn.
  - done.
  - intros k a Ha. rewrite lookup_insert_ne; [done|]. congruence.
  - intros k a Hk [[<- <-]|[_ Ha]]%lookup_insert_Some; [|congruence]. exists w, sel. split_and!; try done; [by left|].
    clear. set_solver.
  - clear. set_solver.
  - intros x ->%list_elem_of_singleton. by rewrite lookup_insert_eq.
Qed.

Lemma assign_publishers_Ok l s s' : Forall (λ w, NormalizeDomain (w_Domain w) = w_Domain w) l →
  each (assign_publisher p seed rs interval delay eligible stakes) l s = Ok s' → assigns l s s'.
Proof.
  intros Hl. revert s. induction Hl as [|w l Hw Hl IH]; intros s HE; cbn [each] in HE.
  - injection HE as <-. apply assigns_nil.
  - apply bind_Ok_inv in HE as (t & Ht & HE). apply (assigns_trans [w] l s t); [by apply assign_publisher_Ok|by apply IH].
Qed.
End Assigning.

Lemma round_publishers_elem rs (s : VStore) w : market_inv (market s) → w ∈ round_publishers rs s →
  websites (market s) !! w_Domain w = Some w ∧ is_verifiable rs w = true.
Proof.
  intros Hi. unfold round_publishers. rewrite merge_sort_Permutation. intros [Hv [k Hk]%elem_of_values]%list_elem_of_filter.
  destruct (mi_websites _ Hi _ _ Hk) as [-> _]. done.
Qed.

Lemma round_publishers_all rs (s : VStore) k w : websites (market s) !! k = Some w → is_verifiable rs w = true → w ∈ round_publishers rs s.
Proof.
  intros Hk Hv. unfold round_publishers. rewrite merge_sort_Permutation. apply list_elem_of_filter. split; [done|].
  apply elem_of_values. eauto.
Qed.

(** A round that was made: it is a new one, and every publisher to verify in it has
    an assignment. *)
Definition round_made (p : PublisherParams) (c : BlockCtx) (s s' : VStore) : Prop :=
  let rs := nextVerificationRoundStartUnix (c_TimeNs c) (round_interval p) in
  let '(eligible, stakes) := eligibleVerifierAddrs (block_time c) s in
  0 < rs ∧ (∀ last, lastRoundStart (rounds s) = Some last → last < rs) ∧
  ∃ seed r, assigns p seed rs eligible stakes (round_publishers rs s) (set_rounds r s) (set_rounds r s') ∧
    drandBeacons (rounds s') = drandBeacons (rounds s) ∧ lastRoundStart (rounds s') = Some rs.

Lemma assignNewRound_Ok p c s s' : market_inv (market s) → assignNewRound p c s = Ok s' → s' = s ∨ round_made p c s s'.
Proof.
  intros Hi HA. unfold assignNewRound in HA. apply bind_Ok_inv in HA as (_u & _ & HA). cbv zeta in HA. unfold round_made.
  set (rs := nextVerificationRoundStartUnix _ _) in *. destruct (Z.leb_spec rs 0); [left; by injection HA as <-|].
  destruct (match GetLastRoundStart s with Some last => rs <=? last | None => false end) eqn:Hlast; [left; by injection HA as <-|].
  destruct (eligibleVerifierAddrs (block_time c) s) as [eligible stakes] eqn:Hel.
  apply bind_Ok_inv in HA as ([[[seed dr] rnd]|] & Hseed & HA); [right|left; by injection HA as <-].
  apply bind_Ok_inv in HA as (s1 & H1' & HA). apply bind_Ok_inv in HA as (s2 & H2' & HA). injection HA as <-.
  split; [done|]. split.
  { intros last Hl. unfold GetLastRoundStart in Hlast. rewrite Hl in Hlast. zb. lia. }
  assert (∃ r1, s1 = set_rounds r1 s ∧ drandBeacons r1 = drandBeacons (rounds s)) as (r1 & -> & Hb).
  { unfold record_round in H1'. destruct (GetRoundMeta rs s); [injection H1' as <-; exists (rounds s); by destruct s|].
    unfold SetRoundMeta in H1'. run_ok H1'. injection H1' as <-. by eexists. }
  exists seed, r1. split.
  - apply assign_publishers_Ok in H2'.
    + destruct H2' as [F O N U A]. split; try done. rewrite F. done.
    + apply list.Forall_forall. intros w [Hw _]%round_publishers_elem; [|done]. by apply (stored_domain_normal (market s)).
  - apply assign_publishers_Ok in H2'.
    + split; [|done]. cbn. by rewrite (ag_frame _ _ _ _ _ _ _ _ H2').
    + apply list.Forall_forall. intros w [Hw _]%round_publishers_elem; [|done]. by apply (stored_domain_normal (market s)).
Qed.

Lemma next_round_range nowNs interval : 0 ≤ nowNs < 2 ^ 62 * 10 ^ 9 → in_s 64 (nextVerificationRoundStartUnix nowNs interval).
Proof.
  intros Hn. unfold nextVerificationRoundStartUnix, Truncate, in_s. change (64 - 1) with 63.
  set (d := i64 _). assert (- 2 ^ 63 ≤ d < 2 ^ 63) as Hd.
  { pose proof (swrap_range 64 ((if interval <=? 0 then 3600 else interval) * 10 ^ 9) ltac:(lia)) as Hr. unfold in_s in Hr. exact Hr. }
  clearbody d. destruct (Z.leb_spec d 0) as [Hneg|Hpos].
  - split; [apply Z.div_le_lower_bound; lia|apply Z.div_lt_upper_bound; lia].
  - pose proof (Z.mod_pos_bound (nowNs + zero_to_epoch) d Hpos). split; [apply Z.div_le_lower_bound; lia|apply Z.div_lt_upper_bound; lia].
Qed.

Lemma assign_aside p c (s s' : VStore) : chain_inv s → 0 ≤ c_TimeNs c < 2 ^ 62 * 10 ^ 9 → assignNewRound p c s = Ok s' → aside s s'.
Proof.
  intros Hi Ht HA. pose proof (ci_market _ Hi) as Hm. destruct (assignNewRound_Ok p c s s' Hm HA) as [->|Hr]; [done|].
  unfold round_made in Hr. destruct (eligibleVerifierAddrs _ _) as [el st].
  destruct Hr as (Hpos & _ & seed & r & [F O N _ _] & _). set (rs := nextVerificationRoundStartUnix _ _) in *. cbn in F, O, N.
  injection F as F1 F2 F3 _ _ _ _ _. split; try done; [by rewrite F1, set_bank_id|by rewrite F1|intros k a Ha; left; by apply O|].
  intros k a Hn Ha. destruct (N k a Hn Ha) as (w & sel & Hw & _ & -> & -> & _). cbn. split; [done|].
  apply round_publishers_elem in Hw as [Hw _]; [|done]. split_and!; [by apply next_round_range|done|by eexists].
Qed.

(** ** The settlement of a round *)

(** Two rounds with the same key. *)
Definition same_round (r : Z) (a : Assignment) : Prop := verificationRoundKey (a_RoundStartUnix a) = verificationRoundKey r.

#[global] Instance same_round_dec r a : Decision (same_round r a).
Proof. unfold same_round. apply _. Defined.

Lemma roundKey_prefix r a d : starts_with (verificationRoundKey r) (assignmentKey (a_RoundStartUnix a) d) = true ↔ same_round r a.
Proof.
  rewrite starts_with_iff. unfold assignmentKey, same_round. split.
  - intros [t Ht]. apply app_inj_1 in Ht as [? _]; [done|]. unfold verificationRoundKey. by rewrite !be_bytes_length.
  - intros ->. by eexists.
Qed.

Lemma listed_assignment r a (s : VStore) : chain_inv s → a ∈ ListAssignmentsForRound r s ↔ assignments s !! a_key a = Some a ∧ same_round r a.
Proof.
  intros Hi. unfold ListAssignmentsForRound. rewrite list_elem_of_fmap. split.
  - intros ([k b] & -> & [Hp Hk%elem_of_entries]%list_elem_of_filter). cbn in *. destruct (ci_assignments s Hi _ _ Hk) as (-> & _).
    split; [done|]. exact (proj1 (roundKey_prefix r b (a_Domain b)) Hp).
  - intros [Ha Hr]. exists (a_key a, a). split; [done|]. apply list_elem_of_filter. split; [|by apply elem_of_entries].
    exact (proj2 (roundKey_prefix r a (a_Domain a)) Hr).
Qed.

Lemma listed_keys r (s : VStore) : chain_inv s → NoDup (a_key <$> ListAssignmentsForRound r s).
Proof.
  intros Hi. unfold ListAssignmentsForRound. rewrite <- list_fmap_compose.
  match goal with |- NoDup (?f <$> ?l) => assert (f <$> l = fst <$> l) as -> end.
  { apply list_fmap_ext. intros i [k a] [_ Hk%elem_of_entries]%list_elem_of_lookup_2%list_elem_of_filter. cbn.
    by destruct (ci_assignments s Hi _ _ Hk) as (-> & _). }
  eapply sublist_NoDup; [|apply fmap_sublist, sublist_filter]. rewrite entries_perm. apply NoDup_fst_map_to_list.
Qed.

(** The loop that marks the assignments of a round. *)
Lemma mark_loop l (s s' : VStore) : NoDup (a_key <$> l) → Forall (λ a, NormalizeDomain (a_Domain a) = a_Domain a) l →
  each (λ a, SetAssignment (rewards_settled a)) l s = Ok s' →
  s' = mkVStore (market s) (assignments s') (submissions s) (commits s) (streaks s) (similar s) (penalties s) (unsettled s) (rounds s)
         (bond_table s) (pool_funded s) ∧
  (∀ a, a ∈ l → assignments s' !! a_key a = Some (rewards_settled a)) ∧ ∀ k, k ∉ a_key <$> l → assignments s' !! k = assignments s !! k.
Proof.
  intros Hn Hl. revert s Hn. induction Hl as [|a l Ha Hl IH]; intros s Hn HE; cbn [each] in HE.
  - injection HE as <-. split; [by destruct s|]. split; [by intros a ?%elem_of_nil|done].
  - apply bind_Ok_inv in HE as (t & Ht & HE). rewrite fmap_cons in Hn. apply list.NoDup_cons in Hn as [Hna Hn].
    destruct (IH t Hn HE) as (F & Hin & Hout). unfold SetAssignment in Ht. apply bind_Ok_inv in Ht as (_u & _ & [= <-]).
    cbn [a_Domain rewards_settled with_a_domain a_RoundStartUnix a_RewardsSettled] in *. rewrite Ha in *.
    change (with_a_domain (a_Domain a) (rewards_settled a)) with (rewards_settled a) in *.
    split; [rewrite F; done|]. cbn in Hout. split.
    + intros b [->|Hb]%elem_of_cons; [|by apply Hin]. rewrite Hout by done. apply lookup_insert_eq.
    + intros k Hk. rewrite fmap_cons, not_elem_of_cons in Hk. destruct Hk as [Hk1 Hk2]. rewrite Hout by done.
      by rewrite lookup_insert_ne.
Qed.

(** A round settled: its assignments are all final and none was settled; they all
    are now; its pools were paid out. *)
Record round_settled (p : PublisherParams) (r : Z) (s s' : VStore) : Prop := {
  rd_frame : s' = mkVStore (set_bank (bank (market s')) (market s)) (assignments s') (submissions s) (commits s) (streaks s) (similar s)
    (penalties s) (unsettled s ∖ {[verificationRoundKey r]}) (rounds s) (bond_table s) (pool_funded s');
  rd_some : ∃ k a, assignments s !! k = Some a ∧ same_round r a;
  rd_were k a : assignments s !! k = Some a → same_round r a → a_Finalized a = true ∧ a_RewardsSettled a = false;
  rd_marked k : assignments s' !! k = (λ a, if decide (same_round r a) then rewards_settled a else a) <$> assignments s !! k;
  rd_paid : ∃ l P V log burnt t, l ≡ₚ ListAssignmentsForRound r s ∧ round_paid p l s t P V log burnt ∧
    bank (market s') = bank (market t) ∧ pool_funded s' = pool_funded t }.

Lemma filter_length_all {A} (P : A → Prop) `{!∀ x, Decision (P x)} (l : list A) : length (filter P l) = length l → ∀ x, x ∈ l → P x.
Proof.
  induction l as [|y l IH]; intros Hl x Hx; [by apply elem_of_nil in Hx|]. rewrite filter_cons in Hl. pose proof (length_filter P l).
  case_decide; cbn in Hl; [|lia]. apply elem_of_cons in Hx as [->|Hx]; [done|]. apply IH; [lia|done].
Qed.

Lemma forallb_false {A} (f : A → bool) l : forallb f l = false → ∃ x, x ∈ l ∧ f x = false.
Proof.
  induction l as [|x l IH]; [done|]. cbn. destruct (f x) eqn:Hx; [|intros _; exists x; split; [by left|done]].
  intros (y & ? & ?)%IH. exists y. split; [by right|done].
Qed.

Lemma settle_round_Ok order p r (s s' : VStore) : chain_inv s → 0 ≤ pool_funded s → settle_round order p r s = Ok s' →
  (s' = s ∧ ∃ k a, assignments s !! k = Some a ∧ same_round r a ∧ a_Finalized a = false) ∨
  (s' = clearVerificationRoundUnsettled r s ∧ ∀ k a, assignments s !! k = Some a → same_round r a → a_RewardsSettled a = true) ∨
  round_settled p r s s'.
Proof.
  intros Hi Hf HS. unfold settle_round in HS. pose proof (listed_assignment r) as Hlist. pose proof (listed_keys r s Hi) as Hnd.
  assert (∀ k a, assignments s !! k = Some a → same_round r a → a ∈ ListAssignmentsForRound r s) as Hmem.
  { intros k a Hk Hr. apply Hlist; [done|]. destruct (ci_assignments s Hi _ _ Hk) as (-> & _). done. }
  set (l := ListAssignmentsForRound r s) in *. destruct l as [|a0 l0] eqn:El.
  { right. left. injection HS as <-. split; [done|]. intros k a Hk Hr. by destruct (proj1 (elem_of_nil a) (Hmem k a Hk Hr)). }
  rewrite <- El in *. destruct (Nat.eqb _ _) eqn:Hall.
  { right. left. injection HS as <-. split; [done|]. intros k a Hk Hr. apply Nat.eqb_eq in Hall.
    apply (filter_length_all _ _ Hall), (Hmem k a Hk Hr). }
  destruct (forallb a_Finalized l) eqn:Hfin; cbn [negb] in HS.
  2: { left. injection HS as <-. split; [done|]. apply forallb_false in Hfin as (a & Ha & Hf'). apply Hlist in Ha as [Ha Hr]; [|done].
       by exists (a_key a), a. }
  right. right. apply bind_Ok_inv in HS as (_u & Hg & HS). guards. zb. apply Nat.eqb_eq in Hg.
  unfold settleVerificationRound in HS. rewrite El in HS. rewrite <- El in HS. set (l' := merge_sort by_domain l) in HS.
  assert (l' ≡ₚ l) as Hp by apply merge_sort_Permutation.
  apply bind_Ok_inv in HS as (t & Ht & HS). unfold markVerificationRoundRewardsSettled in HS. apply bind_Ok_inv in HS as (u & Hu & HS).
  apply pay_round_Ok in Ht as (P & V & log & burnt & Hpaid); [|done].
  assert (∀ a, a ∈ l' ↔ assignments s !! a_key a = Some a ∧ same_round r a) as Hl' by (intros a; rewrite Hp; apply Hlist, Hi).
  apply mark_loop in Hu as (F & Hin & Hout); [|by rewrite Hp| ].
  2: { apply list.Forall_forall. intros a [Ha _]%Hl'. destruct (ci_assignments s Hi _ _ Ha) as (_ & _ & _ & Hw).
       apply (stored_domain_normal (market s)); [apply Hi|done]. }
  assert (s' = clearVerificationRoundUnsettled r u) as ->.
  { destruct l' as [|b l''] eqn:El'; [apply Permutation_nil_l in Hp; rewrite El in Hp; done|]. injection HS as <-.
    destruct (proj1 (Hl' b) ltac:(by left)) as [_ Hb]. unfold clearVerificationRoundUnsettled. by rewrite Hb. }
  pose proof (rp_store _ _ _ _ _ _ _ _ Hpaid) as Hst.
  assert (assignments t = assignments s) as Hat by (by rewrite Hst).
  split.
  - cbn. rewrite F. cbn. unfold clearVerificationRoundUnsettled, set_unsettled. cbn. rewrite Hst at 1. cbn. rewrite Hst. done.
  - exists (a_key a0), a0. apply Hl'. rewrite Hp, El. by left.
  - intros k a Hk Hr. destruct (ci_assignments s Hi _ _ Hk) as (-> & _).
    assert (a ∈ l) as Ha by (rewrite <- Hp; by apply Hl'). rewrite forallb_Forall, list.Forall_forall in Hfin. split; [by apply Hfin|].
    destruct (a_RewardsSettled a) eqn:Es; [|done]. exfalso. apply length_zero_iff_nil in Hg.
    assert (a ∈ filter (λ a, a_RewardsSettled a = true) l) as Hx by (by apply list_elem_of_filter). rewrite Hg in Hx. by apply elem_of_nil in Hx.
  - intros k. cbn. destruct (assignments s !! k) as [a|] eqn:Hk; cbn.
    + destruct (ci_assignments s Hi _ _ Hk) as (-> & _). case_decide as Hr.
      * apply Hin, Hl'. done.
      * rewrite Hout, Hat; [done|]. intros (b & Eb & Hb%Hl')%list_elem_of_fmap. destruct Hb as [Hb1 Hb2].
        rewrite <- Eb in Hb1. unfold a_key in Hb1. rewrite Hk in Hb1. injection Hb1 as ->. done.
    + rewrite Hout, Hat; [done|]. intros (b & -> & Hb%Hl')%list_elem_of_fmap. destruct Hb as [Hb1 _]. congruence.
  - exists l', P, V, log, burnt, t. split; [done|]. split; [done|]. cbn. rewrite F. done.
Qed.
End Steps.
