(* ===== verification/RoundInv.v ===== *)
(** The invariant of the rounds ([rounds_inv]): assignments belong to rounds that
    were made, the assignments of a round are settled together, the
    index of unsettled rounds is exact, and every stored assignment and
    bond is valid; every operation keeps it. *)

From stdpp Require Import sorting.
From S2P Require Import Prelude JsBase GoBase GoHash Market MarketProofs GoSdk Tokenomics Verifiers RegParams Verification VerificationProofs BankFrame ChainInv Rounds RoundProofs Rewards RewardProofs RoundSteps.

Section Inv.
Context `{GoEnv} `{!AddrText} `{DrandSuite} {B : Type} `{BankKeeper B}.
Abbreviation Store := (Store B).
Abbreviation VStore := (VStore B).

Record rounds_inv (s : VStore) : Prop := {
  ri_last k a : assignments s !! k = Some a → ∃ last, lastRoundStart (rounds s) = Some last ∧ a_RoundStartUnix a ≤ last;
  ri_same k a k' a' : assignments s !! k = Some a → assignments s !! k' = Some a' → a_RoundStartUnix a = a_RoundStartUnix a' →
    a_RewardsSettled a = a_RewardsSettled a';
  ri_unsettled k a : assignments s !! k = Some a → a_RewardsSettled a = false → verificationRoundKey (a_RoundStartUnix a) ∈ unsettled s;
  ri_keys x : x ∈ unsettled s → ∃ r, in_s 64 r ∧ 0 < r ∧ x = verificationRoundKey r;
  ri_valid k a : assignments s !! k = Some a → Assignment_ValidateBasic a = Ok tt;
  ri_funded : 0 ≤ pool_funded s;
  ri_bonds : bonds_inv (bond_table s) }.

(** The tables of the rounds are the same. *)
Record same_rounds (s s' : VStore) : Prop := {
  sr_assignments : assignments s' = assignments s;
  sr_unsettled : unsettled s' = unsettled s;
  sr_last : lastRoundStart (rounds s') = lastRoundStart (rounds s);
  sr_funded : pool_funded s' = pool_funded s;
  sr_bonds : bonds_inv (bond_table s) → bonds_inv (bond_table s') }.

Lemma rounds_inv_same s s' : rounds_inv s → same_rounds s s' → rounds_inv s'.
Proof.
  intros [L S U K V P Bi] [Ea Eu El Ep Eb]. split; rewrite ?Ea, ?Eu, ?El, ?Ep; auto.
Qed.

(** ** Finalisation *)

(** An assignment that is due is written back, after steps that leave the tables of
    the rounds alone. *)
Lemma finalize_one_set order p now h a s s' : 0 < now → market_inv (market s) → finalize_one order p now h a s = Ok s' →
  s' = s ∨ ∃ u v, settles s u ∧ SetAssignment (finalized now v a) u = Ok s'.
Proof.
  intros Hn Hm HF. unfold finalize_one in HF. destruct (a_Finalized a || _); [left; by injection HF as <-|right].
  cbv zeta in HF. apply bind_Ok_inv in HF as ([v t] & E & HF). eexists _, v. split; [|exact HF]. etrans; [|apply penalties_settles].
  destruct (GetWebsite (a_Domain a) (market s)) as [w|] eqn:Ew; [|by injection E as <- <-].
  destruct (GetWebsite_domain _ _ _ Hm Ew) as [_ Hw]. destruct (a_Reregistration a).
  - by apply (finalize_reregistration_settles s w Hm Hw) in E.
  - run_ok E; injection E as <- <-; try done; [by eapply finalize_verified_settles|by eapply finalize_failed_settles].
Qed.

Lemma finalize_one_rounds order p now h a s s' : 0 < now → chain_inv s → assignments s !! a_key a = Some a →
  finalize_one order p now h a s = Ok s' → rounds_inv s → rounds_inv s'.
Proof.
  intros Hn Hi Ha HF Hr. pose proof (ci_market _ Hi) as Hm.
  destruct (finalize_one_set _ _ _ _ _ _ _ Hn Hm HF) as [->|(u0 & v & Hu & HS)]; [done|]. clear HF. rename HS into HF.
  destruct Hu as (_ & Ea & _ & _ & Eu & Er & Eb & Ep). unfold SetAssignment in HF. apply bind_Ok_inv in HF as ([] & Hv & HF).
  destruct (ci_assignments s Hi _ _ Ha) as (_ & Ha1 & Ha2 & Hw). cbn [a_Domain finalized with_a_domain a_RoundStartUnix a_RewardsSettled] in *.
  rewrite (stored_domain_normal (market s)) in * by (done || apply Hi).
  change (with_a_domain (a_Domain a) (finalized now v a)) with (finalized now v a) in *. injection HF as <-. destruct Hr as [L S U K V P Bi].
  assert (∀ k b, (<[assignmentKey (a_RoundStartUnix a) (a_Domain a) := finalized now v a]> (assignments s)) !! k = Some b →
    ∃ b', assignments s !! k = Some b' ∧ a_RoundStartUnix b = a_RoundStartUnix b' ∧ a_RewardsSettled b = a_RewardsSettled b' ∧
      Assignment_ValidateBasic b = Ok tt ∧ (a_Finalized b' = true → a_Finalized b = true)) as Hold.
  { intros k b [[<- <-]|[_ Hb]]%lookup_insert_Some; [by exists a|]. exists b. split_and!; try done. by eapply V. }
  split; cbn; rewrite ?Ea, ?Er, ?Ep, ?Eb; try done.
  - intros k b (b' & Hb & -> & _)%Hold. by eapply L.
  - intros k b k' c (b' & Hb & -> & -> & _)%Hold (c' & Hc & -> & -> & _)%Hold. by eapply S.
  - intros k b (b' & Hb & -> & -> & _)%Hold Hset. rewrite Eu. specialize (U k b' Hb Hset). destruct (a_RewardsSettled a); [done|].
    apply elem_of_union. by right.
  - intros x. rewrite Eu. destruct (a_RewardsSettled a); [by apply K|]. rewrite elem_of_union, elem_of_singleton.
    intros [->|Hx]; [by exists (a_RoundStartUnix a)|by apply K].
  - intros k b (b' & _ & _ & _ & Hb & _)%Hold. done.
Qed.

Lemma finalize_rounds order p now h s s' : 0 < now → chain_inv s → rounds_inv s → finalizeAssignments order p now h s = Ok s' → rounds_inv s'.
Proof.
  intros Hn Hi Hr HF. unfold finalizeAssignments in HF. destruct (values_keyed a_key (assignments s)) as [Hnd Hv].
  { intros k a Hk. destruct (ci_assignments s Hi k a Hk) as [-> _]. reflexivity. }
  enough (chain_inv s' ∧ rounds_inv s') as [_ ?] by done.
  eapply (each_keyed a_key (λ s k, assignments s !! k) (λ t, chain_inv t ∧ rounds_inv t)); [exact Hnd|exact Hv| |by split|exact HF].
  intros a t t' [Hit Hrt] Ha Hf. pose proof (finalize_one_effect _ _ _ _ _ _ _ Hn (ci_market _ Hit) Hf) as He.
  pose proof (finalize_one_rounds _ _ _ _ _ _ _ Hn Hit Ha Hf Hrt) as Hrt'. destruct (is_due now a); [|by subst].
  split; [split; [by eapply done_with_inv|done]|]. destruct He as (_ & _ & _ & v & Hv'). intros k Hne.
  destruct (ci_assignments t Hit _ _ Ha) as (_ & _ & _ & Hw).
  rewrite Hv', (stored_domain_normal (market t)) by (done || apply Hit). by rewrite lookup_insert_ne.
Qed.

(** The bonds, the rounds and the funds of the pool stay as they are. *)
Lemma finalize_rest order p now h s s' : 0 < now → chain_inv s → finalizeAssignments order p now h s = Ok s' →
  rounds s' = rounds s ∧ bond_table s' = bond_table s ∧ pool_funded s' = pool_funded s.
Proof.
  intros Hn Hi HF. unfold finalizeAssignments in HF. destruct (values_keyed a_key (assignments s)) as [Hnd Hv].
  { intros k a Hk. destruct (ci_assignments s Hi k a Hk) as [-> _]. reflexivity. }
  enough (chain_inv s' ∧ rounds s' = rounds s ∧ bond_table s' = bond_table s ∧ pool_funded s' = pool_funded s) as [_ ?] by done.
  eapply (each_keyed a_key (λ s k, assignments s !! k)
    (λ t, chain_inv t ∧ rounds t = rounds s ∧ bond_table t = bond_table s ∧ pool_funded t = pool_funded s)); [exact Hnd|exact Hv| |by split|exact HF].
  intros a t t' (Hit & E1 & E2 & E3) Ha Hf. pose proof (finalize_one_effect _ _ _ _ _ _ _ Hn (ci_market _ Hit) Hf) as He.
  assert (rounds t' = rounds t ∧ bond_table t' = bond_table t ∧ pool_funded t' = pool_funded t) as (F1 & F2 & F3).
  { destruct (finalize_one_set _ _ _ _ _ _ _ Hn (ci_market _ Hit) Hf) as [->|(u & v & (_ & _ & _ & _ & _ & Er & Eb & Ep) & HS)]; [done|].
    unfold SetAssignment in HS. apply bind_Ok_inv in HS as (_u & _ & [= <-]). done. }
  destruct (is_due now a); [|by subst].
  split; [split; [by eapply done_with_inv|]; split_and!; congruence|]. destruct He as (_ & _ & _ & v & Hv'). intros k Hne.
  destruct (ci_assignments t Hit _ _ Ha) as (_ & _ & _ & Hw).
  rewrite Hv', (stored_domain_normal (market t)) by (done || apply Hit). by rewrite lookup_insert_ne.
Qed.

(** ** Assignment *)

Lemma assign_rounds p c (s s' : VStore) : chain_inv s → rounds_inv s → 0 ≤ c_TimeNs c < 2 ^ 62 * 10 ^ 9 → assignNewRound p c s = Ok s' →
  rounds_inv s'.
Proof.
  intros Hi Hr Ht HA. destruct (assignNewRound_Ok p c s s' (ci_market _ Hi) HA) as [->|Hm]; [done|].
  unfold round_made in Hm. destruct (eligibleVerifierAddrs _ _) as [el st].
  destruct Hm as (Hpos & Hlt & seed & r & [Fr O N Un _] & _ & Hlast). set (rs := nextVerificationRoundStartUnix _ _) in *. cbn in Fr, O, N, Un.
  pose proof (f_equal bond_table Fr) as Eb. pose proof (f_equal pool_funded Fr) as Ep. cbn in Eb, Ep. clear Fr.
  assert (in_s 64 rs) as Hin by (by apply next_round_range). destruct Hr as [L S U K V P Bi].
  assert (∀ k a, assignments s' !! k = Some a → assignments s !! k = Some a ∨
    (a_RoundStartUnix a = rs ∧ a_RewardsSettled a = false ∧ Assignment_ValidateBasic a = Ok tt ∧ verificationRoundKey rs ∈ unsettled s')) as Hc.
  { intros k a Ha. destruct (assignments s !! k) as [b|] eqn:Hb; [left; by rewrite <- Ha, <- (O k b Hb)|right].
    destruct (N k a Hb Ha) as (w & sel & _ & _ & -> & _ & ? & ?). done. }
  assert (∀ k a, assignments s !! k = Some a → a_RoundStartUnix a ≠ rs) as Hold.
  { intros k a Ha Heq. destruct (L k a Ha) as (last & Hl & Hle). specialize (Hlt last Hl). lia. }
  split; rewrite ?Hlast, ?Eb, ?Ep; try done.
  - intros k a [Ha|(-> & _)]%Hc; [|by exists rs]. destruct (L k a Ha) as (last & Hl & Hle). specialize (Hlt last Hl). exists rs. split; [done|lia].
  - intros k a k' a' [Ha|(E1 & E2 & _)]%Hc [Ha'|(E1' & E2' & _)]%Hc Heq; [by eapply S| | |by rewrite E2, E2'].
    + exfalso. apply (Hold k a Ha). congruence.
    + exfalso. apply (Hold k' a' Ha'). congruence.
  - intros k a [Ha|(-> & _ & _ & ?)]%Hc Hs; [|done]. apply (proj1 Un). by eapply U.
  - intros x Hx%(proj2 Un). apply elem_of_union in Hx as [->%elem_of_singleton|Hx]; [by exists rs|by apply K].
  - intros k a [Ha|(_ & _ & ? & _)]%Hc; [by eapply V|done].
Qed.

(** ** Rewards *)

Lemma funded_to_ge p n : n ≤ funded_to p n.
Proof. unfold funded_to. cbv zeta. destruct (_ <? _); lia. Qed.

Lemma settled_valid a : Assignment_ValidateBasic (rewards_settled a) = Assignment_ValidateBasic a.
Proof. done. Qed.

Lemma round_settled_aside p r s s' : round_settled p r s s' → aside s s'.
Proof.
  intros [F _ _ M (l & P & V & log & burnt & t & _ & Hp & Hb & _)]. destruct (rp_bank _ _ _ _ _ _ _ _ Hp) as (b & [Mm _ _] & [Ms _ _ _ _ _]).
  split.
  - by rewrite F at 1.
  - intros d. rewrite Hb, Ms, Mm. rewrite !decide_False by (intros [? _]; by apply registry_not_tokenomics). lia.
  - by rewrite F.
  - by rewrite F.
  - intros k a Ha. rewrite M, Ha. cbn. case_decide; auto.
  - intros k a Hn. rewrite M, Hn. done.
Qed.

Lemma settle_round_rounds order p r (s s' : VStore) : chain_inv s → rounds_inv s → in_s 64 r → 0 < r → settle_round order p r s = Ok s' →
  rounds_inv s' ∧ aside s s'.
Proof.
  intros Hi Hr Hr1 Hr2 HS. pose proof (ri_funded s Hr) as Hf.
  assert (∀ k a, assignments s !! k = Some a → same_round r a → a_RoundStartUnix a = r) as Hsame.
  { intros k a Ha Hk. destruct (ci_assignments s Hi _ _ Ha) as (_ & ? & ? & _). by apply roundKey_inj. }
  destruct (settle_round_Ok _ _ _ _ _ Hi Hf HS) as [[-> _]|[[-> Hset]|Hd]]; [done|..].
  - split; [|apply same_assignments; try done; cbn; by rewrite set_bank_id].
    destruct Hr as [L S U K V P Bi]. split; cbn; try done.
    + intros k a Ha Hs. apply elem_of_difference. split; [by eapply U|]. intros Hk%elem_of_singleton.
      rewrite (Hset k a Ha) in Hs; [done|]. exact Hk.
    + intros x [Hx _]%elem_of_difference. by apply K.
  - split; [|by eapply round_settled_aside]. pose proof (rd_marked _ _ _ _ Hd) as Hmk. pose proof (rd_frame _ _ _ _ Hd) as Hfr.
    destruct (rd_paid _ _ _ _ Hd) as (l & P & V & log & burnt & t & _ & Hpaid & _ & Hfund). destruct Hr as [L S U K Vd Fu Bi].
    assert (∀ k b, assignments s' !! k = Some b → ∃ a, assignments s !! k = Some a ∧ a_RoundStartUnix b = a_RoundStartUnix a ∧
      ((same_round r a ∧ b = rewards_settled a) ∨ (¬ same_round r a ∧ b = a))) as Hold.
    { intros k b Hb. rewrite Hmk in Hb. apply fmap_Some in Hb as (a & Ha & ->). exists a. split; [done|]. case_decide; auto. }
    split.
    + rewrite Hfr. cbn. intros k b (a & Ha & -> & _)%Hold. by eapply L.
    + intros k b k' b' (a & Ha & Ea & Ca)%Hold (a' & Ha' & Ea' & Ca')%Hold Heq. rewrite Ea, Ea' in Heq.
      destruct Ca as [[Hs ->]|[Hs ->]], Ca' as [[Hs' ->]|[Hs' ->]]; [done| | |by eapply S].
      * exfalso. apply Hs'. unfold same_round in *. by rewrite <- Heq.
      * exfalso. apply Hs. unfold same_round in *. by rewrite Heq.
    + rewrite Hfr. cbn. intros k b (a & Ha & _ & [[Hs ->]|[Hs ->]])%Hold Hb; [done|]. apply elem_of_difference. split; [by eapply U|].
      by rewrite elem_of_singleton.
    + rewrite Hfr. cbn. intros x [Hx _]%elem_of_difference. by apply K.
    + intros k b (a & Ha & _ & [[Hs ->]|[Hs ->]])%Hold; [rewrite settled_valid|]; by eapply Vd.
    + rewrite Hfund, (rp_store _ _ _ _ _ _ _ _ Hpaid). cbn. pose proof (funded_to_ge p (pool_funded s)). lia.
    + rewrite Hfr. done.
Qed.

(** The keys of the index are read back as the rounds. *)
Lemma round_of_key r : in_s 64 r → 0 < r → i64 (be_val (verificationRoundKey r)) = r.
Proof.
  unfold in_s. change (64 - 1) with 63. intros Hr Hp. unfold verificationRoundKey, u64. rewrite uwrap_small by (unfold in_u; lia).
  unfold be_val. rewrite be_val_app_bytes by lia. change (256 ^ Z.of_nat 8) with (2 ^ 64). rewrite Z.mod_small by lia. apply i64_id. lia.
Qed.

Lemma unsettled_rounds s rs : rounds_inv s → listUnsettledVerificationRounds s = Ok rs →
  ∀ r, r ∈ rs ↔ in_s 64 r ∧ 0 < r ∧ verificationRoundKey r ∈ unsettled s.
Proof.
  intros Hr HL r. unfold listUnsettledVerificationRounds in HL.
  assert (∀ l acc rs, each (λ k rounds, (guard_err (negb (length k =? 8)%nat) Panic;; Ok (rounds ++ [i64 (be_val k)]))) l acc = Ok rs →
    rs = acc ++ ((λ k, i64 (be_val k)) <$> l)) as Hloop.
  { clear. intros l. induction l as [|k l IH]; intros acc rs HE; cbn [each] in HE; [injection HE as <-; by rewrite app_nil_r|].
    apply bind_Ok_inv in HE as (acc' & E & HE). run_ok E. injection E as <-. rewrite (IH _ _ HE), <- app_assoc. done. }
  rewrite (Hloop _ _ _ HL). cbn. rewrite list_elem_of_fmap. setoid_rewrite SortStrings_perm. setoid_rewrite elem_of_elements. split.
  - intros (k & -> & Hk). destruct (ri_keys s Hr k Hk) as (r' & H1' & H2' & ->). rewrite round_of_key by done. done.
  - intros (H1' & H2' & Hk). exists (verificationRoundKey r). by rewrite round_of_key.
Qed.

Lemma unsettled_total s : rounds_inv s → ∃ rs, listUnsettledVerificationRounds s = Ok rs.
Proof.
  intros Hr. unfold listUnsettledVerificationRounds.
  assert (Forall (λ k : gostr, length k = 8%nat) (SortStrings (elements (unsettled s)))) as Hl.
  { apply list.Forall_forall. intros k Hk. rewrite SortStrings_perm, elem_of_elements in Hk.
    destruct (ri_keys s Hr k Hk) as (r & _ & _ & ->). unfold verificationRoundKey. by rewrite be_bytes_length. }
  revert Hl. match goal with |- context [each ?f _ _] => enough (∀ l acc, Forall (λ k : gostr, length k = 8%nat) l → ∃ rs, each f l acc = Ok rs) by auto end.
  clear. intros l. induction l as [|k l IH]; intros acc Hl; [by eexists|].
  apply Forall_cons_1 in Hl as [Hk Hl]. cbn [each]. rewrite Hk. cbn. by apply IH.
Qed.

(** A property that the settlement of a round keeps, the rewards keep. *)
Lemma rewards_ind order p (P : VStore → Prop) s s' : chain_inv s → rounds_inv s →
  (∀ r t t', in_s 64 r → 0 < r → chain_inv t → rounds_inv t → settle_round order p r t = Ok t' → P t → P t') → P s →
  settleFinalizedVerificationRounds order p s = Ok s' → rounds_inv s' ∧ aside s s' ∧ P s'.
Proof.
  intros Hi Hr Hstep HP HS. unfold settleFinalizedVerificationRounds in HS. apply bind_Ok_inv in HS as (rs & Hrs & HS).
  eapply (each_ind (λ t, rounds_inv t ∧ aside s t ∧ P t)); [|by split_and!|exact HS]. intros r t t' Hin (Hrt & Hat & Hpt) Ht.
  apply (unsettled_rounds s rs Hr Hrs) in Hin as (H1' & H2' & _). pose proof (aside_inv _ _ Hi Hat) as Hit.
  destruct (settle_round_rounds order p r t t' Hit Hrt H1' H2' Ht). split_and!; [done|by etrans|by eapply Hstep].
Qed.

Lemma rewards_rounds order p s s' : chain_inv s → rounds_inv s → settleFinalizedVerificationRounds order p s = Ok s' →
  rounds_inv s' ∧ aside s s'.
Proof. intros Hi Hr HS. by destruct (rewards_ind order p (λ _, True) s s' Hi Hr) as (? & ? & _). Qed.
End Inv.
