(* ===== verification/Chain.v ===== *)
(** The registry module as a state machine: the messages and the end-block steps as
    operations on one store, with the bonds of the verifiers and the bank it
    shares, and lemmas on what each operation keeps and changes: the invariants,
    the escrow, the owners of domains, the slots, the commits and the
    submissions. *)

From stdpp Require Import sorting.
From S2P Require Import Prelude JsBase GoBase GoHash Market MarketProofs GoSdk Tokenomics Verifiers RegParams Verification VerificationProofs BankFrame ChainInv Rounds RoundProofs Rewards RewardProofs RoundSteps RoundInv.

(** * Operations *)

Section Ops.
Context `{GoEnv} `{!AddrText} `{DrandSuite} {B : Type} `{BankKeeper B}.
Abbreviation Store := (Store B).
Abbreviation VStore := (VStore B).

(** An operation, with the block time, height or parameters it runs under: the
    messages of the registry and of the verifiers module, and the four steps of
    the end of a block. *)
Inductive op : Type :=
| ORegister (height : Z) (m : MsgRegisterPublisher)
| OCreateSlot (now : Z) (m : MsgCreateSlot)
| OUpdateSlotStatus (now : Z) (m : MsgUpdateSlotStatus)
| OLeaseSlot (now : Z) (m : MsgLeaseSlot)
| OCommit (p : PublisherParams) (now : Z) (m : MsgCommit)
| OReveal (p : PublisherParams) (now : Z) (m : MsgReveal)
| OBond (m : MsgBond)
| OUnbond (m : MsgBond)
| OBeacon (p : PublisherParams) (c : BlockCtx) (m : MsgSubmitDrandBeacon)
| OFinalize (p : PublisherParams) (now height : Z)
| ORewards (p : PublisherParams)
| OSettle (now : Z)
| OAssign (p : PublisherParams) (c : BlockCtx).

Definition exec (order : gmap gostr Z → list (gostr * Z)) (o : op) (s : VStore) : result err VStore :=
  match o with
  | ORegister h m => on_market (λ x, r ← RegisterPublisher h m x; Ok r.2) s
  | OCreateSlot now m => on_market (λ x, r ← CreateSlot now m x; Ok r.2) s
  | OUpdateSlotStatus now m => on_market (λ x, r ← UpdateSlotStatus now m x; Ok r.2) s
  | OLeaseSlot now m => on_market (λ x, r ← LeaseSlot now m x; Ok r.2) s
  | OCommit p now m => SubmitVerificationCommit p now m s
  | OReveal p now m => r ← RevealVerification p now m s; Ok r.2
  | OBond m => bond_step Bond m s
  | OUnbond m => bond_step Unbond m s
  | OBeacon p c m => r ← SubmitDrandBeacon p c m s; Ok r.2
  | OFinalize p now h => finalizeAssignments order p now h s
  | ORewards p => settleFinalizedVerificationRounds order p s
  | OSettle now => on_market (settleLeases now) s
  | OAssign p c => assignNewRound p c s
  end.

(** An operation that fails leaves the store as it was. *)
Definition apply_op (order : gmap gostr Z → list (gostr * Z)) (s : VStore) (o : op) : VStore :=
  match exec order o s with Ok s' => s' | Err _ => s end.
Definition run (order : gmap gostr Z → list (gostr * Z)) (ops : list op) (s : VStore) : VStore := foldl (apply_op order) s ops.

(** Times and message fields are what their Go types allow, and time is after
    the epoch. *)
Definition op_typed (o : op) : Prop :=
  match o with
  | ORegister _ _ | OCreateSlot _ _ | OUpdateSlotStatus _ _ | OBond _ | OUnbond _ | OBeacon _ _ _ | ORewards _ => True
  | OLeaseSlot now m => 0 < now < 2 ^ 63 ∧ lease_msg_typed m
  | OCommit _ now m => 0 < now < 2 ^ 63 ∧ in_s 64 (mk_RoundStartUnix m)
  | OReveal _ now m => 0 < now < 2 ^ 63 ∧ in_s 64 (mv_RoundStartUnix m)
  | OFinalize _ now _ | OSettle now => 0 < now < 2 ^ 63
  | OAssign _ c => 0 ≤ c_TimeNs c < 2 ^ 62 * 10 ^ 9
  end.

(** The steps beside the market. *)
Definition is_aside (o : op) : bool :=
  match o with OBond _ | OUnbond _ | OBeacon _ _ _ | ORewards _ | OAssign _ _ => true | _ => false end.

(** The invariants of the whole store. *)
Record registry_inv (s : VStore) : Prop := { rg_chain : chain_inv s; rg_rounds : rounds_inv s }.

Lemma exec_aside order o (s s' : VStore) : registry_inv s → op_typed o → is_aside o = true → exec order o s = Ok s' → aside s s' ∧ rounds_inv s'.
Proof.
  intros [Hi Hr] Ht Ho HE. destruct o; try done; cbn [exec op_typed] in *.
  - destruct (Bond_moves _ _ _ (ri_bonds _ Hr) HE) as (addr & n & _ & E & Hb). split.
    + rewrite E. apply bonds_aside. by eapply bonds_only.
    + eapply rounds_inv_same; [exact Hr|]. rewrite E. split; try done. intros _. cbn. apply (bo_valid _ _ _ _ _ _ Hb).
  - destruct (Unbond_moves _ _ _ (ri_bonds _ Hr) HE) as (addr & n & _ & E & Hb). split.
    + rewrite E. apply bonds_aside. by eapply unbonds_only.
    + eapply rounds_inv_same; [exact Hr|]. rewrite E. split; try done. intros _. cbn. apply (ub_valid _ _ _ _ _ _ Hb).
  - apply bind_Ok_inv in HE as ([x t] & HE & [= <-]). split; [by eapply beacon_aside|]. eapply rounds_inv_same; [exact Hr|].
    unfold SubmitDrandBeacon in HE. run_ok HE. injection HE as <- <-.
    match goal with E : SetDrandBeacon _ _ = Ok _ |- _ => apply SetDrandBeacon_Ok in E as (_ & _ & lt & ->) end. by split.
  - destruct (rewards_rounds _ _ _ _ Hi Hr HE). done.
  - split; [by eapply assign_aside|by eapply assign_rounds].
Qed.

(** * What the messages do *)

Lemma RegisterPublisher_effect h m (s : Store) r s' : market_inv s → RegisterPublisher h m s = Ok (r, s') →
  market_inv s' ∧ slots s' = slots s ∧ leases s' = leases s ∧ bank s' = bank s ∧ slotSeq s' = slotSeq s ∧ leaseSeq s' = leaseSeq s ∧
  (same_sites s s' ∨ ∃ k p, websites s !! k = None ∧ GetPrimaryDomain k = Ok p ∧ primaryDomains s !! p = None ∧
    websites s' = <[k := r]> (websites s) ∧ primaryDomains s' = <[p := k]> (primaryDomains s)).
Proof.
  intros Hi HR. split; [by eapply RegisterPublisher_inv|]. unfold RegisterPublisher in HR. run_ok HR.
  - injection HR as <- <-. match goal with E : GetWebsite _ _ = Some _ |- _ => destruct (GetWebsite_domain _ _ _ Hi E) as [_ Hw] end.
    match goal with E : UpsertWebsite _ _ = Ok _ |- _ => 
      destruct (UpsertWebsite_frame _ _ _ E) as (? & ? & ? & ? & ? & _); apply UpsertWebsite_keeps in E; [|exact Hw] end.
    split_and!; try done. left. by apply keeps_sites.
  - unfold RegisterWebsite in HR. run_ok HR. guards. injection HR as <- <-. split_and!; try done. right.
    match goal with E : GetPrimaryDomain ?k = Ok ?p |- _ => exists k, p end. cbn in *. split_and!; try done; by case_match.
Qed.

Lemma CreateSlot_frame now m (s : Store) r s' : CreateSlot now m s = Ok (r, s') →
  websites s' = websites s ∧ primaryDomains s' = primaryDomains s ∧ leases s' = leases s ∧ bank s' = bank s ∧
  leaseSeq s' = leaseSeq s ∧ slotSeq s' = u64 (slotSeq s + 1).
Proof.
  intros HC. unfold CreateSlot in HC. run_ok HC. injection HC as <- <-.
  match goal with E : nextSlotID s = _ |- _ => injection E as <- <- end.
  by match goal with E : SetSlot _ _ = _ |- _ => apply SetSlot_Ok in E as [_ ->] end.
Qed.

Lemma UpdateSlotStatus_frame now m (s : Store) r s' : UpdateSlotStatus now m s = Ok (r, s') →
  websites s' = websites s ∧ primaryDomains s' = primaryDomains s ∧ leases s' = leases s ∧ bank s' = bank s ∧
  leaseSeq s' = leaseSeq s ∧ slotSeq s' = slotSeq s.
Proof.
  intros HC. unfold UpdateSlotStatus in HC. run_ok HC. injection HC as <- <-.
  by match goal with E : SetSlot _ _ = _ |- _ => apply SetSlot_Ok in E as [_ ->] end.
Qed.

(** ** Every operation *)

(** What one operation keeps: the invariant, the surplus, and the counters up to
    one more identifier. *)
Definition good_step (s s' : VStore) : Prop :=
  chain_inv s' ∧ (∀ d, surplus d (market s') = surplus d (market s)) ∧
  slotSeq (market s') ≤ slotSeq (market s) + 1 ∧ leaseSeq (market s') ≤ leaseSeq (market s) + 1.

Lemma surplus_frame d (m m' : Store) : leases m' = leases m → bank m' = bank m → surplus d m' = surplus d m.
Proof. intros Hl Hb. unfold surplus. by rewrite Hl, Hb. Qed.

Lemma good_refl (s : VStore) : chain_inv s → good_step s s.
Proof. intros Hi. split_and!; try done; lia. Qed.

Lemma good_market (s : VStore) m : chain_inv s → market_inv m → same_sites (market s) m →
  (∀ d, surplus d m = surplus d (market s)) → slotSeq m ≤ slotSeq (market s) + 1 → leaseSeq m ≤ leaseSeq (market s) + 1 →
  good_step s (set_market m s).
Proof. intros Hi Hm Hs Hd ? ?. split; [by apply chain_inv_market|done]. Qed.

Lemma good_keeps (s : VStore) m : chain_inv s → keeps (market s) m → good_step s (set_market m s).
Proof.
  intros Hi Hk. destruct (Hk (ci_market _ Hi)) as (? & ? & ? & ? & ? & ?). apply good_market; try done; lia.
Qed.

Lemma register_good h m (s : VStore) r x : chain_inv s → RegisterPublisher h m (market s) = Ok (r, x) → good_step s (set_market x s).
Proof.
  intros Hi HR. destruct (RegisterPublisher_effect _ _ _ _ _ (ci_market _ Hi) HR) as (Hx & Hsl & Hl & Hb & Hq1 & Hq2 & Hc).
  assert (∀ d, surplus d x = surplus d (market s)) as Hs by (intros d; by apply surplus_frame).
  destruct Hc as [Hss|(k & p & Hk & Hp & Hpk & Hw & Hpd)]; [apply good_market; try done; lia|].
  split_and!; try done; cbn; try lia. destruct Hi as [Hm Ha Hsub Hprim]. split; cbn; try done.
  - intros k' a Hka. destruct (Ha k' a Hka) as (? & ? & ? & ?). split_and!; try done. rewrite Hw.
    apply lookup_insert_is_Some'. by right.
  - intros k' Hk'. rewrite Hw in Hk'. rewrite Hpd. apply lookup_insert_is_Some in Hk' as [<-|[Hne Hk']].
    + exists p. by rewrite lookup_insert_eq.
    + destruct (Hprim k' Hk') as (p' & Hp' & Hin). exists p'. split; [done|]. rewrite lookup_insert_ne; [done|]. congruence.
Qed.

Lemma create_good now m (s : VStore) r x : chain_inv s → slotSeq (market s) < 2 ^ 64 - 1 → CreateSlot now m (market s) = Ok (r, x) →
  good_step s (set_market x s).
Proof.
  intros Hi Hq HC. pose proof (CreateSlot_inv _ _ _ _ _ (ci_market _ Hi) Hq HC) as Hx. pose proof (mi_seq _ (ci_market _ Hi)).
  destruct (CreateSlot_frame _ _ _ _ _ HC) as (Hw & Hp & Hl & Hb & Hq1 & Hq2).
  unfold u64 in Hq2. rewrite uwrap_small in Hq2 by (unfold in_u; lia).
  apply good_market; try done; [split; [done|by rewrite Hw]|intros d; by apply surplus_frame|lia..].
Qed.

Lemma status_good now m (s : VStore) r x : chain_inv s → UpdateSlotStatus now m (market s) = Ok (r, x) → good_step s (set_market x s).
Proof.
  intros Hi HC. pose proof (UpdateSlotStatus_inv _ _ _ _ _ (ci_market _ Hi) HC) as Hx.
  destruct (UpdateSlotStatus_frame _ _ _ _ _ HC) as (Hw & Hp & Hl & Hb & Hq1 & Hq2).
  apply good_market; try done; [split; [done|by rewrite Hw]|intros d; by apply surplus_frame|lia..].
Qed.

Lemma lease_good now m (s : VStore) r x : chain_inv s → 0 < now < 2 ^ 63 → lease_msg_typed m → leaseSeq (market s) < 2 ^ 64 - 1 →
  LeaseSlot now m (market s) = Ok (r, x) → good_step s (set_market x s).
Proof.
  intros Hi Hn Hm Hq HL. destruct (LeaseSlot_inv now m (market s) r x (ci_market _ Hi) ltac:(lia) Hm Hq HL) as [Hf Hx].
  pose proof (mi_seq _ (ci_market _ Hi)). pose proof (LeaseSlot_Ok _ _ _ _ _ HL) as Hle.
  assert (websites x = websites (market s) ∧ primaryDomains x = primaryDomains (market s) ∧ slotSeq x = slotSeq (market s) ∧
    leaseSeq x = leaseSeq (market s) + 1) as (Hw & Hp & Hq1 & Hq2).
  { rewrite (le_store _ _ _ _ _ Hle). cbn. unfold u64. rewrite uwrap_small by (unfold in_u; lia). done. }
  apply good_market; try done; [split; [done|by rewrite Hw]|intros d; by eapply LeaseSlot_surplus|lia..].
Qed.

Lemma settle_good now (s : VStore) x : chain_inv s → settleLeases now (market s) = Ok x → good_step s (set_market x s).
Proof.
  intros Hi HS. destruct (settleLeases_effect _ _ _ (ci_market _ Hi) HS) as (Hx & Hs & Hq1 & Hq2 & Hp & Hw & _).
  apply good_market; [exact Hi|exact Hx|split; [exact Hp|by rewrite Hw]|exact Hs|lia|lia].
Qed.

(** Commits and reveals do not touch the market. *)
Lemma commit_effect p now m (s s' : VStore) : SubmitVerificationCommit p now m s = Ok s' →
  market s' = market s ∧ assignments s' = assignments s ∧ submissions s' = submissions s ∧
  ∃ a, GetAssignment (mk_RoundStartUnix m) (NormalizeDomain (mk_Domain m)) s = Some a ∧ a_Finalized a = false ∧
    assignmentHasVerifier a (mk_Verifier m) = true ∧
    a_StartAtUnix a ≤ now ≤ i64 (a_StartAtUnix a + p_CommitWindowSeconds p) ∧
    GetCommit (mk_RoundStartUnix m) (NormalizeDomain (mk_Domain m)) (mk_Verifier m) s = None ∧
    commits s' = <[commitKey (mk_RoundStartUnix m) (NormalizeDomain (NormalizeDomain (mk_Domain m))) (mk_Verifier m) :=
                   ToLower (TrimSpace (mk_CommitHash m))]> (commits s).
Proof.
  intros HC. unfold SubmitVerificationCommit in HC. run_ok HC. guards. zb. injection HC as <-. split_and!; try done.
  eexists. split_and!; try done; try lia.
  match goal with E : bool_decide (is_Some (GetCommit _ _ _ _)) = false |- _ =>
    apply bool_decide_eq_false, eq_None_not_Some in E; exact E end.
Qed.

Lemma SetSubmission_Ok x (s s' : VStore) : SetSubmission x s = Ok s' →
  let y := with_b_domain (NormalizeDomain (b_Domain x)) x in
  Submission_ValidateBasic y = Ok tt ∧
  s' = set_submissions (<[submissionKey (b_RoundStartUnix x) (b_Domain y) (b_Verifier x) := y]> (submissions s)) s.
Proof. intros HS. unfold SetSubmission in HS. run_ok HS. destruct r. by injection HS as <-. Qed.

Lemma reveal_effect p now m (s : VStore) x s' : RevealVerification p now m s = Ok (x, s') →
  let d := NormalizeDomain (NormalizeDomain (mv_Domain m)) in
  market s' = market s ∧ assignments s' = assignments s ∧
  submissions s' = <[submissionKey (mv_RoundStartUnix m) d (mv_Verifier m) := with_b_domain d x]> (submissions s) ∧
  commits s' = delete (commitKey (mv_RoundStartUnix m) d (mv_Verifier m)) (commits s) ∧
  b_RoundStartUnix x = mv_RoundStartUnix m ∧ b_Verifier x = mv_Verifier m ∧ b_Passed x = mv_Passed m ∧ b_SubmittedAtUnix x = now ∧
  0 < mv_RoundStartUnix m ∧
  submissions s !! submissionKey (mv_RoundStartUnix m) d (mv_Verifier m) = None ∧
  ∃ a h, assignments s !! assignmentKey (mv_RoundStartUnix m) d = Some a ∧ a_Finalized a = false ∧
    assignmentHasVerifier a (mv_Verifier m) = true ∧ i64 (a_StartAtUnix a + p_CommitWindowSeconds p) < now ≤ a_DeadlineUnix a ∧
    commits s !! commitKey (mv_RoundStartUnix m) d (mv_Verifier m) = Some h ∧ expected_hash m a = Ok (ToLower h).
Proof.
  intros HR. unfold RevealVerification in HR. run_ok HR. guards. zb. injection HR as <- <-.
  match goal with E : SetSubmission _ _ = _ |- _ => apply SetSubmission_Ok in E as [Hv ->] end.
  match goal with E : bool_decide (ToLower _ = _) = true |- _ => apply bool_decide_eq_true in E as <- end.
  match goal with E : bool_decide (is_Some (GetSubmission _ _ _ _)) = false |- _ =>
    apply bool_decide_eq_false, eq_None_not_Some in E end.
  split_and!; try done.
  - unfold Submission_ValidateBasic in Hv. apply first_error_ok in Hv. apply Forall_cons_1 in Hv as [Hr _]. cbn in Hr. zb. done.
  - unfold GetAssignment in *. eexists _, _. split_and!; try done; try lia. unfold GetCommit in *. by repeat case_match; simplify_eq.
Qed.

Lemma hasVerifier_elem a v : assignmentHasVerifier a v = true → v ∈ a_Verifiers a.
Proof.
  unfold assignmentHasVerifier. rewrite existsb_exists. intros (x & Hx & E%bool_decide_eq_true). subst x. by apply list_elem_of_In.
Qed.

Lemma reveal_good p now m (s : VStore) x s' : chain_inv s → in_s 64 (mv_RoundStartUnix m) → RevealVerification p now m s = Ok (x, s') →
  good_step s s'.
Proof.
  intros Hi Hr HR. destruct (reveal_effect _ _ _ _ _ _ HR) as (Hm & Ha & Hs & _ & E1 & E2 & _ & E3 & Hpos & _ & a & h & Hk & _ & Hv & Ht & _).
  split; [|by rewrite Hm; split_and!; [done|lia..]]. destruct Hi as [Hmi Hai Hsi Hp]. split; rewrite ?Hm, ?Ha, ?Hs; try done.
  intros k y [[<- <-]|[_ Hy]]%lookup_insert_Some; [|by apply Hsi]. cbn. rewrite E1, E2. split; [done|]. exists a.
  destruct (Hai _ _ Hk) as (Hkey & Ha1 & Ha2 & _). apply assignmentKey_inj in Hkey as [E4 E5]; try done.
  split_and!; try done; [by apply hasVerifier_elem|lia].
Qed.

Lemma commit_good p now m (s s' : VStore) : chain_inv s → SubmitVerificationCommit p now m s = Ok s' → good_step s s'.
Proof.
  intros Hi (Hm & Ha & Hs & _)%commit_effect. split; [|by rewrite Hm; split_and!; [done|lia..]].
  destruct Hi as [Hmi Hai Hsi Hp]. split; by rewrite ?Hm, ?Ha, ?Hs.
Qed.

Lemma aside_good (s s' : VStore) : chain_inv s → aside s s' → good_step s s'.
Proof.
  intros Hi Ha. split; [by eapply aside_inv|]. pose proof (as_market _ _ Ha) as Hm. split_and!; [|by rewrite Hm; cbn; lia..].
  intros d. unfold surplus. cbn [module_bal registry_bank]. rewrite (as_escrow _ _ Ha), Hm. done.
Qed.

Lemma finalize_good order p now h (s s' : VStore) : 0 < now → chain_inv s → finalizeAssignments order p now h s = Ok s' → good_step s s'.
Proof.
  intros Hn Hi HF. destruct (finalize_loop _ _ _ _ _ _ Hn Hi HF) as (Hi' & Hk & _).
  destruct (Hk (ci_market _ Hi)) as (_ & Hd & Hq1 & Hq2 & _). split; [exact Hi'|]. split; [exact Hd|lia].
Qed.

(** The messages and the settlement of leases leave the tables of the rounds alone. *)
Lemma exec_same_rounds order o (s s' : VStore) : is_aside o = false → (∀ p now h, o ≠ OFinalize p now h) → exec order o s = Ok s' →
  same_rounds s s'.
Proof.
  intros Ho Hf HE. destruct o; try done; cbn [exec] in *.
  1-4, 8: apply on_market_Ok in HE as (x & _ & ->); by split.
  - unfold SubmitVerificationCommit in HE. run_ok HE. injection HE as <-. by split.
  - run_ok HE. injection HE as <-. destruct r as [x t]. unfold RevealVerification in E. run_ok E. injection E as <- <-.
    match goal with E : SetSubmission _ _ = _ |- _ => apply SetSubmission_Ok in E as [_ ->] end. by split.
  - by destruct (Hf p now height).
Qed.

Lemma exec_good order o (s s' : VStore) : registry_inv s → op_typed o → slotSeq (market s) < 2 ^ 64 - 1 → leaseSeq (market s) < 2 ^ 64 - 1 →
  exec order o s = Ok s' → good_step s s' ∧ registry_inv s'.
Proof.
  intros Hinv Ht Hq1 Hq2 HE. destruct Hinv as [Hi Hr]. destruct (is_aside o) eqn:Ho.
  { destruct (exec_aside order o s s' (Build_registry_inv s Hi Hr) Ht Ho HE) as [Ha Hr']. pose proof (aside_good s s' Hi Ha) as Hg.
    split; [done|]. split; [apply Hg|done]. }
  assert (rounds_inv s') as Hr'.
  { destruct o; try done; try (eapply rounds_inv_same; [exact Hr|]; eapply exec_same_rounds; [exact Ho|by intros|exact HE]).
    cbn [exec op_typed] in *. eapply finalize_rounds; [|exact Hi|exact Hr|exact HE]. lia. }
  enough (good_step s s') as Hg by (split; [done|]; split; [apply Hg|done]).
  destruct o; try done; cbn [exec op_typed] in *.
  1-4: apply on_market_Ok in HE as (x & Hx & ->); run_ok Hx; injection Hx as <-;
    match goal with r : (_ * _)%type |- _ => destruct r as [y x'] end; cbn [snd].
  - by eapply register_good.
  - by eapply create_good.
  - by eapply status_good.
  - destruct Ht. by eapply lease_good.
  - by eapply commit_good.
  - run_ok HE. injection HE as <-. match goal with r : (_ * _)%type |- _ => destruct r as [y x'] end.
    destruct Ht as [_ Ht]. by eapply reveal_good.
  - eapply finalize_good; [|exact Hi|exact HE]. lia.
  - apply on_market_Ok in HE as (x & Hx & ->). by eapply settle_good.
Qed.

(** A property of the store that every operation keeps, along any history. *)
Lemma run_ind order (P : VStore → Prop) ops (s : VStore) : registry_inv s → Forall op_typed ops →
  slotSeq (market s) + Z.of_nat (length ops) < 2 ^ 64 → leaseSeq (market s) + Z.of_nat (length ops) < 2 ^ 64 →
  (∀ o t t', o ∈ ops → registry_inv t → registry_inv t' → good_step t t' → op_typed o → exec order o t = Ok t' → P t → P t') →
  P s → registry_inv (run order ops s) ∧ P (run order ops s).
Proof.
  unfold run. revert s. induction ops as [|o ops IH]; intros s Hi Hops Hq1 Hq2 Hstep HP; cbn [foldl]; [done|].
  apply Forall_cons_1 in Hops as [Ho Hops]. cbn [length] in *. rewrite Nat2Z.inj_succ in *.
  assert (∀ o' t t', o' ∈ ops → registry_inv t → registry_inv t' → good_step t t' → op_typed o' → exec order o' t = Ok t' → P t → P t')
    as Hstep' by (intros o' t t' Hin; apply Hstep; by right).
  unfold apply_op at 2 4. destruct (exec order o s) as [s'|e] eqn:E; [|by apply IH; try done; lia].
  destruct (exec_good order o s s' Hi Ho ltac:(lia) ltac:(lia) E) as [Hg Hi'].
  apply IH; try done; [destruct Hg as (_ & _ & ? & ?); lia..|]. exact (Hstep o s s' ltac:(by left) Hi Hi' Hg Ho E HP).
Qed.

Lemma run_good order ops (s : VStore) : registry_inv s → Forall op_typed ops →
  slotSeq (market s) + Z.of_nat (length ops) < 2 ^ 64 → leaseSeq (market s) + Z.of_nat (length ops) < 2 ^ 64 →
  registry_inv (run order ops s) ∧ ∀ d, surplus d (market (run order ops s)) = surplus d (market s).
Proof.
  intros Hi Hops Hq1 Hq2. apply (run_ind order (λ t, ∀ d, surplus d (market t) = surplus d (market s))); try done.
  intros o t t' _ _ _ (_ & Hd & _) _ _ Ht d. by rewrite Hd.
Qed.

(** The empty store. *)
Definition no_sites (b : B) : VStore := mkVStore (mkStore ∅ ∅ ∅ ∅ 0 0 b) ∅ ∅ ∅ ∅ ∅ ∅ ∅ (mkRounds None ∅ ∅ None) (mkBonds None ∅) 0.

Lemma no_sites_inv b : registry_inv (no_sites b).
Proof.
  split; [split; [split|..]|split]; cbn; try done; try (by intros ? ? ?%lookup_empty_Some); try (by intros ? ? ? ? ?%lookup_empty_Some).
  by intros k [? ?%lookup_empty_Some].
Qed.

(** * Whose votes count *)

Lemma listed_submission (s : VStore) r d x : chain_inv s → in_s 64 r → 0 < r → is_Some (websites (market s) !! d) →
  x ∈ ListSubmissions r d s → submissions s !! submissionKey r d (b_Verifier x) = Some x ∧ b_RoundStartUnix x = r ∧ b_Domain x = d.
Proof.
  intros Hi Hr Hpos Hd. unfold ListSubmissions. rewrite list_elem_of_fmap.
  intros ([k y] & -> & [Hp Hk]%list_elem_of_filter). cbn in *. apply elem_of_entries in Hk.
  rewrite (stored_domain_normal (market s)) in Hp by (done || apply Hi).
  destruct (ci_submissions s Hi _ _ Hk) as (-> & a & Ha & E1 & E2 & _). destruct (ci_assignments s Hi _ _ Ha) as (_ & Ha1 & Ha2 & Hw).
  apply starts_with_iff in Hp as [t Ht]. unfold submissionKey, submissionPrefix, assignmentKey in Ht. rewrite <- !app_assoc in Ht.
  apply app_inj_1 in Ht as [Er Ht]; [|by unfold verificationRoundKey; rewrite !be_bytes_length].
  apply zero_delimits in Ht as [Ed _].
  - apply roundKey_inj in Er; [|congruence..]. by rewrite <- Er, <- Ed.
  - rewrite E2. eapply (stored_domain_nonzero (market s)); [apply Hi|done].
  - eapply (stored_domain_nonzero (market s)); [apply Hi|done].
Qed.

Lemma listed_assigned (s : VStore) k a : chain_inv s → assignments s !! k = Some a →
  NoDup (b_Verifier <$> ListSubmissions (a_RoundStartUnix a) (a_Domain a) s) ∧
  ∀ x, x ∈ ListSubmissions (a_RoundStartUnix a) (a_Domain a) s → b_Verifier x ∈ a_Verifiers a ∧ b_SubmittedAtUnix x ≤ a_DeadlineUnix a.
Proof.
  intros Hi Hk. destruct (ci_assignments s Hi _ _ Hk) as (-> & Ha1 & Ha2 & Hw). split.
  - assert (NoDup ((λ v, submissionKey (a_RoundStartUnix a) (a_Domain a) v) <$>
             (b_Verifier <$> ListSubmissions (a_RoundStartUnix a) (a_Domain a) s))) as Hn; [|by apply NoDup_fmap_1 in Hn].
    rewrite <- list_fmap_compose. unfold ListSubmissions. rewrite <- list_fmap_compose.
    match goal with |- NoDup (?f <$> ?l) => assert (f <$> l = fst <$> l) as -> end.
    { apply list_fmap_ext. intros i [k x] Hi'%list_elem_of_lookup_2. cbn. pose proof Hi' as Hin.
      apply list_elem_of_filter in Hin as [_ Hin%elem_of_entries].
      destruct (listed_submission s (a_RoundStartUnix a) (a_Domain a) x Hi Ha1 Ha2 Hw) as (_ & E1 & E2).
      { unfold ListSubmissions. apply list_elem_of_fmap. by exists (k, x). }
      destruct (ci_submissions s Hi _ _ Hin) as [-> _]. by rewrite E1, E2. }
    eapply sublist_NoDup; [|apply fmap_sublist, sublist_filter]. rewrite entries_perm. apply NoDup_fst_map_to_list.
  - intros x Hx. destruct (listed_submission s _ _ _ Hi Ha1 Ha2 Hw Hx) as (Hs & E1 & E2).
    destruct (ci_submissions s Hi _ _ Hs) as (_ & b & Hb & _ & _ & Hv & Ht). rewrite E1, E2 in Hb. by simplify_eq.
Qed.

(** * Who owns a domain *)

Definition owner_of (m : Store) (k : gostr) : option gostr := w_Owner <$> websites m !! k.
Definition same_owners (m m' : Store) : Prop := market_inv m → market_inv m' ∧ ∀ k, owner_of m' k = owner_of m k.

#[global] Instance same_owners_preorder : PreOrder same_owners.
Proof.
  split.
  - intros m Hm. done.
  - intros m1 m2 m3 K1 K2 Hm. destruct (K1 Hm) as [Hm2 E1]. destruct (K2 Hm2) as [Hm3 E2]. split; [done|].
    intros k. by rewrite E2.
Qed.

Lemma owner_registered (m : Store) k o : owner_of m k = Some o → is_Some (websites m !! k).
Proof. unfold owner_of. intros (w & -> & _)%fmap_Some. eauto. Qed.

(** Writing a website back with the owner it had. *)
Lemma Upsert_owners w (m m' : Store) : owner_of m (w_Domain w) = Some (w_Owner w) → UpsertWebsite w m = Ok m' → same_owners m m'.
Proof.
  intros Ho HU Hm. split; [by eapply UpsertWebsite_inv|]. intros k. unfold owner_of at 1.
  destruct (UpsertWebsite_frame _ _ _ HU) as (_ & _ & _ & _ & _ & -> & _).
  rewrite (stored_domain_normal m) by (done || by eapply owner_registered).
  destruct (decide (k = w_Domain w)) as [->|Hne]; [by rewrite lookup_insert_eq, Ho|by rewrite lookup_insert_ne].
Qed.

Lemma apply_owners base now w (m : Store) r : owner_of m (w_Domain w) = Some (w_Owner w) →
  applyPublisherCooldown base now w m = Ok r → same_owners m r.2.
Proof.
  intros Ho HA. unfold applyPublisherCooldown in HA. run_ok HA. injection HA as <-.
  match goal with E : UpsertWebsite ?w' _ = _ |- _ => apply (Upsert_owners w'); [exact Ho|exact E] end.
Qed.

Lemma clear_owners w (m : Store) r : owner_of m (w_Domain w) = Some (w_Owner w) →
  clearPublisherCooldown w m = Ok r → same_owners m r.2.
Proof.
  intros Ho HA. unfold clearPublisherCooldown in HA. run_ok HA; injection HA as <-; [done|].
  match goal with E : UpsertWebsite ?w' _ = _ |- _ => apply (Upsert_owners w'); [exact Ho|exact E] end.
Qed.

Lemma violate_owners d now (m m' : Store) : 0 < now → violateActiveLeasesForDomain d now now m = Ok m' → same_owners m m'.
Proof.
  intros Hn HV Hm. destruct (violate_effect _ _ _ _ _ Hn Hm HV) as (? & _ & _ & _ & _ & Hw & _). split; [done|].
  intros k. unfold owner_of. by rewrite Hw.
Qed.

Section Owner.
Context (s : VStore) (w : Website).
Hypothesis Hi : market_inv (market s).
Hypothesis Ho : owner_of (market s) (w_Domain w) = Some (w_Owner w).

Lemma verified_owners now st a s' : finalize_verified now st a w s = Ok s' → same_owners (market s) (market s').
Proof.
  intros HF. unfold finalize_verified in HF. cbv zeta in HF. apply bind_Ok_inv in HF as (t & E & HF).
  apply on_market_Ok in HF as (m & Hm & ->).
  assert (same_owners (market s) (market t)) as Ht.
  { destruct (w_Status w =? StatusVerified); [by injection E as <-|]. apply on_market_Ok in E as (u & Hu & ->).
    by apply (Upsert_owners (with_status StatusVerified w)). }
  etrans; [exact Ht|]. destruct (Ht Hi) as [_ Ho'].
  match type of Hm with mbind _ (clearPublisherCooldown ?w' (market ?u)) = _ => assert (market u = market t) as Hu; [|rewrite Hu in Hm; set (w0 := w') in *] end.
  { destruct (empty _); [done|]. destruct (SetPublisherSimilarStats _ _) as [u|] eqn:Es; [|done].
    unfold SetPublisherSimilarStats in Es. run_ok Es. by injection Es as <-. }
  run_ok Hm. injection Hm as <-. eapply (clear_owners w0); [|eassumption].
  rewrite Ho'. subst w0. by destruct (w_Status w =? StatusVerified).
Qed.

Lemma demote_owners p w' (s' : VStore) : demote p w s = Ok (w', s') →
  same_owners (market s) (market s') ∧ owner_of (market s') (w_Domain w') = Some (w_Owner w').
Proof.
  intros HF. unfold demote in HF. run_ok HF; injection HF as <- <-; try (by split);
    match goal with E : IncrementPublisherFailureStreak _ _ = _ |- _ => injection E as <- <- end; [|by split].
  match goal with E : on_market _ _ = Ok _ |- _ => apply on_market_Ok in E as (m & Hm & ->) end.
  match type of Hm with UpsertWebsite ?x _ = _ => assert (same_owners (market s) m) as Hs by by apply (Upsert_owners x) end.
  split; [done|]. by rewrite (proj2 (Hs Hi)).
Qed.

Lemma failed_owners p now s' : 0 < now → finalize_failed p now w s = Ok s' → same_owners (market s) (market s').
Proof.
  intros Hn HF. unfold finalize_failed in HF. run_ok HF.
  all: match goal with E : demote _ _ _ = Ok _ |- _ => apply demote_owners in E as [Hs Hd] end.
  all: try (injection HF as <-; exact Hs).
  apply on_market_Ok in HF as (m & Hm & ->). etrans; [exact Hs|]. run_ok Hm.
  match goal with E : applyPublisherCooldown _ _ _ _ = Ok _ |- _ => apply apply_owners in E; [|exact Hd] end.
  etrans; [eassumption|]. by eapply violate_owners.
Qed.

(** Only a candidate that the quorum confirmed takes a domain over. *)
Lemma reregistration_owners now height q v a r : finalize_reregistration now height q v a w s = Ok r →
  market_inv (market r.2) ∧ ∀ k, owner_of (market r.2) k = owner_of (market s) k ∨
    (v = true ∧ k = w_Domain w ∧ owner_of (market r.2) k = Some (TrimSpace (a_VerificationOwner a))).
Proof.
  intros HF. unfold finalize_reregistration, candidateMatches in HF. run_ok HF; injection HF as <-; cbn [snd]; zb.
  - split; [done|]. auto.
  - match goal with E1 : on_market _ s = Ok _ |- _ => apply on_market_Ok in E1 as (m1 & Hm1 & ->) end.
    match goal with E2 : on_market _ _ = Ok _ |- _ => apply on_market_Ok in E2 as (m2 & Hm2 & ->) end. cbn [market set_market] in Hm2.
    pose proof (transferSlotsForDomain_inv _ _ _ _ _ _ Hi Hm1) as Hi1. pose proof (UpsertWebsite_inv _ _ _ Hi1 Hm2) as Hi2.
    split; [exact Hi2|]. intros k. match goal with |- context [market (ClearPublisherFailureStreak ?d ?u)] =>
      change (market (ClearPublisherFailureStreak d u)) with m2 end. unfold owner_of.
    destruct (UpsertWebsite_frame _ _ _ Hm2) as (_ & _ & _ & _ & _ & -> & _).
    destruct (transfer_frame _ _ _ _ _ _ Hm1) as (_ & _ & -> & _). cbn [w_Domain take_over].
    rewrite (stored_domain_normal (market s)) by (done || by eapply owner_registered).
    destruct (decide (k = w_Domain w)) as [->|Hne]; [right|left; by rewrite lookup_insert_ne].
    split_and!; try done. rewrite lookup_insert_eq. cbn.
    match goal with E : bool_decide (_ = _) = true |- _ => apply bool_decide_eq_true in E; by rewrite E end.
  - match goal with E1 : on_market _ s = Ok _ |- _ => apply on_market_Ok in E1 as (m1 & Hm1 & ->) end.
    destruct (Upsert_owners (with_pending [] [] w) _ _ Ho Hm1 Hi) as [? Hk]. split; [done|]. intros k. left. apply Hk.
  - split; [done|]. auto.
Qed.
End Owner.

(** An assignment by which a candidate takes its domain over: a re-registration
    that is open and past its deadline, for which at least half of the verifiers
    submitted a result, more of them passes than failures. *)
Definition takes_over (now : Z) (s : VStore) (a : Assignment) : Prop :=
  a_Finalized a = false ∧ a_DeadlineUnix a ≤ now ∧ a_Reregistration a = true ∧
  let subs := ListSubmissions (a_RoundStartUnix a) (a_Domain a) s in
  (length (a_Verifiers a) ≤ 2 * length subs)%nat ∧
  (length (filter (λ x, b_Passed x = false) subs) < length (filter (λ x, b_Passed x = true) subs))%nat.

(** The votes behind [majority_pass]. *)
Lemma majority_votes order n subs : majority_pass (computeSimilarRoundStats order (Z.of_nat n) subs) subs = true →
  (n ≤ 2 * length subs)%nat ∧
  (length (filter (λ x, b_Passed x = false) subs) < length (filter (λ x, b_Passed x = true) subs))%nat.
Proof.
  intros Hm. unfold majority_pass, has_quorum in Hm. zb.
  assert (Quorum (computeSimilarRoundStats order (Z.of_nat n) subs) = requiredQuorum (Z.of_nat n) ∧
    Passes (computeSimilarRoundStats order (Z.of_nat n) subs) = Z.of_nat (length (filter (λ x, b_Passed x = true) subs)) ∧
    Fails (computeSimilarRoundStats order (Z.of_nat n) subs) = Z.of_nat (length (filter (λ x, b_Passed x = false) subs))) as (Hq & Hp & Hf).
  { unfold computeSimilarRoundStats. destruct subs as [|x r]; [auto|]. destruct (best_hash _) as [bh bc].
    match goal with |- context [match ?e with [] => _ | _ => _ end] => destruct e end; done. }
  rewrite Hq in *. rewrite Hp, Hf in *. unfold requiredQuorum in *. destruct (Z.leb_spec (Z.of_nat n) 0); [lia|].
  rewrite Z.quot_div_nonneg in * by lia. pose proof (Z.div_mod (Z.of_nat n + 1) 2 ltac:(lia)).
  pose proof (Z.mod_pos_bound (Z.of_nat n + 1) 2 ltac:(lia)). split; lia.
Qed.

Lemma penalties_market p now q mp subs vs (s : VStore) :
  market (foldl (λ s v, penalize_one p now q mp subs v s) s vs) = market s.
Proof.
  revert s. induction vs as [|v vs IH]; intros s; [done|]. cbn [foldl]. rewrite IH. unfold penalize_one. by repeat case_match.
Qed.

Lemma finalize_one_owners order p now h a (s s' : VStore) : 0 < now → market_inv (market s) → finalize_one order p now h a s = Ok s' →
  ∀ k, owner_of (market s') k = owner_of (market s) k ∨
    (takes_over now s a ∧ k = NormalizeDomain (a_Domain a) ∧
     owner_of (market s') k = Some (TrimSpace (a_VerificationOwner a))).
Proof.
  intros Hn Hi HF k. unfold finalize_one in HF. unfold takes_over. destruct (a_Finalized a || _) eqn:Hdue; [injection HF as <-; by left|].
  cbv zeta in HF |- *. zb. apply bind_Ok_inv in HF as ([v t] & E & HF).
  match type of HF with SetAssignment _ ?u = _ => assert (market s' = market t) as Hm end.
  { apply SetAssignment_Ok in HF as (_ & -> & _). apply penalties_market. }
  rewrite Hm. destruct (GetWebsite (a_Domain a) (market s)) as [w|] eqn:Ew; [|injection E as <- <-; by left].
  destruct (GetWebsite_domain _ _ _ Hi Ew) as [Hd _].
  assert (owner_of (market s) (w_Domain w) = Some (w_Owner w)) as Ho by (unfold owner_of; rewrite Hd; unfold GetWebsite in Ew; by rewrite Ew).
  destruct (a_Reregistration a).
  - apply (reregistration_owners s w Hi Ho) in E as [_ Ek]. destruct (Ek k) as [?|(Hv & -> & ?)]; [by left|right].
    apply andb_true_iff in Hv as [_ Hv]. apply majority_votes in Hv as [? ?]. rewrite Hd in *. by split_and!.
  - left. run_ok E; injection E as <- <-; try done.
    + eapply verified_owners; [exact Hi|exact Ho|eassumption|exact Hi].
    + eapply failed_owners; [exact Hi|exact Ho|exact Hn|eassumption|exact Hi].
Qed.

Lemma finalize_owners order p now h (s s' : VStore) : 0 < now → chain_inv s → finalizeAssignments order p now h s = Ok s' →
  ∀ k, owner_of (market s') k = owner_of (market s) k ∨
    ∃ a, a ∈ values (assignments s) ∧ takes_over now s a ∧ k = a_Domain a ∧
      owner_of (market s') k = Some (TrimSpace (a_VerificationOwner a)).
Proof.
  intros Hn Hi HF k. unfold finalizeAssignments in HF.
  enough (chain_inv s' ∧ submissions s' = submissions s ∧ (owner_of (market s') k = owner_of (market s) k ∨
    ∃ a, a ∈ values (assignments s) ∧ takes_over now s a ∧ k = a_Domain a ∧
      owner_of (market s') k = Some (TrimSpace (a_VerificationOwner a)))) as (_ & _ & ?) by done.
  destruct (values_keyed a_key (assignments s)) as [Hnd Hv].
  { intros k' a Hk. destruct (ci_assignments s Hi k' a Hk) as [-> _]. reflexivity. }
  revert HF. eapply (each_keyed_in a_key (λ s k, assignments s !! k) (λ t, chain_inv t ∧ submissions t = submissions s ∧
    (owner_of (market t) k = owner_of (market s) k ∨ ∃ a, a ∈ values (assignments s) ∧ takes_over now s a ∧
      k = a_Domain a ∧ owner_of (market t) k = Some (TrimSpace (a_VerificationOwner a)))));
    [exact Hnd|exact Hv| |split_and!; [exact Hi|done|by left]].
  intros a t t' Hin (Hit & Hs & Ht) Ha Hf. pose proof (finalize_one_effect _ _ _ _ _ _ _ Hn (ci_market _ Hit) Hf) as He.
  destruct (ci_assignments t Hit _ _ Ha) as (_ & _ & _ & Hw).
  pose proof (finalize_one_owners _ _ _ _ _ _ _ Hn (ci_market _ Hit) Hf k) as Ho. unfold takes_over, ListSubmissions in Ho. rewrite Hs in Ho.
  rewrite (stored_domain_normal (market t) (a_Domain a)) in Ho by (done || apply Hit).
  destruct (is_due now a) eqn:Hdue; [|by subst t'].
  destruct (He) as (_ & Hs' & _ & v & Hv'). split.
  - split; [by eapply done_with_inv|]. split; [by rewrite Hs'|]. destruct Ho as [->|(Hto & -> & Ho)]; [exact Ht|]. right. exists a.
    split_and!; try done. unfold takes_over, ListSubmissions.
    rewrite (stored_domain_normal (market t) (a_Domain a)) by (done || apply Hit). apply Hto.
  - intros k' Hne. rewrite Hv', (stored_domain_normal (market t)) by (done || apply Hit). by rewrite lookup_insert_ne.
Qed.

(** * Small frames *)

Lemma RegisterPublisher_owner h m (s : Store) r s' k w : market_inv s → websites s !! k = Some w →
  RegisterPublisher h m s = Ok (r, s') → owner_of s' k = owner_of s k.
Proof.
  intros Hi Hk HR. unfold RegisterPublisher in HR. run_ok HR.
  - injection HR as <- <-. match goal with E : GetWebsite _ _ = Some ?x, E' : UpsertWebsite ?y _ = Ok _ |- _ =>
      destruct (GetWebsite_domain _ _ _ Hi E) as [Hd _]; apply (Upsert_owners y) in E'; [by apply E'|] end.
    unfold owner_of. cbn. rewrite Hd. by match goal with E : GetWebsite _ _ = Some _ |- _ => unfold GetWebsite in E; rewrite E end.
  - unfold RegisterWebsite in HR. run_ok HR. guards. injection HR as <- <-. unfold owner_of. cbn in *.
    rewrite lookup_insert_ne; [done|]. intros <-. by rewrite Hk in *.
Qed.

Lemma RegisterPublisher_slots h m (s : Store) r s' : RegisterPublisher h m s = Ok (r, s') → slots s' = slots s.
Proof.
  intros HR. unfold RegisterPublisher in HR. run_ok HR.
  - injection HR as <- <-. by match goal with E : UpsertWebsite _ _ = _ |- _ => apply UpsertWebsite_frame in E as (_ & _ & -> & _) end.
  - unfold RegisterWebsite in HR. run_ok HR. by injection HR as <- <-.
Qed.

Lemma release_slots to_ l (s s' : Store) : release to_ l s = Ok s' → slots s' = slots s.
Proof. intros HR. unfold release in HR. run_ok HR; by injection HR as <-. Qed.

Lemma settleLeases_slots now (s s' : Store) : settleLeases now s = Ok s' → slots s' = slots s.
Proof.
  intros HS. unfold settleLeases in HS. eapply (each_ind (λ t, slots t = slots s)); [|done|exact HS].
  intros l t t' _ Ht HF. unfold settle_one in HF. run_ok HF; try (by injection HF as <-); unfold refundLease, payoutLease in HF;
    run_ok HF; apply SetLease_Ok in HF as [_ ->]; cbn [slots set_leases];
    match goal with E : release _ _ _ = Ok _ |- _ => by rewrite (release_slots _ _ _ _ E) end.
Qed.

(** * Which slots change hands *)

Lemma with_domain_id x : with_domain (s_Domain x) x = x.
Proof. by destruct x. Qed.

(** [transferSlotsForDomain] gives the slots that the previous owner had on the
    domain to the new one, and touches no other. *)
Lemma transfer_slots d prev new now (m m' : Store) : market_inv m → transferSlotsForDomain d prev new now m = Ok m' →
  ∀ k, slots m' !! k = (λ x, if decide (s_Domain x = NormalizeDomain d ∧ s_Publisher x = TrimSpace prev)
                             then set_publisher (TrimSpace new) now x else x) <$> slots m !! k.
Proof.
  intros Hi HT k. unfold transferSlotsForDomain in HT. cbv zeta in HT.
  match type of HT with each ?f (filter ?P ?l) _ = _ => destruct (filter_keyed s_ID (slots m) P) as [Hn Hv];
    [intros k' v Hk; by apply (mi_slots m Hi)|] end.
  eapply (each_post s_ID (λ s k, slots s !! k) market_inv (λ x o, o = Some (set_publisher (TrimSpace new) now x))) in HT as [Hin Hout];
    [|exact Hn|intros x Hx; by apply Hv| |exact Hi].
  - destruct (slots m !! k) as [x|] eqn:Hk; cbn.
    + destruct (mi_slots m Hi _ _ Hk) as [<- _]. case_decide as Hc.
      * apply Hin, list_elem_of_filter. split; [done|]. apply elem_of_values. eauto.
      * rewrite Hout; [done|]. intros (y & Ey & Hy)%list_elem_of_fmap. destruct (Hv y Hy) as [Hy' ?]. congruence.
    + rewrite Hout; [done|]. intros (y & -> & Hy)%list_elem_of_fmap. destruct (Hv y Hy) as [Hy' ?]. congruence.
  - clear. intros x s s' Hi Hx HS. destruct (mi_slots s Hi _ _ Hx) as (_ & Hok & Hw & _). split_and!.
    + eapply (SetSlot_inv s x); [..|exact HS]; try done; cbn; [apply TrimSpace_idem|apply (so_status _ Hok)].
    + apply SetSlot_Ok in HS as [_ ->]. cbn. rewrite lookup_insert_eq, (stored_domain_normal s) by done. by destruct x.
    + apply SetSlot_Ok in HS as [_ ->]. intros k' Hk'. cbn. by rewrite lookup_insert_ne.
Qed.

(** The slots of a store with [x] at [k] after [k]'s domain may have changed hands. *)
Definition handed_over (now : Z) (s : VStore) (a : Assignment) (m m' : Store) (k : gostr) : Prop :=
  takes_over now s a ∧ ∃ x y, slots m !! k = Some x ∧ slots m' !! k = Some y ∧
    s_Domain x = NormalizeDomain (a_Domain a) ∧ y = set_publisher (TrimSpace (a_VerificationOwner a)) now x.

Lemma Upsert_slots w (m m' : Store) : UpsertWebsite w m = Ok m' → slots m' = slots m.
Proof. by intros (_ & _ & -> & _)%UpsertWebsite_frame. Qed.

Lemma verified_slots now st a w (s s' : VStore) : finalize_verified now st a w s = Ok s' → slots (market s') = slots (market s).
Proof.
  intros HF. unfold finalize_verified in HF. cbv zeta in HF. apply bind_Ok_inv in HF as (t & E & HF).
  apply on_market_Ok in HF as (m & Hm & ->). trans (slots (market t)).
  - match type of Hm with mbind _ (clearPublisherCooldown _ (market ?u)) = _ => assert (market u = market t) as Hu; [|rewrite Hu in Hm] end.
    { destruct (empty _); [done|]. destruct (SetPublisherSimilarStats _ _) as [u|] eqn:Es; [|done].
      unfold SetPublisherSimilarStats in Es. run_ok Es. by injection Es as <-. }
    run_ok Hm. injection Hm as <-. unfold clearPublisherCooldown in E0. run_ok E0; injection E0 as <-; [done|].
    cbn. by eapply Upsert_slots.
  - destruct (w_Status w =? StatusVerified); [by injection E as <-|]. apply on_market_Ok in E as (u & Hu & ->).
    cbn. by eapply Upsert_slots.
Qed.

Lemma failed_slots p now w (s s' : VStore) : 0 < now → market_inv (market s) → is_Some (websites (market s) !! w_Domain w) →
  finalize_failed p now w s = Ok s' → slots (market s') = slots (market s).
Proof.
  intros Hn Hi Hw HF. unfold finalize_failed in HF. apply bind_Ok_inv in HF as ([w' t] & E & HF).
  destruct (demote_settles s w Hw _ _ _ E) as [Hs Hd].
  destruct (settles_dom _ _ _ Hs Hi Hw) as [Hi' Hw']. trans (slots (market t)).
  - run_ok HF; try (by injection HF as <-). apply on_market_Ok in HF as (m & Hm & ->). run_ok Hm. destruct r as [[w2 dur] m2].
    pose proof (applyPublisherCooldown_inv _ _ _ _ _ _ _ Hi' E2) as Hi2. unfold applyPublisherCooldown in E2. run_ok E2.
    injection E2 as <- <- <-. cbn. destruct (violate_effect _ _ _ _ _ Hn Hi2 Hm) as (_ & _ & _ & _ & _ & _ & -> & _).
    by eapply Upsert_slots.
  - unfold demote in E. run_ok E; injection E as <- <-; try done;
      match goal with E : IncrementPublisherFailureStreak _ _ = _ |- _ => injection E as <- <- end; [|done].
    match goal with E : on_market _ _ = Ok _ |- _ => apply on_market_Ok in E as (m & Hm & ->) end. cbn. by eapply Upsert_slots in Hm.
Qed.

Lemma reregistration_slots now height q v a w (s : VStore) r : market_inv (market s) →
  finalize_reregistration now height q v a w s = Ok r → ∀ k, slots (market r.2) !! k = slots (market s) !! k ∨
  (v = true ∧ ∃ x y, slots (market s) !! k = Some x ∧ slots (market r.2) !! k = Some y ∧ s_Domain x = NormalizeDomain (w_Domain w) ∧
    y = set_publisher (TrimSpace (a_VerificationOwner a)) now x).
Proof.
  intros Hi HF k. unfold finalize_reregistration, candidateMatches in HF. run_ok HF; injection HF as <-; cbn [snd]; zb; try by left.
  - match goal with E1 : on_market _ s = Ok _ |- _ => apply on_market_Ok in E1 as (m1 & Hm1 & ->) end.
    match goal with E2 : on_market _ _ = Ok _ |- _ => apply on_market_Ok in E2 as (m2 & Hm2 & ->) end. cbn [market set_market] in Hm2.
    match goal with |- context [market (ClearPublisherFailureStreak ?d ?u)] => change (market (ClearPublisherFailureStreak d u)) with m2 end.
    rewrite (Upsert_slots _ _ _ Hm2), (transfer_slots _ _ _ _ _ _ Hi Hm1). destruct (slots (market s) !! k) as [x|]; cbn; [|by left].
    match goal with |- context [decide ?P] => destruct (decide P) as [Hc|]; [|by left] end.
    right. split; [done|]. eexists _, _. split_and!; try done; [apply Hc|]. rewrite TrimSpace_idem.
    by match goal with E : bool_decide (_ = _) = true |- _ => apply bool_decide_eq_true in E; rewrite E end.
  - left. match goal with E1 : on_market _ s = Ok _ |- _ => apply on_market_Ok in E1 as (m1 & Hm1 & ->) end.
    cbn. by rewrite (Upsert_slots _ _ _ Hm1).
Qed.

Lemma finalize_one_slots order p now h a (s s' : VStore) : 0 < now → market_inv (market s) → finalize_one order p now h a s = Ok s' →
  ∀ k, slots (market s') !! k = slots (market s) !! k ∨ handed_over now s a (market s) (market s') k.
Proof.
  intros Hn Hi HF k. unfold finalize_one in HF. unfold handed_over, takes_over.
  destruct (a_Finalized a || _) eqn:Hdue; [injection HF as <-; by left|].
  cbv zeta in HF |- *. zb. apply bind_Ok_inv in HF as ([v t] & E & HF).
  assert (market s' = market t) as -> by (apply SetAssignment_Ok in HF as (_ & -> & _); apply penalties_market).
  destruct (GetWebsite (a_Domain a) (market s)) as [w|] eqn:Ew; [|injection E as <- <-; by left].
  destruct (GetWebsite_domain _ _ _ Hi Ew) as [Hd Hw]. destruct (a_Reregistration a).
  - pose proof (reregistration_slots _ _ _ _ _ _ _ _ Hi E k) as [?|(Hv & x & y & Hx & Hy & Hxd & ->)]; [by left|right].
    apply andb_true_iff in Hv as [_ Hv]. apply majority_votes in Hv as [? ?]. split; [by split_and!|]. exists x. eexists. split_and!; try done.
    rewrite Hxd, (stored_domain_normal (market s)); done.
  - left. run_ok E; injection E as <- <-; try done.
    + by erewrite verified_slots.
    + by erewrite failed_slots.
Qed.

(** A slot with another publisher, status and time of update. *)
Definition slot_with (publisher : gostr) (st updated : Z) (x : Slot) : Slot :=
  mkSlot (s_ID x) publisher (s_Domain x) (s_Label x) (s_Summary x) (s_Category x) (s_Placement x) (s_Size x) (s_RateDenom x)
    (s_RateAmount x) (s_UnitSeconds x) (s_MinDurationSeconds x) (s_MaxDurationSeconds x) st (s_CreatedAtUnix x) updated (s_Tags x).

(** A slot of [s] that is another one in [m'] after a candidate took its domain
    over: the same slot with the candidate as its publisher. *)
Definition changed_hands (now : Z) (s : VStore) (m' : Store) (k : gostr) : Prop :=
  ∃ a x, a ∈ values (assignments s) ∧ takes_over now s a ∧ slots (market s) !! k = Some x ∧ s_Domain x = a_Domain a ∧
    slots m' !! k = Some (slot_with (TrimSpace (a_VerificationOwner a)) (s_Status x) now x).

Lemma finalize_slots order p now h (s s' : VStore) : 0 < now → chain_inv s → finalizeAssignments order p now h s = Ok s' →
  ∀ k, slots (market s') !! k = slots (market s) !! k ∨ changed_hands now s (market s') k.
Proof.
  intros Hn Hi HF k. unfold finalizeAssignments in HF.
  enough (chain_inv s' ∧ submissions s' = submissions s ∧
    (slots (market s') !! k = slots (market s) !! k ∨ changed_hands now s (market s') k)) as (_ & _ & ?) by done.
  destruct (values_keyed a_key (assignments s)) as [Hnd Hv].
  { intros k' a Hk. destruct (ci_assignments s Hi k' a Hk) as [-> _]. reflexivity. }
  revert HF. eapply (each_keyed_in a_key (λ s k, assignments s !! k) (λ t, chain_inv t ∧ submissions t = submissions s ∧
    (slots (market t) !! k = slots (market s) !! k ∨ changed_hands now s (market t) k)));
    [exact Hnd|exact Hv| |split_and!; [exact Hi|done|by left]].
  intros a t t' Hin (Hit & Hs & Ht) Ha Hf. pose proof (finalize_one_effect _ _ _ _ _ _ _ Hn (ci_market _ Hit) Hf) as He.
  destruct (ci_assignments t Hit _ _ Ha) as (_ & _ & _ & Hw).
  pose proof (finalize_one_slots _ _ _ _ _ _ _ Hn (ci_market _ Hit) Hf k) as Ho.
  unfold handed_over, takes_over, ListSubmissions in Ho. rewrite Hs in Ho.
  pose proof (stored_domain_normal (market t) (a_Domain a) (ci_market _ Hit) Hw) as Hnorm. rewrite Hnorm in Ho.
  destruct (is_due now a) eqn:Hdue; [|by subst t'].
  destruct (He) as (_ & Hs' & _ & v & Hv'). split.
  - split; [by eapply done_with_inv|]. split; [by rewrite Hs'|]. unfold changed_hands.
    destruct Ho as [->|(Hto & x & y & Hx & Hy & Hxd & ->)]; [exact Ht|]. right. exists a.
    assert (takes_over now s a) as Hto'.
    { unfold takes_over, ListSubmissions. rewrite Hnorm. apply Hto. }
    destruct Ht as [Ht|(b & z & _ & _ & Hz & _ & Ht)]; rewrite Hx in Ht.
    + exists x. by split_and!.
    + injection Ht as ->. exists z. by split_and!.
  - intros k' Hne. rewrite Hv', Hnorm. by rewrite lookup_insert_ne.
Qed.

Lemma CreateSlot_slots now m (s : Store) r s' : CreateSlot now m s = Ok (r, s') →
  ∃ x, slots s' = <[slot_id (u64 (slotSeq s + 1)) := x]> (slots s).
Proof.
  intros HC. unfold CreateSlot in HC. run_ok HC. injection HC as <- <-.
  match goal with E : nextSlotID s = _ |- _ => injection E as <- <- end.
  match goal with E : SetSlot _ _ = _ |- _ => apply SetSlot_Ok in E as [_ ->] end. eexists. reflexivity.
Qed.

Lemma slot_id_fresh (s : Store) : market_inv s → slotSeq s < 2 ^ 64 - 1 → slots s !! slot_id (u64 (slotSeq s + 1)) = None.
Proof.
  intros Hi Hq. destruct (slots s !! _) as [x|] eqn:E; [|done]. destruct (mi_slots s Hi _ _ E) as (_ & _ & _ & n & Hn & Hid).
  pose proof (mi_seq s Hi). unfold u64 in Hid. rewrite uwrap_small in Hid by (unfold in_u; lia). apply slot_id_inj in Hid; lia.
Qed.

Lemma UpdateSlotStatus_change now m (s : VStore) y x k : chain_inv s → UpdateSlotStatus now m (market s) = Ok (y, x) →
  slots x !! k ≠ slots (market s) !! k →
  ∃ now' m' z, OUpdateSlotStatus now m = OUpdateSlotStatus now' m' ∧ k = TrimSpace (mu_SlotId m') ∧ slots (market s) !! k = Some z ∧
    s_Publisher z = TrimSpace (mu_Publisher m') ∧ slots x !! k = Some (slot_with (s_Publisher z) (mu_Status m') now' z).
Proof.
  intros Hi HU Hk. pose proof (ci_market _ Hi) as Hm. unfold UpdateSlotStatus in HU. run_ok HU. guards. zb. injection HU as <- <-.
  match goal with E : GetSlot _ _ = Some ?z |- _ => unfold GetSlot in E; destruct (mi_slots _ Hm _ _ E) as (Hid & _ & Hw & _);
    exists now, m, z; rename E into Hz end.
  match goal with E : SetSlot _ _ = _ |- _ => apply SetSlot_Ok in E as [_ ->] end. cbn in Hk. rewrite Hid in Hk.
  destruct (decide (k = TrimSpace (mu_SlotId m))) as [->|Hne]; [|by rewrite lookup_insert_ne in Hk].
  split_and!; try done.
  - by match goal with E : bool_decide _ = true |- _ => apply bool_decide_eq_true in E end.
  - cbn. rewrite Hid, lookup_insert_eq, (stored_domain_normal (market s)) by done. done.
Qed.

(** * What a commitment stands for *)

(** The fields of the text that is hashed. *)
Definition opening (m : MsgReveal) (a : Assignment) : list gostr :=
  let owner := TrimSpace (a_VerificationOwner a) in
  (if bool_decide (owner = []) then [] else [go "publisher-verification-v2"]) ++
  [NormalizeDomain (NormalizeDomain (mv_Domain m)); FormatInt (mv_RoundStartUnix m); TrimSpace (mv_Verifier m)] ++
  (if bool_decide (owner = []) then [] else [owner]) ++
  [if mv_Passed m then go "pass" else go "fail"; TrimSpace (mv_EvidenceHash m); TrimSpace (mv_Nonce m)].

Lemma expected_hash_opening m a h : expected_hash m a = Ok h →
  TrimSpace (mv_VerificationOwner m) = TrimSpace (a_VerificationOwner a) ∧
  h = EncodeToString (Sum256 (Join (opening m a) (go "|"))).
Proof.
  intros HE. unfold expected_hash in HE. run_ok HE; guards; zb; injection HE as <-.
  - match goal with E : bool_decide (_ = _) = true |- _ => apply bool_decide_eq_true in E as Ho end. split; [exact Ho|].
    unfold ComputeVerificationCommitHashV2, opening. rewrite !Ho, !TrimSpace_idem, bool_decide_false; [done|].
    by destruct (TrimSpace (a_VerificationOwner a)).
  - assert (TrimSpace (a_VerificationOwner a) = []) as Ha by by destruct (TrimSpace (a_VerificationOwner a)).
    assert (TrimSpace (mv_VerificationOwner m) = []) as Hm by by destruct (TrimSpace (mv_VerificationOwner m)).
    split; [by rewrite Ha, Hm|]. unfold ComputeVerificationCommitHash, opening. by rewrite Ha, !TrimSpace_idem.
Qed.
End Ops.
