(* ===== verification/EndBlock.v ===== *)
(** The end of a block, [EndBlock] of [src/x/registry/verification_rounds.go]: its four
    steps in order, that it is a history of them, and that it leaves nothing that
    is due. *)

From stdpp Require Import sorting.
From S2P Require Import Prelude JsBase GoBase GoHash Market MarketProofs GoSdk Tokenomics Verifiers RegParams Verification VerificationProofs BankFrame ChainInv Rounds RoundProofs Rewards RewardProofs RoundSteps RoundInv Chain.

Section Block.
Context `{GoEnv} `{!AddrText} `{DrandSuite} {B : Type} `{BankKeeper B}.
Abbreviation VStore := (VStore B).

Definition EndBlock (order : gmap gostr Z → list (gostr * Z)) (p : PublisherParams) (c : BlockCtx) (s : VStore) : result err VStore :=
  s ← finalizeAssignments order p (block_time c) (c_Height c) s;
  s ← settleFinalizedVerificationRounds order p s;
  s ← on_market (settleLeases (block_time c)) s;
  assignNewRound p c s.

(** The operations of the end of a block. *)
Definition block_ops (p : PublisherParams) (c : BlockCtx) : list op :=
  [OFinalize p (block_time c) (c_Height c); ORewards p; OSettle (block_time c); OAssign p c].

(** The time of a block is after the epoch, and far from the last one. *)
Definition ctx_typed (c : BlockCtx) : Prop := 10 ^ 9 ≤ c_TimeNs c < 2 ^ 62 * 10 ^ 9.

Lemma ctx_time c : ctx_typed c → 0 < block_time c < 2 ^ 63.
Proof.
  unfold ctx_typed, block_time. intros [Hl Hu]. split.
  - apply Z.div_str_pos. lia.
  - apply Z.div_lt_upper_bound; lia.
Qed.

Lemma block_typed p c : ctx_typed c → Forall op_typed (block_ops p c).
Proof. intros Hc. pose proof (ctx_time c Hc). unfold ctx_typed in Hc. repeat constructor; cbn; lia. Qed.

Lemma EndBlock_run order p c s s' : EndBlock order p c s = Ok s' → run order (block_ops p c) s = s'.
Proof.
  intros HE. unfold EndBlock in HE. apply bind_Ok_inv in HE as (s1 & E1 & HE). apply bind_Ok_inv in HE as (s2 & E2 & HE).
  apply bind_Ok_inv in HE as (s3 & E3 & HE). unfold run, block_ops. cbn [foldl]. unfold apply_op at 4. cbn [exec]. rewrite E1.
  unfold apply_op at 3. cbn [exec]. rewrite E2. unfold apply_op at 2. cbn [exec]. rewrite E3. unfold apply_op. cbn [exec]. by rewrite HE.
Qed.

(** ** The rewards are settled *)

(** A loop settles each of its elements, when a step settles its own and keeps
    the others. *)
Lemma each_all {A S} (I : S → Prop) (Q : A → S → Prop) (f : A → S → result err S) l s s' :
  (∀ x t t', x ∈ l → I t → f x t = Ok t' → I t' ∧ Q x t' ∧ ∀ y, Q y t → Q y t') → I s → each f l s = Ok s' →
  I s' ∧ (∀ x, x ∈ l → Q x s') ∧ ∀ y, Q y s → Q y s'.
Proof.
  revert s. induction l as [|x l IH]; intros s Hf Hi HE; cbn [each] in HE; [injection HE as <-; split_and!; try done; by intros x ?%elem_of_nil|].
  apply bind_Ok_inv in HE as (t & Ht & HE). destruct (Hf x s t ltac:(by left) Hi Ht) as (Hit & Hq & Hk).
  destruct (IH t) as (Hi' & Hall & Hkeep); [|done|done|].
  { intros y u u' Hy. apply Hf. by right. }
  split_and!; [done| |auto]. intros y [->|Hy]%elem_of_cons; auto.
Qed.

(** A round whose assignments are all final is settled. *)
Definition round_done (r : Z) (s : VStore) : Prop :=
  (∀ k a, assignments s !! k = Some a → same_round r a → a_Finalized a = true) →
  ∀ k a, assignments s !! k = Some a → same_round r a → a_RewardsSettled a = true.

(** Rewards are marked, and nothing else changes in the assignments. *)
Definition marks (s s' : VStore) : Prop :=
  ∀ k, assignments s' !! k = assignments s !! k ∨ ∃ a, assignments s !! k = Some a ∧ assignments s' !! k = Some (rewards_settled a).

Lemma marks_done r s s' : marks s s' → round_done r s → round_done r s'.
Proof.
  intros Hm Hd Hf k a Ha Hr.
  assert (∀ k b, assignments s !! k = Some b → ∃ b', assignments s' !! k = Some b' ∧ (b' = b ∨ b' = rewards_settled b)) as Hfwd.
  { intros k' b Hb. destruct (Hm k') as [E|(b' & Hb' & E)]; [exists b; rewrite E; auto|]. simplify_eq. eauto. }
  assert (∀ k b, assignments s !! k = Some b → same_round r b → a_RewardsSettled b = true) as Hs.
  { apply Hd. intros k' b Hb Hrb. destruct (Hfwd k' b Hb) as (b' & Hb' & [->| ->]); exact (Hf k' _ Hb' Hrb). }
  destruct (Hm k) as [E|(b & Hb & E)]; rewrite E in Ha; [by eapply Hs|]. by injection Ha as <-.
Qed.

Lemma settle_round_done order p r s s' : chain_inv s → rounds_inv s → settle_round order p r s = Ok s' → round_done r s' ∧ marks s s'.
Proof.
  intros Hi Hr HS. destruct (settle_round_Ok _ _ _ _ _ Hi (ri_funded _ Hr) HS) as [[-> (k & a & Ha & Hs & Hf)]|[[-> Hall]|Hd]].
  - split; [|by left]. intros Hfin. specialize (Hfin k a Ha Hs). congruence.
  - split; [|by left]. intros _ k a Ha Hk. by eapply Hall.
  - pose proof (rd_marked _ _ _ _ Hd) as Hm. split.
    + intros _ k a Ha Hk. rewrite Hm in Ha. apply fmap_Some in Ha as (b & Hb & ->). by case_decide.
    + intros k. rewrite Hm. destruct (assignments s !! k) as [a|]; [|by left]. cbn. case_decide; [right; eauto|by left].
Qed.

Lemma marks_trans s t u : marks s t → marks t u → marks s u.
Proof.
  intros Hm Hm' k. destruct (Hm k) as [<-|(a & Ha & E)], (Hm' k) as [->|(b & Hb & ->)]; eauto.
  right. rewrite E in Hb. injection Hb as <-. eauto.
Qed.

Lemma rewards_done order p s s' : chain_inv s → rounds_inv s → settleFinalizedVerificationRounds order p s = Ok s' →
  rounds_inv s' ∧ aside s s' ∧ marks s s' ∧ ∀ k a, assignments s' !! k = Some a → round_done (a_RoundStartUnix a) s'.
Proof.
  intros Hi Hr HS. unfold settleFinalizedVerificationRounds in HS. apply bind_Ok_inv in HS as (rs & Hrs & HS).
  destruct (each_all (λ t, rounds_inv t ∧ aside s t ∧ marks s t) round_done (settle_round order p) rs s s') as ((Hr' & Has & Hm) & Hall & _).
  - intros r t t' Hin (Hrt & Hat & Hm) Ht. apply (unsettled_rounds s rs Hr Hrs) in Hin as (H1' & H2' & _).
    pose proof (aside_inv _ _ Hi Hat) as Hit. destruct (settle_round_rounds order p r t t' Hit Hrt H1' H2' Ht).
    destruct (settle_round_done _ _ _ _ _ Hit Hrt Ht) as [Hd Hm']. split; [split_and!; [done|by etrans|by eapply marks_trans]|].
    split; [done|]. intros y Hy. by eapply marks_done.
  - split_and!; try done. by left.
  - done.
  - split_and!; [done..|]. intros k a Ha. pose proof (aside_inv _ _ Hi Has) as Hi'. destruct (ci_assignments _ Hi' _ _ Ha) as (_ & ? & ? & _).
    destruct (a_RewardsSettled a) eqn:Hset.
    { intros _ k' b Hb Hk. destruct (ci_assignments _ Hi' _ _ Hb) as (_ & ? & ? & _). rewrite <- Hset.
      eapply (ri_same _ Hr'); [done..|]. unfold same_round in Hk. by apply roundKey_inj in Hk. }
    apply Hall, (unsettled_rounds s rs Hr Hrs). split; [done|]. split; [done|].
    destruct (Hm k) as [E|(b & _ & E)]; rewrite Ha in E; [by eapply (ri_unsettled s Hr)|]. by injection E as ->.
Qed.

(** ** Nothing due is left *)

(** What is open in a store at [now]: an assignment whose deadline is to come, a
    round with an open assignment, a lease that has not ended. *)
Definition assignment_open (now : Z) (a : Assignment) : Prop := a_Finalized a = false ∧ now < a_DeadlineUnix a.
Definition round_open (now : Z) (r : Z) (s : VStore) : Prop :=
  ∃ k a, assignments s !! k = Some a ∧ a_RoundStartUnix a = r ∧ assignment_open now a.

Lemma finalize_open order p now h s s' : 0 < now → chain_inv s → finalizeAssignments order p now h s = Ok s' →
  ∀ k a, assignments s' !! k = Some a → is_Some (assignments s !! k) ∧ (a_Finalized a = true ∨ assignment_open now a).
Proof.
  intros Hn Hi HF k a Ha. pose proof (finalize_marks _ _ _ _ _ _ Hn Hi HF k) as Hm. destruct (assignments s !! k) as [b|]; [|congruence].
  destruct Hm as (a' & Ha' & Hm). rewrite Ha in Ha'. injection Ha' as <-. split; [eauto|].
  destruct (a_Finalized b) eqn:Hf; cbn [orb] in Hm; [left; by subst|]. destruct (Z.ltb_spec now (a_DeadlineUnix b)).
  - subst. right. done.
  - destruct Hm as [v ->]. by left.
Qed.

Lemma settled_leases now (s s' : Store B) : market_inv s → settleLeases now s = Ok s' →
  ∀ k l, leases s' !! k = Some l → l_Status l = LeaseStatusActive → now < l_EndsAtUnix l.
Proof.
  intros Hi HS k l Hl Hst. destruct (settleLeases_effect _ _ _ Hi HS) as (_ & _ & _ & _ & _ & _ & _ & Hin & Hout & _).
  destruct (decide (k ∈ l_ID <$> values (leases s))) as [(x & -> & Hx)%list_elem_of_fmap|Hno].
  - rewrite (Hin x Hx) in Hl. injection Hl as <-. unfold after, settlement in *. destruct (Z.ltb_spec now (l_EndsAtUnix x)).
    + by rewrite orb_true_r.
    + rewrite orb_false_r in *. destruct (Z.eqb_spec (l_Status x) LeaseStatusActive) as [|Hne]; cbn [negb] in *; [|done].
      by destruct (in_cooldown now s x).
  - rewrite (Hout k Hno) in Hl. exfalso. apply Hno, list_elem_of_fmap. destruct (mi_leases s Hi _ _ Hl) as [<- _].
    exists l. split; [done|]. apply elem_of_values. eauto.
Qed.

(** The stores between the steps. *)
Record block_ends (c : BlockCtx) (s s1 s2 : VStore) (x : Store B) (s' : VStore) : Prop := {
  be_final k a : assignments s1 !! k = Some a → is_Some (assignments s !! k) ∧ (a_Finalized a = true ∨ assignment_open (block_time c) a);
  be_marks : marks s1 s2;
  be_done k a : assignments s2 !! k = Some a → round_done (a_RoundStartUnix a) s2;
  be_market : market_inv (market s2);
  be_leases : settleLeases (block_time c) (market s2) = Ok x;
  be_assign : aside (set_market x s2) s';
  be_old k a : assignments s2 !! k = Some a → assignments s' !! k = Some a;
  be_same k : is_Some (assignments s !! k) → is_Some (assignments s2 !! k);
  be_chain : chain_inv s';
  be_rounds : rounds_inv s' }.

Lemma EndBlock_steps order p c s s' : chain_inv s → rounds_inv s → ctx_typed c → EndBlock order p c s = Ok s' →
  ∃ s1 s2 x, block_ends c s s1 s2 x s'.
Proof.
  intros Hi Hr Hc HE. pose proof (proj1 (ctx_time c Hc)) as Hn. unfold ctx_typed in Hc. unfold EndBlock in HE.
  apply bind_Ok_inv in HE as (s1 & E1 & HE). apply bind_Ok_inv in HE as (s2 & E2 & HE). apply bind_Ok_inv in HE as (s3 & E3 & HE).
  apply on_market_Ok in E3 as (x & Hx & ->). destruct (finalize_loop _ _ _ _ _ _ Hn Hi E1) as [Hi1 _].
  pose proof (finalize_rounds _ _ _ _ _ _ Hn Hi Hr E1) as Hr1. destruct (rewards_done _ _ _ _ Hi1 Hr1 E2) as (Hr2 & Ha2 & Hm & Hd).
  pose proof (aside_inv _ _ Hi1 Ha2) as Hi2. pose proof (proj1 (settle_good _ _ _ Hi2 Hx)) as Hi3.
  assert (rounds_inv (set_market x s2)) as Hr3 by (eapply rounds_inv_same; [exact Hr2|by split]).
  pose proof (assign_aside p c _ _ Hi3 ltac:(lia) HE) as Ha4. exists s1, s2, x. split; try done.
  - by eapply finalize_open.
  - apply Hi2.
  - intros k a Ha. destruct (assignNewRound_Ok p c _ _ (ci_market _ Hi3) HE) as [->|Hm']; [done|]. unfold round_made in Hm'.
    destruct (eligibleVerifierAddrs _ _) as [el st]. destruct Hm' as (_ & _ & seed & r & [_ O _ _ _] & _). by apply O.
  - intros k Hk. pose proof (finalize_marks _ _ _ _ _ _ Hn Hi E1 k) as Hf. destruct Hk as [a Ha]. rewrite Ha in Hf.
    destruct Hf as (a' & Ha' & _). destruct (Hm k) as [->|(b & _ & ->)]; eauto.
  - by eapply aside_inv.
  - eapply assign_rounds; [exact Hi3|exact Hr3| |exact HE]. lia.
Qed.

Lemma block_assignments c s s1 s2 x s' k a : block_ends c s s1 s2 x s' → is_Some (assignments s !! k) → assignments s' !! k = Some a →
  (a_Finalized a = true ∨ assignment_open (block_time c) a) ∧
  (a_RewardsSettled a = true ∨ round_open (block_time c) (a_RoundStartUnix a) s').
Proof.
  intros Hb Hk Ha. destruct (be_same _ _ _ _ _ _ Hb k Hk) as [b Hk2]. pose proof (be_old _ _ _ _ _ _ Hb k b Hk2) as E. rewrite Ha in E.
  injection E as <-. clear Hk.
  assert (∀ k a, assignments s2 !! k = Some a → a_Finalized a = true ∨ assignment_open (block_time c) a) as Hopen.
  { intros k' a' Ha'. destruct (be_marks _ _ _ _ _ _ Hb k') as [E|(b & Hb1 & E)]; rewrite Ha' in E.
    - by destruct (be_final _ _ _ _ _ _ Hb k' a' (eq_sym E)).
    - injection E as ->. by destruct (be_final _ _ _ _ _ _ Hb k' b Hb1) as [_ ?]. }
  split; [by eapply Hopen|]. destruct (a_RewardsSettled a) eqn:Hs; [by left|right].
  destruct (decide (map_Forall (λ _ b, same_round (a_RoundStartUnix a) b → a_Finalized b = true) (assignments s2))) as [Hall|Hno].
  - rewrite (be_done _ _ _ _ _ _ Hb k a Hk2 (λ k b, Hall k b) k a Hk2 eq_refl) in Hs. done.
  - apply map_not_Forall in Hno as (k' & b & Hb2 & Hn); [|apply _]. exists k', b. pose proof (be_old _ _ _ _ _ _ Hb k' b Hb2) as Hb'.
    split; [done|]. destruct (ci_assignments _ (be_chain _ _ _ _ _ _ Hb) _ _ Hb') as (_ & ? & ? & _).
    destruct (ci_assignments _ (be_chain _ _ _ _ _ _ Hb) _ _ Ha) as (_ & ? & ? & _).
    destruct (Hopen k' b Hb2) as [Hf|Ho]; [by destruct Hn|]. split; [|done].
    destruct (decide (same_round (a_RoundStartUnix a) b)) as [Hs'|]; [|by destruct Hn]. unfold same_round in Hs'. by apply roundKey_inj in Hs'.
Qed.
End Block.
