(* ===== verification/Emission.v ===== *)
(** The emission over any history: what each operation does to the accounts of the
    other modules and to the rounds that are settled, and the books of the emission
    pool and of the bonds that follow. *)

From stdpp Require Import sorting.
From S2P Require Import Prelude JsBase GoBase GoHash Market MarketProofs GoSdk Tokenomics Verifiers RegParams Verification VerificationProofs BankFrame ChainInv Rounds RoundProofs Rewards RewardProofs RoundSteps RoundInv Chain.

Section Books.
Context `{GoEnv} `{!AddrText} `{DrandSuite} {B : Type} `{BankKeeper B}.
Abbreviation VStore := (VStore B).

(** * Settled rounds *)

Definition settled_rounds (s : VStore) : gset Z :=
  list_to_set (a_RoundStartUnix <$> filter (λ a, a_RewardsSettled a = true) (values (assignments s))).

Lemma elem_settled_rounds s r : r ∈ settled_rounds s ↔ ∃ k a, assignments s !! k = Some a ∧ a_RewardsSettled a = true ∧ a_RoundStartUnix a = r.
Proof.
  unfold settled_rounds. rewrite elem_of_list_to_set, list_elem_of_fmap. split.
  - intros (a & -> & [Hs [k Hk]%elem_of_values]%list_elem_of_filter). eauto.
  - intros (k & a & Hk & Hs & <-). exists a. split; [done|]. apply list_elem_of_filter. split; [done|]. apply elem_of_values. eauto.
Qed.

(** No reward is settled: an assignment keeps its round and its mark, and a new one
    has no mark. *)
Definition settles_none (s s' : VStore) : Prop :=
  (∀ k a, assignments s !! k = Some a → ∃ a', assignments s' !! k = Some a' ∧ a_RoundStartUnix a' = a_RoundStartUnix a ∧
    a_RewardsSettled a' = a_RewardsSettled a) ∧
  (∀ k a', assignments s !! k = None → assignments s' !! k = Some a' → a_RewardsSettled a' = false).

Lemma settles_none_rounds s s' : settles_none s s' → settled_rounds s' = settled_rounds s.
Proof.
  intros [H1' H2']. apply set_eq. intros r. rewrite !elem_settled_rounds. split.
  - intros (k & a' & Ha' & Hs & Hr). destruct (assignments s !! k) as [a|] eqn:Ha.
    + destruct (H1' k a Ha) as (b & Hb & E1 & E2). rewrite Ha' in Hb. injection Hb as <-. exists k, a. split; [done|]. split; congruence.
    + rewrite (H2' k a' Ha Ha') in Hs. done.
  - intros (k & a & Ha & Hs & Hr). destruct (H1' k a Ha) as (a' & Ha' & E1 & E2). exists k, a'. split; [done|]. split; congruence.
Qed.

Lemma finalize_settles_none order p now h s s' : 0 < now → chain_inv s → finalizeAssignments order p now h s = Ok s' → settles_none s s'.
Proof.
  intros Hn Hi HF. unfold finalizeAssignments in HF. destruct (values_keyed a_key (assignments s)) as [Hnd Hv].
  { intros k a Hk. destruct (ci_assignments s Hi k a Hk) as [-> _]. reflexivity. }
  destruct (each_post a_key (λ s k, assignments s !! k) chain_inv
    (λ a o, ∃ a', o = Some a' ∧ a_RoundStartUnix a' = a_RoundStartUnix a ∧ a_RewardsSettled a' = a_RewardsSettled a)
    (finalize_one order p now h) (values (assignments s)) s s' Hnd Hv) as [Hin Hout]; [|done|done|].
  - intros a t t' Hit Ha Hf. pose proof (finalize_one_effect _ _ _ _ _ _ _ Hn (ci_market _ Hit) Hf) as He.
    destruct (is_due now a); [|subst t'; split_and!; eauto]. split; [by eapply done_with_inv|]. destruct He as (_ & _ & _ & v & ->).
    destruct (ci_assignments t Hit _ _ Ha) as (_ & _ & _ & Hw). rewrite (stored_domain_normal (market t)) by (done || apply Hit).
    split; [|intros k Hne; by rewrite lookup_insert_ne]. rewrite lookup_insert_eq. by eexists.
  - split.
    + intros k a Ha. destruct (ci_assignments s Hi _ _ Ha) as [-> _]. apply (Hin a), elem_of_values. eauto.
    + intros k a' Hn' Ha'. rewrite Hout, Hn' in Ha'; [done|]. intros (b & -> & [k' Hb]%elem_of_values)%list_elem_of_fmap.
      destruct (ci_assignments s Hi _ _ Hb) as [-> _]. unfold a_key in Hn'. congruence.
Qed.

Definition is_rewards (o : op) : bool := match o with ORewards _ => true | _ => false end.

Lemma exec_settles_none order o s s' : registry_inv s → op_typed o → is_rewards o = false → exec order o s = Ok s' →
  settles_none s s' ∧ pool_funded s' = pool_funded s.
Proof.
  intros [Hi Hr] Ht Ho HE.
  assert (assignments s' = assignments s → settles_none s s') as Hsame.
  { intros Ea. split; rewrite Ea; [eauto|congruence]. }
  destruct (is_aside o) eqn:Has.
  - destruct o; try done; cbn [exec op_typed] in *.
    + destruct (Bond_moves _ _ _ (ri_bonds _ Hr) HE) as (addr & n & _ & E & _). rewrite E. split; [|done]. split; cbn; [eauto|congruence].
    + destruct (Unbond_moves _ _ _ (ri_bonds _ Hr) HE) as (addr & n & _ & E & _). rewrite E. split; [|done]. split; cbn; [eauto|congruence].
    + apply bind_Ok_inv in HE as ([x t] & HE & [= <-]). unfold SubmitDrandBeacon in HE. run_ok HE. injection HE as <- <-.
      match goal with E : SetDrandBeacon _ _ = Ok _ |- _ => apply SetDrandBeacon_Ok in E as (_ & _ & lt & ->) end.
      split; [|done]. split; cbn; [eauto|congruence].
    + destruct (assignNewRound_Ok p c s s' (ci_market _ Hi) HE) as [->|Hm]; [split; [by apply Hsame|done]|].
      unfold round_made in Hm. destruct (eligibleVerifierAddrs _ _) as [el st]. destruct Hm as (_ & _ & seed & r & [Fr O N _ _] & _ & _).
      pose proof (f_equal pool_funded Fr) as Ep. cbn in Ep, O, N. split; [|done]. split; [eauto|].
      intros k a' Hn Ha'. destruct (N k a' Hn Ha') as (w & sel & _ & _ & -> & _). done.
  - destruct o; try done.
    7: { cbn [exec op_typed] in *. split; [eapply finalize_settles_none; [|exact Hi|exact HE]; lia|].
         by destruct (finalize_rest _ _ _ _ _ _ (proj1 Ht) Hi HE) as (_ & _ & ?). }
    all: assert (same_rounds s s') as [Ea _ _ Ef _] by (eapply exec_same_rounds; [exact Has|by intros|exact HE]); split; [by apply Hsame|done].
Qed.

(** * The accounts of the other modules *)

Abbreviation the_bank s := (bank (market s)).

(** The messages of the market, the finalisation and the settlement of leases move
    coins of the registry only. *)
Lemma exec_market_bank order o s s' : is_aside o = false → exec order o s = Ok s' → only_module registry_module (the_bank s) (the_bank s').
Proof.
  intros Ho HE. set (b0 := the_bank s). pose proof (market_to_only b0) as Hto. pose proof (market_from_only b0) as Hfrom.
  assert (only_module registry_module b0 (the_bank s)) as Hrefl by done.
  destruct o; try done; cbn [exec] in *.
  1-4, 8: apply on_market_Ok in HE as (x & Hx & ->); cbn [market set_market].
  - run_ok Hx. injection Hx as <-. destruct r as [y x]. unfold RegisterPublisher in E. run_ok E.
    + injection E as <- <-. cbn [snd]. match goal with E : UpsertWebsite _ _ = Ok _ |- _ => by rewrite (Upsert_bank _ _ _ E) end.
    + unfold RegisterWebsite in E. run_ok E. by injection E as <- <-.
  - run_ok Hx. injection Hx as <-. destruct r as [y x]. cbn [snd]. by destruct (CreateSlot_frame _ _ _ _ _ E) as (_ & _ & _ & -> & _).
  - run_ok Hx. injection Hx as <-. destruct r as [y x]. cbn [snd]. by destruct (UpdateSlotStatus_frame _ _ _ _ _ E) as (_ & _ & _ & -> & _).
  - run_ok Hx. injection Hx as <-. destruct r as [y x]. exact (LeaseSlot_bank _ Hto _ _ _ _ _ E Hrefl).
  - exact (settleLeases_bank _ Hfrom _ _ _ Hx Hrefl).
  - destruct (commit_effect _ _ _ _ _ HE) as [Hm _]. by rewrite Hm.
  - run_ok HE. injection HE as <-. destruct r as [x t]. cbn [snd]. destruct (reveal_effect _ _ _ _ _ _ E) as [Hm _]. by rewrite Hm.
  - exact (finalizeAssignments_bank _ Hfrom _ _ _ _ _ _ HE Hrefl).
Qed.

(** Everything but the rewards leaves the emission pool and the supply alone. *)
Lemma exec_pool order o s s' : registry_inv s → op_typed o → is_rewards o = false → exec order o s = Ok s' →
  (∀ d, mod_bal (the_bank s') tokenomics_module d = mod_bal (the_bank s) tokenomics_module d) ∧
  ∀ d, supply (the_bank s') d = supply (the_bank s) d.
Proof.
  intros [Hi Hr] Ht Ho HE.
  assert (∀ m, m ≠ tokenomics_module → only_module m (the_bank s) (the_bank s') →
    (∀ d, mod_bal (the_bank s') tokenomics_module d = mod_bal (the_bank s) tokenomics_module d) ∧
    ∀ d, supply (the_bank s') d = supply (the_bank s) d) as Honly.
  { intros m Hne [Hm Hs]. split; [|done]. intros d. apply Hm. congruence. }
  destruct (is_aside o) eqn:Has; [|by eapply Honly; [exact registry_not_tokenomics|by eapply exec_market_bank]].
  destruct o; try done; cbn [exec op_typed] in *.
  - destruct (Bond_moves _ _ _ (ri_bonds _ Hr) HE) as (addr & n & _ & E & Hb%bonds_only). by eapply Honly; [exact verifiers_not_tokenomics|].
  - destruct (Unbond_moves _ _ _ (ri_bonds _ Hr) HE) as (addr & n & _ & E & Hb%unbonds_only). by eapply Honly; [exact verifiers_not_tokenomics|].
  - apply bind_Ok_inv in HE as ([x t] & HE & [= <-]). unfold SubmitDrandBeacon in HE. run_ok HE. injection HE as <- <-.
    by match goal with E : SetDrandBeacon _ _ = Ok _ |- _ => apply SetDrandBeacon_Ok in E as (_ & _ & lt & ->) end.
  - destruct (assignNewRound_Ok p c s s' (ci_market _ Hi) HE) as [->|Hm]; [done|].
    unfold round_made in Hm. destruct (eligibleVerifierAddrs _ _) as [el st]. destruct Hm as (_ & _ & seed & r & [Fr _ _ _ _] & _ & _).
    pose proof (f_equal market Fr) as Em. cbn in Em. by rewrite Em.
Qed.

(** * The emission, abstractly *)

(** What the emission promises, whatever the rounds hold: the pool, what was minted
    for it, the supply, and the rounds that were settled. *)
Record Emission := mkEmission { em_pool : Z; em_funded : Z; em_supply : Z; em_settled : gset Z }.

(** A round is settled once.  The pool is topped up to its target, and the cost of
    the round leaves it, at most all of it burnt. *)
Inductive emits (p : PublisherParams) (cost : Z) : Emission → Emission → Prop :=
| emits_round r burnt e : r ∉ em_settled e → 0 ≤ burnt ≤ cost →
    (0 < cost → cost ≤ em_pool e + (funded_to p (em_funded e) - em_funded e)) →
    emits p cost e (mkEmission (em_pool e + (funded_to p (em_funded e) - em_funded e) - cost) (funded_to p (em_funded e))
      (em_supply e + (funded_to p (em_funded e) - em_funded e) - burnt) ({[r]} ∪ em_settled e)).

Definition emission_of (s : VStore) : Emission :=
  mkEmission (mod_bal (the_bank s) tokenomics_module verificationRewardDenom) (pool_funded s) (supply (the_bank s) verificationRewardDenom)
    (settled_rounds s).

(** The books balance along any run of the abstract emission. *)
Lemma emits_books p cost e e' : rtc (emits p cost) e e' →
  em_pool e' - em_funded e' + cost * Z.of_nat (size (em_settled e')) = em_pool e - em_funded e + cost * Z.of_nat (size (em_settled e)) ∧
  em_supply e' - em_funded e' ≤ em_supply e - em_funded e ∧ em_funded e' ≤ Z.max (em_funded e) (funded_to p 0) ∧
  em_settled e ⊆ em_settled e'.
Proof.
  induction 1 as [e|e e1 e2 Hs _ (B1 & B2 & B3 & B4)]; [split_and!; try done; lia|]. destruct Hs as [r burnt e Hr Hb _]. cbn in *.
  rewrite size_union, size_singleton in B1 by (by apply disjoint_singleton_l). split_and!; [lia|lia| |].
  - etrans; [exact B3|]. unfold funded_to. cbv zeta. destruct (_ <? _); lia.
  - etrans; [|exact B4]. apply union_subseteq_r.
Qed.

(** A settlement adds its round. *)
Lemma settled_rounds_add p r s s' : chain_inv s → in_s 64 r → 0 < r → round_settled p r s s' →
  (r ∉ settled_rounds s) ∧ settled_rounds s' = {[r]} ∪ settled_rounds s.
Proof.
  intros Hi Hr1 Hr2 Hd.
  assert (∀ k a, assignments s !! k = Some a → same_round r a ↔ a_RoundStartUnix a = r) as Hsame.
  { intros k a Ha. destruct (ci_assignments s Hi _ _ Ha) as (_ & ? & ? & _). split; [by apply roundKey_inj|]. unfold same_round. by intros ->. }
  split.
  { intros (k & a & Ha & Hs & Hr)%elem_settled_rounds. destruct (rd_were _ _ _ _ Hd k a Ha) as [_ ?]; [by eapply Hsame|congruence]. }
  apply set_eq. intros x. rewrite elem_of_union, elem_of_singleton, !elem_settled_rounds. split.
  - intros (k & b & Hb & Hs & <-). rewrite (rd_marked _ _ _ _ Hd) in Hb. apply fmap_Some in Hb as (a & Ha & ->). case_decide as Hc.
    + left. by apply (Hsame k a Ha).
    + right. eauto.
  - intros [->|(k & a & Ha & Hs & <-)].
    + destruct (rd_some _ _ _ _ Hd) as (k & a & Ha & Hc). exists k, (rewards_settled a). rewrite (rd_marked _ _ _ _ Hd), Ha. cbn.
      rewrite decide_True by done. split_and!; try done. cbn. by apply (Hsame k a Ha).
    + exists k, a. rewrite (rd_marked _ _ _ _ Hd), Ha. cbn. split; [|done]. rewrite decide_False; [done|]. intros Hc.
      destruct (rd_were _ _ _ _ Hd k a Ha Hc). congruence.
Qed.

Lemma settle_round_emits order p P V r s s' : registry_inv s → in_s 64 r → 0 < r → round_pools p = Ok (P, V) →
  settle_round order p r s = Ok s' → rtc (emits p (P + V)) (emission_of s) (emission_of s').
Proof.
  intros [Hi Hr] Hr1 Hr2 Hpools HS. destruct (settle_round_Ok _ _ _ _ _ Hi (ri_funded _ Hr) HS) as [[-> _]|[[-> _]|Hd]]; [done..|].
  destruct (settled_rounds_add p r s s' Hi Hr1 Hr2 Hd) as [Hnew Hsz].
  destruct (rd_paid _ _ _ _ Hd) as (l & P' & V' & log & burnt & t & _ & Hp & Hb & Hf).
  destruct (rp_bank _ _ _ _ _ _ _ _ Hp) as (b & [Mm _ Ms] & [Sm _ Ss Hpos _ Hcov]). pose proof (rp_pools _ _ _ _ _ _ _ _ Hp) as Hpools'.
  rewrite Hpools in Hpools'. injection Hpools' as <- <-. pose proof (rp_total _ _ _ _ _ _ _ _ Hp) as Ht. pose proof (rp_burnt _ _ _ _ _ _ _ _ Hp).
  assert (pool_funded t = funded_to p (pool_funded s)) as Hft by (by rewrite (rp_store _ _ _ _ _ _ _ _ Hp)).
  pose proof (paid_nonneg log Hpos) as Hpn. rewrite Sm, Mm, !decide_True, Ht, Hft in Hcov by done. apply rtc_once.
  assert (emission_of s' = mkEmission (em_pool (emission_of s) + (funded_to p (pool_funded s) - pool_funded s) - (P + V)) (funded_to p (pool_funded s))
    (em_supply (emission_of s) + (funded_to p (pool_funded s) - pool_funded s) - burnt) ({[r]} ∪ settled_rounds s)) as ->.
  { unfold emission_of. rewrite Hsz, Hb, Hf, Sm, Mm, Ss, Ms, Hft, !decide_True by done. cbn. f_equal; lia. }
  apply (emits_round p (P + V) r burnt (emission_of s)); [done|lia|]. cbn. lia.
Qed.

Lemma rewards_emits order p P V s s' : registry_inv s → round_pools p = Ok (P, V) →
  settleFinalizedVerificationRounds order p s = Ok s' → rtc (emits p (P + V)) (emission_of s) (emission_of s').
Proof.
  intros [Hi Hr] Hpools HS.
  refine (proj2 (proj2 (rewards_ind order p (λ t, rtc (emits p (P + V)) (emission_of s) (emission_of t)) s s' Hi Hr _ (rtc_refl _ _) HS))).
  intros r t t' H1' H2' Hit Hrt Ht Hbt. etrans; [exact Hbt|].
  exact (settle_round_emits order p P V r t t' (Build_registry_inv t Hit Hrt) H1' H2' Hpools Ht).
Qed.

Lemma exec_emits order o p P V s s' : registry_inv s → op_typed o → round_pools p = Ok (P, V) → (∀ q, o = ORewards q → q = p) →
  exec order o s = Ok s' → rtc (emits p (P + V)) (emission_of s) (emission_of s').
Proof.
  intros Hi Ht Hpools Hq HE. destruct (is_rewards o) eqn:Ho.
  - destruct o; try done. rewrite (Hq p0 eq_refl) in HE. exact (rewards_emits order p P V s s' Hi Hpools HE).
  - destruct (exec_settles_none order o s s' Hi Ht Ho HE) as [Hn Hf]. destruct (exec_pool order o s s' Hi Ht Ho HE) as [Hp Hs].
    unfold emission_of. rewrite Hp, Hs, Hf, (settles_none_rounds s s' Hn). done.
Qed.

(** * The bonds *)

Definition is_bonding (o : op) : bool := match o with OBond _ | OUnbond _ => true | _ => false end.

Lemma rewards_bonds order p s s' : registry_inv s → settleFinalizedVerificationRounds order p s = Ok s' →
  bond_table s' = bond_table s ∧ ∀ d, mod_bal (the_bank s') verifiers_module d = mod_bal (the_bank s) verifiers_module d.
Proof.
  intros [Hi Hr] HS. refine (proj2 (proj2 (rewards_ind order p (λ t, bond_table t = bond_table s ∧
    ∀ d, mod_bal (the_bank t) verifiers_module d = mod_bal (the_bank s) verifiers_module d) s s' Hi Hr _ (conj eq_refl (λ _, eq_refl)) HS))).
  intros r t t' _ _ Hit Hrt Ht [Eb Em]. destruct (settle_round_Ok _ _ _ _ _ Hit (ri_funded _ Hrt) Ht) as [[-> _]|[[-> _]|Hd]]; [done..|].
  split; [by rewrite (rd_frame _ _ _ _ Hd)|]. destruct (rd_paid _ _ _ _ Hd) as (l & P & V & log & burnt & u & _ & Hp & Hb & _).
  destruct (rp_bank _ _ _ _ _ _ _ _ Hp) as (b & [Mm _ _] & [Sm _ _ _ _ _]). intros d. rewrite Hb, Sm, Mm, <- Em.
  rewrite !decide_False by (intros [? _]; by apply verifiers_not_tokenomics). lia.
Qed.

Lemma exec_bonds order o s s' : registry_inv s → op_typed o → is_bonding o = false → exec order o s = Ok s' →
  bond_table s' = bond_table s ∧ ∀ d, mod_bal (the_bank s') verifiers_module d = mod_bal (the_bank s) verifiers_module d.
Proof.
  intros [Hi Hr] Ht Ho HE. destruct (is_aside o) eqn:Has.
  - destruct o; try done; cbn [exec op_typed] in *.
    + apply bind_Ok_inv in HE as ([x t] & HE & [= <-]). unfold SubmitDrandBeacon in HE. run_ok HE. injection HE as <- <-.
      by match goal with E : SetDrandBeacon _ _ = Ok _ |- _ => apply SetDrandBeacon_Ok in E as (_ & _ & lt & ->) end.
    + by eapply rewards_bonds.
    + destruct (assignNewRound_Ok p c s s' (ci_market _ Hi) HE) as [->|Hm]; [done|].
      unfold round_made in Hm. destruct (eligibleVerifierAddrs _ _) as [el st]. destruct Hm as (_ & _ & seed & r & [Fr _ _ _ _] & _ & _).
      pose proof (f_equal market Fr) as Em. pose proof (f_equal bond_table Fr) as Eb. cbn in Em, Eb. rewrite Em. done.
  - destruct (exec_market_bank order o s s' Has HE) as [Hm _]. split; [|intros d; apply Hm, verifiers_not_registry].
    destruct o; try done; cbn [exec op_typed] in *.
    1-4, 8: by apply on_market_Ok in HE as (x & _ & ->).
    + unfold SubmitVerificationCommit in HE. run_ok HE. by injection HE as <-.
    + run_ok HE. injection HE as <-. destruct r as [x t]. unfold RevealVerification in E. run_ok E. injection E as <- <-.
      by match goal with E : SetSubmission _ _ = _ |- _ => apply SetSubmission_Ok in E as [_ ->] end.
    + by destruct (finalize_rest _ _ _ _ _ _ (proj1 Ht) Hi HE) as (_ & ? & _).
Qed.

(** What the module of the verifiers holds beyond the bonds never shrinks. *)
Lemma exec_slack order o s s' d : registry_inv s → op_typed o → exec order o s = Ok s' →
  slack d (bond_table s) (the_bank s) ≤ slack d (bond_table s') (the_bank s').
Proof.
  intros Hinv Ht HE. destruct (is_bonding o) eqn:Ho.
  - pose proof (ri_bonds _ (rg_rounds _ Hinv)) as Hb. destruct o; try done; cbn [exec] in HE.
    + destruct (Bond_moves _ _ _ Hb HE) as (addr & n & _ & _ & Hm). rewrite (bonds_slack _ _ _ _ _ _ d Hb Hm). lia.
    + destruct (Unbond_moves _ _ _ Hb HE) as (addr & n & _ & _ & Hm). rewrite (unbonds_slack _ _ _ _ _ _ d Hb Hm).
      pose proof (residue_nonneg addr n (bond_table s) (proj2 (ub_pos _ _ _ _ _ _ Hm))). case_decide; lia.
  - destruct (exec_bonds order o s s' Hinv Ht Ho HE) as [Eb Em]. unfold slack. rewrite Eb, Em. lia.
Qed.

Lemma run_slack order ops (b : B) d : Forall op_typed ops → Z.of_nat (length ops) < 2 ^ 64 →
  let s := run order ops (no_sites b) in registry_inv s ∧ mod_bal b verifiers_module d ≤ slack d (bond_table s) (the_bank s).
Proof.
  intros Hops Hn s. apply (run_ind order (λ t, mod_bal b verifiers_module d ≤ slack d (bond_table t) (the_bank t)));
    [apply no_sites_inv|exact Hops|cbn; lia|cbn; lia| |].
  - intros o t t' _ Hi _ _ Ht HE Hle. pose proof (exec_slack order o t t' d Hi Ht HE). lia.
  - unfold slack, bonded. cbn. change (sum_over (bond_in d) ∅) with 0. lia.
Qed.
End Books.
