(* ===== verification/Upgrades.v ===== *)
(** The stored parameters of the registry, its genesis import and export, and the
    software upgrades: [GetParams] and [SetParams] of [src/x/registry/keeper.go], the
    migrations and the genesis hooks of [src/x/registry/module.go], and the upgrade
    handlers of [src/app/upgrades.go].  The SDK's [RunMigrations] is the class
    [ModuleManager]. *)

From stdpp Require Import sorting.
From S2P Require Import Prelude JsBase GoBase GoHash Market MarketProofs GoSdk Tokenomics Verifiers RegParams Verification VerificationProofs BankFrame ChainInv Rounds RoundProofs Rewards RewardProofs RoundSteps RoundInv Chain EndBlock Emission.

Section Registry.
Context `{GoEnv} `{!AddrText} `{DrandSuite} {B : Type} `{BankKeeper B}.
Abbreviation VStore := (VStore B).

(** * Stored parameters *)

(** The store of the registry with its parameters, absent before they are set. *)
Record RegState := mkReg { rs_params : option PublisherParams; rs_store : VStore }.

Definition GetParams (st : RegState) : PublisherParams := default DefaultPublisherParams (rs_params st).
Definition SetParams (p : PublisherParams) (st : RegState) : result err RegState :=
  Params_Validate p;; Ok (mkReg (Some p) (rs_store st)).

(** * Migrations *)

Definition migrate1To2 (st : RegState) : result err RegState := SetParams (WithStrictDrandEnabled (GetParams st)) st.

Definition with_min_reward (bps : Z) (p : PublisherParams) : PublisherParams := {|
  p_VerifierBond := p_VerifierBond p; p_VerificationTTL := p_VerificationTTL p; p_MinVerifierCount := p_MinVerifierCount p;
  p_MinPublisherScore := p_MinPublisherScore p; p_MinVerifierScore := p_MinVerifierScore p; p_RewardWeights := p_RewardWeights p;
  p_RewardSplit := p_RewardSplit p; p_VerifierWeights := p_VerifierWeights p; p_CommitWindowSeconds := p_CommitWindowSeconds p;
  p_SubmissionWindowSeconds := p_SubmissionWindowSeconds p; p_RoundIntervalSeconds := p_RoundIntervalSeconds p;
  p_AssignmentDelayMaxSeconds := p_AssignmentDelayMaxSeconds p; p_CooldownBaseSeconds := p_CooldownBaseSeconds p;
  p_PublisherVerificationReward := p_PublisherVerificationReward p; p_VerifierVerificationReward := p_VerifierVerificationReward p;
  p_VerifierRewardBaseShareBps := p_VerifierRewardBaseShareBps p;
  p_RequiredExternalLinksForFullReward := p_RequiredExternalLinksForFullReward p; p_PublisherMinRewardBps := bps;
  p_EmissionTotalSupply := p_EmissionTotalSupply p; p_OperatorReserveBps := p_OperatorReserveBps p;
  p_PublisherEmissionBps := p_PublisherEmissionBps p; p_VerifierEmissionBps := p_VerifierEmissionBps p;
  p_EmissionDurationHours := p_EmissionDurationHours p; p_PublisherRevokeFailureThreshold := p_PublisherRevokeFailureThreshold p;
  p_VerifierPenaltySuspendThreshold := p_VerifierPenaltySuspendThreshold p;
  p_VerifierPenaltySuspendRounds := p_VerifierPenaltySuspendRounds p; p_DrandEnabled := p_DrandEnabled p;
  p_DrandStrictMode := p_DrandStrictMode p; p_DrandSchemeID := p_DrandSchemeID p; p_DrandPublicKeyHex := p_DrandPublicKeyHex p;
  p_DrandChainHash := p_DrandChainHash p; p_DrandGenesisTimeUnix := p_DrandGenesisTimeUnix p;
  p_DrandPeriodSeconds := p_DrandPeriodSeconds p; p_DrandRoundOffsetSeconds := p_DrandRoundOffsetSeconds p |}.

(** The body of the loop over the assignments that were collected. *)
Definition settle_old (a : Assignment) (s : VStore) : result err VStore :=
  s ← SetAssignment (rewards_settled a) s;
  Ok (clearVerificationRoundUnsettled (a_RoundStartUnix a) s).

Definition migrate2To3 (st : RegState) : result err RegState :=
  let params := with_min_reward (p_PublisherMinRewardBps DefaultPublisherParams) (GetParams st) in
  st ← SetParams params st;
  s ← each settle_old (values (assignments (rs_store st))) (rs_store st);
  Ok (mkReg (rs_params st) s).

(** * Genesis *)

Record RegGenesis := mkRegGenesis { gs_Websites : list Website; gs_Params : PublisherParams }.
Definition DefaultRegGenesis : RegGenesis := mkRegGenesis [] DefaultPublisherParams.

(** The websites are sorted in place, so the caller's slice is sorted after it. *)
Definition RegGenesis_Validate (gs : RegGenesis) : result err RegGenesis :=
  sorted ← Genesis_Validate (gs_Websites gs);
  Params_Validate (gs_Params gs);;
  Ok (mkRegGenesis sorted (gs_Params gs)).

(** [panic(err)]. *)
Definition or_panic {A} (r : result err A) : result err A := match r with Ok a => Ok a | Err _ => Err Panic end.

Definition Registry_InitGenesis (data : option RegGenesis) (st : RegState) : result err RegState :=
  gs ← or_panic (RegGenesis_Validate (default DefaultRegGenesis data));
  st ← or_panic (SetParams (gs_Params gs) st);
  m ← or_panic (each UpsertWebsite (gs_Websites gs) (market (rs_store st)));
  Ok (mkReg (rs_params st) (set_market m (rs_store st))).

Definition Registry_ExportGenesis (st : RegState) : RegGenesis :=
  mkRegGenesis (gs_Websites DefaultRegGenesis ++ values (websites (market (rs_store st)))) (GetParams st).

(** * What the migration to version 3 does *)

(** The store of a registry of any version: its records are keyed and valid, and the
    market and the bonds are in order.  Nothing is said of which assignments are settled,
    which before version 3 was decided for each by itself, nor that those which are not
    are on the index of the rounds. *)
Record old_store (s : VStore) : Prop := {
  os_chain : chain_inv s;
  os_last k a : assignments s !! k = Some a → ∃ last, lastRoundStart (rounds s) = Some last ∧ a_RoundStartUnix a ≤ last;
  os_keys x : x ∈ unsettled s → ∃ r, in_s 64 r ∧ 0 < r ∧ x = verificationRoundKey r;
  os_valid k a : assignments s !! k = Some a → Assignment_ValidateBasic a = Ok tt;
  os_funded : 0 ≤ pool_funded s;
  os_bonds : bonds_inv (bond_table s) }.

Lemma registry_old s : registry_inv s → old_store s.
Proof. intros [Hi []]. by split. Qed.

Definition with_assignments (x : gmap gostr Assignment) (u : gset gostr) (s : VStore) : VStore :=
  mkVStore (market s) x (submissions s) (commits s) (streaks s) (similar s) (penalties s) u (rounds s) (bond_table s) (pool_funded s).

Definition settle_all (l : list Assignment) (m : gmap gostr Assignment) : gmap gostr Assignment :=
  foldl (λ m a, <[a_key a := rewards_settled a]> m) m l.

Lemma settle_old_each l (s : VStore) : Forall (λ a, NormalizeDomain (a_Domain a) = a_Domain a ∧ Assignment_ValidateBasic a = Ok tt) l →
  each settle_old l s = Ok (with_assignments (settle_all l (assignments s))
    (unsettled s ∖ list_to_set (verificationRoundKey <$> (a_RoundStartUnix <$> l))) s).
Proof.
  revert s. induction l as [|a l IH]; intros s Hl; cbn [each].
  - cbn [fmap list_fmap]. rewrite list_to_set_nil, difference_empty_L. by destruct s.
  - apply Forall_cons_1 in Hl as [[Hd Hv] Hl].
    assert (settle_old a s = Ok (with_assignments (<[a_key a := rewards_settled a]> (assignments s))
      (unsettled s ∖ {[verificationRoundKey (a_RoundStartUnix a)]}) s)) as ->.
    { unfold settle_old, SetAssignment. cbn [a_Domain rewards_settled]. rewrite Hd.
      change (with_a_domain (a_Domain a) _) with (rewards_settled a). by rewrite settled_valid, Hv. }
    cbn [mbind result_bind]. rewrite (IH _ Hl). f_equal. unfold with_assignments. cbn. by rewrite difference_difference_l_L.
Qed.

Lemma settle_all_lookup l m k : NoDup (a_key <$> l) → (∀ a, a ∈ l → m !! a_key a = Some a) →
  settle_all l m !! k = if decide (k ∈ a_key <$> l) then rewards_settled <$> m !! k else m !! k.
Proof.
  revert m. induction l as [|a l IH]; intros m Hd Hm; [done|]. cbn [fmap list_fmap] in *. apply list.NoDup_cons in Hd as [Hn Hd].
  cbn [settle_all foldl]. fold (settle_all l (<[a_key a := rewards_settled a]> m)). rewrite IH; [|done|].
  - destruct (decide (k = a_key a)) as [->|Hk].
    + rewrite decide_False, decide_True by (done || by left). rewrite lookup_insert_eq, Hm by (by left). done.
    + rewrite lookup_insert_ne by done. destruct (decide (k ∈ a_key <$> l)).
      * by rewrite decide_True by (by right).
      * rewrite decide_False; [done|]. by intros [|]%elem_of_cons.
  - intros b Hb. rewrite lookup_insert_ne; [apply Hm; by right|]. intros E. apply Hn. rewrite E. by apply list_elem_of_fmap_2.
Qed.

Lemma settle_all_values (s : VStore) : chain_inv s → settle_all (values (assignments s)) (assignments s) = rewards_settled <$> assignments s.
Proof.
  intros Hi. destruct (values_keyed a_key (assignments s)) as [Hnd Hv].
  { intros k a Hk. destruct (ci_assignments s Hi k a Hk) as [-> _]. reflexivity. }
  apply map_eq. intros k. rewrite settle_all_lookup by done. rewrite lookup_fmap. case_decide as Hk; [done|].
  destruct (assignments s !! k) as [a|] eqn:Ha; [|done]. exfalso. apply Hk. apply list_elem_of_fmap. exists a.
  destruct (ci_assignments s Hi k a Ha) as [-> _]. split; [done|]. apply elem_of_values. eauto.
Qed.

(** The store after the migration. *)
Definition migrated (s : VStore) : VStore :=
  with_assignments (rewards_settled <$> assignments s)
    (unsettled s ∖ list_to_set (verificationRoundKey <$> (a_RoundStartUnix <$> values (assignments s)))) s.

Lemma min_reward_valid p : Params_Validate p = Ok tt →
  Params_Validate (with_min_reward (p_PublisherMinRewardBps DefaultPublisherParams) p) = Ok tt.
Proof.
  assert (amounts_ok p = Ok tt → amounts_ok (with_min_reward (p_PublisherMinRewardBps DefaultPublisherParams) p) = Ok tt) as Ha.
  { unfold amounts_ok. rewrite !first_error_ok. intros Ha. repeat (apply Forall_cons_1 in Ha as [? Ha]). repeat constructor; done. }
  unfold Params_Validate. intros HV. repeat (apply bind_Ok_inv in HV as ([] & ? & HV)).
  change (windows_ok (with_min_reward _ p)) with (windows_ok p). change (drand_ok (with_min_reward _ p)) with (drand_ok p).
  rewrite Ha by done. cbn [with_min_reward p_VerifierBond p_VerificationTTL p_MinVerifierCount p_MinPublisherScore p_MinVerifierScore
    p_RewardWeights p_RewardSplit p_VerifierWeights].
  repeat match goal with E : _ = Ok () |- _ => rewrite E; cbn [mbind result_bind]; clear E end. done.
Qed.

Lemma migrate2To3_spec st : old_store (rs_store st) → Params_Validate (GetParams st) = Ok tt →
  migrate2To3 st = Ok (mkReg (Some (with_min_reward (p_PublisherMinRewardBps DefaultPublisherParams) (GetParams st))) (migrated (rs_store st))).
Proof.
  intros Ho Hv. pose proof (os_chain _ Ho) as Hi. unfold migrate2To3, SetParams. rewrite (min_reward_valid _ Hv). cbn [mbind result_bind rs_store rs_params].
  rewrite settle_old_each; [cbn [mbind result_bind]; by rewrite settle_all_values|]. apply list.Forall_forall.
  intros a [k Ha]%elem_of_values. split; [|by eapply (os_valid _ Ho)]. destruct (ci_assignments _ Hi _ _ Ha) as (_ & _ & _ & Hw).
  eapply stored_domain_normal; [apply Hi|done].
Qed.

Lemma migrated_aside s : aside s (migrated s).
Proof.
  split; try done; [by rewrite set_bank_id|..]; unfold migrated; cbn; intros k a Ha; rewrite lookup_fmap, Ha; [by right|done].
Qed.

Lemma migrated_inv s : old_store s → registry_inv (migrated s).
Proof.
  intros [Hi L K V P Bi]. split; [eapply aside_inv, migrated_aside; done|].
  split; unfold migrated; cbn; try done.
  - intros k a (b & <- & Hb)%lookup_fmap_Some. exact (L k b Hb).
  - intros k a k' a' (b & <- & _)%lookup_fmap_Some (b' & <- & _)%lookup_fmap_Some. done.
  - intros k a (b & <- & _)%lookup_fmap_Some. done.
  - intros x [Hx _]%elem_of_difference. by apply K.
  - intros k a (b & <- & Hb)%lookup_fmap_Some. rewrite settled_valid. by eapply V.
Qed.

Lemma migrated_settled s k a : assignments s !! k = Some a → a_RoundStartUnix a ∈ settled_rounds (migrated s).
Proof.
  intros Ha. apply elem_settled_rounds. exists k, (rewards_settled a). split; [|done]. unfold migrated. cbn. by rewrite lookup_fmap, Ha.
Qed.

(** A round whose assignments are all settled is only taken off the index. *)
Lemma settle_round_settled order p r s : map_Forall (λ _ a, a_RewardsSettled a = true) (assignments s) →
  settle_round order p r s = Ok (clearVerificationRoundUnsettled r s).
Proof.
  intros Hall. unfold settle_round. destruct (ListAssignmentsForRound r s) as [|a l] eqn:E; [done|]. rewrite <- E. cbv zeta.
  assert (filter (λ a, a_RewardsSettled a = true) (ListAssignmentsForRound r s) = ListAssignmentsForRound r s) as ->; [|by rewrite Nat.eqb_refl].
  apply filter_all. intros b Hb. unfold ListAssignmentsForRound in Hb.
  apply list_elem_of_fmap in Hb as ([k b'] & -> & [_ Hk%elem_of_entries]%list_elem_of_filter). by eapply Hall.
Qed.

(** The rewards after the migration settle nothing and pay nothing, and go through. *)
Lemma migrated_rewards order p s : old_store s → ∃ s', settleFinalizedVerificationRounds order p (migrated s) = Ok s' ∧
  market s' = market s ∧ assignments s' = assignments (migrated s).
Proof.
  intros Hi. destruct (migrated_inv s Hi) as [Hi' Hr']. unfold settleFinalizedVerificationRounds.
  destruct (unsettled_total _ Hr') as [rs ->]. cbn [mbind result_bind].
  assert (∀ t, assignments t = assignments (migrated s) → ∃ s', each (settle_round order p) rs t = Ok s' ∧ market s' = market t ∧
    assignments s' = assignments (migrated s)) as Hl.
  { induction rs as [|r rs IH]; intros t Ht; [by eexists|]. cbn [each]. rewrite settle_round_settled.
    - cbn [mbind result_bind]. destruct (IH (clearVerificationRoundUnsettled r t)) as (s' & -> & Hm & Ha); [done|]. by exists s'.
    - rewrite Ht. unfold migrated. cbn. intros k a (b & <- & _)%lookup_fmap_Some. done. }
  destruct (Hl (migrated s) eq_refl) as (s' & -> & Hm & Ha). by exists s'.
Qed.

(** * Export and import *)

Lemma Genesis_Validate_total sites : Forall (λ w, ValidateWebsite w = Ok tt) sites → NoDup (w_Domain <$> sites) →
  Genesis_Validate sites = Ok (merge_sort site_le sites).
Proof.
  intros Hv Hd. unfold Genesis_Validate. assert (merge_sort site_le sites ≡ₚ sites) as Hp by apply merge_sort_Permutation.
  rewrite <- Hp in Hv, Hd. revert Hv Hd. clear Hp. generalize (merge_sort site_le sites). intros l Hv Hd.
  match goal with |- context [each ?f l []] => assert (∀ seen, Forall (λ w, w_Domain w ∉ seen) l → ∃ r, each f l seen = Ok r) as Hl end.
  { induction l as [|w l IH]; intros seen Hs; [by eexists|]. cbn [fmap list_fmap] in Hd. apply Forall_cons_1 in Hv as [Hw Hv]. apply Forall_cons_1 in Hs as [Hn Hs].
    apply list.NoDup_cons in Hd as [Hi Hd]. cbn [each]. rewrite Hw. cbn [mbind result_bind]. rewrite bool_decide_eq_false_2 by done.
    apply IH; [done..|]. rewrite list.Forall_forall in Hs |- *. intros x Hx. rewrite not_elem_of_cons. split; [|by apply Hs].
    intros E. apply Hi. rewrite <- E. by apply list_elem_of_fmap_2. }
  destruct (Hl []) as [r ->]; [|done]. apply list.Forall_forall. intros x _. apply not_elem_of_nil.
Qed.

Lemma Upsert_each sites (m : Store B) : Forall (λ w, NormalizeDomain (w_Domain w) = w_Domain w ∧ ValidateWebsite w = Ok tt) sites →
  each UpsertWebsite sites m = Ok (set_websites (foldl (λ x w, <[w_Domain w := w]> x) (websites m) sites) m).
Proof.
  revert m. induction sites as [|w sites IH]; intros m Hv; cbn [each foldl]; [by destruct m|].
  apply Forall_cons_1 in Hv as [[Hn Hw] Hv]. assert (UpsertWebsite w m = Ok (set_websites (<[w_Domain w := w]> (websites m)) m)) as ->.
  { unfold UpsertWebsite. rewrite Hn. replace (with_w_domain (w_Domain w) w) with w by (by destruct w). by rewrite Hw. }
  cbn [mbind result_bind]. by rewrite IH.
Qed.

(** Filing records under their keys, in any order, gives the map they came from. *)
Lemma filed_again {V} (key : V → gostr) (m : gmap gostr V) l : (∀ k v, m !! k = Some v → key v = k) → l ≡ₚ values m →
  foldl (λ x v, <[key v := v]> x) ∅ l = m.
Proof.
  intros Hk Hl. destruct (values_keyed key m Hk) as [Hnd Hv]. rewrite <- Hl in Hnd.
  assert (∀ l (x : gmap gostr V), NoDup (key <$> l) → foldl (λ x v, <[key v := v]> x) x l = list_to_map ((λ v, (key v, v)) <$> l) ∪ x) as Hf.
  { clear. induction l as [|v l IH]; intros x Hd; cbn; [by rewrite (left_id_L ∅ (∪))|]. apply list.NoDup_cons in Hd as [Hn Hd].
    rewrite IH by done. rewrite <- insert_union_r, insert_union_l; [done|]. apply not_elem_of_list_to_map_1.
    rewrite <- list_fmap_compose. by rewrite list_fmap_ext with (g := key). }
  rewrite Hf, (right_id_L ∅ (∪)) by done. apply map_eq. intros k. apply option_eq. intros v.
  rewrite <- elem_of_list_to_map, list_elem_of_fmap; [|rewrite <- list_fmap_compose; exact Hnd]. split.
  - intros (v' & [= -> ->] & Hin). rewrite Hl in Hin. by apply Hv.
  - intros Hm. exists v. rewrite (Hk k v Hm). split; [done|]. rewrite Hl. apply elem_of_values. eauto.
Qed.

Lemma reimport st st0 : market_inv (market (rs_store st)) → Params_Validate (GetParams st) = Ok tt →
  websites (market (rs_store st0)) = ∅ →
  Registry_InitGenesis (Some (Registry_ExportGenesis st)) st0 =
    Ok (mkReg (Some (GetParams st)) (set_market (set_websites (websites (market (rs_store st))) (market (rs_store st0))) (rs_store st0))).
Proof.
  intros Hm Hp H0'. set (ws := websites (market (rs_store st))). assert (∀ k w, ws !! k = Some w → w_Domain w = k) as Hk.
  { intros k w Hw. by destruct (mi_websites _ Hm k w Hw). }
  assert (∀ w, w ∈ values ws → NormalizeDomain (w_Domain w) = w_Domain w ∧ ValidateWebsite w = Ok tt) as Hv.
  { intros w [k Hw]%elem_of_values. destruct (mi_websites _ Hm k w Hw) as [<- ?]. split; [|done]. by eapply stored_domain_normal; eauto. }
  destruct (values_keyed w_Domain ws Hk) as [Hnd _]. unfold Registry_InitGenesis, Registry_ExportGenesis, RegGenesis_Validate. cbn [default from_option id
    gs_Websites gs_Params DefaultRegGenesis app]. fold ws. rewrite Genesis_Validate_total; [|apply list.Forall_forall; intros w Hw; by apply Hv|done].
  cbn [mbind result_bind]. rewrite Hp. unfold SetParams. cbn [mbind result_bind or_panic gs_Websites gs_Params]. rewrite Hp.
  cbn [mbind result_bind or_panic rs_store rs_params].
  assert (merge_sort site_le (values ws) ≡ₚ values ws) as Hs by apply merge_sort_Permutation.
  rewrite Upsert_each; [|apply list.Forall_forall; intros w Hw; rewrite Hs in Hw; by apply Hv].
  cbn [mbind result_bind or_panic]. by rewrite H0', (filed_again w_Domain ws).
Qed.
End Registry.

(** * Software upgrades *)

Abbreviation VersionMap := (gmap gostr Z).
Definition nodes_name : gostr := go "nodes".
Definition registry_name : gostr := go "registry".
Definition verifiers_name : gostr := go "verifiers".
Definition tokenomics_name : gostr := go "tokenomics".
Definition ibc_names : list gostr := [go "ibc"; go "transfer"; go "07-tendermint"].
Definition registry_version : Z := 3.

(** The body of the loop over the modules that have not changed; a name missing
    from the target reads as zero. *)
Definition fill_version (targetVM : VersionMap) (out : VersionMap) (name : gostr) : VersionMap :=
  match out !! name with Some _ => out | None => <[name := default 0 (targetVM !! name)]> out end.
Definition preparePublisherRewardsV3VersionMap (fromVM targetVM : VersionMap) : VersionMap :=
  let out := foldl (fill_version targetVM) fromVM [nodes_name; verifiers_name; tokenomics_name] in
  match out !! registry_name with Some _ => out | None => <[registry_name := 2]> out end.
Definition prepareDrandStrictV2VersionMap (fromVM targetVM : VersionMap) : VersionMap :=
  let out := foldl (fill_version targetVM) fromVM [nodes_name; verifiers_name; tokenomics_name] in
  match out !! registry_name with Some _ => out | None => <[registry_name := 1]> out end.

Section Upgrades.
Context `{GoEnv} `{!AddrText} `{DrandSuite} {B : Type} `{BankKeeper B}.
Abbreviation RegState := (RegState (B := B)).

(** The registered migrations of the registry from a version on. *)
Definition registry_migrations (version : Z) (st : RegState) : result err RegState :=
  if version =? 1 then st ← migrate1To2 st; migrate2To3 st
  else if version =? 2 then migrate2To3 st
  else Ok st.

(** The module manager of the SDK on the state of the whole application.
    [RunMigrations] runs the registered migrations of a module from the version of
    the given map on, in order, and initialises a module that has no version with
    its default genesis; a module has a store of its own. *)
Class ModuleManager (S : Type) := {
  registry_of : S → RegState;
  with_registry : RegState → S → S;
  GetVersionMap : VersionMap;
  RunMigrations : VersionMap → S → result err (VersionMap * S);
  registry_of_with st s : registry_of (with_registry st s) = st;
  GetVersionMap_registry : GetVersionMap !! registry_name = Some registry_version;
  RunMigrations_registry vm s vm' s' v : RunMigrations vm s = Ok (vm', s') → vm !! registry_name = Some v → 1 ≤ v ≤ registry_version →
    registry_migrations v (registry_of s) = Ok (registry_of s');
  RunMigrations_absent vm s vm' s' : RunMigrations vm s = Ok (vm', s') → vm !! registry_name = None →
    Registry_InitGenesis (Some DefaultRegGenesis) (registry_of s) = Ok (registry_of s') }.

Context {S : Type} `{!ModuleManager S}.

(** The check of the handler of [ibc-transfer-v1], in the order [visit] in which the
    runtime visits the map. *)
Definition ibc_check (fromVM : VersionMap) (nv : gostr * Z) : result err unit :=
  if decide (nv.1 ∈ ibc_names)
  then guard_err (match fromVM !! nv.1 with Some _ => true | None => false end) (Errorf "already exists")
  else guard_err (match fromVM !! nv.1 with Some old => negb (old =? nv.2) | None => true end) (Errorf "requires the current pre-IBC baseline").
Definition ibc_transfer_v1 (visit : VersionMap → list (gostr * Z)) (fromVM : VersionMap) (s : S) : result err (VersionMap * S) :=
  _ ← each (λ nv _, ibc_check fromVM nv) (visit GetVersionMap) tt;
  RunMigrations fromVM s.

Definition drand_strict_v2 (fromVM : VersionMap) (s : S) : result err (VersionMap * S) :=
  let fromVM := prepareDrandStrictV2VersionMap fromVM GetVersionMap in
  r ← RunMigrations fromVM s;
  let params := WithStrictDrandEnabled (GetParams (registry_of r.2)) in
  st ← SetParams params (registry_of r.2);
  Ok (r.1, with_registry st r.2).

Definition publisher_rewards_v3 (fromVM : VersionMap) (s : S) : result err (VersionMap * S) :=
  RunMigrations (preparePublisherRewardsV3VersionMap fromVM GetVersionMap) s.

(** ** The version of the registry *)

Lemma fill_other l target vm k : k ∉ l → foldl (fill_version target) vm l !! k = vm !! k.
Proof.
  revert vm. induction l as [|n l IH]; intros vm Hk; [done|]. apply not_elem_of_cons in Hk as [Hn Hk]. cbn [foldl].
  rewrite IH by done. unfold fill_version. destruct (vm !! n); [done|]. by rewrite lookup_insert_ne.
Qed.

Lemma fill_keeps l target vm k v : vm !! k = Some v → foldl (fill_version target) vm l !! k = Some v.
Proof.
  revert vm. induction l as [|n l IH]; intros vm Hk; [done|]. cbn [foldl]. apply IH. unfold fill_version.
  destruct (vm !! n) eqn:E; [done|]. rewrite lookup_insert_ne; [done|congruence].
Qed.

Lemma fill_filled l target vm k : k ∈ l → is_Some (foldl (fill_version target) vm l !! k).
Proof.
  revert vm. induction l as [|n l IH]; intros vm Hk; [by apply elem_of_nil in Hk|]. cbn [foldl].
  apply elem_of_cons in Hk as [->|Hk]; [|by apply IH]. unfold fill_version at 2. destruct (vm !! n) as [v|] eqn:E.
  - exists v. by apply fill_keeps.
  - exists (default 0 (target !! n)). apply fill_keeps. by rewrite lookup_insert_eq.
Qed.

Lemma prepared_registry d target vm :
  (let out := foldl (fill_version target) vm [nodes_name; verifiers_name; tokenomics_name] in
   match out !! registry_name with Some _ => out | None => <[registry_name := d]> out end) !! registry_name
  = Some (default d (vm !! registry_name)).
Proof.
  cbv zeta. assert (registry_name ∉ [nodes_name; verifiers_name; tokenomics_name]) as Hn by (by apply (bool_decide_eq_false_1 (registry_name ∈ [nodes_name; verifiers_name; tokenomics_name]))).
  rewrite (fill_other _ _ _ _ Hn). destruct (vm !! registry_name) as [v|] eqn:E; [|by rewrite lookup_insert_eq].
  by rewrite (fill_other _ _ _ _ Hn).
Qed.

(** The check visits every module once, so its answer does not depend on the order. *)
Lemma ibc_checked visit fromVM s r : (∀ m, visit m ≡ₚ map_to_list m) → ibc_transfer_v1 visit fromVM s = Ok r →
  RunMigrations fromVM s = Ok r ∧
  ∀ name v, GetVersionMap !! name = Some v → if decide (name ∈ ibc_names) then fromVM !! name = None else fromVM !! name = Some v.
Proof.
  intros Hv HI. unfold ibc_transfer_v1 in HI. apply bind_Ok_inv in HI as ([] & HI & HR). split; [done|].
  assert (Forall (λ nv, ibc_check fromVM nv = Ok tt) (visit GetVersionMap)) as Hall.
  { clear Hv HR. induction (visit GetVersionMap) as [|nv l IH]; [done|]. cbn [each] in HI. apply bind_Ok_inv in HI as ([] & Hc & HI). constructor; auto. }
  rewrite (Hv GetVersionMap), list.Forall_forall in Hall. intros name v Hn%elem_of_map_to_list%Hall. unfold ibc_check in Hn. cbn in Hn.
  case_decide; apply guard_err_Ok_inv in Hn; destruct (fromVM !! name); try done. zb. by subst.
Qed.
End Upgrades.
