(* ===== verification/TokenGenesis.v ===== *)
(** The genesis of the token's emission ([src/x/tokenomics/types.go] and
    [src/x/tokenomics/module.go]): the default state, its import and its export, and
    what a chain that is started from an export does with the emission pool. *)

From S2P Require Import Prelude JsBase GoBase Market MarketProofs GoSdk Tokenomics Upgrades.

(** * The default state *)

Definition DefaultInitialSupply : Z := 1000000000000000.

Definition DefaultGenesisState : TokGenesis := mkTokGenesis DefaultDenom DefaultInitialSupply [
  mkAlloc (go "foundation_reserve") (hundredths 25) (go "congrid1foundationplaceholder0000000000000000000000")
    (go "4-year linear release via multisig treasury") 0 48;
  mkAlloc (go "team_and_advisors") (hundredths 20) (go "congrid1teamplaceholder000000000000000000000000") (go "12-month cliff, 36-month vesting") 12 48;
  mkAlloc (go "verifier_bootstrap_pool") (hundredths 20) (go "congrid1verifierbootstrap000000000000000000")
    (go "delegated incentives for early verifier operators") 0 24;
  mkAlloc (go "publisher_growth_fund") (hundredths 15) (go "congrid1publisherfund0000000000000000000000")
    (go "milestone-based rebates for verified sites") 0 36;
  mkAlloc (go "public_sale_and_liquidity") (hundredths 10) (go "congrid1liquiditypool000000000000000000000") (go "market making and launch pool") 0 12;
  mkAlloc (go "community_treasury") (hundredths 10) (go "congrid1communitydao000000000000000000000") (go "DAO-controlled discretionary budget") 0 0]
  DefaultTokParams.

Definition DefaultSimulationConfig `{DecRounding} (gs : TokGenesis) : SimulationConfig :=
  let micro := LegacyNewDec 1000000 in
  let toMicro amount := Dec_Mul (LegacyNewDec amount) micro in
  mkSim 5 (LegacyNewDec (tg_InitialSupply gs)) (toMicro 1500000) (toMicro 100000).

(** * The module *)

(** The store of the module: its parameters and the amount the pool was funded with. *)
Record TokStore := mkTokStore { ts_params : option TokParams; ts_funded : Z }.

(** The data is absent, or it is text that decodes to a state or does not. *)
Definition Tok_InitGenesis (data : option (option TokGenesis)) (st : TokStore) : result err TokStore :=
  gs ← match data with
       | None => Ok DefaultGenesisState
       | Some None => Err Panic
       | Some (Some gs) => Ok gs
       end;
  or_panic (TokGenesis_Validate gs);;
  p ← or_panic (SetTokParams (tg_Params gs));
  Ok (mkTokStore p (ts_funded st)).

Definition Tok_ExportGenesis (st : TokStore) : TokGenesis := DefaultGenesisState.

(** * What it promises *)

(** The default state is valid, and its categories get all of the supply. *)
Lemma default_genesis_valid : TokGenesis_Validate DefaultGenesisState = Ok tt.
Proof. vm_compute. reflexivity. Qed.

Example default_breakdown :
  (m ← AllocationBreakdown DefaultGenesisState; Ok (sum_over id m, (λ c, m !! g_Category c) <$> tg_Allocations DefaultGenesisState)) =
  Ok (DefaultInitialSupply, [Some 250000000000000; Some 200000000000000; Some 200000000000000; Some 150000000000000; Some 100000000000000; Some 100000000000000]).
Proof. vm_compute. reflexivity. Qed.

(** A valid genesis is imported, and its parameters are those the keeper reads. *)
Lemma init_genesis_params gs st : TokGenesis_Validate gs = Ok tt →
  Tok_InitGenesis (Some (Some gs)) st = Ok (mkTokStore (Some (tg_Params gs)) (ts_funded st)).
Proof.
  intros HV. unfold Tok_InitGenesis. cbn [mbind result_bind]. rewrite HV. unfold TokGenesis_Validate in HV. run_ok HV.
  unfold SetTokParams. match goal with HP : TokParams_Validate (tg_Params gs) = Ok ?u |- _ => rewrite HP end. reflexivity.
Qed.

Section Reimport.
Context `{GoEnv} {B : Type} `{BankKeeper B}.

(** An export of the emission does not keep what the pool was funded with: where the
    pool was filled to a target, another call for that target mints nothing; on the
    chain that is started from the export, whose bank has the old balances, the
    parameters are the default ones, and the same call mints the whole target a
    second time. *)
Theorem export_funds_pool_again denom target st b : 0 < target ≤ ts_funded st → blank denom = false → ValidDenom denom = true →
  minter tokenomics_module = true → int256 target → int256 (supply b denom + target) →
  EnsureEmissionPool denom target (ts_funded st) b = Ok (ts_funded st, b) ∧
  ∃ st', Tok_InitGenesis (Some (Some (Tok_ExportGenesis st))) (mkTokStore None 0) = Ok st' ∧ GetTokParams (ts_params st') = DefaultTokParams ∧
  ∃ b', EnsureEmissionPool denom target (ts_funded st') b = Ok (target, b') ∧
    mod_bal b' tokenomics_module denom = mod_bal b tokenomics_module denom + target ∧ supply b' denom = supply b denom + target.
Proof.
  intros Ht Hd Hv Hmi Hi Hs. unfold EnsureEmissionPool at 1. rewrite Hd. split.
  { destruct (Z.leb_spec target 0); [done|]. destruct (Z.leb_spec target (ts_funded st)); [done|lia]. }
  eexists. split; [apply init_genesis_params, default_genesis_valid|]. split; [reflexivity|]. cbn [ts_funded].
  destruct (MintCoins_ok b tokenomics_module denom target Hmi ltac:(lia) Hs) as [b' E]. exists b'.
  destruct (MintCoins_spec b tokenomics_module denom target b' ltac:(lia) E) as (Hmod & _ & Hsup). split; [|split].
  - unfold EnsureEmissionPool. rewrite Hd. destruct (Z.leb_spec target 0); [lia|]. unfold Int_Sub. rewrite Z.sub_0_r, (chk_in target Hi).
    cbn [mbind result_bind]. unfold NewCoin, Coin_IsValid. cbn [c_Denom c_Amount]. rewrite Hv. destruct (Z.leb_spec 0 target); [|lia].
    cbn [andb negb guard_err mbind result_bind c_Denom c_Amount]. rewrite E. cbn [or_err mbind result_bind]. unfold setEmissionFundedAmount.
    destruct (Z.leb_spec target 0); [lia|done].
  - rewrite Hmod, decide_True by done. done.
  - by rewrite Hsup, decide_True.
Qed.
End Reimport.
