(* ===== verification/Halts.v ===== *)
(** When the end of a block fails: a round that is due and cannot be paid stops every
    [EndBlock] of [src/x/registry/verification_rounds.go], since nothing else
    changes what made the payment fail. *)

From stdpp Require Import sorting.
From S2P Require Import Prelude JsBase GoBase GoHash Market MarketProofs GoSdk Tokenomics Verifiers RegParams Verification VerificationProofs BankFrame ChainInv Rounds RoundProofs Rewards RewardProofs RoundSteps RoundInv Chain EndBlock Emission.

Section Halts.
Context `{GoEnv} `{!AddrText} `{DrandSuite} {B : Type} `{BankKeeper B}.
Abbreviation VStore := (VStore B).
Abbreviation the_bank s := (bank (market s)).

(** The round [r] has rewards to pay, and all its assignments are final, or due at
    [now]. *)
Definition round_due (now r : Z) (s : VStore) : Prop :=
  (∃ k a, assignments s !! k = Some a ∧ a_RoundStartUnix a = r ∧ a_RewardsSettled a = false) ∧
  ∀ k a, assignments s !! k = Some a → a_RoundStartUnix a = r → a_Finalized a = true ∨ a_DeadlineUnix a ≤ now.
Definition round_ready (r : Z) (s : VStore) : Prop :=
  (∃ k a, assignments s !! k = Some a ∧ same_round r a ∧ a_RewardsSettled a = false) ∧
  ∀ k a, assignments s !! k = Some a → same_round r a → a_Finalized a = true.

Lemma due_ready order p now h r s s' : 0 < now → chain_inv s → in_s 64 r → 0 < r → round_due now r s →
  finalizeAssignments order p now h s = Ok s' → round_ready r s'.
Proof.
  intros Hn Hi Hr1 Hr2 [(k & a & Ha & Hr & Hs) Hall] HF. pose proof (finalize_marks _ _ _ _ _ _ Hn Hi HF) as Hm. split.
  - specialize (Hm k). rewrite Ha in Hm. destruct Hm as (a' & Ha' & Hm). exists k, a'. split; [done|].
    destruct (_ || _); [subst a'|destruct Hm as [v ->]]; by rewrite <- Hr.
  - intros k' b Hb Hk. specialize (Hm k'). destruct (assignments s !! k') as [c|] eqn:Hc; [|congruence].
    destruct Hm as (b' & Hb' & Hm). rewrite Hb in Hb'. injection Hb' as <-. destruct (ci_assignments s Hi _ _ Hc) as (_ & ? & ? & _).
    assert (a_RoundStartUnix c = r) as Hcr.
    { apply roundKey_inj; try done. destruct (_ || _); [by subst b|]. by destruct Hm as [v ->]. }
    destruct (Hall k' c Hc Hcr) as [Hf|Hd].
    + rewrite Hf in Hm. cbn in Hm. by subst b.
    + destruct (a_Finalized c) eqn:Hf; cbn in Hm; [by subst b|]. destruct (Z.ltb_spec now (a_DeadlineUnix c)); [lia|]. by destruct Hm as [v ->].
Qed.

(** A round that is ready is paid when it is settled. *)
Lemma settle_round_pays order p r s s' : chain_inv s → round_ready r s → settle_round order p r s = Ok s' →
  ∃ l t, l ≡ₚ ListAssignmentsForRound r s ∧ pay_round order p l s = Ok t.
Proof.
  intros Hi [(k & a & Ha & Hr & Hs) Hall] HS. unfold settle_round in HS. pose proof (λ x, listed_assignment r x s Hi) as Hlist.
  destruct (ci_assignments s Hi _ _ Ha) as (-> & _). assert (a ∈ ListAssignmentsForRound r s) as Hin by exact (proj2 (Hlist a) (conj Ha Hr)).
  set (l := ListAssignmentsForRound r s) in *. destruct l as [|b l'] eqn:El; [by apply elem_of_nil in Hin|]. rewrite <- El in *.
  destruct (Nat.eqb_spec (length (filter (λ a, a_RewardsSettled a = true) l)) (length l)) as [Heq|_].
  { rewrite (filter_length_all _ _ Heq a Hin) in Hs. done. }
  destruct (forallb a_Finalized l) eqn:Hf; cbn [negb] in HS.
  2: { apply forallb_false in Hf as (x & Hx & Hf). apply Hlist in Hx as [Hx Hxr]. by rewrite (Hall _ _ Hx Hxr) in Hf. }
  apply bind_Ok_inv in HS as (_u & _ & HS). unfold settleVerificationRound in HS. rewrite El in HS. rewrite <- El in HS.
  apply bind_Ok_inv in HS as (t & Ht & _). exists (merge_sort by_domain l), t. split; [apply merge_sort_Permutation|done].
Qed.

(** The settlement of another round leaves this one ready. *)
Lemma other_ready order p r r' s s' : chain_inv s → rounds_inv s → in_s 64 r → 0 < r → in_s 64 r' → 0 < r' → r' ≠ r →
  settle_round order p r' s = Ok s' → round_ready r s →
  round_ready r s' ∧ ∀ k a, same_round r a → assignments s' !! k = Some a ↔ assignments s !! k = Some a.
Proof.
  intros Hi Hr H1' H2' H3' H4' Hne HS Hready.
  destruct (settle_round_Ok _ _ _ _ _ Hi (ri_funded _ Hr) HS) as [[-> _]|[[-> _]|Hd]]; [done..|].
  assert (∀ a, same_round r a → ¬ same_round r' a) as Hno.
  { unfold same_round. intros a Ha Ha'. apply Hne. apply roundKey_inj; try done. congruence. }
  assert (∀ k a, same_round r a → assignments s' !! k = Some a ↔ assignments s !! k = Some a) as Hsame.
  { intros k a Ha. rewrite (rd_marked _ _ _ _ Hd), fmap_Some. split.
    - intros (b & Hb & ->). case_decide; [|done]. by destruct (Hno b).
    - intros Hk. exists a. rewrite decide_False by auto. done. }
  split; [|done]. destruct Hready as [(k & a & Ha & Hs & Hset) Hall]. split.
  - exists k, a. rewrite Hsame; done.
  - intros k' b Hb Hk. apply (Hall k' b); [|done]. by apply Hsame.
Qed.

(** The rewards fail when a round that is ready cannot be paid, and the settlement of
    the other rounds does not change that. *)
Lemma rewards_fail order p r (I : VStore → Prop) s s' : chain_inv s → rounds_inv s → in_s 64 r → 0 < r → round_ready r s → I s →
  (∀ r' t t', r' ≠ r → chain_inv t → rounds_inv t → round_ready r t → settle_round order p r' t = Ok t' → 
    (∀ k a, same_round r a → assignments t' !! k = Some a ↔ assignments t !! k = Some a) → I t → I t') →
  (∀ t l t', chain_inv t → rounds_inv t → I t → l ≡ₚ ListAssignmentsForRound r t → pay_round order p l t ≠ Ok t') →
  settleFinalizedVerificationRounds order p s ≠ Ok s'.
Proof.
  intros Hi Hr H1' H2' Hready HI Hkeep Hfail HS. unfold settleFinalizedVerificationRounds in HS. apply bind_Ok_inv in HS as (rs & Hrs & HS).
  assert (r ∈ rs) as Hin.
  { apply (unsettled_rounds s rs Hr Hrs). split; [done|]. split; [done|]. destruct Hready as [(k & a & Ha & Hs & Hset) _].
    unfold same_round in Hs. rewrite <- Hs. by eapply (ri_unsettled s Hr). }
  assert (∀ t t', rounds_inv t ∧ aside s t ∧ round_ready r t ∧ I t → settle_round order p r t ≠ Ok t') as Hr0.
  { intros t t' (Hrt & Hat & Hrd & HIt) Ht. pose proof (aside_inv _ _ Hi Hat) as Hit.
    destruct (settle_round_pays _ _ _ _ _ Hit Hrd Ht) as (l & u & Hl & Hp). by apply (Hfail t l u). }
  revert HS. apply (each_fails_at (λ t, rounds_inv t ∧ aside s t ∧ round_ready r t ∧ I t) _ r); [done| |exact Hr0|by split_and!].
  intros r' t t' Hin' Hall Ht. destruct (decide (r' = r)) as [->|Hne]; [by destruct (Hr0 t t')|]. destruct Hall as (Hrt & Hat & Hrd & HIt).
  apply (unsettled_rounds s rs Hr Hrs) in Hin' as (H3' & H4' & _). pose proof (aside_inv _ _ Hi Hat) as Hit.
  destruct (settle_round_rounds order p r' t t' Hit Hrt H3' H4' Ht).
  destruct (other_ready order p r r' t t' Hit Hrt H1' H2' H3' H4' Hne Ht Hrd). split_and!; [done|by etrans|done|by eapply (Hkeep r' t)].
Qed.

(** ** An empty pool *)

Lemma exhausted_paid p l (s s' : VStore) P V P' V' log burnt : round_pools p = Ok (P, V) → 0 < P + V →
  funded_to p (pool_funded s) = pool_funded s → mod_bal (the_bank s) tokenomics_module verificationRewardDenom < P + V →
  ¬ round_paid p l s s' P' V' log burnt.
Proof.
  intros Hpools Hpos Hfull Hlow Hp. pose proof (rp_pools _ _ _ _ _ _ _ _ Hp) as E.
  rewrite Hpools in E. injection E as <- <-. pose proof (rp_total _ _ _ _ _ _ _ _ Hp) as Ht.
  destruct (rp_bank _ _ _ _ _ _ _ _ Hp) as (b & [Mm _ _] & [Sm _ _ _ _ Hcov]). rewrite Sm, Mm, !decide_True in Hcov by done.
  assert (pool_funded s' = funded_to p (pool_funded s)) as Hft by (by rewrite (rp_store _ _ _ _ _ _ _ _ Hp)). lia.
Qed.

Lemma exhausted_end order p P V c r (s s' : VStore) : registry_inv s → ctx_typed c → in_s 64 r → 0 < r → round_due (block_time c) r s →
  round_pools p = Ok (P, V) → 0 < P + V → funded_to p (pool_funded s) = pool_funded s →
  mod_bal (the_bank s) tokenomics_module verificationRewardDenom < P + V → EndBlock order p c s ≠ Ok s'.
Proof.
  intros [Hi Hr] Hc H1' H2' Hdue Hpools Hpos Hfull Hlow HE. pose proof (ctx_time c Hc) as Hn. unfold EndBlock in HE.
  apply bind_Ok_inv in HE as (s1 & E1 & HE). apply bind_Ok_inv in HE as (s2 & E2 & _). revert E2.
  pose proof (due_ready _ _ _ _ _ _ _ (proj1 Hn) Hi H1' H2' Hdue E1) as Hready.
  destruct (finalize_loop _ _ _ _ _ _ (proj1 Hn) Hi E1) as [Hi1 _]. pose proof (finalize_rounds _ _ _ _ _ _ (proj1 Hn) Hi Hr E1) as Hr1.
  destruct (finalize_rest _ _ _ _ _ _ (proj1 Hn) Hi E1) as (_ & _ & Ef).
  destruct (exec_pool order (OFinalize p (block_time c) (c_Height c)) s s1 (Build_registry_inv s Hi Hr) Hn eq_refl E1) as [Em _].
  set (low := λ t : VStore, funded_to p (pool_funded t) = pool_funded t ∧ mod_bal (the_bank t) tokenomics_module verificationRewardDenom < P + V).
  apply (rewards_fail order p r low); try done; [by unfold low; rewrite Ef, Em| |].
  - intros r' t t' _ Hit Hrt _ Ht _ [Hft Hlt].
    destruct (settle_round_Ok _ _ _ _ _ Hit (ri_funded _ Hrt) Ht) as [[-> _]|[[-> _]|Hd]]; [by split..|]. exfalso.
    destruct (rd_paid _ _ _ _ Hd) as (l & P' & V' & log & burnt & u & _ & Hp & _).
    exact (exhausted_paid p l t u P V P' V' log burnt Hpools Hpos Hft Hlt Hp).
  - intros t l t' _ Hrt [Hft Hlt] _ HP. destruct (pay_round_Ok _ _ _ _ _ (ri_funded _ Hrt) HP) as (P' & V' & log & burnt & Hp).
    exact (exhausted_paid p l t t' P V P' V' log burnt Hpools Hpos Hft Hlt Hp).
Qed.

(** ** A verifier without a bond *)

Lemma listed_size r (s : VStore) : (length (ListAssignmentsForRound r s) ≤ size (assignments s))%nat.
Proof.
  unfold ListAssignmentsForRound. rewrite length_fmap. etrans; [apply length_filter|]. rewrite <- length_map_to_list, entries_perm. done.
Qed.

Lemma listed_same r (s t : VStore) : chain_inv s → chain_inv t →
  (∀ k a, same_round r a → assignments t !! k = Some a ↔ assignments s !! k = Some a) →
  ListAssignmentsForRound r t ≡ₚ ListAssignmentsForRound r s.
Proof.
  intros Hs Ht Hsame. apply NoDup_Permutation; [eapply NoDup_fmap_1, (listed_keys r t Ht)|eapply NoDup_fmap_1, (listed_keys r s Hs)|].
  intros a. rewrite !listed_assignment by done. split; intros [Ha Hr]; (split; [by apply (Hsame _ _ Hr)|done]).
Qed.

Lemma unbonded_end order p P V c k a v (s s' : VStore) : registry_inv s → ctx_typed c → round_due (block_time c) (a_RoundStartUnix a) s →
  assignments s !! k = Some a → a_Finalized a = true → a_Verified a = true → round_pools p = Ok (P, V) →
  Z.of_nat (size (assignments s)) ≤ V → EffectiveVerifierRewardBaseShareBps p = 0 → v ∈ successful_verifiers a s → bonds_of s !! v = None →
  EndBlock order p c s ≠ Ok s'.
Proof.
  intros [Hi Hr] Hc Hdue Ha Hfin Hver Hpools HV Hbps Hv Hnb HE. pose proof (ctx_time c Hc) as Hn. unfold EndBlock in HE.
  destruct (ci_assignments s Hi _ _ Ha) as (Hk & H1' & H2' & _). set (r := a_RoundStartUnix a) in *.
  apply bind_Ok_inv in HE as (s1 & E1 & HE). apply bind_Ok_inv in HE as (s2 & E2 & _). revert E2.
  pose proof (due_ready _ _ _ _ _ _ _ (proj1 Hn) Hi H1' H2' Hdue E1) as Hready.
  destruct (finalize_loop _ _ _ _ _ _ (proj1 Hn) Hi E1) as (Hi1 & _ & Es & _).
  pose proof (finalize_rounds _ _ _ _ _ _ (proj1 Hn) Hi Hr E1) as Hr1. destruct (finalize_rest _ _ _ _ _ _ (proj1 Hn) Hi E1) as (_ & Eb & _).
  pose proof (finalize_marks _ _ _ _ _ _ (proj1 Hn) Hi E1) as Hm.
  assert (a ∈ ListAssignmentsForRound r s1) as Hin.
  { apply listed_assignment; [done|]. split; [|done]. specialize (Hm k). rewrite Ha, Hfin in Hm. destruct Hm as (a' & Ha' & ->).
    rewrite Hk in Ha'. exact Ha'. }
  assert (Z.of_nat (length (ListAssignmentsForRound r s1)) ≤ V) as HL.
  { enough (size (assignments s1) = size (assignments s)) as Hsz by (pose proof (listed_size r s1); lia).
    rewrite <- !size_dom. f_equal. apply set_eq. intros k'. rewrite !elem_of_dom. specialize (Hm k').
    destruct (assignments s !! k') as [b|]; [destruct Hm as (b' & -> & _); split; eauto|by rewrite Hm]. }
  set (kept := λ t : VStore, ListAssignmentsForRound r t ≡ₚ ListAssignmentsForRound r s1 ∧ submissions t = submissions s ∧ bond_table t = bond_table s).
  apply (rewards_fail order p r kept); try done.
  - intros r' t t' _ Hit Hrt _ Ht Hsame (Hl & Hsub & Hbt).
    destruct (settle_round_Ok _ _ _ _ _ Hit (ri_funded _ Hrt) Ht) as [[-> _]|[[-> _]|Hd]]; [by split_and!..|].
    split_and!; [rewrite <- Hl; apply listed_same; [done| |done]|by rewrite (rd_frame _ _ _ _ Hd)..].
    eapply aside_inv; [exact Hit|]. by eapply round_settled_aside.
  - intros t l t' _ _ (Hl & Hsub & Hbt) Hlt. rewrite Hl in Hlt. apply (unbonded_fails order p P V l t t' a v); try done.
    + by rewrite Hlt.
    + by rewrite Hlt.
    + unfold successful_verifiers, ListSubmissions in Hv |- *. by rewrite Hsub.
    + unfold bonds_of in Hnb |- *. by rewrite Hbt.
Qed.
End Halts.
