(* ===== verification/ChainProps.v ===== *)
(** The chain's registry: its main theorems, over every sequence of the modelled
    operations, and a run of the module on concrete data that shows their
    hypotheses can hold. *)

From stdpp Require Import sorting.
From S2P Require Import Prelude JsBase GoBase GoHash Market MarketProofs PublisherLeases GoSdk Tokenomics Verifiers RegParams Verification VerificationProofs BankFrame ChainInv Rounds RoundProofs Rewards RewardProofs RoundSteps RoundInv Chain.

Section Props.
Context `{GoEnv} `{!AddrText} `{DrandSuite} {B : Type} `{BankKeeper B}.
Abbreviation Store := (Store B).
Abbreviation VStore := (VStore B).

(** * The market over any history *)

(** C4 (invariant).  Whatever messages and end-block steps run from an empty
    store, and in whatever order, each lease lies in the store under its own
    fresh identifier, is valid, refers to an existing slot, is priced at its rate
    for its duration, and has books that agree with its status; each slot refers
    to a registered website; and two active leases of one slot never overlap in
    time. *)
Theorem market_invariant order ops (b : B) k l :
  Forall op_typed ops → Z.of_nat (length ops) < 2 ^ 64 →
  let s := market (run order ops (no_sites b)) in
  leases s !! k = Some l →
  l_ID l = k ∧ Lease_ValidateBasic l = Ok tt ∧ books_ok l ∧
  l_EscrowTotal l * l_UnitSeconds l = l_RateAmount l * (l_EndsAtUnix l - l_StartsAtUnix l) ∧
  (∃ x w, slots s !! l_SlotID l = Some x ∧ s_ID x = l_SlotID l ∧ GetWebsite (s_Domain x) s = Some w) ∧
  ∀ k' l', leases s !! k' = Some l' → k' ≠ k → l_SlotID l' = l_SlotID l →
    l_Status l = LeaseStatusActive → l_Status l' = LeaseStatusActive → disjoint_in_time l l'.
Proof.
  intros Hops Hn s Hl. destruct (run_good order ops (no_sites b) (no_sites_inv b) Hops) as [[Hi _] _]; [cbn; lia..|].
  apply ci_market in Hi. fold s in Hi. destruct (mi_leases s Hi _ _ Hl) as (Hid & Hok & [x Hx] & _).
  destruct (mi_slots s Hi _ _ Hx) as (Hsid & _ & Hw & _). destruct (inv_website s x Hi Hw) as [w Hw'].
  split_and!; try done; try apply Hok; [by exists x, w|]. intros k' l' Hl' Hne Hs ? ?. by eapply (mi_disjoint s Hi k k').
Qed.

(** C5 (invariant).  Coins are conserved: after any history the module account
    holds exactly what it started with plus the escrow of the leases, in every
    denomination. *)
Theorem escrow_conserved order ops (b : B) d :
  Forall op_typed ops → Z.of_nat (length ops) < 2 ^ 64 →
  let s := market (run order ops (no_sites b)) in
  module_bal (bank s) d = module_bal b d + sum_over (escrow d) (leases s).
Proof.
  intros Hops Hn s. destruct (run_good order ops (no_sites b) (no_sites_inv b) Hops) as [_ Hs]; [cbn; lia..|].
  specialize (Hs d). fold s in Hs. unfold surplus in Hs. cbn [no_sites market bank leases] in Hs.
  change (sum_over (escrow d) ∅) with 0 in Hs. lia.
Qed.

(** * Settlement *)

(** C13 (functional).  In a consistent and solvent store whose open leases have
    recipients that may receive coins, [settleLeases] succeeds; every lease that
    is active and has ended is closed, paid in full to its publisher, or refunded
    in full to its lessee when the publisher is in cooldown; the other leases are
    as they were; every account receives exactly what is due to it; and the
    store is consistent and as solvent as before. *)
Theorem settlement_exact now (s : Store) : 0 ≤ now → market_inv s → solvent s → payees_ok s →
  ∃ s', settleLeases now s = Ok s' ∧ market_inv s' ∧ (∀ d, surplus d s' = surplus d s) ∧
    (∀ k, leases s' !! k = (λ l, after l (settlement now s l)) <$> leases s !! k) ∧
    (∀ a d, account_bal (bank s') a d = account_bal (bank s) a d + sum_over (λ l, due l (settlement now s l) a d) (leases s)).
Proof.
  intros Hn Hi Hsol Hp. destruct (settleLeases_total now s Hn Hi Hsol Hp) as [s' Hs]. exists s'. split; [done|].
  destruct (settleLeases_effect now s s' Hi Hs) as (Hi' & Hd & _ & _ & _ & _ & _ & Hin & Hout & Ha). split_and!; try done.
  intros k. destruct (leases s !! k) as [l|] eqn:Hk; cbn.
  - destruct (mi_leases s Hi _ _ Hk) as [Hid _]. rewrite <- Hid. apply Hin, elem_of_values. eauto.
  - rewrite <- Hk. apply Hout. intros (l & -> & [k' Hl]%elem_of_values)%list_elem_of_fmap.
    destruct (mi_leases s Hi _ _ Hl) as [Hid _]. congruence.
Qed.

(** C14 (safety).  A failed verification refunds: [violateActiveLeasesForDomain]
    succeeds under the same conditions, and closes exactly the leases of the
    domain that run at that time, as violated, with nothing paid and the whole
    escrow returned to the lessees. *)
Theorem violations_refunded domain now (s : Store) : 0 < now → market_inv s → solvent s → payees_ok s →
  ∃ s', violateActiveLeasesForDomain domain now now s = Ok s' ∧ market_inv s' ∧ (∀ d, surplus d s' = surplus d s) ∧
    (∀ k, leases s' !! k = (λ l, if running domain now s l then refunded_lease now l else l) <$> leases s !! k) ∧
    (∀ a d, account_bal (bank s') a d = account_bal (bank s) a d +
       sumZ ((λ l, credit (l_Lessee l) l a d) <$> filter (λ l, running domain now s l = true) (values (leases s)))).
Proof.
  intros Hn Hi Hsol Hp. unfold violateActiveLeasesForDomain, activeLeasesForDomain. destruct (Z.leb_spec now 0); [lia|].
  rewrite (list_filter_iff _ (λ l, running domain now s l = true)) by (intros l; by rewrite active_for_running).
  apply refunds_of; try done. intros l Hl. by rewrite (running_active _ _ _ _ Hl).
Qed.

(** * Leasing *)

(** C15 (functional).  A lease that [LeaseSlot] grants runs on a listed slot of a
    verified website, from a time that is not past, for exactly the duration
    asked, with no overflow of its end, within the bounds of the slot and a whole
    number of units; its escrow is the rate times the units; and that amount, and
    nothing else, moves from the lessee's account to the module. *)
Theorem lease_terms now m (s : Store) l s' : market_inv s → 0 < now < 2 ^ 63 → lease_msg_typed m →
  LeaseSlot now m s = Ok (l, s') →
  ∃ x w, slots s !! TrimSpace (ml_SlotId m) = Some x ∧ GetWebsite (s_Domain x) s = Some w ∧
    s_Status x = SlotStatusListed ∧ w_Status w = StatusVerified ∧
    now ≤ l_StartsAtUnix l ∧ l_EndsAtUnix l = l_StartsAtUnix l + ml_DurationSeconds m ∧ l_EndsAtUnix l < 2 ^ 63 ∧
    s_MinDurationSeconds x ≤ ml_DurationSeconds m ≤ s_MaxDurationSeconds x ∧
    (∃ units, 0 < units ∧ ml_DurationSeconds m = units * s_UnitSeconds x ∧ l_EscrowTotal l = s_RateAmount x * units) ∧
    (∀ d, module_bal (bank s') d = module_bal (bank s) d + escrow d l) ∧
    (∀ a d, account_bal (bank s') a d = account_bal (bank s) a d - credit (l_Lessee l) l a d).
Proof.
  intros Hi Hn Hm HL%LeaseSlot_Ok. destruct (LeaseSlot_lease_ok now m s l s' Hi ltac:(lia) Hm HL) as [Hok Hend].
  destruct (le_slot _ _ _ _ _ HL) as (x & w & Hx & Hw & Hst & Hv & _ & _ & Hden & _ & _ & He & Hb & Hd & Hu & Hrem & Htot & _).
  destruct (le_books _ _ _ _ _ HL) as (_ & Hr & _). exists x, w. split_and!; try done; try lia.
  - apply (le_time _ _ _ _ _ HL).
  - rewrite He. pose proof (swrap_range 64 (l_StartsAtUnix l + ml_DurationSeconds m) ltac:(lia)) as [_ ?]. done.
  - exists (Z.quot (ml_DurationSeconds m) (s_UnitSeconds x)). split_and!; [|rewrite (Z.quot_rem' (ml_DurationSeconds m) (s_UnitSeconds x)) at 1; lia|done].
    apply Z.quot_str_pos. pose proof (Z.quot_rem' (ml_DurationSeconds m) (s_UnitSeconds x)). 
    destruct (Z.lt_ge_cases (ml_DurationSeconds m) (s_UnitSeconds x)); [|lia]. rewrite Z.rem_small in Hrem; lia.
  - intros d. unfold escrow. rewrite Hr. destruct (le_paid _ _ _ _ _ HL) as [[-> ->]|(Hpos & _ & a & _ & Hs)]; [case_decide; lia|].
    destruct (to_module_spec _ _ _ _ _ Hpos Hs) as (_ & -> & _). repeat case_decide; simplify_eq; lia.
  - intros a d. unfold credit, escrow. rewrite Hr. destruct (le_paid _ _ _ _ _ HL) as [[-> ->]|(Hpos & _ & a' & Ea & Hs)].
    + repeat case_decide; lia.
    + destruct (to_module_spec _ _ _ _ _ Hpos Hs) as (_ & _ & ->). rewrite Ea. repeat case_decide; destruct_and?; simplify_eq; try lia; tauto.
Qed.

(** * Verification *)

(** C22 (safety).  The owner of a registered domain changes in one way only: a
    finalisation finds an open re-registration of that domain past its deadline,
    for which at least half of the verifiers submitted, more of them passes than
    failures, and the new owner is the one it was created to verify. *)
Theorem owner_change_needs_quorum order o (s s' : VStore) k w w' :
  registry_inv s → op_typed o → exec order o s = Ok s' →
  websites (market s) !! k = Some w → websites (market s') !! k = Some w' → w_Owner w' ≠ w_Owner w →
  ∃ p now h a, o = OFinalize p now h ∧ a ∈ values (assignments s) ∧ takes_over now s a ∧ a_Domain a = k ∧
    w_Owner w' = TrimSpace (a_VerificationOwner a).
Proof.
  intros Hinv Ht HE Hw Hw' Hne. assert (owner_of (market s') k ≠ owner_of (market s) k) as Ho.
  { unfold owner_of. rewrite Hw, Hw'. cbn. congruence. }
  destruct (is_aside o) eqn:Has.
  { exfalso. destruct (exec_aside order o s s' Hinv Ht Has HE) as [Ha _]. apply Ho. unfold owner_of. by rewrite (as_market _ _ Ha). }
  destruct Hinv as [Hi _]. destruct o; try done; cbn [exec op_typed] in *.
  - exfalso. apply on_market_Ok in HE as (x & Hx & ->). run_ok Hx. injection Hx as <-. destruct r as [y x].
    apply Ho. cbn [market set_market snd]. by eapply RegisterPublisher_owner; [apply Hi| |eassumption].
  - exfalso. apply on_market_Ok in HE as (x & Hx & ->). run_ok Hx. injection Hx as <-. destruct r as [y x].
    apply Ho. unfold owner_of. cbn [snd market set_market]. by destruct (CreateSlot_frame _ _ _ _ _ E) as [-> _].
  - exfalso. apply on_market_Ok in HE as (x & Hx & ->). run_ok Hx. injection Hx as <-. destruct r as [y x].
    apply Ho. unfold owner_of. cbn [snd market set_market]. by destruct (UpdateSlotStatus_frame _ _ _ _ _ E) as [-> _].
  - exfalso. apply on_market_Ok in HE as (x & Hx & ->). run_ok Hx. injection Hx as <-. destruct r as [y x].
    apply Ho. unfold owner_of. apply LeaseSlot_Ok in E. cbn [snd market set_market]. by rewrite (le_store _ _ _ _ _ E).
  - exfalso. apply Ho. by destruct (commit_effect _ _ _ _ _ HE) as [-> _].
  - exfalso. run_ok HE. injection HE as <-. destruct r as [y x]. apply Ho. cbn [snd]. by destruct (reveal_effect _ _ _ _ _ _ E) as [-> _].
  - destruct (finalize_owners _ _ _ _ _ _ (proj1 Ht) Hi HE k) as [?|(a & Ha & Hto & -> & Hown)]; [done|].
    exists p, now, height, a. split_and!; try done. unfold owner_of in Hown. rewrite Hw' in Hown. by injection Hown.
  - exfalso. apply on_market_Ok in HE as (x & Hx & ->). apply Ho. unfold owner_of. cbn [market set_market].
    by destruct (settleLeases_effect _ _ _ (ci_market _ Hi) Hx) as (_ & _ & _ & _ & _ & -> & _).
Qed.

(** C23 (safety).  The submissions that a finalisation counts for an assignment
    come from distinct verifiers of that assignment, before its deadline; so
    there are at most as many as it has verifiers, and a majority of a quorum
    means that at least half of the verifiers submitted and that more of them
    passed than failed the website. *)
Theorem votes_of_assigned_verifiers order ops (b : B) k a :
  Forall op_typed ops → Z.of_nat (length ops) < 2 ^ 64 →
  let s := run order ops (no_sites b) in
  assignments s !! k = Some a →
  let subs := ListSubmissions (a_RoundStartUnix a) (a_Domain a) s in
  NoDup (b_Verifier <$> subs) ∧
  (∀ x, x ∈ subs → b_Verifier x ∈ a_Verifiers a ∧ b_SubmittedAtUnix x ≤ a_DeadlineUnix a) ∧
  (length subs ≤ length (a_Verifiers a))%nat ∧
  (majority_pass (computeSimilarRoundStats order (Z.of_nat (length (a_Verifiers a))) subs) subs = true →
    (length (a_Verifiers a) ≤ 2 * length subs)%nat ∧
    (length (filter (λ x, b_Passed x = false) subs) < length (filter (λ x, b_Passed x = true) subs))%nat).
Proof.
  intros Hops Hn s Hk subs. destruct (run_good order ops (no_sites b) (no_sites_inv b) Hops) as [[Hi _] _]; [cbn; lia..|].
  destruct (listed_assigned s k a Hi Hk) as [Hnd Hin]. fold subs in Hnd, Hin. split_and!; [done|done| |].
  - rewrite <- (length_fmap b_Verifier subs). apply submseteq_length, NoDup_submseteq; [done|].
    intros v (x & -> & Hx)%list_elem_of_fmap. by apply Hin.
  - apply majority_votes.
Qed.

(** Every node computes the same state: the result of any
    history is the same whatever order the runtime visits the map of hash counts
    in, a different one at each node included. *)
Theorem history_deterministic o o' ops (s : VStore) : visits o → visits o' → run o ops s = run o' ops s.
Proof.
  intros Ho Ho'. unfold run. revert s. induction ops as [|x ops IH]; intros s; cbn [foldl]; [done|].
  assert (exec o x s = exec o' x s) as Hx.
  { destruct x; cbn [exec]; try (match goal with |- context [o] => fail 1 | _ => reflexivity end).
    - unfold finalizeAssignments. apply each_ext. intros a t _. unfold finalize_one. by rewrite (stats_order o o').
    - by apply rewards_order. }
  unfold apply_op. rewrite Hx. apply IH.
Qed.

(** [finalizeAssignments] settles each assignment once: one whose
    deadline has passed is finalised, stamped with the time, with its round,
    domain, window and verifiers unchanged; one that is finalised already, or not
    due, is as it was; and no assignment or submission appears or is lost. *)
Theorem finalisation_once order p now h (s s' : VStore) : 0 < now → chain_inv s →
  finalizeAssignments order p now h s = Ok s' →
  submissions s' = submissions s ∧
  ∀ k, match assignments s !! k with
       | Some a => ∃ a', assignments s' !! k = Some a' ∧
           if a_Finalized a || (now <? a_DeadlineUnix a) then a' = a else ∃ verified, a' =
             mkAssignment (a_RoundStartUnix a) (a_Domain a) (a_StartAtUnix a) (a_DeadlineUnix a) (a_Verifiers a) true now
               verified (a_RewardsSettled a) (a_VerificationOwner a) (a_Reregistration a)
       | None => assignments s' !! k = None
       end.
Proof. intros Hn Hi HF. split; [by eapply finalize_loop|by eapply finalize_marks]. Qed.

(** A commitment binds: no operation changes or drops a recorded
    commit hash, except the reveal by the same verifier for the same assignment,
    after the commit window has closed and not after the deadline, of a result
    that opens it: the committed hash is the SHA-256 of the domain, the round, the
    verifier, the owner, the result, the evidence and the nonce revealed. *)
Theorem commitment_binds order o (s s' : VStore) k h :
  registry_inv s → op_typed o → exec order o s = Ok s' → commits s !! k = Some h → h ≠ [] →
  commits s' !! k = Some h ∨
  ∃ p now m a, o = OReveal p now m ∧ k = commitKey (mv_RoundStartUnix m) (NormalizeDomain (NormalizeDomain (mv_Domain m))) (mv_Verifier m) ∧
    a ∈ values (assignments s) ∧ mv_Verifier m ∈ a_Verifiers a ∧
    i64 (a_StartAtUnix a + p_CommitWindowSeconds p) < now ≤ a_DeadlineUnix a ∧
    ToLower h = EncodeToString (Sum256 (Join (opening m a) (go "|"))).
Proof.
  intros Hinv Ht HE Hk Hh. destruct (is_aside o) eqn:Has.
  { left. destruct (exec_aside order o s s' Hinv Ht Has HE) as [Ha _]. by rewrite (as_commits _ _ Ha). }
  destruct Hinv as [Hi _]. destruct o; try done; cbn [exec op_typed] in *.
  1-4: left; apply on_market_Ok in HE as (x & _ & ->); done.
  - left. destruct (commit_effect _ _ _ _ _ HE) as (_ & _ & _ & a & _ & _ & _ & _ & Hc & ->). rewrite lookup_insert_ne; [done|].
    intros <-. unfold GetCommit in Hc. rewrite Hk in Hc. by destruct h.
  - run_ok HE. injection HE as <-. destruct r as [y x].
    destruct (reveal_effect _ _ _ _ _ _ E) as (_ & _ & _ & Hc & _ & _ & _ & _ & _ & _ & a & h' & Ha & _ & Hv & Hw & Hh' & He).
    destruct (decide (k = commitKey (mv_RoundStartUnix m) (NormalizeDomain (NormalizeDomain (mv_Domain m))) (mv_Verifier m))) as [->|Hne].
    + right. rewrite Hk in Hh'. injection Hh' as <-. exists p, now, m, a. split_and!; try done; try lia.
      * apply elem_of_values. eauto.
      * by apply hasVerifier_elem.
      * by apply expected_hash_opening.
    + left. cbn [snd]. rewrite Hc. by rewrite lookup_delete_ne.
  - left. destruct (finalize_loop _ _ _ _ _ _ (proj1 Ht) Hi HE) as (_ & _ & _ & ->). done.
  - left. apply on_market_Ok in HE as (x & _ & ->). done.
Qed.

(** Through the messages, at most one website is ever registered
    for a primary domain, whatever its subdomains, ports and letter case. *)
Theorem one_site_per_primary_domain order ops (b : B) k k' p :
  Forall op_typed ops → Z.of_nat (length ops) < 2 ^ 64 →
  let s := market (run order ops (no_sites b)) in
  is_Some (websites s !! k) → is_Some (websites s !! k') → GetPrimaryDomain k = Ok p → GetPrimaryDomain k' = Ok p → k = k'.
Proof.
  intros Hops Hn s Hk Hk' Hp Hp'. destruct (run_good order ops (no_sites b) (no_sites_inv b) Hops) as [[Hi _] _]; [cbn; lia..|].
  destruct (ci_primary _ Hi k Hk) as (q & Hq & Hqk). destruct (ci_primary _ Hi k' Hk') as (q' & Hq' & Hqk'). congruence.
Qed.

(** A slot belongs to its publisher.  An operation that makes the
    slot [k] is a message of the owner of a verified website that is not in
    cooldown, and replaces no slot; one that changes it is a message of its
    publisher, or a finalisation by which its domain changed hands, which only
    makes the confirmed candidate its publisher.  Leasing, settlement and the rest
    leave every slot as it is. *)
Theorem slots_change_by_publisher order o (s s' : VStore) k :
  registry_inv s → op_typed o → slotSeq (market s) < 2 ^ 64 - 1 →
  exec order o s = Ok s' → slots (market s') !! k ≠ slots (market s) !! k →
  (∃ now m w, o = OCreateSlot now m ∧ slots (market s) !! k = None ∧
     GetWebsite (NormalizeDomain (mc_Domain m)) (market s) = Some w ∧
     w_Owner w = TrimSpace (mc_Publisher m) ∧ w_Status w = StatusVerified ∧ w_CooldownUntilUnix w ≤ now) ∨
  (∃ now m x, o = OUpdateSlotStatus now m ∧ k = TrimSpace (mu_SlotId m) ∧ slots (market s) !! k = Some x ∧
     s_Publisher x = TrimSpace (mu_Publisher m) ∧ slots (market s') !! k = Some (slot_with (s_Publisher x) (mu_Status m) now x)) ∨
  (∃ p now h, o = OFinalize p now h ∧ changed_hands now s (market s') k).
Proof.
  intros Hinv Ht Hq HE Hk. destruct (is_aside o) eqn:Has.
  { exfalso. destruct (exec_aside order o s s' Hinv Ht Has HE) as [Ha _]. apply Hk. by rewrite (as_market _ _ Ha). }
  destruct Hinv as [Hi _]. pose proof (ci_market _ Hi) as Hm. destruct o; try done; cbn [exec op_typed] in *.
  - exfalso. apply on_market_Ok in HE as (x & Hx & ->). run_ok Hx. injection Hx as <-. destruct r as [y x]. apply Hk.
    cbn [market set_market snd]. by rewrite (RegisterPublisher_slots _ _ _ _ _ E).
  - left. apply on_market_Ok in HE as (x & Hx & ->). run_ok Hx. injection Hx as <-. destruct r as [y x].
    destruct (CreateSlot_slots _ _ _ _ _ E) as [z Hz]. cbn [market set_market snd] in Hk. rewrite Hz in Hk.
    destruct (decide (k = slot_id (u64 (slotSeq (market s) + 1)))) as [->|Hne]; [|by rewrite lookup_insert_ne in Hk].
    pose proof (slot_id_fresh _ Hm Hq) as Hf. clear Hk Hz. unfold CreateSlot in E. run_ok E. guards. zb.
    eexists _, _, _. split_and!; try done. by match goal with E : bool_decide _ = true |- _ => apply bool_decide_eq_true in E end.
  - right. left. apply on_market_Ok in HE as (x & Hx & ->). run_ok Hx. injection Hx as <-. destruct r as [y x].
    by eapply UpdateSlotStatus_change.
  - exfalso. apply on_market_Ok in HE as (x & Hx & ->). run_ok Hx. injection Hx as <-. destruct r as [y x]. apply Hk.
    apply LeaseSlot_Ok in E. cbn [snd market set_market]. by rewrite (le_store _ _ _ _ _ E).
  - exfalso. apply Hk. by destruct (commit_effect _ _ _ _ _ HE) as [-> _].
  - exfalso. run_ok HE. injection HE as <-. destruct r as [y x]. apply Hk. cbn [snd]. by destruct (reveal_effect _ _ _ _ _ _ E) as [-> _].
  - right. right. exists p, now, height. split; [done|]. by destruct (finalize_slots _ _ _ _ _ _ (proj1 Ht) Hi HE k).
  - exfalso. apply on_market_Ok in HE as (x & Hx & ->). apply Hk. cbn [market set_market]. by rewrite (settleLeases_slots _ _ _ Hx).
Qed.

(** The cooldown doubles with each violation, exactly as long as the
    result fits in 64 bits: with the default base of seven days, up to the
    forty-fourth in a row. *)
Theorem cooldown_doubles base count : 0 < base → 0 < count → base * 2 ^ (count - 1) < 2 ^ 63 →
  computeCooldownSeconds base count = base * 2 ^ (count - 1).
Proof.
  intros Hb Hc Hlt. unfold computeCooldownSeconds. destruct (Z.leb_spec base 0), (Z.leb_spec count 0); try lia. cbn.
  rewrite double_times_exact; rewrite ?Z2Nat.id by lia; done.
Qed.

(** The publisher of a slot moves it between any two states: a
    message with any status but the unspecified one succeeds, whatever the status
    was, an unlisted slot becoming listed again included, and changes the status
    and the time of the update only. *)
Theorem slot_status_any now m (s : Store) x : market_inv s → 0 ≤ now → slots s !! TrimSpace (mu_SlotId m) = Some x →
  s_Publisher x = TrimSpace (mu_Publisher m) → mu_Status m ≠ SlotStatusUnspecified →
  let y := slot_with (s_Publisher x) (mu_Status m) now x in
  UpdateSlotStatus now m s = Ok (y, set_slots (<[s_ID x := y]> (slots s)) s).
Proof.
  intros Hi Hn Hx Hp Hst y. destruct (mi_slots s Hi _ _ Hx) as (Hid & Hok & Hw & _).
  unfold UpdateSlotStatus, GetSlot. rewrite Hx, Hp, bool_decide_true by done. cbn [negb guard_err mbind result_bind].
  destruct (Z.eqb_spec (mu_Status m) SlotStatusUnspecified) as [|_]; [done|]. cbn [guard_err mbind result_bind].
  unfold SetSlot. cbn [s_Domain set_status]. rewrite (stored_domain_normal s) by done.
  change (with_domain (s_Domain x) (set_status (mu_Status m) now x)) with (set_status (mu_Status m) now x).
  rewrite (set_status_valid x) by (done || apply Hok). reflexivity.
Qed.

(** A registered domain accepts a candidate owner in whatever
    status it is, pending, verified or revoked, with or without failed rounds: the
    message succeeds unless another candidate is pending, and records the
    candidate and its referrer, leaving the owner, the status and the cooldown of
    the website as they were. *)
Theorem reregistration_any_status h m (s : Store) w : market_inv s → GetWebsite (NormalizeDomain (mr_Domain m)) s = Some w →
  Register_ValidateBasic m = Ok tt → TrimSpace (mr_Owner m) = mr_Owner m → mr_Owner m ≠ [] →
  w_PendingOwner w = [] ∨ w_PendingOwner w = mr_Owner m ∨ w_Owner w = mr_Owner m →
  let r := mkWebsite (w_Domain w) (w_Owner w) (w_Status w) (w_MetadataURI w) (w_Proof w) (w_RegisteredAtHeight w) (w_Verifier w)
             (w_Referrer w) (w_CooldownUntilUnix w) (w_CooldownCount w) (mr_Owner m) (TrimSpace (mr_Referrer m)) in
  RegisterPublisher h m s = Ok (r, set_websites (<[w_Domain w := r]> (websites s)) s).
Proof.
  intros Hi Hw Hv Ht Hne Hp r. destruct (GetWebsite_domain _ _ _ Hi Hw) as [_ Hd].
  destruct (mi_websites s Hi (w_Domain w) w) as [_ Hvw].
  { destruct (GetWebsite_domain _ _ _ Hi Hw) as [-> _]. exact Hw. }
  unfold RegisterPublisher. rewrite Hv. cbn [mbind result_bind w_Domain w_Owner w_Referrer]. rewrite Hw, Ht.
  replace (_ && _) with false.
  2: { destruct Hp as [-> |[-> | ->]]; [done|rewrite (bool_decide_eq_true_2 (mr_Owner m = mr_Owner m)) by done..]; cbn; by rewrite ?andb_false_r. }
  cbn [guard_err mbind result_bind]. change (with_pending (mr_Owner m) (TrimSpace (mr_Referrer m)) w) with r.
  unfold UpsertWebsite. cbn [w_Domain r].
  rewrite (stored_domain_normal s) by done. change (with_w_domain (w_Domain w) r) with r.
  change r with (with_pending (mr_Owner m) (TrimSpace (mr_Referrer m)) w). by rewrite (pending_valid m w).
Qed.
End Props.
