(* ===== verification/RoundProps.v ===== *)
(** Verification rounds, rewards and bonds: their main theorems, over the steps of
    the module and over every history. *)

From stdpp Require Import sorting.
From S2P Require Import Prelude JsBase GoBase GoHash Market MarketProofs GoSdk Tokenomics Verifiers RegParams Verification VerificationProofs BankFrame ChainInv Rounds RoundProofs Rewards RewardProofs RoundSteps RoundInv Chain EndBlock Emission Halts.

Section Props.
Context `{GoEnv} `{!AddrText} `{DrandSuite} {B : Type} `{BankKeeper B}.
Abbreviation VStore := (VStore B).

(** * Rounds *)

Lemma verifiable_intro rs w : TrimSpace (w_PendingOwner w) ≠ [] ∨
  (w_CooldownUntilUnix w ≤ rs ∧ (w_Status w = StatusPending ∨ w_Status w = StatusVerified)) → is_verifiable rs w = true.
Proof.
  unfold is_verifiable, blank. intros [Hp|[Hc Hs]]; [by destruct (TrimSpace (w_PendingOwner w))|]. destruct (negb _); [done|].
  destruct (Z.ltb_spec rs (w_CooldownUntilUnix w)); [lia|]. by destruct Hs as [-> | ->].
Qed.

(** C25 (functional).  A round assigns every website it has to verify: when a block
    makes a new round, each website that has a candidate owner, or is pending or
    verified and not in cooldown, has an open assignment in it, whose verifiers are
    distinct eligible ones, as many as the parameters ask for or as there are, and
    whose window starts within the round and has the length of the parameters. *)
Theorem round_assigned p c (s s' : VStore) w : registry_inv s → 0 < p_RoundIntervalSeconds p ≤ 9223372036 →
  0 < p_MinVerifierCount p → 0 < p_SubmissionWindowSeconds p < 2 ^ 61 → 0 ≤ c_TimeNs c < 2 ^ 61 * 10 ^ 9 →
  assignNewRound p c s = Ok s' → lastRoundStart (rounds s') ≠ lastRoundStart (rounds s) →
  let rs := nextVerificationRoundStartUnix (c_TimeNs c) (round_interval p) in
  websites (market s) !! w_Domain w = Some w →
  (TrimSpace (w_PendingOwner w) ≠ [] ∨ (w_CooldownUntilUnix w ≤ rs ∧ (w_Status w = StatusPending ∨ w_Status w = StatusVerified))) →
  ∃ a, assignments s' !! assignmentKey rs (w_Domain w) = Some a ∧ a_Finalized a = false ∧ NoDup (a_Verifiers a) ∧
    (∀ v, v ∈ a_Verifiers a → ∃ x, verifiers (bond_table s) !! v = Some x ∧
      bp_MinBond (GetBondParams (bond_table s)) ≤ c_Amount (v_Bond x) ∧ IsVerifierSuspended v (block_time c) s = false) ∧
    Z.of_nat (length (a_Verifiers a)) = p_MinVerifierCount p `min` Z.of_nat (length (eligibleVerifierAddrs (block_time c) s).1) ∧
    rs ≤ a_StartAtUnix a < rs + p_RoundIntervalSeconds p ∧ a_DeadlineUnix a = a_StartAtUnix a + p_SubmissionWindowSeconds p.
Proof.
  intros [Hi Hr] Hint Hmin Hwin Ht HA Hlast rs Hw Hv%verifiable_intro.
  destruct (assignNewRound_Ok p c s s' (ci_market _ Hi) HA) as [->|Hm]; [done|]. unfold round_made in Hm. fold rs in Hm.
  destruct (eligibleVerifierAddrs (block_time c) s) as [el st] eqn:Hel. destruct Hm as (Hpos & Hlt & seed & r & [_ _ N _ A] & _ & _).
  destruct (eligible_spec _ _ _ _ (ri_bonds _ Hr) Hel) as (Hnd & Hst & Hin).
  destruct (A w (round_publishers_all rs s _ w Hw Hv)) as [a Ha]. cbn in Ha. exists a. split; [done|].
  destruct (N (assignmentKey rs (w_Domain w)) a) as (w' & sel & Hw' & Hsel & -> & Hk & _).
  { cbn. destruct (assignments s !! _) as [b|] eqn:Hb; [|done]. exfalso. destruct (ci_assignments s Hi _ _ Hb) as (Hkey & Hb1 & Hb2 & _).
    apply assignmentKey_inj in Hkey as [Er _]; [|apply next_round_range; lia|done|done|done].
    destruct (ri_last _ Hr _ _ Hb) as (last & Hl & Hle). specialize (Hlt last Hl). lia. }
  { exact Ha. }
  apply round_publishers_elem in Hw' as [Hw' _]; [|apply Hi].
  destruct (select_spec el st (p_MinVerifierCount p) (seed ++ w_Domain w') Hst ltac:(lia)) as (sel' & Hsel' & Hsub & Hlen).
  rewrite Hsel in Hsel'. injection Hsel' as <-. cbn [fst].
  destruct (next_round_start (c_TimeNs c) (round_interval p)) as [Hb _].
  { unfold round_interval. destruct (Z.leb_spec (p_RoundIntervalSeconds p) 0); lia. }
  fold rs in Hb. assert (round_interval p = p_RoundIntervalSeconds p) as Hri.
  { unfold round_interval. destruct (Z.leb_spec (p_RoundIntervalSeconds p) 0); lia. }
  pose proof (offset_in_round seed (w_Domain w') (round_interval p) (delay_max p) ltac:(lia)) as Hoff.
  assert (a_StartAtUnix (round_assignment p seed rs w' sel) =
    rs + ComputeAssignmentOffsetSeconds seed (w_Domain w') (round_interval p) (delay_max p)) as Hs.
  { unfold round_assignment, ComputeAssignmentStartAtUnix. cbn [a_StartAtUnix]. apply i64_id. lia. }
  split_and!; [done| | | |lia|lia|].
  - cbn. rewrite SortStrings_perm. apply submseteq_Permutation in Hsub as [k Hk']. rewrite Hk' in Hnd. by apply list.NoDup_app in Hnd as [? _].
  - cbn. intros v. rewrite SortStrings_perm. intros Hvs.
    assert (v ∈ el) as (x & Hx & He)%Hin by (by eapply elem_of_submseteq). exists x. split; [done|]. unfold is_eligible in He. zb.
    by destruct (bi_verifiers _ (ri_bonds _ Hr) _ _ Hx) as [<- _].
  - cbn. rewrite (Permutation_length (SortStrings_perm sel)). done.
  - unfold round_assignment at 1. cbn [a_DeadlineUnix]. change (ComputeAssignmentStartAtUnix seed (w_Domain w') rs (round_interval p) (delay_max p))
      with (a_StartAtUnix (round_assignment p seed rs w' sel)). apply i64_id. lia.
Qed.

(** The schedule: the next round starts after the block and within one
    interval of it, at a whole number of intervals since the zero time; and the
    drand round it requires is the last one that is emitted no later than the
    offset before the start, with no overflow on the way. *)
Theorem round_schedule p nowNs interval : 0 < interval ≤ 9223372036 → 0 ≤ nowNs < 2 ^ 61 * 10 ^ 9 → drand_typed p →
  let rs := nextVerificationRoundStartUnix nowNs interval in
  let emitted n := EffectiveDrandGenesisTimeUnix p + (n - 1) * EffectiveDrandPeriodSeconds p in
  let latest := rs - EffectiveDrandRoundOffsetSeconds p in
  (nowNs < rs * 10 ^ 9 ≤ nowNs + interval * 10 ^ 9 ∧ (rs + 62135596800) mod interval = 0) ∧
  (EffectiveDrandGenesisTimeUnix p ≤ latest →
    ∃ n, requiredDrandRound p rs = Ok (n, emitted n) ∧ 0 < n ∧ emitted n ≤ latest < emitted (n + 1)).
Proof.
  intros Hi Hn Hd rs emitted latest. pose proof (next_round_start nowNs interval Hi) as Hr. split; [exact Hr|]. intros Hle.
  destruct Hr as [Hr _]. fold rs in Hr. destruct (required_drand p rs Hd) as (n & Hreq & Hpos & Hb); [lia|done|].
  exists n. split; [done|]. subst emitted. cbn. replace (n + 1 - 1) with n by lia. lia.
Qed.

(** ** Beacons *)

Lemma verify_beacon_Ok round sg rd pub scheme u : verifyDrandBeaconSignature round sg rd pub scheme = Ok u →
  ∃ sig key id, DecodeString (TrimSpace sg) = Some sig ∧ DecodeString (TrimSpace rd) = Some (Sum256 sig) ∧
    DecodeString (TrimSpace pub) = Some key ∧ isSupportedDrandSchemeID id = true ∧
    VerifyRecovered id key (digestUnchainedRound round) sig = true.
Proof.
  intros HV. unfold verifyDrandBeaconSignature in HV. run_ok HV. guards. zb.
  match goal with E : bool_decide (Sum256 _ = _) = true |- _ => apply bool_decide_eq_true in E as <- end. eexists _, _, _. by split_and!.
Qed.

Lemma beacon_Ok p c m (s : VStore) x s' : SubmitDrandBeacon p c m s = Ok (x, s') →
  db_Round x = mdb_Round m ∧ drandBeacons (rounds s) !! drandBeaconKey (mdb_Round m) = None ∧
  drandBeacons (rounds s') = <[drandBeaconKey (mdb_Round m) := x]> (drandBeacons (rounds s)) ∧
  (∃ t, requiredDrandRound p (nextVerificationRoundStartUnix (c_TimeNs c) (p_RoundIntervalSeconds p)) = Ok (mdb_Round m, t)) ∧
  ∃ u, verifyDrandBeaconSignature (mdb_Round m) (db_SignatureHex x) (db_RandomnessHex x) (EffectiveDrandPublicKeyHex p)
    (EffectiveDrandSchemeID p) = Ok u.
Proof.
  intros HS. unfold SubmitDrandBeacon in HS. run_ok HS. guards. zb. injection HS as <- <-.
  match goal with E : SetDrandBeacon _ _ = Ok _ |- _ => apply SetDrandBeacon_Ok in E as (_ & Hnew & lt & ->) end. cbn in Hnew |- *.
  split_and!; try done; [|by eexists].
  match goal with E : PendingDrandRequirement _ _ _ = Ok _ |- _ => unfold PendingDrandRequirement in E; rename E into HQ end.
  destruct (negb (EffectiveDrandEnabled p)); [injection HQ as <-; done|].
  destruct (match GetLastRoundStart s with Some last => _ | None => false end); [injection HQ as <-; done|].
  apply bind_Ok_inv in HQ as ([n t] & Hn & HQ). injection HQ as <-. cbn in *. exists t. rewrite Hn. congruence.
Qed.

(** The beacons of other operations stay. *)
Lemma exec_beacons order o (s s' : VStore) : registry_inv s → op_typed o → (∀ p c m, o ≠ OBeacon p c m) → exec order o s = Ok s' →
  drandBeacons (rounds s') = drandBeacons (rounds s).
Proof.
  intros [Hi Hr] Ht Ho HE. destruct o; cbn [exec op_typed] in *.
  1-4, 12: by apply on_market_Ok in HE as (x & _ & ->).
  - unfold SubmitVerificationCommit in HE. run_ok HE. by injection HE as <-.
  - run_ok HE. injection HE as <-. destruct r as [x t]. unfold RevealVerification in E. run_ok E. injection E as <- <-.
    by match goal with E : SetSubmission _ _ = _ |- _ => apply SetSubmission_Ok in E as [_ ->] end.
  - destruct (Bond_moves _ _ _ (ri_bonds _ Hr) HE) as (addr & n & _ & -> & _). done.
  - destruct (Unbond_moves _ _ _ (ri_bonds _ Hr) HE) as (addr & n & _ & -> & _). done.
  - by destruct (Ho p c m).
  - by destruct (finalize_rest _ _ _ _ _ _ (proj1 Ht) Hi HE) as (-> & _).
  - enough (rounds s' = rounds s) as -> by done.
    refine (proj2 (proj2 (rewards_ind order p (λ t, rounds t = rounds s) s s' Hi Hr _ eq_refl HE))). intros r t t' _ _ Hit Hrt Ht' <-.
    destruct (settle_round_Ok _ _ _ _ _ Hit (ri_funded _ Hrt) Ht') as [[-> _]|[[-> _]|Hd]]; [done..|]. by rewrite (rd_frame _ _ _ _ Hd).
  - destruct (assignNewRound_Ok p c s s' (ci_market _ Hi) HE) as [->|Hm]; [done|]. unfold round_made in Hm.
    destruct (eligibleVerifierAddrs _ _) as [el st]. by destruct Hm as (_ & _ & seed & r & _ & ? & _).
Qed.

(** A beacon is recorded once and checked: no operation changes or
    drops a recorded beacon, and one that is new was submitted for the drand round
    that the next verification round requires, with a signature of that round
    which verifies under the configured key, and with the SHA-256 of the signature
    as its randomness. *)
Theorem beacon_recorded_once order o (s s' : VStore) k : registry_inv s → op_typed o → exec order o s = Ok s' →
  drandBeacons (rounds s') !! k = drandBeacons (rounds s) !! k ∨
  ∃ p c m x t sig key id, o = OBeacon p c m ∧ k = drandBeaconKey (mdb_Round m) ∧
    drandBeacons (rounds s) !! k = None ∧ drandBeacons (rounds s') !! k = Some x ∧ db_Round x = mdb_Round m ∧
    requiredDrandRound p (nextVerificationRoundStartUnix (c_TimeNs c) (p_RoundIntervalSeconds p)) = Ok (mdb_Round m, t) ∧
    DecodeString (TrimSpace (db_SignatureHex x)) = Some sig ∧ DecodeString (TrimSpace (db_RandomnessHex x)) = Some (Sum256 sig) ∧
    DecodeString (TrimSpace (EffectiveDrandPublicKeyHex p)) = Some key ∧
    VerifyRecovered id key (digestUnchainedRound (mdb_Round m)) sig = true.
Proof.
  intros Hinv Ht HE. destruct (match o with OBeacon _ _ _ => true | _ => false end) eqn:Ho.
  - destruct o; try done. cbn [exec] in HE. apply bind_Ok_inv in HE as ([x t] & HS & [= <-]).
    destruct (beacon_Ok _ _ _ _ _ _ HS) as (Hr & Hnew & Hb & (tm & Hreq) & u & (sig & key & id & ? & ? & ? & _ & ?)%verify_beacon_Ok).
    cbn [snd]. rewrite Hb. destruct (decide (k = drandBeaconKey (mdb_Round m))) as [->|Hne]; [right|left; by rewrite lookup_insert_ne].
    exists p, c, m, x, tm, sig, key, id. rewrite lookup_insert_eq. by split_and!.
  - left. f_equal. eapply exec_beacons; [exact Hinv|exact Ht| |exact HE]. intros p c m ->. done.
Qed.

(** * Records *)

(** C28 (type).  Every stored record is valid: after any history, each website, slot
    and lease of the market, each assignment and each bond lies under its own key
    and passes the check of its type. *)
Theorem stored_records_valid order ops (b : B) : Forall op_typed ops → Z.of_nat (length ops) < 2 ^ 64 →
  let s := run order ops (no_sites b) in
  (∀ k w, websites (market s) !! k = Some w → w_Domain w = k ∧ ValidateWebsite w = Ok tt) ∧
  (∀ k x, slots (market s) !! k = Some x → s_ID x = k ∧ Slot_ValidateBasic x = Ok tt) ∧
  (∀ k l, leases (market s) !! k = Some l → l_ID l = k ∧ Lease_ValidateBasic l = Ok tt) ∧
  (∀ k a, assignments s !! k = Some a → k = assignmentKey (a_RoundStartUnix a) (a_Domain a) ∧ Assignment_ValidateBasic a = Ok tt) ∧
  (∀ k v, verifiers (bond_table s) !! k = Some v → v_Address v = k ∧ ValidateVerifier v (GetBondParams (bond_table s)) = Ok tt).
Proof.
  intros Hops Hn s. destruct (run_good order ops (no_sites b) (no_sites_inv b) Hops) as [[Hi Hr] _]; [cbn; lia..|]. fold s in Hi, Hr.
  pose proof (ci_market _ Hi) as Hm. split_and!.
  - intros k w Hw. by apply (mi_websites _ Hm).
  - intros k x Hx. destruct (mi_slots _ Hm _ _ Hx) as (? & Hok & _). split; [done|apply Hok].
  - intros k l Hl. destruct (mi_leases _ Hm _ _ Hl) as (? & Hok & _). split; [done|apply Hok].
  - intros k a Ha. destruct (ci_assignments _ Hi _ _ Ha) as (? & _). split; [done|by eapply ri_valid].
  - intros k v Hv. by apply (bi_verifiers _ (ri_bonds _ Hr)).
Qed.

(** * The end of a block *)

(** The end of a block leaves nothing that is due.  It is the
    history of its four steps, and after it every assignment that was there is
    finalised or still before its deadline, every round that was there has its
    rewards settled or an assignment that is still open, and every active lease
    ends later than the block. *)
Theorem end_block_clears order p c (s s' : VStore) : registry_inv s → ctx_typed c → EndBlock order p c s = Ok s' →
  s' = run order (block_ops p c) s ∧ registry_inv s' ∧
  (∀ k a, is_Some (assignments s !! k) → assignments s' !! k = Some a →
    (a_Finalized a = true ∨ assignment_open (block_time c) a) ∧
    (a_RewardsSettled a = true ∨ round_open (block_time c) (a_RoundStartUnix a) s')) ∧
  (∀ k l, leases (market s') !! k = Some l → l_Status l = LeaseStatusActive → block_time c < l_EndsAtUnix l).
Proof.
  intros [Hi Hr] Hc HE. split; [symmetry; by eapply EndBlock_run|]. destruct (EndBlock_steps _ _ _ _ _ Hi Hr Hc HE) as (s1 & s2 & x & Hb).
  split; [split; apply Hb|]. split; [by intros; eapply block_assignments|]. intros k l Hl.
  assert (leases (market s') = leases x) as E by (by rewrite (as_market _ _ (be_assign _ _ _ _ _ _ Hb))). rewrite E in Hl. revert Hl.
  apply (settled_leases _ (market s2)); apply Hb.
Qed.

(** * Rewards *)

(** The split of a reward loses nothing: what it pays and what it
    leaves are the total, to the last unit; it pays successful verifiers only, each
    a positive amount; and it leaves nothing when some of them has a weight. *)
Theorem split_exact total successful ws bps payout rest : 0 ≤ total →
  splitVerifierAssignmentRewards total successful ws bps = Ok (payout, rest) →
  sum_over id payout + rest = total ∧ 0 ≤ rest ∧ (∀ a x, payout !! a = Some x → a ∈ successful ∧ 0 < x) ∧
  ((∃ a w, a ∈ successful ∧ ws !! a = Some w ∧ 0 < w) → 0 < total → rest = 0).
Proof.
  intros Ht HS. destruct (split_Ok _ _ _ _ _ _ Ht HS) as (Hsum & Hrest & Hpay & Hw). split_and!; try done; lia || auto.
Qed.

(** C24 (functional).  A round is paid exactly: when the rewards settle a round whose
    assignments are all final, the two pools of the parameters are paid out and
    burnt to the last unit, in positive payments that go to the owners of the
    websites verified in the round and to the verifiers whose submissions passed
    them; every account receives its payments and nothing else, the supply grows
    by what the pool was topped up with and shrinks by what was burnt; and all the
    assignments of the round, and no other, are marked as settled. *)
Theorem round_rewards order p r (s s' : VStore) : registry_inv s → in_s 64 r → 0 < r →
  (∃ k a, assignments s !! k = Some a ∧ a_RoundStartUnix a = r ∧ a_RewardsSettled a = false) →
  (∀ k a, assignments s !! k = Some a → a_RoundStartUnix a = r → a_Finalized a = true) →
  settle_round order p r s = Ok s' →
  ∃ P V log burnt, round_pools p = Ok (P, V) ∧ paid log + burnt = P + V ∧ 0 ≤ burnt ∧
    (∀ e, e ∈ log → 0 < e.2 ∧ ∃ k a, assignments s !! k = Some a ∧ a_RoundStartUnix a = r ∧ a_Verified a = true ∧
      (owner_for a s e.1 ∨ passed_for a s e.1)) ∧
    (∀ acc d, acc_bal (bank (market s')) acc d =
      acc_bal (bank (market s)) acc d + if decide (d = verificationRewardDenom) then received acc log else 0) ∧
    supply (bank (market s')) verificationRewardDenom =
      supply (bank (market s)) verificationRewardDenom + (pool_funded s' - pool_funded s) - burnt ∧
    ∀ k, assignments s' !! k = (λ a, if decide (a_RoundStartUnix a = r) then rewards_settled a else a) <$> assignments s !! k.
Proof.
  intros [Hi Hr] Hr1 Hr2 (k0 & a0 & Ha0 & Hround & Hopen) Hfin HS.
  assert (∀ k a, assignments s !! k = Some a → same_round r a ↔ a_RoundStartUnix a = r) as Hsame.
  { intros k a Ha. destruct (ci_assignments s Hi _ _ Ha) as (_ & ? & ? & _). split; [by apply roundKey_inj|by intros <-]. }
  destruct (settle_round_Ok _ _ _ _ _ Hi (ri_funded _ Hr) HS) as [[_ (k & a & Ha & Hk%(Hsame k a Ha) & Hf)]|[[_ Hall]|Hd]].
  - rewrite (Hfin k a Ha Hk) in Hf. done.
  - rewrite (Hall k0 a0 Ha0) in Hopen; [done|by eapply Hsame].
  - destruct (rd_paid _ _ _ _ Hd) as (l & P & V & log & burnt & t & Hl & Hp & Hb & Ht). exists P, V, log, burnt.
    destruct (rp_bank _ _ _ _ _ _ _ _ Hp) as (b & [_ Ma Ms] & [_ Sa Ss Spos Sb _]). rewrite Hb, Ht. split_and!; [apply Hp..|done| | | |].
    + intros e He. rewrite list.Forall_forall in Spos. split; [by apply Spos|].
      destruct (rp_payees _ _ _ _ _ _ _ _ Hp e He) as (a & Ha & Hv & Hpay). rewrite Hl in Ha. apply listed_assignment in Ha as [Ha Hk]; [|done].
      exists (a_key a), a. split_and!; try done. by eapply Hsame.
    + intros acc d. by rewrite Sa, Ma.
    + rewrite Ss, Ms, !decide_True by done. lia.
    + intros k. rewrite (rd_marked _ _ _ _ Hd). destruct (assignments s !! k) as [a|] eqn:Ha; [|done]. cbn.
      specialize (Hsame k a Ha). f_equal.
      destruct (decide (same_round r a)), (decide (a_RoundStartUnix a = r)); done || tauto.
Qed.

(** C37 (error).  Without an equal share, one unbonded verifier stops the chain: when
    the parameters give no equal share, and a verifier whose submission passed a
    verified website has no bond any more, then the end of a block fails for as
    long as the round of that website is to be paid, whatever the pool holds. *)
Theorem unbonded_verifier_halts order p P V c k a v (s s' : VStore) : registry_inv s → ctx_typed c →
  round_due (block_time c) (a_RoundStartUnix a) s → assignments s !! k = Some a → a_Finalized a = true → a_Verified a = true →
  round_pools p = Ok (P, V) → Z.of_nat (size (assignments s)) ≤ V → EffectiveVerifierRewardBaseShareBps p = 0 →
  v ∈ successful_verifiers a s → bonds_of s !! v = None → EndBlock order p c s ≠ Ok s'.
Proof. apply unbonded_end. Qed.

(** C7 (refinement).  The module implements the abstract emission: each operation is,
    on the pool, the funds, the supply and the settled rounds, a sequence of the
    abstract step, which settles a round that was not settled before, tops the pool
    up to its target, takes the cost of the round out of it, and burns no more than
    that; the rewards do one step for each round they settle, everything else none. *)
Theorem emission_refines order o p P V (s s' : VStore) : registry_inv s → op_typed o → round_pools p = Ok (P, V) →
  (∀ q, o = ORewards q → q = p) → exec order o s = Ok s' →
  rtc (emits p (P + V)) (emission_of s) (emission_of s').
Proof. apply exec_emits. Qed.

(** C11 (invariant).  The books of the emission balance: after any history the pool
    holds what it started with and what was minted for it, less the two pools of
    each settled round, once; the supply has grown by no more than what was minted
    for the pool; and that is at most the target of the parameters. *)
Theorem emission_accounted order ops (b : B) p P V : Forall op_typed ops → Z.of_nat (length ops) < 2 ^ 64 →
  (∀ q, ORewards q ∈ ops → q = p) → round_pools p = Ok (P, V) →
  let s := run order ops (no_sites b) in
  mod_bal (bank (market s)) tokenomics_module verificationRewardDenom =
    mod_bal b tokenomics_module verificationRewardDenom + pool_funded s - (P + V) * Z.of_nat (size (settled_rounds s)) ∧
  supply (bank (market s)) verificationRewardDenom ≤ supply b verificationRewardDenom + pool_funded s ∧
  pool_funded s ≤ funded_to p 0.
Proof.
  intros Hops Hn Hq Hpools s.
  destruct (run_ind order (λ t, rtc (emits p (P + V)) (emission_of (no_sites b)) (emission_of t)) ops (no_sites b) (no_sites_inv b) Hops)
    as [_ Hr]; [cbn; lia|cbn; lia| |done|].
  - intros o t t' Hin Hi _ _ Ht HE Hr. etrans; [exact Hr|]. eapply exec_emits; [exact Hi|exact Ht|exact Hpools| |exact HE].
    intros q ->. by apply Hq.
  - fold s in Hr. apply emits_books in Hr as (B1 & B2 & B3 & _). cbn in B1, B2, B3.
    assert (settled_rounds (no_sites b) = ∅) as E0 by done. rewrite E0, size_empty in B1. pose proof (funded_to_ge p 0). split_and!; lia.
Qed.

(** The emission lasts as long as the parameters say: as many rounds as
    fit in its duration cost no more than the target of the pool. *)
Theorem emission_budget p P V n : 0 < p_RoundIntervalSeconds p → EffectiveEmissionDurationHours p * 36000000 < 2 ^ 63 →
  RoundEmissionPools p (p_RoundIntervalSeconds p) = Ok (P, V) →
  0 ≤ n → n * p_RoundIntervalSeconds p ≤ EffectiveEmissionDurationHours p * 3600 → n * (P + V) ≤ emission_target p.
Proof.
  intros Hi Hd HE Hn Hle. destruct (effective_pos p) as (H1' & H2' & H3' & H4').
  destruct (emission_pools_Ok _ _ _ _ Hi HE) as (_ & -> & ->).
  assert (emission_denominator p = EffectiveEmissionDurationHours p * 36000000) as ->.
  { unfold emission_denominator. rewrite (i64_id (_ * 3600)), i64_id by lia. lia. }
  unfold emission_target. revert Hd Hle H1' H2' H3' H4'.
  generalize (EffectiveEmissionTotalSupply p) (EffectivePublisherEmissionBps p) (EffectiveVerifierEmissionBps p)
    (EffectiveEmissionDurationHours p) (p_RoundIntervalSeconds p) Hi. clear. intros S pb vb D i Hi Hd Hle HS Hpb Hvb HD.
  assert (∀ q, 0 < q → n * Z.quot (S * q * i) (D * 36000000) * (D * 36000000) ≤ S * q * (D * 3600)) as Hq.
  { intros q Hq. pose proof (Z.mul_quot_le (S * q * i) (D * 36000000) ltac:(nia) ltac:(lia)).
    assert (0 ≤ S * q) by nia. nia. }
  pose proof (Hq pb Hpb) as HP. pose proof (Hq vb Hvb) as HV. revert HP HV. set (x := Z.quot _ _). set (y := Z.quot _ _). intros HP HV.
  apply Z.quot_le_lower_bound; [lia|]. assert (10000 * (n * (x + y)) * (D * 3600) ≤ S * (pb + vb) * (D * 3600)) by lia. nia.
Qed.

(** C36 (error).  The emission has no end: once the pool is funded to its target and
    holds less than the cost of a round, the end of a block fails when a round is
    due to be paid. *)
Theorem exhausted_pool_halts order p P V c r (s s' : VStore) : registry_inv s → ctx_typed c → in_s 64 r → 0 < r →
  round_due (block_time c) r s → round_pools p = Ok (P, V) → 0 < P + V → funded_to p (pool_funded s) = pool_funded s →
  mod_bal (bank (market s)) tokenomics_module verificationRewardDenom < P + V → EndBlock order p c s ≠ Ok s'.
Proof. apply exhausted_end. Qed.

(** * Bonds *)

(** C12 (invariant).  The bonds are covered: after any history the account of the
    verifiers module holds, in each denomination, at least what it started with and
    all that is bonded. *)
Theorem bonds_covered order ops (b : B) d : Forall op_typed ops → Z.of_nat (length ops) < 2 ^ 64 →
  let s := run order ops (no_sites b) in
  mod_bal b verifiers_module d + bonded d (bond_table s) ≤ mod_bal (bank (market s)) verifiers_module d.
Proof. intros Hops Hn s. destruct (run_slack order ops b d Hops Hn) as [_ Hs]. fold s in Hs. unfold slack in Hs. lia. Qed.

(** C27 (liveness).  A verifier can always leave: after any history, the whole bond of
    a verifier whose account may receive coins is withdrawn by one call, which
    succeeds, pays the bond into the account and ends the stake. *)
Theorem bond_withdrawable order ops (b : B) addr v : Forall op_typed ops → Z.of_nat (length ops) < 2 ^ 64 →
  let s := run order ops (no_sites b) in
  0 ≤ mod_bal b verifiers_module (c_Denom (v_Bond v)) → verifiers (bond_table s) !! AccString addr = Some v → 0 < c_Amount (v_Bond v) →
  blockedAddr addr = false →
  ∃ w t' b', UnbondCoins addr (v_Bond v) (bond_table s) (bank (market s)) = Ok (w, t', b') ∧
    acc_bal b' addr (c_Denom (v_Bond v)) = acc_bal (bank (market s)) addr (c_Denom (v_Bond v)) + c_Amount (v_Bond v) ∧
    stake t' (AccString addr) = 0.
Proof.
  intros Hops Hn s Hb0 Hv Hpos Hbl. destruct (run_slack order ops b (c_Denom (v_Bond v)) Hops Hn) as [[_ Hr] Hs]. fold s in Hr, Hs.
  pose proof (ri_bonds _ Hr) as Hi. destruct (bi_verifiers _ Hi _ _ Hv) as [_ (_ & _ & Hd & _)%valid_verifier].
  pose proof (bonded_covers _ (AccString addr) v Hi Hv) as Hc. rewrite <- Hd in Hc. unfold slack in Hs.
  destruct (UnbondCoins_total addr (c_Amount (v_Bond v)) (bond_table s) (bank (market s)) v Hi Hv) as (w & t' & b' & HU); [lia|rewrite <- Hd; lia|done|].
  rewrite <- Hd, coin_eta in HU. exists w, t', b'. split; [done|]. pose proof (UnbondCoins_Ok _ _ _ _ _ _ _ Hi HU) as [Hu1 Hu2 _ Ht _ _].
  rewrite <- Hd in Hu2. destruct (ModuleToAccount_spec _ _ _ _ _ _ Hpos Hu2) as (_ & _ & Ha & _). rewrite Ha, decide_True by done. split; [done|].
  cbv zeta in Ht. unfold stake. rewrite Ht. unfold stake. rewrite Hv, Z.sub_diag.
  destruct (0 <? bp_MinBond _); [by rewrite lookup_delete_eq|by rewrite lookup_insert_eq].
Qed.

(** A partial withdrawal can lose the rest: when it leaves less than
    the minimum, the record of the verifier is deleted with the rest of its bond in
    it, which stays in the module account beyond every recorded bond, and no later
    call gives it back. *)
Theorem unbond_strands_residue addr c t (b : B) w t' b' : bonds_inv t → UnbondCoins addr c t b = Ok (w, t', b') →
  let rest := stake t (AccString addr) - c_Amount c in
  0 < rest < bp_MinBond (GetBondParams t) →
  stake t' (AccString addr) = 0 ∧
  slack (bp_BondDenom (GetBondParams t)) t' b' = slack (bp_BondDenom (GetBondParams t)) t b + rest ∧
  ∀ c' b'' r, UnbondCoins addr c' t' b'' ≠ Ok r.
Proof.
  intros Hi HU rest Hrest. pose proof (UnbondCoins_Ok _ _ _ _ _ _ _ Hi HU) as Hu. pose proof (ub_table _ _ _ _ _ _ Hu) as Ht. cbv zeta in Ht.
  fold rest in Ht. destruct (Z.ltb_spec rest (bp_MinBond (GetBondParams t))); [|lia].
  assert (verifiers t' !! AccString addr = None) as Hnone by (rewrite Ht; apply lookup_delete_eq). split_and!.
  - unfold stake. by rewrite Hnone.
  - rewrite (unbonds_slack _ _ _ _ _ _ _ Hi Hu), decide_True by done. unfold residue. fold rest.
    destruct (Z.ltb_spec rest (bp_MinBond (GetBondParams t))); lia.
  - intros c' b'' r HE. unfold UnbondCoins in HE. run_ok HE; unfold GetVerifier in *; congruence.
Qed.
End Props.
