(* ===== verification/FinalizeTotal.v ===== *)
(** The finalisation of assignments goes through: every write it makes passes its
    check and every refund is covered, in a market whose records are in order, whose
    escrow is covered, whose payees may receive coins and whose cooldowns fit a
    64-bit time; and it leaves such a market. *)

From stdpp Require Import sorting.
From S2P Require Import Prelude JsBase GoBase GoHash Market MarketProofs GoSdk Tokenomics Verifiers RegParams Verification VerificationProofs BankFrame ChainInv Rounds RoundProofs Rewards RewardProofs RoundSteps RoundInv Chain.

Section Total.
Context `{GoEnv} {B : Type} `{BankKeeper B}.
Abbreviation Store := (Store B).
Abbreviation VStore := (VStore B).
Context (now base : Z).
Hypothesis now_pos : 0 < now.
Hypothesis base_pos : 0 < base.
Hypothesis base_fits : base + now < 2 ^ 63.

(** * Markets in which the finalisation goes through *)

(** Whoever the text names may receive coins. *)
Definition receives (t : gostr) : Prop := ∀ a, AccAddressFromBech32 t = Some a → blockedAddr a = false.

(** The owner of a website, and the one who may take it over, may receive coins; and
    the cooldown that a violation would start ends before the last 64-bit time. *)
Record site_ok (w : Website) : Prop := {
  sk_owner : receives (w_Owner w);
  sk_pending : blank (w_PendingOwner w) = false → receives (TrimSpace (w_PendingOwner w));
  sk_cooldown : w_CooldownUntilUnix w ≤ now → w_CooldownCount w + 1 < 2 ^ 31 ∧ base * 2 ^ w_CooldownCount w + now < 2 ^ 63 }.

Record payable (m : Store) : Prop := {
  py_inv : market_inv m;
  py_solvent : solvent m;
  py_payees : payees_ok m;
  py_sites : map_Forall (λ _ w, site_ok w) (websites m) }.

(** ** Websites that are written back *)

Ltac fields := cbn [fst with_status with_pending with_cooldown take_over w_Domain w_Owner w_Status w_MetadataURI w_Proof w_RegisteredAtHeight
  w_Verifier w_Referrer w_CooldownUntilUnix w_CooldownCount w_PendingOwner w_PendingReferrer] in *.
Ltac site_checks :=
  unfold ValidateWebsite; rewrite !first_error_ok;
  let Hv := fresh "Hv" in intros Hv; repeat (apply Forall_cons_1 in Hv as [? Hv]); fields;
  repeat (apply list.Forall_cons; split; [fields; try assumption|]); [..|constructor].

Lemma ValidateWebsite_parts w : ValidateWebsite w = Ok tt →
  0 ≤ w_CooldownCount w ∧ (blank (w_PendingOwner w) = false → addr_ok (TrimSpace (w_PendingOwner w)) = true ∧
    (blank (w_PendingReferrer w) = false → addr_ok (TrimSpace (w_PendingReferrer w)) = true)).
Proof.
  unfold ValidateWebsite. intros Hv%first_error_ok. repeat (apply Forall_cons_1 in Hv as [? Hv]). fields.
  destruct (blank (w_PendingOwner w)), (blank (w_PendingReferrer w)), (addr_ok (TrimSpace (w_PendingOwner w))), (addr_ok (TrimSpace (w_PendingReferrer w)));
    cbn in *; zb; (split; [lia|]); done.
Qed.

Lemma valid_status st w : 1 ≤ st ≤ 3 → ValidateWebsite w = Ok tt → ValidateWebsite (with_status st w) = Ok tt.
Proof. intros Hs. site_checks. unfold StatusPending, StatusRevoked. apply orb_false_iff. rewrite !Z.ltb_ge. lia. Qed.

Lemma valid_unpending w : ValidateWebsite w = Ok tt → ValidateWebsite (with_pending [] [] w) = Ok tt.
Proof. site_checks; reflexivity. Qed.

Lemma valid_cooldown until count w : 0 ≤ until → 0 ≤ count → ValidateWebsite w = Ok tt → ValidateWebsite (with_cooldown until count w) = Ok tt.
Proof. intros Hu Hc. site_checks; apply Z.ltb_ge; lia. Qed.

Lemma not_blank s : blank s = false → TrimSpace s ≠ [].
Proof. unfold blank. by destruct (TrimSpace s). Qed.

Lemma valid_take_over h w : 0 ≤ h → blank (w_PendingOwner w) = false → ValidateWebsite w = Ok tt → ValidateWebsite (take_over h w) = Ok tt.
Proof.
  intros Hh Hb Hw. destruct (ValidateWebsite_parts w Hw) as (_ & Hp). destruct (Hp Hb) as [Ho Hr]. pose proof (not_blank _ Hb) as Hne.
  revert Hw. site_checks; try reflexivity.
  - by rewrite Ho.
  - apply Z.ltb_ge. lia.
  - unfold blank in Hr |- *. rewrite TrimSpace_idem. destruct (TrimSpace (w_PendingReferrer w)); [done|]. by rewrite Hr.
Qed.

Lemma upsert_total w w' (m : Store) : payable m → websites m !! w_Domain w = Some w → w_Domain w' = w_Domain w →
  ValidateWebsite w' = Ok tt → site_ok w' →
  ∃ m', UpsertWebsite w' m = Ok m' ∧ payable m' ∧ websites m' = <[w_Domain w := w']> (websites m).
Proof.
  intros [Hi Hs Hp Hw] Hg Hd Hv Hk.
  assert (UpsertWebsite w' m = Ok (set_websites (<[w_Domain w := w']> (websites m)) m)) as E.
  { unfold UpsertWebsite. rewrite Hd, (stored_domain_normal m) by eauto. cbv zeta.
    assert (with_w_domain (w_Domain w) w' = w') as -> by (rewrite <- Hd; by destruct w'). by rewrite Hv, Hd. }
  exists (set_websites (<[w_Domain w := w']> (websites m)) m). split; [done|]. split; [|done].
  split; try done; [by eapply UpsertWebsite_inv|]. cbn. by apply map_Forall_insert_2.
Qed.

(** ** Slots that change hands *)

Lemma valid_slot x owner : slot_ok x → blank owner = false → addr_ok (TrimSpace owner) = true →
  Slot_ValidateBasic (set_publisher owner now x) = Ok tt.
Proof.
  intros [Hv _ _] Hb Ho. revert Hv. unfold Slot_ValidateBasic. rewrite !first_error_ok. intros Hv.
  repeat (apply Forall_cons_1 in Hv as [? Hv]). cbn in *. repeat (apply list.Forall_cons; split; [cbn; try done|]); try done.
  - by rewrite Ho.
  - zb. apply orb_false_iff. rewrite !Z.ltb_ge. lia.
Qed.

Lemma transfer_total d prev owner (m : Store) : payable m → blank owner = false → addr_ok (TrimSpace owner) = true →
  ∃ m', transferSlotsForDomain d prev owner now m = Ok m' ∧ payable m' ∧ websites m' = websites m.
Proof.
  intros [Hi Hs Hp Hw] Hb Ho.
  assert (∃ m', transferSlotsForDomain d prev owner now m = Ok m') as [m' HT].
  { unfold transferSlotsForDomain.
    assert (Forall (λ x, slot_ok x ∧ NormalizeDomain (s_Domain x) = s_Domain x)
      (filter (λ x, s_Domain x = NormalizeDomain d ∧ s_Publisher x = TrimSpace prev) (values (slots m)))) as Hl.
    { apply list.Forall_forall. intros x [_ [k Hk]%elem_of_values]%list_elem_of_filter. destruct (mi_slots m Hi k x Hk) as (_ & Hx & Hd & _).
      split; [done|]. by eapply stored_domain_normal. }
    revert Hl. generalize (filter (λ x, s_Domain x = NormalizeDomain d ∧ s_Publisher x = TrimSpace prev) (values (slots m))).
    clear Hi Hs Hp Hw. intros l. revert m. induction l as [|x l IH]; intros m Hl; [by eexists|]. apply Forall_cons_1 in Hl as [[Hx Hn] Hl]. cbn [each].
    assert (SetSlot (set_publisher (TrimSpace owner) now x) m = Ok (set_slots (<[s_ID x := set_publisher (TrimSpace owner) now x]> (slots m)) m)) as ->.
    { unfold SetSlot. change (s_Domain (set_publisher (TrimSpace owner) now x)) with (s_Domain x). rewrite Hn.
      change (with_domain (s_Domain x) (set_publisher (TrimSpace owner) now x)) with (set_publisher (TrimSpace owner) now x).
      cbv zeta. rewrite valid_slot; [done|done|by unfold blank in *; rewrite TrimSpace_idem|by rewrite TrimSpace_idem]. }
    cbn [mbind result_bind]. by apply IH. }
  exists m'. split; [done|]. destruct (transfer_frame _ _ _ _ _ _ HT) as (Hl & Hbk & Hws & _). split; [|done]. split.
  - by eapply transferSlotsForDomain_inv.
  - intros c. unfold surplus. rewrite Hl, Hbk. apply Hs.
  - unfold payees_ok. by rewrite Hl.
  - by rewrite Hws.
Qed.

(** ** The branches of the callback *)

Lemma site_facts d w (m : Store) : payable m → websites m !! d = Some w → w_Domain w = d ∧ ValidateWebsite w = Ok tt ∧ site_ok w.
Proof. intros [Hi _ _ Hw] Hg. destruct (mi_websites m Hi d w Hg). eauto. Qed.

(** A website that keeps its owner, its candidate and its cooldown is as good. *)
Lemma site_ok_same w w' : site_ok w → w_Owner w' = w_Owner w → w_PendingOwner w' = w_PendingOwner w →
  w_CooldownUntilUnix w' = w_CooldownUntilUnix w → w_CooldownCount w' = w_CooldownCount w → site_ok w'.
Proof. intros [Ho Hp Hc] E1 E2 E3 E4. split; [by rewrite E1|by rewrite E2|by rewrite E3, E4]. Qed.

Lemma reregistration_total height quorum verified a w (s : VStore) : 0 ≤ height → payable (market s) →
  websites (market s) !! w_Domain w = Some w →
  ∃ r, finalize_reregistration now height quorum verified a w s = Ok r ∧ payable (market r.2).
Proof.
  intros Hh Hp Hg. destruct (site_facts _ _ _ Hp Hg) as (_ & Hv & Hk). unfold finalize_reregistration.
  destruct (candidateMatches a w) eqn:Hc; cbn [negb]; [|by eexists]. unfold candidateMatches in Hc. apply andb_true_iff in Hc as [Hb%negb_true_iff _].
  destruct (ValidateWebsite_parts w Hv) as (_ & Hpo). destruct (Hpo Hb) as [Ho _]. pose proof (valid_take_over height w Hh Hb Hv) as Hv'. destruct verified.
  - destruct (transfer_total (w_Domain w) (w_Owner w) (w_Owner (take_over height w)) (market s) Hp) as (m & E & Hm & Ew).
    { cbn [take_over w_Owner]. unfold blank in *. by rewrite TrimSpace_idem. }
    { cbn [take_over w_Owner]. by rewrite TrimSpace_idem. }
    destruct (upsert_total w (take_over height w) m) as (m' & E' & Hm' & _); [done|by rewrite Ew|done|done| |].
    { split; cbn [take_over w_Owner w_PendingOwner w_CooldownUntilUnix w_CooldownCount]; [by apply Hk|done|]. intros _.
      rewrite Z.pow_0_r, Z.mul_1_r. split; [done|exact base_fits]. }
    unfold on_market. rewrite E. cbn [mbind result_bind market set_market]. rewrite E'. cbn [mbind result_bind]. by eexists.
  - destruct quorum; [|by eexists]. destruct (upsert_total w (with_pending [] [] w) (market s)) as (m' & E' & Hm' & _); try done.
    { by apply valid_unpending. }
    { destruct Hk. split; cbn [with_pending w_Owner w_PendingOwner w_CooldownUntilUnix w_CooldownCount]; done. }
    unfold on_market. rewrite E'. cbn [mbind result_bind]. by eexists.
Qed.

Lemma clear_cooldown_total w (m : Store) : payable m → websites m !! w_Domain w = Some w →
  ∃ r, clearPublisherCooldown w m = Ok r ∧ payable r.2.
Proof.
  intros Hp Hg. destruct (site_facts _ _ _ Hp Hg) as (_ & Hv & Hk). unfold clearPublisherCooldown. destruct (_ && _); [by eexists|].
  destruct (upsert_total w (with_cooldown 0 0 w) m) as (m' & -> & Hm' & _); try done; [by apply valid_cooldown| |by eexists].
  destruct Hk as [Ho Hpe _]. split; cbn [with_cooldown w_Owner w_PendingOwner w_CooldownUntilUnix w_CooldownCount]; [done..|].
  rewrite Z.pow_0_r, Z.mul_1_r. split; [done|exact base_fits].
Qed.

Lemma status_total st w (m : Store) : 1 ≤ st ≤ 3 → payable m → websites m !! w_Domain w = Some w →
  ∃ m', UpsertWebsite (with_status st w) m = Ok m' ∧ payable m' ∧ websites m' !! w_Domain w = Some (with_status st w).
Proof.
  intros Hs Hp Hg. destruct (site_facts _ _ _ Hp Hg) as (_ & Hv & Hk).
  destruct (upsert_total w (with_status st w) m) as (m' & E & Hm' & Ew); try done; [by apply valid_status|by eapply site_ok_same|].
  exists m'. split_and!; try done. by rewrite Ew, lookup_insert_eq.
Qed.

Lemma verified_total st a w (s : VStore) : payable (market s) → websites (market s) !! w_Domain w = Some w →
  ∃ s', finalize_verified now st a w s = Ok s' ∧ payable (market s').
Proof.
  intros Hp Hg. unfold finalize_verified. set (w' := if w_Status w =? StatusVerified then w else with_status StatusVerified w).
  assert (∃ s1, (if w_Status w =? StatusVerified then Ok s else on_market (UpsertWebsite w') s) = Ok s1 ∧ payable (market s1) ∧
    websites (market s1) !! w_Domain w' = Some w') as (s1 & -> & Hp1 & Hg1).
  { unfold w'. destruct (w_Status w =? StatusVerified); [by exists s|].
    destruct (status_total StatusVerified w (market s)) as (m' & E & Hm & Hw'); [done..|]. unfold on_market. rewrite E. cbn [mbind result_bind]. by eexists. }
  cbn [mbind result_bind].
  match goal with |- ∃ _, on_market _ ?s2 = _ ∧ _ => assert (market s2 = market s1) as Hm end.
  { destruct (empty _); [done|]. unfold SetPublisherSimilarStats. by destruct (Stats_ValidateBasic _). }
  unfold on_market. rewrite Hm. destruct (clear_cooldown_total w' (market s1) Hp1 Hg1) as (r & -> & Hr). cbn [mbind result_bind]. by eexists.
Qed.

Lemma demote_total p w (s : VStore) : payable (market s) → websites (market s) !! w_Domain w = Some w →
  ∃ w' s', demote p w s = Ok (w', s') ∧ payable (market s') ∧ websites (market s') !! w_Domain w' = Some w'.
Proof.
  intros Hp Hg. unfold demote. destruct (_ || _); [|eauto 10]. cbn [IncrementPublisherFailureStreak]. destruct (w_Status w =? StatusVerified); [|by eexists _, _].
  set (st := if _ <=? _ then StatusRevoked else StatusPending).
  destruct (status_total st w (market s)) as (m' & E & Hm & Hw'); [unfold st; by destruct (_ <=? _)|done..|].
  unfold on_market. cbn [market SetPublisherFailureStreak set_streaks]. rewrite E. cbn [mbind result_bind]. by eexists _, _.
Qed.

(** The cooldown of a violation is the doubled base, and ends after the block. *)
Lemma cooldown_total w (m : Store) : payable m → websites m !! w_Domain w = Some w → w_CooldownUntilUnix w ≤ now →
  ∃ r, applyPublisherCooldown base now w m = Ok r ∧ payable r.2.
Proof.
  intros Hp Hg Hu. destruct (site_facts _ _ _ Hp Hg) as (_ & Hv & Hk). destruct (ValidateWebsite_parts w Hv) as (Hc & _).
  destruct (sk_cooldown w Hk Hu) as [H1' H2']. unfold applyPublisherCooldown.
  assert (swrap 32 (w_CooldownCount w + 1) = w_CooldownCount w + 1) as -> by (apply swrap_small; unfold in_s; lia).
  assert (computeCooldownSeconds base (w_CooldownCount w + 1) = base * 2 ^ w_CooldownCount w) as ->.
  { unfold computeCooldownSeconds. destruct (Z.leb_spec base 0); [lia|]. destruct (Z.leb_spec (w_CooldownCount w + 1) 0); [lia|]. cbn [orb].
    replace (w_CooldownCount w + 1 - 1) with (w_CooldownCount w) by lia. rewrite double_times_exact; [by rewrite Z2Nat.id|done|rewrite Z2Nat.id; lia]. }
  assert (0 < base * 2 ^ w_CooldownCount w) as Hd by (apply Z.mul_pos_pos; [done|by apply Z.pow_pos_nonneg]).
  destruct (Z.leb_spec (base * 2 ^ w_CooldownCount w) 0); [lia|]. cbn [guard_err mbind result_bind].
  assert (i64 (now + base * 2 ^ w_CooldownCount w) = now + base * 2 ^ w_CooldownCount w) as -> by (apply swrap_small; unfold in_s; lia).
  destruct (upsert_total w (with_cooldown (now + base * 2 ^ w_CooldownCount w) (w_CooldownCount w + 1) w) m) as (m' & E & Hm' & _); try done.
  - apply valid_cooldown; [lia|lia|done].
  - destruct Hk. split; cbn [with_cooldown w_Owner w_PendingOwner w_CooldownUntilUnix w_CooldownCount]; [done..|lia].
  - rewrite E. cbn [mbind result_bind]. by eexists.
Qed.

Lemma violation_total d (m : Store) : payable m → ∃ m', violateActiveLeasesForDomain d now now m = Ok m' ∧ payable m'.
Proof.
  intros [Hi Hs Hp Hw]. destruct (violate_total d now now m) as [m' E]; [done..|]. exists m'. split; [done|].
  destruct (violate_effect _ _ _ _ _ now_pos Hi E) as (Hi' & Hsur & _ & _ & _ & Hws & _ & Hin & Hout & _). split; [done| | |by rewrite Hws].
  - intros c. rewrite Hsur. apply Hs.
  - intros k l to_ a Hl Hst. destruct (decide (k ∈ l_ID <$> filter (λ l, running d now m l = true) (values (leases m)))) as [Hk|Hk].
    + apply list_elem_of_fmap in Hk as (l0 & -> & Hl0). pose proof (Hin l0 Hl0) as E0. apply list_elem_of_filter in Hl0 as [Hr _].
      apply running_active in Hr. rewrite Hl in E0. unfold violation in E0. rewrite Hr in E0. cbn in E0. injection E0 as ->. done.
    + rewrite (Hout k Hk) in Hl. by eapply Hp.
Qed.

Lemma failed_total p w (s : VStore) : p_CooldownBaseSeconds p = base → payable (market s) → websites (market s) !! w_Domain w = Some w →
  ∃ s', finalize_failed p now w s = Ok s' ∧ payable (market s').
Proof.
  intros Eb Hp Hg. unfold finalize_failed. destruct (demote_total p w s Hp Hg) as (w' & s1 & -> & Hp1 & Hg1). cbn [mbind result_bind].
  destruct (activeLeasesForDomain _ _ _ _); [by eexists|]. destruct (Z.leb_spec (w_CooldownUntilUnix w') now) as [Hu|]; [|by eexists].
  rewrite Eb. destruct (cooldown_total w' (market s1) Hp1 Hg1 Hu) as (r & E1 & Hr). destruct (violation_total (w_Domain r.1.1) r.2 Hr) as (m' & E2 & Hm').
  unfold on_market. rewrite E1. cbn [mbind result_bind]. rewrite E2. cbn [mbind result_bind]. by eexists.
Qed.

Lemma finalize_one_total order p height a (s : VStore) : 0 ≤ height → p_CooldownBaseSeconds p = base → payable (market s) →
  NormalizeDomain (a_Domain a) = a_Domain a → Assignment_ValidateBasic a = Ok tt →
  ∃ s', finalize_one order p now height a s = Ok s' ∧ payable (market s').
Proof.
  intros Hh Eb Hp Hn Ha. unfold finalize_one. destruct (_ || _); [by eexists|]. cbv zeta.
  match goal with |- context [mbind ?k ?r] => assert (∃ v s1, r = Ok (v, s1) ∧ payable (market s1)) as (v & s1 & -> & Hp1) end.
  { destruct (GetWebsite (a_Domain a) (market s)) as [w|] eqn:Hw; [|by eexists _, _]. unfold GetWebsite in Hw. rewrite Hn in Hw.
    assert (websites (market s) !! w_Domain w = Some w) as Hg by (by destruct (site_facts _ _ _ Hp Hw) as [-> _]).
    destruct (a_Reregistration a).
    - match goal with |- context [finalize_reregistration now height ?q ?v a w s] =>
        destruct (reregistration_total height q v a w s Hh Hp Hg) as ([? ?] & E & Hr) end. by eexists _, _.
    - destruct (_ && _).
      + match goal with |- context [finalize_verified now ?st a w s] => destruct (verified_total st a w s Hp Hg) as (s1 & E & Hr) end.
        rewrite E. cbn [mbind result_bind]. by eexists _, _.
      + destruct (has_quorum _ _); [|by eexists _, _]. destruct (failed_total p w s Eb Hp Hg) as (s1 & E & Hr). rewrite E. cbn [mbind result_bind]. by eexists _, _. }
  cbn [mbind result_bind]. unfold SetAssignment. change (a_Domain (finalized now v a)) with (a_Domain a). rewrite Hn. cbv zeta.
  assert (Assignment_ValidateBasic (with_a_domain (a_Domain a) (finalized now v a)) = Ok tt) as ->.
  { by destruct a. }
  cbn [mbind result_bind]. eexists. split; [done|]. cbn [market]. by rewrite penalties_market.
Qed.

(** The finalisation goes through. *)
Lemma finalize_total order p height (s : VStore) : 0 ≤ height → p_CooldownBaseSeconds p = base → chain_inv s →
  (∀ k a, assignments s !! k = Some a → Assignment_ValidateBasic a = Ok tt) → payable (market s) →
  ∃ s', finalizeAssignments order p now height s = Ok s' ∧ payable (market s').
Proof.
  intros Hh Eb Hi Hv Hp. unfold finalizeAssignments.
  assert (Forall (λ a, NormalizeDomain (a_Domain a) = a_Domain a ∧ Assignment_ValidateBasic a = Ok tt) (values (assignments s))) as Hl.
  { apply list.Forall_forall. intros a [k Ha]%elem_of_values. split; [|by eapply Hv]. destruct (ci_assignments s Hi k a Ha) as (_ & _ & _ & Hw).
    eapply stored_domain_normal; [apply Hi|done]. }
  revert Hl. generalize (values (assignments s)). clear Hi Hv. intros l. revert s Hp. induction l as [|a l IH]; intros s Hp Hl; [by eexists|].
  apply Forall_cons_1 in Hl as [[Hn Ha] Hl]. cbn [each]. destruct (finalize_one_total order p height a s Hh Eb Hp Hn Ha) as (s1 & -> & Hp1).
  cbn [mbind result_bind]. by apply IH.
Qed.
End Total.
