(* ===== verification/RewardsTotal.v ===== *)
(** The rewards go through: a split of moderate amounts gives every verifier its share,
    and a round whose pools are in the emission pool is paid to the last unit when
    its payees may receive coins. *)

From stdpp Require Import sorting.
From S2P Require Import Prelude JsBase GoBase GoHash Market MarketProofs GoSdk Tokenomics Verifiers RegParams Verification VerificationProofs BankFrame ChainInv Rounds RoundProofs Rewards RewardProofs RoundSteps RoundInv FinalizeTotal Chain EndBlock Emission.

(** * The split *)

(** The addresses that have a payout keep one. *)
Definition pays_on (t t' : Split) : Prop := ∀ a, is_Some (sp_payout t !! a) → is_Some (sp_payout t' !! a).

Lemma payout_le_sum t a x : payouts_pos t → sp_payout t !! a = Some x → x ≤ sum_over id (sp_payout t).
Proof. intros Hp Hx. refine (sum_over_ge id (sp_payout t) a x _ Hx). intros k v Hv. specialize (Hp k v Hv). cbn. lia. Qed.

Lemma give_share_total addr n t : payouts_pos t → 0 ≤ n → 0 ≤ sp_distributed t → sp_distributed t + n ≤ 2 ^ 64 →
  sum_over id (sp_payout t) + n ≤ 2 ^ 64 → n ≤ sp_remaining t ≤ 2 ^ 64 →
  ∃ t', give_share addr n t = Ok t' ∧ pays_on t t' ∧ (0 < n → is_Some (sp_payout t' !! addr)).
Proof.
  intros Hp Hn Hd Hd' Hs Hr. unfold give_share. destruct (Z.leb_spec n 0); [exists t; split_and!; [done|by intros a|lia]|].
  assert (∃ m, match sp_payout t !! addr with Some existing => Int_Add existing n | None => Ok n end = Ok m) as [m ->].
  { destruct (sp_payout t !! addr) as [x|] eqn:Ex; [|eauto]. pose proof (payout_le_sum t addr x Hp Ex). specialize (Hp addr x Ex).
    exists (x + n). apply chk_in. unfold int256. lia. }
  unfold Int_Add, Int_Sub. rewrite !chk_in by (unfold int256; lia). cbn [mbind result_bind]. eexists. split; [done|]. split; cbn [sp_payout].
  - intros a Ha. cbn [sp_payout]. destruct (decide (a = addr)) as [->|Hne]; [rewrite lookup_insert_eq; eauto|by rewrite lookup_insert_ne].
  - intros _. rewrite lookup_insert_eq. eauto.
Qed.

Lemma deal_total {A} addr (share : A → result err Z) (g : A → Z) pool l t : payouts_pos t →
  (∀ x, x ∈ l → share x = Ok (g x) ∧ 0 ≤ g x) → 0 ≤ sp_distributed t → sp_distributed t + sumZ (g <$> l) ≤ pool → pool ≤ 2 ^ 64 →
  sum_over id (sp_payout t) + (pool - sp_distributed t) ≤ 2 ^ 64 → pool - sp_distributed t ≤ sp_remaining t ≤ 2 ^ 64 →
  ∃ t', deal addr share pool l t = Ok t' ∧ pays_on t t' ∧ ∀ x, x ∈ l → 0 < g x → is_Some (sp_payout t' !! addr x).
Proof.
  revert t. induction l as [|x l IH]; intros t Hp Hg Hd Hle Hm Hs Hr; [exists t; split_and!; [done|by intros a|by intros x ?%elem_of_nil]|].
  rewrite fmap_cons in Hle. unfold sumZ in Hle. cbn [foldr] in Hle. destruct (Hg x ltac:(by left)) as [Ex Hx].
  assert (0 ≤ sumZ (g <$> l)) as Hr' by (apply sumZ_nonneg, Forall_fmap, list.Forall_forall; intros y Hy; apply Hg; by right).
  unfold sumZ in Hr'. destruct l as [|y l].
  - cbn [deal]. unfold Int_Sub. rewrite chk_in by (unfold int256; cbn in *; lia). cbn [mbind result_bind fmap list_fmap foldr] in *.
    destruct (give_share_total (addr x) (pool - sp_distributed t) t) as (t' & -> & Ht & Hpay); try done; [lia..|].
    exists t'. split_and!; [done|done|]. intros z [->|?%elem_of_nil]%elem_of_cons Hz; [|done]. apply Hpay. lia.
  - change (deal addr share pool (x :: y :: l) t) with (n ← share x; t ← give_share (addr x) n t; deal addr share pool (y :: l) t).
    rewrite Ex. cbn [mbind result_bind]. destruct (give_share_total (addr x) (g x) t) as (t1 & E1 & Ht & Hpay); try done; [lia..|].
    pose proof (give_share_Ok _ _ _ _ Hp Hx E1) as Hdl. pose proof (dl_sum _ _ _ _ Hdl). pose proof (dl_remaining _ _ _ _ Hdl).
    pose proof (dl_distributed _ _ _ _ Hdl). rewrite E1. cbn [mbind result_bind].
    destruct (IH t1) as (t' & -> & Ht' & Hall); [by eapply dealt_pos|intros z Hz; apply Hg; by right|lia|unfold sumZ; lia|lia|lia|lia|].
    exists t'. split_and!; [done|intros a Ha; by apply Ht', Ht|]. intros z [->|Hz]%elem_of_cons Hgz; [by apply Ht', Hpay|by apply Hall].
Qed.

Lemma weighted_total ws l acc : 0 ≤ acc.2 → (∀ a w, ws !! a = Some w → w ≤ 2 ^ 190) →
  acc.2 + 2 ^ 190 * Z.of_nat (length l) ≤ 2 ^ 255 → ∃ r, each (weighted_verifier ws) l acc = Ok r.
Proof.
  intros H0 Hw. revert acc H0. induction l as [|a l IH]; intros acc H0 Hle; [by eexists|]. cbn [each length] in *. rewrite Nat2Z.inj_succ in Hle.
  assert (∃ acc', weighted_verifier ws a acc = Ok acc' ∧ 0 ≤ acc'.2 ≤ acc.2 + 2 ^ 190) as (acc' & -> & Ha).
  { unfold weighted_verifier. destruct (ws !! a) as [w|] eqn:Ea; [|exists acc; split; [done|lia]].
    specialize (Hw a w Ea). destruct (Z.leb_spec w 0); [exists acc; split; [done|lia]|].
    unfold Int_Add. rewrite chk_in by (unfold int256; lia). eexists. split; [done|]. cbn. lia. }
  cbn [mbind result_bind]. apply IH; lia.
Qed.

(** The equal share of a total: the bound put on its basis points, and the amount. *)
Definition clamp_bps (bps : Z) : Z := let b := if bps <? 0 then 0 else bps in if 10000 <? b then 10000 else b.
Definition base_pool (total bps : Z) : Z := Z.quot (total * clamp_bps bps) 10000.

Lemma clamp_bps_bounds bps : 0 ≤ clamp_bps bps ≤ 10000.
Proof. unfold clamp_bps. destruct (Z.ltb_spec bps 0); [done|]. destruct (Z.ltb_spec 10000 bps); lia. Qed.

Lemma base_pool_bounds total bps : 0 ≤ total → 0 ≤ base_pool total bps ≤ total.
Proof.
  intros Ht. unfold base_pool. pose proof (clamp_bps_bounds bps). split; [apply Z.quot_pos; nia|]. apply Z.quot_le_upper_bound; nia.
Qed.

Lemma no_payouts_pos d r : payouts_pos (mkSplit ∅ d r).
Proof. intros a x Hx. cbn in Hx. by rewrite lookup_empty in Hx. Qed.

Lemma base_total base successful total : 0 < base ≤ total → total < 2 ^ 64 → successful ≠ [] → Z.of_nat (length successful) ≤ base →
  ∃ t, deal id (λ _, Ok (Z.quot base (Z.of_nat (length successful)))) base successful (mkSplit ∅ 0 total) = Ok t ∧
    ∀ a, a ∈ successful → is_Some (sp_payout t !! a).
Proof.
  intros Hb Ht Hne Hn. set (n := Z.of_nat (length successful)) in *. assert (0 < n) as Hn0 by (unfold n; destruct successful; [done|cbn; lia]).
  assert (0 < Z.quot base n) as Hq by (apply Z.quot_str_pos; lia).
  destruct (deal_total id (λ _, Ok (Z.quot base n)) (λ _, Z.quot base n) base successful (mkSplit ∅ 0 total)) as (t & E & _ & Hall).
  - apply no_payouts_pos.
  - intros x _. split; [done|lia].
  - done.
  - cbn [sp_distributed]. assert (∀ l : list gostr, sumZ ((λ _, Z.quot base n) <$> l) = Z.of_nat (length l) * Z.quot base n) as ->.
    { intros l. induction l as [|y l IH]; [done|]. unfold sumZ in *. cbn in *. rewrite IH. lia. }
    fold n. pose proof (Z.mul_quot_le base n ltac:(lia) ltac:(lia)). lia.
  - lia.
  - cbn [sp_distributed sp_payout]. change (sum_over id ∅) with 0. lia.
  - cbn [sp_distributed sp_remaining]. lia.
  - exists t. split; [done|]. intros a Ha. by apply (Hall a Ha).
Qed.

Lemma shares_total pool (m : list (gostr * Z)) t : 0 ≤ pool < 2 ^ 64 → Forall (λ e, 0 < e.2 ≤ 2 ^ 190) m → payouts_pos t →
  sum_over id (sp_payout t) + pool ≤ 2 ^ 64 → pool ≤ sp_remaining t ≤ 2 ^ 64 →
  ∃ t', (if (0 <? pool) && (0 <? length m)%nat && (0 <? total_weight m)
   then deal fst (λ e, n ← Int_Mul pool e.2; Ok (Z.quot n (total_weight m))) pool m (mkSplit (sp_payout t) 0 (sp_remaining t))
   else Ok t) = Ok t' ∧ pays_on t t'.
Proof.
  intros Hp Hm Hpos Hs Hr. destruct (_ && _) eqn:Hc; [|exists t; split; [done|by intros a]].
  apply andb_true_iff in Hc as [_ Htp]. zb. assert (Forall (λ e : gostr * Z, 0 < e.2) m) as Hm' by (eapply list.Forall_impl; [exact Hm|]; cbn; lia).
  pose proof (proportional_le pool m (total_weight m) ltac:(lia) Htp Hm') as Hle.
  destruct (deal_total fst (λ e, n ← Int_Mul pool e.2; Ok (Z.quot n (total_weight m))) (λ e, Z.quot (pool * e.2) (total_weight m)) pool m
    (mkSplit (sp_payout t) 0 (sp_remaining t))) as (t' & E & Hk & _).
  - exact Hpos.
  - intros e He. rewrite list.Forall_forall in Hm. specialize (Hm e He). split; [|apply Z.quot_pos; nia].
    unfold Int_Mul. rewrite chk_in; [done|]. unfold int256. change (2 ^ 256) with (2 ^ 66 * 2 ^ 190). nia.
  - done.
  - cbn [sp_distributed]. nia.
  - lia.
  - cbn [sp_distributed sp_payout]. lia.
  - cbn [sp_distributed sp_remaining]. lia.
  - by exists t'.
Qed.

Lemma split_total total successful ws bps : 0 < total < 2 ^ 64 → successful ≠ [] → Z.of_nat (length successful) ≤ base_pool total bps →
  (∀ a w, ws !! a = Some w → w ≤ 2 ^ 190) →
  ∃ payout rest, splitVerifierAssignmentRewards total successful ws bps = Ok (payout, rest) ∧ ∀ a, a ∈ successful → is_Some (payout !! a).
Proof.
  intros Ht Hne Hbase Hw. pose proof (base_pool_bounds total bps ltac:(lia)) as Hb. pose proof (clamp_bps_bounds bps) as Hc.
  assert (0 < Z.of_nat (length successful)) as Hn by (destruct successful; [done|cbn; lia]). unfold splitVerifierAssignmentRewards.
  destruct (Z.leb_spec total 0); [lia|]. destruct (Nat.eqb_spec (length successful) 0); [lia|]. cbn [orb]. cbv zeta. fold (clamp_bps bps).
  change (if 10000 <? (if bps <? 0 then 0 else bps) then 10000 else (if bps <? 0 then 0 else bps)) with (clamp_bps bps).
  assert (Int_Mul total (clamp_bps bps) = Ok (total * clamp_bps bps)) as -> by (apply chk_in; unfold int256; nia).
  cbn [mbind result_bind]. fold (base_pool total bps). set (base := base_pool total bps) in *.
  assert (Int_Sub total base = Ok (total - base)) as -> by (apply chk_in; unfold int256; lia).
  cbn [mbind result_bind]. destruct (Z.ltb_spec 0 base) as [Hb0|]; [|lia].
  destruct (base_total base successful total ltac:(lia) ltac:(lia) Hne Hbase) as (t & Et & Hall). rewrite Et. cbn [mbind result_bind].
  assert (dealt successful base (mkSplit ∅ 0 total) t) as Hd.
  { apply (base_deal base successful _ _ ltac:(lia) Hne); [apply no_payouts_pos|done|]. by destruct (Z.ltb_spec 0 base); [|lia]. }
  pose proof (dl_sum _ _ _ _ Hd) as Hsum. pose proof (dl_remaining _ _ _ _ Hd) as Hrem. cbn [sp_payout sp_remaining] in Hsum, Hrem.
  change (sum_over id ∅) with 0 in Hsum.
  destruct (weighted_total ws successful ([], 0)) as [[m tw] Em]; [done|done|cbn; lia|]. rewrite Em. cbn [mbind result_bind].
  destruct (weighted_verifiers _ _ _ _ Em) as (m' & E1 & E2 & Hm & _). cbn in E1, E2. rewrite Z.add_0_l in E2. subst m' tw.
  destruct (shares_total (total - base) m t) as (t' & -> & Hk); [lia| | |lia|lia|].
  - eapply list.Forall_impl; [exact Hm|]. cbn. intros e [? He]. split; [done|by eapply Hw].
  - eapply dealt_pos; [apply no_payouts_pos|exact Hd].
  - cbn [mbind result_bind]. eexists _, _. split; [done|]. intros a Ha. by apply Hk, Hall.
Qed.

(** The claim of a publisher. *)
Lemma claimable_total base matched required min : base < 2 ^ 240 → ∃ n, publisherClaimableAmount base matched required min = Ok n.
Proof.
  intros Hb. unfold publisherClaimableAmount. destruct (Z.leb_spec base 0); [eauto|]. destruct (Z.leb_spec required 0); [eauto|]. cbv zeta.
  change (if 10000 <? (if min <? 0 then 0 else min) then 10000 else (if min <? 0 then 0 else min)) with (clamp_bps min).
  pose proof (clamp_bps_bounds min) as Hm. generalize (Z.quot (i64 ((if matched <? 0 then 0 else matched) * 10000)) required). intros q.
  match goal with |- context [Int_Mul base ?c] => assert (0 ≤ c ≤ 10000) as Hc end.
  { destruct (Z.ltb_spec 10000 q); [destruct (Z.ltb_spec (clamp_bps min) 10000)|destruct (Z.ltb_spec (clamp_bps min) q)]; lia. }
  unfold Int_Mul. rewrite chk_in by (unfold int256; nia). cbn [mbind result_bind]. eauto.
Qed.

(** * The payments of a round *)

Section Payments.
Context `{GoEnv} {B : Type} `{BankKeeper B}.
Abbreviation Store := (Store B).
Abbreviation VStore := (VStore B).
Abbreviation pool_bal b := (mod_bal b tokenomics_module verificationRewardDenom).
Hypothesis denom_ok : ValidDenom verificationRewardDenom = true.
Hypothesis may_mint : minter tokenomics_module = true.
Hypothesis may_burn : burner tokenomics_module = true.

Lemma send_total acc n (b : B) : 0 < n ≤ pool_bal b → blockedAddr acc = false →
  ∃ b', SendFromPool acc (mkCoin verificationRewardDenom n) b = Ok b' ∧ spent [(acc, n)] 0 b b'.
Proof.
  intros Hn Hb. destruct (ModuleToAccount_ok b tokenomics_module acc verificationRewardDenom n Hn Hb) as [b' E].
  assert (SendFromPool acc (mkCoin verificationRewardDenom n) b = Ok b') as HS.
  { unfold SendFromPool. cbn [c_Amount c_Denom]. destruct (Z.eqb_spec n 0); [lia|]. by rewrite E. }
  exists b'. split; [done|]. eapply SendFromPool_Ok; [|apply NewCoin_in; [exact denom_ok|]|exact HS]; lia.
Qed.

Lemma burn_total (v : B * Z) : v.2 ≤ pool_bal v.1 → ∃ b', burn_rest v = Ok b'.
Proof.
  intros Hv. unfold burn_rest. destruct (Z.ltb_spec 0 v.2); [|eauto]. rewrite NewCoin_in by (done || lia). cbn [mbind result_bind].
  unfold BurnFromPool. cbn [c_Amount c_Denom]. destruct (Z.eqb_spec v.2 0); [lia|].
  destruct (BurnCoins_ok v.1 tokenomics_module verificationRewardDenom v.2 may_burn ltac:(lia)) as [b' ->]. eauto.
Qed.

(** After payments the pool has what they left. *)
Lemma spent_pool log n (b b' : B) : spent log n b b' → pool_bal b' = pool_bal b - (paid log + n).
Proof. intros Hs. by rewrite (sp_mod _ _ _ _ Hs), decide_True by done. Qed.

(** Whoever is owed a payment may receive it. *)
Definition payable_to (a : gostr) : Prop := ∃ acc, AccAddressFromBech32 a = Some acc ∧ blockedAddr acc = false.

Lemma sends_total payout l (b : B) : (∀ a x, payout !! a = Some x → 0 < x) → (∀ a, a ∈ l → is_Some (payout !! a) ∧ payable_to a) →
  sumZ ((λ a, default 0 (payout !! a)) <$> l) ≤ pool_bal b → ∃ b', each (send_share payout) l b = Ok b'.
Proof.
  intros Hpos. revert b. induction l as [|a l IH]; intros b Hl Hs; [by eexists|]. rewrite fmap_cons in Hs. unfold sumZ in Hs. cbn [foldr each] in *.
  destruct (Hl a ltac:(by left)) as [[x Hx] (acc & Ha & Hb)]. pose proof (Hpos a x Hx) as Hx0. rewrite Hx in Hs. cbn [default from_option id] in Hs.
  assert (0 ≤ sumZ ((λ a, default 0 (payout !! a)) <$> l)) as Hr.
  { apply sumZ_nonneg, Forall_fmap, list.Forall_forall. intros y _. cbn. destruct (payout !! y) as [z|] eqn:Ez; cbn; [specialize (Hpos y z Ez)|]; lia. }
  unfold sumZ in Hr. destruct (send_total acc x b) as (b1 & E1 & Hs1); [lia|done|].
  assert (send_share payout a b = Ok b1) as ->.
  { unfold send_share. rewrite Hx. destruct (Z.leb_spec x 0); [lia|]. rewrite Ha, NewCoin_in by (done || lia). cbn [mbind result_bind]. exact E1. }
  cbn [mbind result_bind]. apply IH; [intros y Hy; apply Hl; by right|]. rewrite (spent_pool _ _ _ _ Hs1). unfold paid, sumZ. cbn. lia.
Qed.

(** Bonds and numbers of websites whose products fit 256 bits. *)
Record modest (s : VStore) : Prop := {
  md_bonds a x : bonds_of s !! a = Some x → x ≤ 2 ^ 127;
  md_sites : Z.of_nat (size (websites (market s))) ≤ 2 ^ 63 }.

Lemma values_length {A} (m : gmap gostr A) : length (values m) = size m.
Proof. unfold values, entries. rewrite length_fmap, (Permutation_length (merge_sort_Permutation _ _)). by rewrite length_map_to_list. Qed.

Lemma referred_le a (s : VStore) : CountActiveReferredPublishers a s ≤ Z.of_nat (size (websites (market s))).
Proof.
  unfold CountActiveReferredPublishers. rewrite <- (values_length (websites (market s))). apply Nat2Z.inj_le. apply length_filter.
Qed.

Lemma weigh_total (s : VStore) l m : modest s → (∀ a w, m !! a = Some w → w ≤ 2 ^ 190) →
  ∃ m', each (weigh_verifier s) l m = Ok m' ∧ ∀ a w, m' !! a = Some w → w ≤ 2 ^ 190.
Proof.
  intros Hs. revert m. induction l as [|a l IH]; intros m Hm; [by eexists|]. cbn [each].
  assert (∃ m1, weigh_verifier s a m = Ok m1 ∧ ∀ a w, m1 !! a = Some w → w ≤ 2 ^ 190) as (m1 & -> & Hm1); [|cbn [mbind result_bind]; by apply IH].
  unfold weigh_verifier. destruct (bonds_of s !! a) as [stake|] eqn:Ea; [|by eexists]. pose proof (md_bonds s Hs a stake Ea).
  destruct (Z.leb_spec stake 0); [by eexists|]. cbv zeta. pose proof (referred_le a s). pose proof (md_sites s Hs).
  set (f := if CountActiveReferredPublishers a s <=? 0 then 1 else CountActiveReferredPublishers a s).
  assert (0 < f ≤ 2 ^ 63) as Hf by (unfold f; destruct (Z.leb_spec (CountActiveReferredPublishers a s) 0); lia).
  assert (stake * f ≤ 2 ^ 190) as Hle by (change (2 ^ 190) with (2 ^ 127 * 2 ^ 63); nia).
  unfold Int_Mul. rewrite chk_in by (unfold int256; nia). cbn [mbind result_bind]. eexists. split; [done|].
  intros b w [[<- <-]|[_ Hw]]%lookup_insert_Some; [done|by eapply Hm].
Qed.

Lemma pay_verifier_total p a total (s : VStore) (b : B) : modest s → total < 2 ^ 64 → total ≤ pool_bal b →
  (0 < total → Z.of_nat (length (successful_verifiers a s)) ≤ base_pool total (EffectiveVerifierRewardBaseShareBps p)) →
  (∀ v, v ∈ successful_verifiers a s → payable_to v) → ∃ r, payVerifierAssignmentRewards p a total s b = Ok r.
Proof.
  intros Hs Ht Hb Hbase Hpay. unfold payVerifierAssignmentRewards. destruct (Z.leb_spec total 0); [eauto|]. cbv zeta.
  pose proof (successful_nodup a s) as Hnd. set (l := successful_verifiers a s) in *. destruct l as [|v0 l0] eqn:El; [eauto|]. rewrite <- El in *.
  destruct (weigh_total s l ∅ Hs) as (ws & -> & Hws); [by intros x w ?%lookup_empty_Some|]. cbn [mbind result_bind].
  destruct (split_total total l ws (EffectiveVerifierRewardBaseShareBps p)) as (payout & rest & E & Hall);
    [lia|by rewrite El|by apply Hbase|done|].
  destruct (split_Ok total l ws _ payout rest ltac:(lia) E) as (Hsum & Hrest & Hpos & _). rewrite E. cbn [mbind result_bind].
  destruct (sends_total payout l b) as [b' ->].
  - intros x n Hx. by destruct (Hpos x n Hx).
  - intros x Hx. split; [by apply Hall|by apply Hpay].
  - rewrite <- sum_over_keys; [lia|done|]. intros x. split; [intros [n Hx]; by destruct (Hpos x n Hx)|apply Hall].
  - cbn [mbind result_bind]. unfold Int_Sub. rewrite chk_in by (unfold int256; lia). eauto.
Qed.

Lemma pay_publisher_total order p base (s : VStore) a (v : B * Z) : base ≤ v.2 ≤ pool_bal v.1 → v.2 < 2 ^ 240 →
  (∀ w, GetWebsite (a_Domain a) (market s) = Some w → payable_to (w_Owner w)) → ∃ v', pay_publisher order p base s a v = Ok v'.
Proof.
  intros Hv Hm Hw. unfold pay_publisher. destruct (GetWebsite _ _) as [w|]; [|eauto]. destruct (Hw w eq_refl) as (acc & Ha & Hb). cbv zeta.
  match goal with |- context [publisherClaimableAmount base ?m ?r ?q] => destruct (claimable_total base m r q ltac:(lia)) as [n En] end.
  rewrite En. cbn [mbind result_bind]. destruct (Z.leb_spec n 0); [eauto|]. rewrite Ha, NewCoin_in by (done || lia). cbn [mbind result_bind].
  assert (n ≤ base).
  { destruct (Z.leb_spec base 0); [|apply claimable_Ok in En; lia]. unfold publisherClaimableAmount in En. destruct (Z.leb_spec base 0); [|lia].
    injection En as <-. lia. }
  destruct (send_total acc n v.1) as (b' & -> & _); [lia|done|]. cbn [mbind result_bind]. unfold Int_Sub.
  rewrite chk_in by (unfold int256; lia). cbn [mbind result_bind]. eauto.
Qed.

(** A loop that pays at most [per] each out of what is left. *)
Lemma pays_total {A} (f : A → B * Z → result err (B * Z)) ok per l (v : B * Z) : 0 ≤ per → v.2 < 2 ^ 240 →
  (∀ x v, x ∈ l → per ≤ v.2 ≤ pool_bal v.1 → v.2 < 2 ^ 240 → ∃ v', f x v = Ok v') →
  (∀ x v v', x ∈ l → f x v = Ok v' → pays_step (ok x) per v v') →
  per * Z.of_nat (length l) ≤ v.2 ≤ pool_bal v.1 → ∃ v', each f l v = Ok v' ∧ 0 ≤ v'.2 ≤ pool_bal v'.1 ∧ v'.2 ≤ v.2.
Proof.
  intros Hper. revert v. induction l as [|x l IH]; intros v Hm Hf Hp Hv; [exists v; cbn in Hv; split; [done|lia]|]. cbn [each length] in *.
  rewrite Nat2Z.inj_succ in Hv. destruct (Hf x v ltac:(by left)) as [v1 E1]; [nia|done|].
  destruct (Hp x v v1 ltac:(by left) E1) as (log & Hs & E2 & Hle & _). pose proof (spent_pool _ _ _ _ Hs) as Hb.
  pose proof (paid_nonneg log (sp_pos _ _ _ _ Hs)). rewrite E1. cbn [mbind result_bind].
  destruct (IH v1) as (v' & -> & Hv' & Hle'); [lia|intros; apply Hf; [by right|done..]|intros; eapply Hp; [by right|done]|nia|]. exists v'. split; [done|]. lia.
Qed.

(** The pool can be topped up to its target. *)
Record fundable (p : PublisherParams) (funded : Z) (b : B) : Prop := {
  fu_target : int256 (EffectiveEmissionTotalSupply p * i64 (EffectivePublisherEmissionBps p + EffectiveVerifierEmissionBps p));
  fu_supply : funded < funded_to p funded → int256 (supply b verificationRewardDenom + (funded_to p funded - funded)) }.

Lemma fund_total p funded (b : B) : 0 ≤ funded → fundable p funded b → ∃ r, fund_pool p funded b = Ok r.
Proof.
  intros Hf [Ht Hs]. unfold fund_pool. unfold funded_to in Hs. cbv zeta in Hs |- *. set (bps := i64 _) in *. destruct (Z.ltb_spec 0 bps); [|eauto].
  unfold Int_Mul. rewrite chk_in by done. cbn [mbind result_bind]. set (target := Z.quot _ _) in *. destruct (Z.ltb_spec 0 target); [|eauto].
  unfold EnsureEmissionPool. change (if blank verificationRewardDenom then DefaultDenom else verificationRewardDenom) with verificationRewardDenom.
  destruct (Z.leb_spec target 0); [lia|]. destruct (Z.leb_spec target funded); [eauto|].
  assert (int256 target) as Hr.
  { unfold int256 in *. assert (Z.abs target ≤ Z.abs (EffectiveEmissionTotalSupply p * bps)); [|lia]. unfold target.
    rewrite <- Z.quot_abs by done. apply Z.quot_le_upper_bound; lia. }
  unfold Int_Sub. rewrite chk_in by (unfold int256 in *; lia). cbn [mbind result_bind]. rewrite NewCoin_in by (done || lia). cbn [mbind result_bind c_Amount c_Denom].
  destruct (MintCoins_ok b tokenomics_module verificationRewardDenom (target - funded) may_mint) as [b' ->]; [lia| |cbn; eauto].
  replace (target - funded) with (Z.max target funded - funded) by lia. apply Hs. lia.
Qed.

(** The payees of a round: the owners of its verified websites, and the verifiers
    that passed them, each of which gets part of the equal share. *)
Record round_payable (p : PublisherParams) (V : Z) (s : VStore) (l : list Assignment) : Prop := {
  ry_owners a w : a ∈ l → a_Verified a = true → GetWebsite (a_Domain a) (market s) = Some w → payable_to (w_Owner w);
  ry_verifiers a v : a ∈ l → a_Verified a = true → v ∈ successful_verifiers a s → payable_to v;
  ry_share a : a ∈ l → a_Verified a = true → let per := Z.quot V (Z.of_nat (length l)) in
    0 < per → Z.of_nat (length (successful_verifiers a s)) ≤ base_pool per (EffectiveVerifierRewardBaseShareBps p) }.

Lemma per_share pool n : 0 ≤ pool → 0 < n → 0 ≤ Z.quot pool n ∧ Z.quot pool n * n ≤ pool ∧ Z.quot pool n ≤ pool.
Proof.
  intros Hp Hn. pose proof (Z.mul_quot_le pool n ltac:(lia) ltac:(lia)). pose proof (Z.quot_pos pool n ltac:(lia) ltac:(lia)).
  split; [done|]. split; [lia|]. apply Z.quot_le_upper_bound; [done|]. pose proof (Z.mul_le_mono_nonneg_r 1 n pool Hp). lia.
Qed.

(** A loop over a pool, with the burn of the rest, goes through. *)
Lemma pool_total {A} (f : Z → A → B * Z → result err (B * Z)) ok pool n l (c : bool) (b : B) : 0 ≤ pool < 2 ^ 240 → (length l ≤ n)%nat →
  (c = true → (0 < n)%nat) → pool ≤ pool_bal b → let per := Z.quot pool (Z.of_nat n) in
  (∀ x v, x ∈ l → per ≤ v.2 ≤ pool_bal v.1 → v.2 < 2 ^ 240 → ∃ v', f per x v = Ok v') →
  (∀ per x v v', 0 ≤ per → x ∈ l → f per x v = Ok v' → pays_step (ok x) per v v') →
  ∃ v b', (if c then each (f per) l (b, pool) else Ok (b, pool)) = Ok v ∧ burn_rest v = Ok b' ∧ 0 ≤ v.2 ≤ pool ∧ pool_bal b' = pool_bal b - pool.
Proof.
  intros Hp Hl Hc Hb per Hf Hok.
  assert (∃ v, (if c then each (f per) l (b, pool) else Ok (b, pool)) = Ok v ∧ 0 ≤ v.2 ≤ pool_bal v.1 ∧ v.2 ≤ pool) as (v & Ev & Hv & Hle).
  { destruct c; [|exists (b, pool); cbn; split; [done|lia]]. destruct (per_share pool (Z.of_nat n) ltac:(lia)) as (H1' & H2' & _); [specialize (Hc eq_refl); lia|].
    fold per in H1', H2'. apply (pays_total (f per) ok per l (b, pool)); cbn [fst snd]; try done; [lia| |nia]. intros x v v' Hx. by apply Hok. }
  destruct (burn_total v) as [b' Eb]; [lia|]. exists v, b'. split; [done|]. split; [done|]. split; [lia|].
  destruct (pool_loop f ok pool n l c b v b') as (_ & log & Hs & Hpaid & _); [lia|done|done|done|exact Ev|exact Eb|].
  rewrite (spent_pool _ _ _ _ Hs). lia.
Qed.

Lemma pay_round_total order p l P V (s : VStore) : round_pools p = Ok (P, V) → P < 2 ^ 240 → V < 2 ^ 64 → modest s → 0 ≤ pool_funded s →
  fundable p (pool_funded s) (bank (market s)) → P + V ≤ pool_bal (bank (market s)) + (funded_to p (pool_funded s) - pool_funded s) →
  round_payable p V s l → ∃ s', pay_round order p l s = Ok s'.
Proof.
  intros Hpools HP HV Hs Hf Hfund Hbal [Ho Hv Hsh]. destruct (round_pools_nonneg _ _ _ Hpools) as [HP0 HV0]. unfold pay_round. rewrite Hpools.
  cbn [mbind result_bind]. destruct (fund_total p _ _ Hf Hfund) as [[funded b] Ef]. rewrite Ef. cbn [mbind result_bind].
  apply fund_pool_Ok in Ef as [-> Hm]; [|done]. cbn [fst snd] in Hm. pose proof (mt_mod _ _ _ Hm tokenomics_module verificationRewardDenom) as Hbal'.
  rewrite decide_True in Hbal' by done. set (act := filter _ l).
  assert (∀ a, a ∈ act → a ∈ l ∧ a_Verified a = true) as Hact by (by intros a [? ?]%list_elem_of_filter).
  destruct (pool_total (λ per, pay_publisher order p per s) (λ a, owner_for a s) P (length act) act ((0 <? P) && (0 <? length act)%nat) b)
    as (v & b1 & Ev & Eb & Hv1 & Hb1); [lia|done|intros [_ Hc]%andb_true_iff; by apply Nat.ltb_lt|lia| |by intros; eapply pay_publisher_Ok|].
  { intros a v' [Ha Hver]%Hact Hr Hm'. apply pay_publisher_total; [done|done|]. intros w. by apply Ho. }
  rewrite Ev. cbn [mbind result_bind]. rewrite Eb. cbn [mbind result_bind].
  destruct (pool_total (λ per, pay_verifiers p per s) (λ a, passed_for a s) V (length l) act ((0 <? V) && (0 <? length l)%nat) b1)
    as (w & b2 & Ew & Eb2 & Hw1 & Hb2); [lia|apply length_filter|intros [_ Hc]%andb_true_iff; by apply Nat.ltb_lt|lia| |by intros; eapply pay_verifiers_Ok|].
  { intros a v' [Ha Hver]%Hact Hr Hm'. unfold pay_verifiers.
    destruct (per_share V (Z.of_nat (length l)) HV0) as (Hper0 & _ & Hper); [destruct l; [by apply elem_of_nil in Ha|cbn; lia]|].
    destruct (pay_verifier_total p a (Z.quot V (Z.of_nat (length l))) s v'.1) as [r Er]; [done|lia|lia|by apply Hsh|intros x; by apply Hv|].
    rewrite Er. cbn [mbind result_bind].
    apply payVerifier_Ok in Er as [Hr' _]; [|done]. unfold Int_Sub. rewrite chk_in by (unfold int256; lia). cbn [mbind result_bind]. eauto. }
  rewrite Ew. cbn [mbind result_bind]. rewrite Eb2. cbn [mbind result_bind]. unfold Int_Add. rewrite chk_in by (unfold int256; lia). cbn [mbind result_bind]. eauto.
Qed.

(** * The settlement of the rounds *)

(** The number of assignments of a round. *)
Definition round_size (r : Z) (s : VStore) : nat :=
  size (filter (λ k, starts_with (verificationRoundKey r) k = true) (dom (assignments s))).

Lemma listed_round_size r (s : VStore) : length (ListAssignmentsForRound r s) = round_size r s.
Proof.
  unfold ListAssignmentsForRound, round_size. rewrite length_fmap, entries_perm.
  assert (filter (λ k, starts_with (verificationRoundKey r) k = true) (dom (assignments s)) =
    (list_to_set (fst <$> filter (λ kv : gostr * Assignment, starts_with (verificationRoundKey r) kv.1 = true) (map_to_list (assignments s))) : gset gostr)) as ->.
  { apply set_eq. intros k. rewrite elem_of_filter, elem_of_dom, elem_of_list_to_set, list_elem_of_fmap. split.
    - intros [Hk [a Ha]]. exists (k, a). split; [done|]. apply list_elem_of_filter. split; [done|]. by apply elem_of_map_to_list.
    - intros ([k' a] & -> & [Hk Ha%elem_of_map_to_list]%list_elem_of_filter). split; [done|]. eauto. }
  rewrite size_list_to_set; [by rewrite length_fmap|]. eapply sublist_NoDup; [apply (NoDup_fst_map_to_list (assignments s))|].
  apply fmap_sublist, sublist_filter.
Qed.

(** The work that is not settled: its verifiers may receive coins, and the equal share
    of an assignment has a unit for each of them. *)
Record payroll (p : PublisherParams) (V : Z) (s : VStore) : Prop := {
  pl_modest : modest s;
  pl_verifiers k a v : assignments s !! k = Some a → a_RewardsSettled a = false → v ∈ a_Verifiers a → payable_to v;
  pl_share k a : assignments s !! k = Some a → a_RewardsSettled a = false →
    let per := Z.quot V (Z.of_nat (round_size (a_RoundStartUnix a) s)) in
    0 < per → Z.of_nat (length (a_Verifiers a)) ≤ base_pool per (EffectiveVerifierRewardBaseShareBps p) }.

(** The owners of the websites may receive coins. *)
Definition owners_paid (m : Store) : Prop := ∀ d w, websites m !! d = Some w → payable_to (w_Owner w).

Lemma successful_assigned a (s : VStore) : chain_inv s → assignments s !! a_key a = Some a →
  (∀ v, v ∈ successful_verifiers a s → v ∈ a_Verifiers a) ∧ (length (successful_verifiers a s) ≤ length (a_Verifiers a))%nat.
Proof.
  intros Hi Ha. assert (∀ v, v ∈ successful_verifiers a s → v ∈ a_Verifiers a) as Hin.
  { intros v (x & Hx & _ & <-)%successful_passed. by apply (listed_assigned s _ a Hi Ha). }
  split; [done|]. apply submseteq_length, NoDup_submseteq; [apply successful_nodup|done].
Qed.

Lemma round_is_payable p V r l (s : VStore) : chain_inv s → in_s 64 r → 0 < r → payroll p V s → owners_paid (market s) →
  l ≡ₚ ListAssignmentsForRound r s → (∀ a, a ∈ l → a_RewardsSettled a = false) → round_payable p V s l.
Proof.
  intros Hi Hr1 Hr2 [_ Hv Hs] Ho Hl Hun. pose proof (λ a, listed_assignment r a s Hi) as Hlist.
  assert (∀ a, a ∈ l → assignments s !! a_key a = Some a ∧ a_RoundStartUnix a = r) as Hmem.
  { intros a Ha. pose proof (proj1 (Hlist a) ltac:(by rewrite <- Hl)) as [Hk Hsame]. split; [done|].
    destruct (ci_assignments s Hi _ _ Hk) as (_ & ? & ? & _). by apply roundKey_inj. }
  split.
  - intros a w _ _ Hw. by eapply Ho.
  - intros a v Ha _ Hv'. destruct (Hmem a Ha) as [Hk _]. eapply (Hv _ a); [done|by apply Hun|]. by apply (successful_assigned a s Hi Hk).
  - intros a Ha _ per Hper. destruct (Hmem a Ha) as [Hk Er]. destruct (successful_assigned a s Hi Hk) as [_ Hlen].
    pose proof (Hs _ a Hk (Hun a Ha)) as Hsh. cbv zeta in Hsh. rewrite Er, <- listed_round_size, <- Hl in Hsh. specialize (Hsh Hper). unfold per. lia.
Qed.

Lemma mark_total l (s : VStore) : Forall (λ a, NormalizeDomain (a_Domain a) = a_Domain a ∧ Assignment_ValidateBasic a = Ok tt) l →
  ∃ s', markVerificationRoundRewardsSettled l s = Ok s'.
Proof.
  intros Hl. unfold markVerificationRoundRewardsSettled.
  assert (∃ s', each (λ a, SetAssignment (rewards_settled a)) l s = Ok s') as [s' ->]; [|cbn [mbind result_bind]; eauto].
  revert s. induction Hl as [|a l [Hn Hv] Hl IH]; intros s; [by eexists|]. cbn [each].
  assert (∃ t, SetAssignment (rewards_settled a) s = Ok t) as [t ->]; [|cbn [mbind result_bind]; apply IH].
  unfold SetAssignment. change (a_Domain (rewards_settled a)) with (a_Domain a). rewrite Hn. cbv zeta.
  change (with_a_domain (a_Domain a) (rewards_settled a)) with (rewards_settled a). rewrite settled_valid, Hv. cbn [mbind result_bind]. eauto.
Qed.

Context (order : gmap gostr Z → list (gostr * Z)) (p : PublisherParams) (P V : Z).
Hypothesis pools : round_pools p = Ok (P, V).
Hypothesis pools_fit : P < 2 ^ 240 ∧ V < 2 ^ 64.

(** What the pool has, or gets when it is topped up. *)
Definition funds (s : VStore) : Z := pool_bal (bank (market s)) + (funded_to p (pool_funded s) - pool_funded s).

(** A store in which the rewards of [n] rounds can be paid. *)
Record can_pay (n : nat) (s : VStore) : Prop := {
  cp_chain : chain_inv s;
  cp_rounds : rounds_inv s;
  cp_payroll : payroll p V s;
  cp_owners : owners_paid (market s);
  cp_fundable : fundable p (pool_funded s) (bank (market s));
  cp_funds : (P + V) * Z.of_nat n ≤ funds s }.

Lemma pools_pos : 0 ≤ P ∧ 0 ≤ V.
Proof. exact (round_pools_nonneg _ _ _ pools). Qed.

Lemma settle_round_total n r (s : VStore) : can_pay (S n) s → in_s 64 r → 0 < r → ∃ s', settle_round order p r s = Ok s'.
Proof.
  intros [Hi Hr Hpl Ho Hfu Hf] Hr1 Hr2. unfold settle_round. pose proof (λ a, listed_assignment r a s Hi) as Hlist.
  set (l := ListAssignmentsForRound r s) in *. destruct l as [|a0 l0] eqn:El; [eauto|]. rewrite <- El in *. cbv zeta.
  destruct (Nat.eqb_spec (length (filter (λ a, a_RewardsSettled a = true) l)) (length l)) as [|Hne]; [eauto|].
  destruct (forallb a_Finalized l); cbn [negb]; [|eauto].
  assert (∀ a, a ∈ l → a_RewardsSettled a = false) as Hun.
  { intros a Ha. destruct (a_RewardsSettled a) eqn:Es; [|done]. exfalso. apply Hne. f_equal. apply filter_all. intros b Hb.
    apply Hlist in Ha as [Ha Ha'], Hb as [Hb Hb']. rewrite <- Es. eapply (ri_same s Hr); [done..|].
    destruct (ci_assignments s Hi _ _ Ha) as (_ & ? & ? & _), (ci_assignments s Hi _ _ Hb) as (_ & ? & ? & _). apply roundKey_inj; try done. congruence. }
  assert (filter (λ a, a_RewardsSettled a = true) l = []) as ->.
  { apply filter_none. intros a Ha. by rewrite (Hun a Ha). }
  cbn [length Nat.eqb negb guard_err mbind result_bind]. unfold settleVerificationRound. rewrite El. rewrite <- El.
  assert (merge_sort by_domain l ≡ₚ l) as Hp by apply merge_sort_Permutation. destruct pools_pos as [HP0 HV0].
  destruct (pay_round_total order p (merge_sort by_domain l) P V s) as [t Et]; try done; [apply pools_fit|apply pools_fit|apply Hpl|apply Hr|unfold funds in Hf; nia| |].
  { eapply (round_is_payable p V r); try done. intros a Ha. apply Hun. by rewrite <- Hp. }
  rewrite Et. cbn [mbind result_bind]. apply mark_total. rewrite Hp. apply list.Forall_forall. intros a [Ha _]%Hlist.
  split; [|by eapply (ri_valid s Hr)]. destruct (ci_assignments s Hi _ _ Ha) as (_ & _ & _ & Hw). eapply stored_domain_normal; [apply Hi|done].
Qed.

(** The work stays the same when assignments only advance. *)
Lemma payroll_keeps (s s' : VStore) : payroll p V s → bond_table s' = bond_table s → dom (websites (market s')) = dom (websites (market s)) →
  dom (assignments s') = dom (assignments s) →
  (∀ k a', assignments s' !! k = Some a' → ∃ a, assignments s !! k = Some a ∧ a_Verifiers a' = a_Verifiers a ∧
    a_RoundStartUnix a' = a_RoundStartUnix a ∧ (a_RewardsSettled a' = false → a_RewardsSettled a = false)) → payroll p V s'.
Proof.
  intros [[Hb Hw] Hv Hs] Eb Ew Ed Ha. split.
  - split; [unfold bonds_of; rewrite Eb; exact Hb|]. by rewrite <- size_dom, Ew, size_dom.
  - intros k a' v (a & Hk & -> & _ & Hset)%Ha Hun. eapply Hv; [done|auto].
  - intros k a' Hk' Hun. destruct (Ha k a' Hk') as (a & Hk & -> & Er & Hset). pose proof (Hs k a Hk (Hset Hun)) as Hsh. cbv zeta in Hsh |- *.
    unfold round_size in *. rewrite Er, Ed. exact Hsh.
Qed.

Lemma funded_to_idem q n : funded_to q (funded_to q n) = funded_to q n.
Proof. unfold funded_to. cbv zeta. destruct (0 <? _); lia. Qed.

Lemma settle_round_can_pay n r (s s' : VStore) : can_pay (S n) s → in_s 64 r → 0 < r → settle_round order p r s = Ok s' → can_pay n s'.
Proof.
  intros [Hi Hr Hpl Ho Hfu Hf] Hr1 Hr2 HS. destruct (settle_round_rounds _ _ _ _ _ Hi Hr Hr1 Hr2 HS) as [Hr' Has]. pose proof pools_pos as [HP0 HV0].
  pose proof (aside_inv _ _ Hi Has) as Hi'. destruct (settle_round_Ok _ _ _ _ _ Hi (ri_funded s Hr) HS) as [[-> _]|[[-> _]|Hd]].
  - split; try done. nia.
  - split; try done; [|unfold funds in *; cbn; nia]. by apply (payroll_keeps s); try done; eauto 8.
  - pose proof (rd_frame _ _ _ _ Hd) as Hfr. pose proof (rd_marked _ _ _ _ Hd) as Hmk.
    destruct (rd_paid _ _ _ _ Hd) as (l & P' & V' & log & burnt & t & _ & Hpaid & Eb & Ef).
    pose proof (rp_pools _ _ _ _ _ _ _ _ Hpaid) as Hp'. rewrite pools in Hp'. injection Hp' as <- <-.
    assert (pool_funded s' = funded_to p (pool_funded s)) as Efu by (rewrite Ef, (rp_store _ _ _ _ _ _ _ _ Hpaid); done).
    assert (websites (market s') = websites (market s)) as Ew by (by rewrite Hfr).
    split; try done.
    + apply (payroll_keeps s); try done; [by rewrite Hfr|by rewrite Ew| |].
      * apply set_eq. intros k. rewrite !elem_of_dom, Hmk, fmap_is_Some. done.
      * intros k a' Hk. rewrite Hmk in Hk. apply fmap_Some in Hk as (a & Ha & ->). exists a. case_decide; split_and!; done.
    + unfold owners_paid. by rewrite Ew.
    + destruct Hfu as [Ht _]. split; [done|]. rewrite Efu, funded_to_idem. lia.
    + unfold funds in *. rewrite Efu, funded_to_idem, Eb. destruct (rp_bank _ _ _ _ _ _ _ _ Hpaid) as (b & Hm & Hs).
      rewrite (spent_pool _ _ _ _ Hs), (mt_mod _ _ _ Hm), decide_True by done. rewrite <- Ef, Efu, (rp_total _ _ _ _ _ _ _ _ Hpaid). nia.
Qed.

Lemma unsettled_length (s : VStore) rs : listUnsettledVerificationRounds s = Ok rs → length rs = size (unsettled s).
Proof.
  unfold listUnsettledVerificationRounds. change (size (unsettled s)) with (length (elements (unsettled s))).
  rewrite <- (Permutation_length (SortStrings_perm (elements (unsettled s)))).
  match goal with |- each ?f _ _ = _ → _ => enough (∀ l acc, each f l acc = Ok rs → length rs = (length acc + length l)%nat) as Hl by apply Hl end.
  intros l. induction l as [|k l IH]; intros acc HE; cbn [each] in HE; [injection HE as <-; cbn; lia|].
  apply bind_Ok_inv in HE as (acc' & Ha & HE). apply bind_Ok_inv in Ha as (_u & _ & [= <-]). apply IH in HE. rewrite length_app in HE. cbn in *. lia.
Qed.

(** The rewards go through while the pool lasts. *)
Lemma rewards_total (s : VStore) : can_pay (size (unsettled s)) s → ∃ s', settleFinalizedVerificationRounds order p s = Ok s'.
Proof.
  intros Hc. unfold settleFinalizedVerificationRounds. destruct (unsettled_total s (cp_rounds _ _ Hc)) as [rs Hrs]. rewrite Hrs. cbn [mbind result_bind].
  pose proof (unsettled_rounds s rs (cp_rounds _ _ Hc) Hrs) as Hin. rewrite <- (unsettled_length s rs Hrs) in Hc.
  assert (∀ r, r ∈ rs → in_s 64 r ∧ 0 < r) as Hall by (intros r Hr; by destruct (proj1 (Hin r) Hr) as (? & ? & _)). clear Hrs Hin.
  revert s Hc. induction rs as [|r rs IH]; intros s Hc; [by eexists|]. cbn [each length] in *. destruct (Hall r ltac:(by left)) as [H1' H2'].
  destruct (settle_round_total _ r s Hc H1' H2') as [t Et]. rewrite Et. cbn [mbind result_bind].
  apply IH; [intros x Hx; apply Hall; by right|]. by eapply settle_round_can_pay.
Qed.
End Payments.
