(* ===== verification/AssignTotal.v ===== *)
(** The assignment of a round goes through: its metadata and its assignments pass
    their checks, whatever the verifiers and the websites are, on a chain whose
    clock is past the first drand round and whose texts of addresses have no space
    around them. *)

From stdpp Require Import sorting.
From S2P Require Import Prelude JsBase GoBase GoHash Market MarketProofs GoSdk Tokenomics Verifiers RegParams Verification VerificationProofs BankFrame ChainInv Rounds RoundProofs Rewards RewardProofs RoundSteps RoundInv FinalizeTotal.

(** * Hexadecimal text *)

Abbreviation hex_char := (λ c, match hex_value c with Some _ => true | None => false end).
Definition not_hex_first (p : gostr) : bool := match p with c :: _ => negb (hex_char c) | [] => false end.

Lemma hex_not_space (runes : list gostr) s : forallb not_hex_first runes = true → Forall (λ c, hex_char c = true) s → strip_one runes s = None.
Proof.
  intros Hr%forallb_Forall Hs. apply strip_one_None. eapply list.Forall_impl; [exact Hr|]. intros [|c p] Hc; [done|].
  destruct s as [|d s]; [done|]. apply Forall_cons_1 in Hs as [Hd _]. cbn [not_hex_first starts_with] in *. destruct (Z.eqb_spec c d) as [->|]; [|done]. by rewrite Hd in Hc.
Qed.

Lemma hex_clean s : is_hex s = true → TrimSpace s = s.
Proof.
  unfold is_hex. intros [_ Hs%forallb_Forall]%andb_true_iff. apply TrimSpace_clean; apply hex_not_space; try done. by apply Forall_rev.
Qed.

(** Bytes. *)
Abbreviation bytes bs := (Forall (λ b : Z, 0 ≤ b < 256) bs).

Lemma hex_digit_hex d : 0 ≤ d < 16 → hex_char (hex_digit d) = true.
Proof.
  intros Hd. assert (forallb (λ d, hex_char (hex_digit d)) (seqZ 0 16) = true) as Hall by reflexivity.
  apply forallb_Forall in Hall. rewrite list.Forall_forall in Hall. apply Hall, elem_of_seqZ. lia.
Qed.

Lemma encode_hex bs : bytes bs → is_hex (EncodeToString bs) = true.
Proof.
  intros Hb. unfold is_hex, EncodeToString. apply andb_true_iff. split.
  - clear Hb. induction bs as [|b bs IH]; [done|]. cbn in *. exact IH.
  - apply forallb_Forall. induction Hb as [|b bs Hb _ IH]; [constructor|]. cbn [fmap list_fmap mjoin list_join]. apply Forall_app_2; [|exact IH].
    repeat constructor; apply hex_digit_hex; [|apply Z.mod_pos_bound; lia]. split; [apply Z.div_pos; lia|apply Z.div_lt_upper_bound; lia].
Qed.

Lemma be_bytes_bytes n z : bytes (be_bytes n z).
Proof.
  induction n as [|n IH]; constructor; [|exact IH]. change 255 with (Z.ones 8). rewrite Z.land_ones by done. apply Z.mod_pos_bound. done.
Qed.

(** A hash is 32 bytes. *)
Lemma sha_round_length v kw : length (sha_round v kw) = length v.
Proof. unfold sha_round. by repeat (destruct v as [|? v]; try done). Qed.

Lemma sha_block_length h block : length (sha_block h block) = length h.
Proof.
  unfold sha_block. rewrite length_zip_with. assert (∀ l v, length (foldl sha_round v l) = length v) as ->; [|lia].
  induction l as [|kw l IH]; intros v; [done|]. cbn [foldl]. by rewrite IH, sha_round_length.
Qed.

Lemma Sum256_spec m : length (Sum256 m) = 32%nat ∧ bytes (Sum256 m).
Proof.
  unfold Sum256. cbv zeta. match goal with |- context [foldl sha_block sha_h0 ?l] => generalize l end. intros l. split.
  - assert (∀ l h, length (foldl sha_block h l) = length h) as Hl.
    { clear. induction l as [|b l IH]; intros h; [done|]. cbn [foldl]. by rewrite IH, sha_block_length. }
    specialize (Hl l sha_h0). change (length sha_h0) with 8%nat in Hl. revert Hl. generalize (foldl sha_block sha_h0 l). intros ws Hl.
    assert (length (mjoin (be_bytes 4 <$> ws)) = (4 * length ws)%nat) as ->; [|lia]. clear Hl. induction ws as [|w ws IH]; [done|].
    change (mjoin (be_bytes 4 <$> w :: ws)) with (be_bytes 4 w ++ mjoin (be_bytes 4 <$> ws)). rewrite length_app, be_bytes_length, IH. cbn. lia.
  - generalize (foldl sha_block sha_h0 l). intros ws. induction ws as [|w ws IH]; [constructor|]. cbn [fmap list_fmap mjoin list_join].
    apply Forall_app_2; [apply be_bytes_bytes|exact IH].
Qed.

Lemma hash_text m : is_hex (EncodeToString (Sum256 m)) = true ∧ EncodeToString (Sum256 m) ≠ [].
Proof.
  destruct (Sum256_spec m) as [Hl Hb]. split; [by apply encode_hex|]. by destruct (Sum256 m).
Qed.

(** * A new round *)

Section Assign.
Context `{GoEnv} {B : Type} `{BankKeeper B}.
Abbreviation VStore := (VStore B).
Hypothesis addresses_clean : ∀ t a, AccAddressFromBech32 t = Some a → TrimSpace t = t.

Lemma addr_ok_clean t : addr_ok t = true → TrimSpace t = t.
Proof. unfold addr_ok. destruct (AccAddressFromBech32 t) eqn:E; [|done]. intros _. by eapply addresses_clean. Qed.

Lemma addr_ok_trim t : addr_ok t = true → addr_ok (TrimSpace t) = true.
Proof. intros Ht. by rewrite (addr_ok_clean t Ht). Qed.

Definition beacons_fine (s : VStore) : Prop :=
  ∀ k x, drandBeacons (rounds s) !! k = Some x → is_hex (db_RandomnessHex x) = true ∧ length (db_RandomnessHex x) = 64%nat.

(** Parameters, a block and a store for which a round can be assigned. *)
Record can_assign (p : PublisherParams) (c : BlockCtx) (s : VStore) : Prop := {
  ca_window : 0 < p_SubmissionWindowSeconds p < 2 ^ 61;
  ca_interval : 0 < p_RoundIntervalSeconds p ≤ 9223372036;
  ca_count : 0 ≤ p_MinVerifierCount p;
  ca_time : 10 ^ 9 ≤ c_TimeNs c < 2 ^ 61 * 10 ^ 9;
  ca_hash : bytes (c_LastHash c);
  ca_drand : EffectiveDrandEnabled p = true →
    drand_typed p ∧ EffectiveDrandGenesisTimeUnix p + EffectiveDrandRoundOffsetSeconds p ≤ block_time c;
  ca_beacons : beacons_fine s;
  ca_verifiers : Z.of_nat (size (verifiers (bond_table s))) < 2 ^ 31 }.

Lemma hex_text_ok t : is_hex t = true → negb (blank t) && negb (is_hex (TrimSpace t)) = false.
Proof. intros Ht. rewrite (hex_clean t Ht), Ht. apply andb_false_r. Qed.

(** The seed of a round is a hash, with a drand value of 64 digits or none. *)
Lemma seed_total p c rs h (s : VStore) : can_assign p c s → 0 < rs < 2 ^ 62 → block_time c ≤ rs → ∃ o, round_seed p c rs h s = Ok o ∧
  ∀ seed n r, o = Some (seed, n, r) → (∃ m, seed = Sum256 m) ∧ (r = [] ∨ is_hex r = true ∧ length r = 64%nat).
Proof.
  intros Hc Hrs Hb. unfold round_seed. destruct (EffectiveDrandEnabled p) eqn:Ed.
  - destruct (ca_drand _ _ _ Hc Ed) as [Ht Hg]. destruct (required_drand p rs Ht Hrs) as (n & -> & _); [lia|]. cbn [mbind result_bind fst].
    destruct (GetDrandBeacon n s) as [x|] eqn:Ex; [|by eexists]. unfold GetDrandBeacon in Ex. destruct (n =? 0); [done|].
    destruct (ca_beacons _ _ _ Hc _ _ Ex) as [Hx Hl]. rewrite (hex_clean _ Hx). unfold DecodeString. rewrite Hx. eexists. split; [done|].
    intros seed m r [= <- <- <-]. split; [by eexists|by right].
  - eexists. split; [done|]. intros seed m r [= <- <- <-]. split; [by eexists|by left].
Qed.

Lemma eligible_count now (s : VStore) el st : bonds_inv (bond_table s) → eligibleVerifierAddrs now s = (el, st) →
  (length el ≤ size (verifiers (bond_table s)))%nat.
Proof.
  intros Hb He. destruct (eligible_spec now s el st Hb He) as (Hnd & _ & Hel). rewrite <- (size_list_to_set (C := gset gostr) el Hnd), <- size_dom.
  apply subseteq_size. intros a Ha. apply elem_of_list_to_set, Hel in Ha as (v & Hv & _). apply elem_of_dom. eauto.
Qed.

Lemma meta_total p c rs h el seed n r (s : VStore) : can_assign p c s → 0 < rs → 0 ≤ h → Z.of_nat (length el) < 2 ^ 31 →
  (∃ m, seed = Sum256 m) → r = [] ∨ is_hex r = true ∧ length r = 64%nat →
  ∃ r', record_round p c rs (round_interval p) (delay_max p) h el seed n r s = Ok (set_rounds r' s) ∧ drandBeacons r' = drandBeacons (rounds s).
Proof.
  intros Hc Hrs Hh Hel [m ->] Hr. unfold record_round. destruct (GetRoundMeta rs s); [by exists (rounds s); destruct s|].
  unfold SetRoundMeta. set (x := mkRoundMeta _ _ _ _ _ _ _ _ _ _ _).
  assert (Meta_ValidateBasic x = Ok tt) as ->; [|cbn [mbind result_bind]; by eexists].
  destruct (hash_text m) as [Hm1 Hm2]. destruct (ca_interval _ _ _ Hc) as [Hi1 Hi2]. pose proof (ca_time _ _ _ Hc) as Ht.
  assert (round_interval p = p_RoundIntervalSeconds p) as Ei by (unfold round_interval; destruct (Z.leb_spec (p_RoundIntervalSeconds p) 0); [lia|done]).
  assert (0 < delay_max p ≤ round_interval p) as Hd.
  { unfold delay_max. cbv zeta. destruct (Z.leb_spec (p_AssignmentDelayMaxSeconds p) 0), (Z.ltb_spec (round_interval p) (p_AssignmentDelayMaxSeconds p)); cbn [orb]; lia. }
  assert (0 < block_time c) by (unfold block_time; apply Z.div_str_pos; lia).
  assert (swrap 32 (Z.of_nat (length el)) = Z.of_nat (length el)) as Es by (apply swrap_small; unfold in_s; lia).
  unfold Meta_ValidateBasic. apply first_error_ok. unfold x. cbn [rm_RoundStartUnix rm_SeedHex rm_RoundIntervalSeconds rm_AssignmentDelayMaxSeconds rm_CreatedAtUnix
    rm_AnchorHeight rm_AnchorHashHex rm_VerifierSetHash rm_VerifierSetSize rm_DrandRandomnessHex]. rewrite Es.
  repeat (apply list.Forall_cons; split; [cbn [fst]|]); [..|constructor]; try (apply Z.leb_gt || apply Z.ltb_ge; lia).
  - unfold blank. rewrite hex_clean by done. by destruct (EncodeToString _).
  - by rewrite hex_clean, Hm1.
  - apply hex_text_ok, encode_hex, (ca_hash _ _ _ Hc).
  - apply hex_text_ok. by apply hash_text.
  - destruct Hr as [->|[Hr Hl]]; [done|]. rewrite (hex_clean r Hr), Hl. apply andb_false_r.
  - destruct Hr as [->|[Hr Hl]]; [done|]. by apply hex_text_ok.
Qed.

Lemma owner_ok w : ValidateWebsite w = Ok tt → addr_ok (w_Owner w) = true.
Proof.
  unfold ValidateWebsite. intros Hv%first_error_ok. repeat (apply Forall_cons_1 in Hv as [? Hv]). cbn [fst] in *. zb. done.
Qed.

Lemma domain_not_blank w : ValidateWebsite w = Ok tt → NormalizeDomain (w_Domain w) = w_Domain w → blank (w_Domain w) = false.
Proof.
  unfold ValidateWebsite. intros [Hv _]%first_error_ok%Forall_cons_1 Hn. cbn [fst] in Hv. unfold blank.
  assert (TrimSpace (w_Domain w) = w_Domain w) as -> by (rewrite <- Hn; apply TrimSpace_idem). by destruct (w_Domain w).
Qed.

(** The assignment of a website passes its checks. *)
Lemma assign_publisher_total p c rs seed el st w (s : VStore) : can_assign p c s → 0 < rs < 2 ^ 62 → bonds_inv (bond_table s) →
  Forall (λ a, is_Some (st !! a)) el → Forall (λ a, addr_ok a = true) el → ValidateWebsite w = Ok tt → NormalizeDomain (w_Domain w) = w_Domain w →
  ∃ s', assign_publisher p seed rs (round_interval p) (delay_max p) el st w s = Ok s'.
Proof.
  intros Hc Hrs Hb Hst Hel Hw Hn. unfold assign_publisher. destruct (GetAssignment rs (w_Domain w) s) eqn:Eg; [eauto|].
  destruct (select_spec el st (p_MinVerifierCount p) (seed ++ w_Domain w) Hst (ca_count _ _ _ Hc)) as (sel & -> & Hsub & _). cbn [mbind result_bind].
  destruct (ca_window _ _ _ Hc) as [Hw1 Hw2]. destruct (ca_interval _ _ _ Hc) as [Hi1 Hi2].
  assert (round_interval p = p_RoundIntervalSeconds p) as Ei by (unfold round_interval; destruct (Z.leb_spec (p_RoundIntervalSeconds p) 0); [lia|done]).
  pose proof (offset_in_round seed (w_Domain w) (round_interval p) (delay_max p) ltac:(lia)) as Ho.
  set (startAt := ComputeAssignmentStartAtUnix _ _ _ _ _).
  assert (startAt = rs + ComputeAssignmentOffsetSeconds seed (w_Domain w) (round_interval p) (delay_max p)) as Es by (apply i64_id; lia).
  assert (i64 (startAt + p_SubmissionWindowSeconds p) = startAt + p_SubmissionWindowSeconds p) as Ed by (apply i64_id; lia).
  unfold assign_one. rewrite Eg, Ed. unfold SetAssignment. cbn [a_Domain]. rewrite Hn. cbv zeta. cbn [with_a_domain].
  match goal with |- context [Assignment_ValidateBasic ?a] => assert (Assignment_ValidateBasic a = Ok tt) as ->; [|cbn [mbind result_bind]; eauto] end.
  destruct (ValidateWebsite_parts w Hw) as (_ & Hpo). pose proof (owner_ok w Hw) as Hown.
  unfold Assignment_ValidateBasic. apply first_error_ok. cbn [with_a_domain a_RoundStartUnix a_Domain a_StartAtUnix a_DeadlineUnix a_Verifiers a_VerificationOwner a_Reregistration].
  repeat (apply list.Forall_cons; split; [cbn [fst]|]); [..|constructor]; try (apply Z.leb_gt || apply Z.ltb_ge; lia).
  - by apply domain_not_blank.
  - apply negb_false_iff, forallb_Forall, list.Forall_forall. intros v Hv. rewrite SortStrings_perm in Hv. apply addr_ok_trim.
    rewrite list.Forall_forall in Hel. apply Hel. eapply elem_of_submseteq; [exact Hv|exact Hsub].
  - destruct (blank (w_PendingOwner w)) eqn:Eb; cbn [negb].
    + rewrite (addr_ok_trim _ Hown). apply andb_false_r.
    + destruct (Hpo eq_refl) as [Hp _]. rewrite TrimSpace_idem, Hp. apply andb_false_r.
  - destruct (blank (w_PendingOwner w)) eqn:Eb; cbn [negb]; [apply andb_false_r|]. unfold blank in *. by rewrite TrimSpace_idem, Eb.
Qed.

Lemma assign_publisher_keeps p c rs seed el st w (s s' : VStore) : NormalizeDomain (w_Domain w) = w_Domain w → can_assign p c s →
  assign_publisher p seed rs (round_interval p) (delay_max p) el st w s = Ok s' → can_assign p c s' ∧ bond_table s' = bond_table s.
Proof.
  intros Hn Hc HA. apply assign_publisher_Ok in HA as [Hf _ _ _ _]; [|done]. rewrite Hf. split; [|done]. by destruct Hc; split.
Qed.

(** The assignment of a new round goes through. *)
Lemma assign_total p c (s : VStore) : can_assign p c s → chain_inv s → rounds_inv s → ∃ s', assignNewRound p c s = Ok s'.
Proof.
  intros Hc Hi Hr. unfold assignNewRound. destruct (ca_window _ _ _ Hc) as [Hw _]. destruct (Z.leb_spec (p_SubmissionWindowSeconds p) 0); [lia|].
  cbn [guard_err mbind result_bind]. cbv zeta. destruct (ca_interval _ _ _ Hc) as [Hi1 Hi2]. pose proof (ca_time _ _ _ Hc) as Ht.
  assert (round_interval p = p_RoundIntervalSeconds p) as Ei by (unfold round_interval; destruct (Z.leb_spec (p_RoundIntervalSeconds p) 0); [lia|done]).
  destruct (next_round_start (c_TimeNs c) (round_interval p) ltac:(lia)) as [Hn _]. set (rs := nextVerificationRoundStartUnix _ _) in *.
  assert (0 < rs < 2 ^ 62) as Hrs by lia. destruct (Z.leb_spec rs 0); [lia|]. destruct (match GetLastRoundStart s with Some last => _ | None => _ end); [eauto|].
  destruct (eligibleVerifierAddrs (block_time c) s) as [el st] eqn:He. pose proof (ri_bonds _ Hr) as Hb.
  destruct (eligible_spec _ _ _ _ Hb He) as (_ & Hst & Hel). pose proof (eligible_count _ _ _ _ Hb He) as Hlen. pose proof (ca_verifiers _ _ _ Hc) as Hv.
  set (h := if i64 (c_Height c - 1) <? 0 then 0 else i64 (c_Height c - 1)).
  assert (0 ≤ h) as Hh by (unfold h; destruct (Z.ltb_spec (i64 (c_Height c - 1)) 0); lia).
  destruct (seed_total p c rs h s Hc Hrs) as (o & -> & Hseed). { unfold block_time. apply Z.div_le_upper_bound; lia. }
  cbn [mbind result_bind]. destruct o as [[[seed n] r]|]; [|eauto]. destruct (Hseed seed n r eq_refl) as [Hs1 Hs2].
  destruct (meta_total p c rs h el seed n r s Hc) as (r' & -> & Hbe); [lia|done|lia|done|done|]. cbn [mbind result_bind].
  assert (Forall (λ a, addr_ok a = true) el) as Hok.
  { apply list.Forall_forall. intros a (v & Hv' & _)%Hel. destruct (bi_verifiers _ Hb _ _ Hv') as [<- Hval]. unfold ValidateVerifier in Hval.
    apply first_error_ok in Hval. apply Forall_cons_1 in Hval as [Ha _]. cbn [fst] in Ha. by apply negb_false_iff in Ha. }
  assert (Forall (λ w, ValidateWebsite w = Ok tt ∧ NormalizeDomain (w_Domain w) = w_Domain w) (round_publishers rs s)) as Hpub.
  { apply list.Forall_forall. intros w [Hw' _]%(round_publishers_elem rs s w (ci_market _ Hi)). destruct (mi_websites _ (ci_market _ Hi) _ _ Hw') as [_ ?].
    split; [done|]. eapply stored_domain_normal; [apply Hi|eauto]. }
  assert (can_assign p c (set_rounds r' s)) as Hc' by (destruct Hc; split; try done; unfold beacons_fine; cbn; by rewrite Hbe).
  assert (∃ t, each (assign_publisher p seed rs (round_interval p) (delay_max p) el st) (round_publishers rs s) (set_rounds r' s) = Ok t) as [t ->].
  { change (bonds_inv (bond_table (set_rounds r' s))) in Hb. revert Hc' Hb. generalize (set_rounds r' s). clear - Hpub Hst Hok Hrs addresses_clean.
    induction Hpub as [|w l [Hv Hn] Hl IH]; intros t Hc Hb; [by eexists|]. cbn [each].
    destruct (assign_publisher_total p c rs seed el st w t Hc Hrs Hb Hst Hok Hv Hn) as [t' E]. rewrite E. cbn [mbind result_bind].
    destruct (assign_publisher_keeps _ _ _ _ _ _ _ _ _ Hn Hc E) as [Hc' Eb]. apply IH; [done|by rewrite Eb]. }
  cbn [mbind result_bind]. eauto.
Qed.
End Assign.
