(* ===== verification/Liveness.v ===== *)
(** The end of a block goes through: on a chain whose records are in order, whose pool
    has the pools of the rounds that are not settled, and whose payees may receive
    coins, [EndBlock] of [src/x/registry/verification_rounds.go] does not fail. *)

From stdpp Require Import sorting.
From S2P Require Import Prelude JsBase GoBase GoHash Market MarketProofs GoSdk Tokenomics Verifiers RegParams Verification VerificationProofs BankFrame ChainInv Rounds RoundProofs Rewards RewardProofs RoundSteps RoundInv Chain EndBlock Emission Halts ChainProps RoundProps FinalizeTotal RewardsTotal AssignTotal.

Section Liveness.
Context `{GoEnv} `{!AddrText} `{DrandSuite} {B : Type} `{BankKeeper B}.
Abbreviation VStore := (VStore B).

(** * Beacons *)

(** A recorded beacon has 64 hexadecimal digits. *)
Lemma beacon_text p c m (s : VStore) x s' : SubmitDrandBeacon p c m s = Ok (x, s') →
  is_hex (db_RandomnessHex x) = true ∧ length (db_RandomnessHex x) = 64%nat.
Proof.
  intros HS. unfold SubmitDrandBeacon in HS. run_ok HS. guards. zb. injection HS as <- <-. cbn [db_RandomnessHex].
  split; [done|]. by apply Nat.eqb_eq.
Qed.

Lemma run_beacons order ops (b : B) : Forall op_typed ops → Z.of_nat (length ops) < 2 ^ 64 → beacons_fine (run order ops (no_sites b)).
Proof.
  intros Hops Hn. refine (proj2 (run_ind order beacons_fine ops (no_sites b) (no_sites_inv b) Hops _ _ _ _)); [cbn; lia..| |intros k x Hx; cbn in Hx; by rewrite lookup_empty in Hx].
  intros o t t' _ Hi _ _ Ht HE Hf. destruct (match o with OBeacon _ _ _ => true | _ => false end) eqn:Ho.
  - destruct o; try done. cbn [exec] in HE. apply bind_Ok_inv in HE as ([x u] & HS & [= <-]). cbn [snd].
    destruct (beacon_Ok _ _ _ _ _ _ HS) as (_ & _ & Hb & _). unfold beacons_fine. rewrite Hb.
    intros k y [[<- <-]|[_ Hy]]%lookup_insert_Some; [by eapply beacon_text|by eapply Hf].
  - assert (drandBeacons (rounds t') = drandBeacons (rounds t)) as E by (eapply exec_beacons; [exact Hi|exact Ht|by intros p c m ->|exact HE]).
    unfold beacons_fine. by rewrite E.
Qed.

(** * What the steps of a block keep *)

Lemma finalize_unsettled order p now h (s s' : VStore) : 0 < now → chain_inv s → rounds_inv s →
  finalizeAssignments order p now h s = Ok s' → unsettled s' = unsettled s.
Proof.
  intros Hn Hi Hr HF. unfold finalizeAssignments in HF. destruct (values_keyed a_key (assignments s)) as [Hnd Hv].
  { intros k a Hk. destruct (ci_assignments s Hi k a Hk) as [-> _]. reflexivity. }
  enough (chain_inv s' ∧ rounds_inv s' ∧ unsettled s' = unsettled s) as (_ & _ & ?) by done.
  eapply (each_keyed a_key (λ s k, assignments s !! k) (λ t, chain_inv t ∧ rounds_inv t ∧ unsettled t = unsettled s)); [exact Hnd|exact Hv| |by split_and!|exact HF].
  intros a t t' (Hit & Hrt & Hu) Ha Hf. pose proof (finalize_one_effect _ _ _ _ _ _ _ Hn (ci_market _ Hit) Hf) as He.
  pose proof (finalize_one_rounds _ _ _ _ _ _ _ Hn Hit Ha Hf Hrt) as Hrt'. assert (unsettled t' = unsettled t) as Eu.
  { destruct (finalize_one_set _ _ _ _ _ _ _ Hn (ci_market _ Hit) Hf) as [->|(u & v & Hs & HS)]; [done|].
    destruct Hs as (_ & _ & _ & _ & Eu & _). unfold SetAssignment in HS. apply bind_Ok_inv in HS as (_u & _ & [= <-]).
    cbn [unsettled finalized with_a_domain a_RewardsSettled a_RoundStartUnix]. rewrite Eu. destruct (a_RewardsSettled a) eqn:Es; [done|].
    apply subseteq_union_1_L, singleton_subseteq_l, (ri_unsettled t Hrt _ a Ha Es). }
  destruct (is_due now a); [|subst; done].
  split; [split_and!; [by eapply done_with_inv|done|congruence]|]. destruct He as (_ & _ & _ & v & Hv'). intros k Hne.
  destruct (ci_assignments t Hit _ _ Ha) as (_ & _ & _ & Hw).
  rewrite Hv', (stored_domain_normal (market t)) by (done || apply Hit). by rewrite lookup_insert_ne.
Qed.

Lemma finalize_payroll order p V now h (s s' : VStore) : 0 < now → chain_inv s → finalizeAssignments order p now h s = Ok s' →
  payroll p V s → payroll p V s'.
Proof.
  intros Hn Hi HF Hp. pose proof (finalize_marks _ _ _ _ _ _ Hn Hi HF) as Hm. destruct (finalize_loop _ _ _ _ _ _ Hn Hi HF) as (_ & Hk & _ & _).
  destruct (keeps_sites _ _ (ci_market _ Hi) Hk) as (_ & _ & Hd). destruct (finalize_rest _ _ _ _ _ _ Hn Hi HF) as (_ & Eb & _).
  eapply payroll_keeps; [exact Hp|exact Eb|exact Hd| |].
  - apply set_eq. intros k. rewrite !elem_of_dom. specialize (Hm k). destruct (assignments s !! k) as [a|]; [|by rewrite Hm].
    destruct Hm as (a' & -> & _). split; eauto.
  - intros k a' Ha'. specialize (Hm k). rewrite Ha' in Hm. destruct (assignments s !! k) as [a|]; [|done]. destruct Hm as (x & [= <-] & Hx).
    exists a. destruct (_ || _); [subst; by split_and!|]. destruct Hx as [v ->]. by split_and!.
Qed.

(** * A block that can end *)

(** What the end of a block needs of the parameters, the block and the store: valid
    parameters of moderate size; a block after the first drand round; payees that may
    receive coins, as parties of open leases, as owners and candidates of websites
    and as verifiers of unsettled assignments, who each have a unit of the equal
    share; cooldowns that fit 64 bits; and a pool with the two pools of each round
    that is not settled, or a mint that gives it them. *)
Record block_ready (p : PublisherParams) (P V : Z) (c : BlockCtx) (s : VStore) : Prop := {
  br_params : Params_Validate p = Ok tt;
  br_seconds : p_RoundIntervalSeconds p ≤ 9223372036 ∧ p_SubmissionWindowSeconds p < 2 ^ 61 ∧ p_CooldownBaseSeconds p < 2 ^ 61;
  br_pools : round_pools p = Ok (P, V) ∧ P < 2 ^ 240 ∧ V < 2 ^ 64;
  br_time : 10 ^ 9 ≤ c_TimeNs c < 2 ^ 61 * 10 ^ 9;
  br_block : 0 ≤ c_Height c ∧ Forall (λ x, 0 ≤ x < 256) (c_LastHash c);
  br_drand : EffectiveDrandEnabled p = true →
    drand_typed p ∧ EffectiveDrandGenesisTimeUnix p + EffectiveDrandRoundOffsetSeconds p ≤ block_time c;
  br_verifiers : Z.of_nat (size (verifiers (bond_table s))) < 2 ^ 31;
  br_leases : payees_ok (market s);
  br_sites k w : websites (market s) !! k = Some w → site_ok (block_time c) (p_CooldownBaseSeconds p) w;
  br_payroll : payroll p V s;
  br_fundable : fundable p (pool_funded s) (bank (market s));
  br_funds : (P + V) * Z.of_nat (size (unsettled s)) ≤ funds p s }.

Lemma params_parts p : Params_Validate p = Ok tt → 0 < p_MinVerifierCount p ∧ 0 < p_SubmissionWindowSeconds p ∧ 0 < p_RoundIntervalSeconds p ∧
  0 < p_CooldownBaseSeconds p.
Proof.
  intros Hp. unfold Params_Validate in Hp.
  apply bind_Ok_inv in Hp as (_u & _ & Hp). apply bind_Ok_inv in Hp as (_u1 & _ & Hp). apply bind_Ok_inv in Hp as (_u2 & Hc%guard_err_Ok_inv & Hp).
  do 5 (apply bind_Ok_inv in Hp as (? & _ & Hp)). apply bind_Ok_inv in Hp as ([] & Hw & _). unfold windows_ok in Hw. apply first_error_ok in Hw.
  repeat (apply Forall_cons_1 in Hw as [? Hw]). cbn [fst] in *. zb. lia.
Qed.

Section Block.
Hypothesis denom_ok : ValidDenom verificationRewardDenom = true.
Hypothesis may_mint : minter tokenomics_module = true.
Hypothesis may_burn : burner tokenomics_module = true.
Hypothesis addresses_clean : ∀ t a, AccAddressFromBech32 t = Some a → TrimSpace t = t.

(** The owners are paid when they may receive coins. *)
Lemma owners_payable now base (m : Store B) : payable now base m → owners_paid m.
Proof.
  intros Hp d w Hw. destruct (site_facts now base d w m Hp Hw) as (_ & Hv & Hk). pose proof (owner_ok w Hv) as Ho. unfold addr_ok in Ho.
  destruct (AccAddressFromBech32 (w_Owner w)) as [acc|] eqn:E; [|done]. exists acc. split; [done|]. by eapply (sk_owner _ _ _ Hk).
Qed.

(** The rewards leave the parties and the escrow of the leases alone. *)
Lemma aside_settles now (s s' : VStore) : 0 ≤ now → chain_inv s' → solvent (market s) → payees_ok (market s) → aside s s' →
  ∃ m, settleLeases now (market s') = Ok m ∧ chain_inv (set_market m s').
Proof.
  intros Hn Hi Hs Hp Ha. pose proof (as_market _ _ Ha) as Em.
  destruct (settleLeases_total now (market s')) as [m E]; [done|apply Hi| | |].
  - intros d. unfold surplus. rewrite Em. cbn [set_bank bank leases]. unfold module_bal. cbn. rewrite (as_escrow _ _ Ha). apply Hs.
  - unfold payees_ok. rewrite Em. exact Hp.
  - exists m. split; [done|]. destruct (settleLeases_effect now _ _ (ci_market _ Hi) E) as (Hm & _ & _ & _ & Hpd & Hws & _).
    apply chain_inv_market; [done|done|]. split; [done|by rewrite Hws].
Qed.

(** The steps before the assignment keep what it needs. *)
Lemma ready_assigns p P V c (s s' : VStore) : block_ready p P V c s → beacons_fine s → drandBeacons (rounds s') = drandBeacons (rounds s) →
  bond_table s' = bond_table s → can_assign p c s'.
Proof.
  intros [Hpar (Hs1 & Hs2 & _) _ Ht (_ & Hh) Hd Hv _ _ _ _ _] Hb Er Eb. destruct (params_parts p Hpar) as (Hc & Hw & Hri & _).
  split; try done; try lia; [unfold beacons_fine; by rewrite Er|by rewrite Eb].
Qed.

Lemma ready_ends order p P V c (s : VStore) : registry_inv s → solvent (market s) → beacons_fine s → block_ready p P V c s →
  ∃ s', EndBlock order p c s = Ok s'.
Proof.
  intros Hreg Hsol Hbea Hrdy. pose proof Hrdy as [Hpar (Hs1 & Hs2 & Hs3) (Hpools & HP & HV) Ht (Hh & _) _ _ Hlea Hsit Hpay Hfu Hfun].
  destruct (params_parts p Hpar) as (_ & _ & _ & Hcd). pose proof Hreg as [Hi Hr]. unfold EndBlock. set (now := block_time c) in *.
  assert (0 < now < 2 ^ 61) as Hnow by (unfold now, block_time; split; [apply Z.div_str_pos|apply Z.div_lt_upper_bound]; lia).
  assert (payable now (p_CooldownBaseSeconds p) (market s)) as Hpb by (split; [apply Hi|done|done|exact Hsit]).
  destruct (finalize_total now (p_CooldownBaseSeconds p) ltac:(lia) ltac:(lia) ltac:(lia) order p (c_Height c) s Hh eq_refl Hi (ri_valid s Hr) Hpb)
    as (s1 & E1 & Hp1).
  destruct (exec_pool order (OFinalize p now (c_Height c)) s s1 Hreg ltac:(cbn; lia) eq_refl E1) as [Hbal1 Hsup1].
  destruct (finalize_loop _ _ _ _ _ _ (proj1 Hnow) Hi E1) as (Hi1 & _). pose proof (finalize_rounds _ _ _ _ _ _ (proj1 Hnow) Hi Hr E1) as Hr1.
  destruct (finalize_rest _ _ _ _ _ _ (proj1 Hnow) Hi E1) as (Er1 & Eb1 & Ef1).
  pose proof (finalize_unsettled _ _ _ _ _ _ (proj1 Hnow) Hi Hr E1) as Eu1. rewrite E1. cbn [mbind result_bind].
  assert (can_pay p P V (size (unsettled s1)) s1) as Hcp.
  { split; [exact Hi1|exact Hr1|by eapply finalize_payroll; [| |exact E1|]; try done; lia|by eapply owners_payable| |].
    - destruct Hfu as [F1 F2]. split; [done|]. rewrite Ef1, Hsup1. exact F2.
    - unfold funds. rewrite Hbal1, Ef1, Eu1. exact Hfun. }
  destruct (rewards_total denom_ok may_mint may_burn order p P V Hpools (conj HP HV) s1 Hcp) as [s2 E2]. rewrite E2. cbn [mbind result_bind].
  destruct (rewards_rounds order p s1 s2 Hi1 Hr1 E2) as [Hr2 Ha2]. pose proof (aside_inv _ _ Hi1 Ha2) as Hi2.
  destruct (rewards_bonds order p s1 s2 (Build_registry_inv s1 Hi1 Hr1) E2) as [Eb2 _].
  assert (drandBeacons (rounds s2) = drandBeacons (rounds s1)) as Er2.
  { eapply (exec_beacons order (ORewards p)); [exact (Build_registry_inv s1 Hi1 Hr1)|done|done|exact E2]. }
  destruct (aside_settles now s1 s2 ltac:(lia) Hi2 (py_solvent _ _ _ Hp1) (py_payees _ _ _ Hp1) Ha2) as (m & E3 & Hi3).
  unfold on_market. rewrite E3. cbn [mbind result_bind]. apply (assign_total addresses_clean); [|exact Hi3|by eapply rounds_inv_same].
  eapply ready_assigns; [exact Hrdy|exact Hbea|cbn; congruence|cbn; congruence].
Qed.

(** C26 (liveness).  After any history, the end of a block goes through when the block
    is ready for it: none of its four steps fails.  It leaves nothing that is due: every
    assignment of before is final or before its deadline, every round is paid or has an
    open assignment, and every lease that ended is closed.  A block is ready
    ([block_ready]) when
    - the parameters are valid, the round interval is at most 9223372036 seconds, the
      submission window and the base of the cooldown are below [2^61] seconds, and the
      pools of a round are below [2^240] and [2^64];
    - the time of the block is at least a second after the epoch and below [2^61]
      seconds, its height is not negative and the last hash consists of bytes; with
      drand on, its schedule is below [2^62] and the block is not before the genesis of
      drand plus the offset;
    - there are fewer than [2^31] verifiers, no bond is above [2^127], and there are at
      most [2^63] websites;
    - the parties of the open leases, the owners and the pending owners of the websites
      and the verifiers of the unsettled assignments may receive coins;
    - the next cooldown of each website that is in none ends before the last 64-bit time;
    - in each unsettled assignment the part of the reward that is shared equally has a
      unit for each verifier, wherever there is a reward ([unbonded_verifier_halts] shows
      what happens without);
    - the pool can be topped up within 256 bits, and then has the two pools of every
      unsettled round ([exhausted_pool_halts] shows what happens without).
    The denomination of the rewards is valid, the module of the emission may mint and
    burn, and the addresses that decode have no white space around them. *)
Theorem end_block_succeeds order ops (b : B) p P V c : Forall op_typed ops → Z.of_nat (length ops) < 2 ^ 64 →
  (∀ d, 0 ≤ mod_bal b registry_module d) → let s := run order ops (no_sites b) in block_ready p P V c s →
  ∃ s', EndBlock order p c s = Ok s' ∧ registry_inv s' ∧
    (∀ k a, is_Some (assignments s !! k) → assignments s' !! k = Some a →
      (a_Finalized a = true ∨ assignment_open (block_time c) a) ∧
      (a_RewardsSettled a = true ∨ round_open (block_time c) (a_RoundStartUnix a) s')) ∧
    (∀ k l, leases (market s') !! k = Some l → l_Status l = LeaseStatusActive → block_time c < l_EndsAtUnix l).
Proof.
  intros Hops Hn Hb s Hrdy. destruct (run_good order ops (no_sites b) (no_sites_inv b) Hops) as [Hi Hs]; [cbn; lia..|].
  destruct (ready_ends order p P V c s Hi) as [s' E]; [|by apply run_beacons|exact Hrdy|].
  { intros d. unfold s. rewrite Hs. unfold surplus. cbn [no_sites market bank leases]. change (sum_over (escrow d) ∅) with 0. specialize (Hb d). cbn in *. lia. }
  exists s'. split; [exact E|]. destruct Hi as [Hi Hr].
  assert (ctx_typed c) as Hc by (destruct (br_time _ _ _ _ _ Hrdy); unfold ctx_typed; lia).
  destruct (EndBlock_steps _ _ _ _ _ Hi Hr Hc E) as (s1 & s2 & x & Hbl).
  split; [split; apply Hbl|]. split; [by intros; eapply block_assignments|]. intros k l Hl.
  assert (leases (market s') = leases x) as El by (by rewrite (as_market _ _ (be_assign _ _ _ _ _ _ Hbl))). rewrite El in Hl. revert Hl. apply (settled_leases _ (market s2)); apply Hbl.
Qed.
End Block.
End Liveness.
