(* ===== verification/DemoEnv.v ===== *)
(** A concrete environment for the registry: texts, addresses, a bank with module
    accounts and supply, and a history of messages and end-block steps: Alice
    registers a website, three verifiers bond and verify it, Bob leases a slot,
    and Carol takes the domain over.  The theorems are applied to it. *)

From stdpp Require Import sorting.
From S2P Require Import Prelude JsBase GoBase GoHash Market MarketProofs GoSdk Tokenomics Verifiers RegParams Verification VerificationProofs BankFrame ChainInv Rounds RoundProofs Rewards RewardProofs RoundSteps RoundInv Chain.

Module Demo.

(** Addresses are their own bytes, every clean text is an address, every non-empty
    one a denomination and a URL; integers are decimal. *)
Definition parse_int (s : gostr) : option Z :=
  if negb (empty s) && forallb is_digit s && (dec_val s <? 2 ^ 256) then Some (dec_val s) else None.

#[export, refine] Instance demo_env : GoEnv := {|
  ToLower s := ascii_lower <$> s;
  ParseRequestURI s := negb (empty s);
  AccAddressFromBech32 s := if empty s || negb (bool_decide (TrimSpace s = s)) then None else Some s;
  ValidDenom s := negb (empty s);
  NewIntFromString := parse_int;
  ToLower_ascii := _; NewIntFromString_range := _; NewIntFromString_dec := _ |}.
Proof.
  - done.
  - intros s z. unfold parse_int. destruct (_ && _) eqn:E; [|done]. intros [= <-]. zb.
    rewrite Z.abs_eq; [done|]. apply dec_val_nonneg. by apply forallb_Forall.
  - intros z Hz. unfold parse_int. pose proof (dec_print_nonempty z ltac:(lia)) as Hne.
    assert (forallb is_digit (dec_print z) = true) as -> by (apply forallb_Forall, dec_print_digits; lia).
    rewrite dec_val_print by lia. destruct (dec_print z); [done|]. cbn [empty negb andb]. by destruct (Z.ltb_spec z (2 ^ 256)); [|lia].
Defined.

#[export, refine] Instance demo_text : AddrText := {| AccString a := a; AccString_decodes := _; AccString_clean := _ |}.
Proof.
  - intros s a. cbn [AccAddressFromBech32 demo_env]. destruct (_ || _) eqn:E; [done|]. intros [= <-]. by rewrite E.
  - intros s a. cbn [AccAddressFromBech32 demo_env]. destruct (_ || _) eqn:E; [done|]. intros [= <-]. zb. by case_bool_decide.
Defined.

(** A signature of a message is the message. *)
#[export] Instance demo_suite : DrandSuite := {| VerifyRecovered _ _ msg sig := bool_decide (sig = msg) |}.

(** Balances by holder, an account or a module, and denomination. *)
Abbreviation holder := (gostr + gostr)%type.
Record ledger := mkLedger { bals : gmap (holder * gostr) Z; supplies : gmap gostr Z }.
Definition bal (b : ledger) (h : holder) (d : gostr) : Z := default 0 (bals b !! (h, d)).
Definition sup (b : ledger) (d : gostr) : Z := default 0 (supplies b !! d).
Definition credit_to (h : holder) (d : gostr) (n : Z) (b : ledger) : ledger := mkLedger (<[(h, d) := bal b h d + n]> (bals b)) (supplies b).
Definition issue (d : gostr) (n : Z) (b : ledger) : ledger := mkLedger (bals b) (<[d := sup b d + n]> (supplies b)).
Definition move (b : ledger) (from_ to_ : holder) (d : gostr) (n : Z) : option ledger :=
  if bal b from_ d <? n then None else Some (credit_to to_ d n (credit_to from_ d (- n) b)).

Lemma credit_bal h d n b h' d' : bal (credit_to h d n b) h' d' = bal b h' d' + if decide (h' = h ∧ d' = d) then n else 0.
Proof.
  unfold bal at 1, credit_to. cbn. destruct (decide (h' = h ∧ d' = d)) as [[-> ->]|Hne]; [by rewrite lookup_insert_eq|].
  rewrite lookup_insert_ne by naive_solver. unfold bal. lia.
Qed.

Lemma issue_sup d n b d' : sup (issue d n b) d' = sup b d' + if decide (d' = d) then n else 0.
Proof.
  unfold sup at 1, issue. cbn. destruct (decide (d' = d)) as [->|Hne]; [by rewrite lookup_insert_eq|].
  rewrite lookup_insert_ne by done. unfold sup. lia.
Qed.

Lemma move_spec b f t d n b' : f ≠ t → move b f t d n = Some b' → n ≤ bal b f d ∧
  (∀ h d', bal b' h d' = bal b h d' + (if decide (h = t ∧ d' = d) then n else 0) - (if decide (h = f ∧ d' = d) then n else 0)) ∧
  ∀ d', sup b' d' = sup b d'.
Proof.
  intros Hne. unfold move. destruct (Z.ltb_spec (bal b f d) n); [done|]. intros [= <-]. split; [done|]. split; [|done].
  intros h d'. rewrite !credit_bal. repeat case_decide; lia.
Qed.

Definition mint (b : ledger) (m d : gostr) (n : Z) : option ledger :=
  if bool_decide (m = tokenomics_module) && int_in_range (sup b d + n) then Some (issue d n (credit_to (inr m) d n b)) else None.
Definition burn (b : ledger) (m d : gostr) (n : Z) : option ledger :=
  if bool_decide (m = tokenomics_module) && negb (bal b (inr m) d <? n) then Some (issue d (- n) (credit_to (inr m) d (- n) b)) else None.

Ltac balances := repeat case_decide; destruct_and?; simplify_eq; try lia; naive_solver.

#[export, refine] Instance demo_bank : BankKeeper ledger := {|
  mod_bal b m := bal b (inr m);
  acc_bal b a := bal b (inl a);
  supply := sup;
  blockedAddr _ := false;
  minter m := bool_decide (m = tokenomics_module);
  burner m := bool_decide (m = tokenomics_module);
  AccountToModule b a m := move b (inl a) (inr m);
  ModuleToAccount b m a := move b (inr m) (inl a);
  MintCoins := mint; BurnCoins := burn;
  AccountToModule_spec := _; ModuleToAccount_spec := _; ModuleToAccount_ok := _; MintCoins_spec := _; MintCoins_ok := _;
  BurnCoins_spec := _; BurnCoins_ok := _ |}.
Proof.
  - intros b a m d n b' _ Hm. destruct (move_spec b (inl a) (inr m) d n b' ltac:(done) Hm) as (? & Hb & Hs).
    split_and!; [done|intros m' d'; rewrite Hb; balances|intros a' d'; rewrite Hb; balances|exact Hs].
  - intros b m a d n b' _ Hm. destruct (move_spec b (inr m) (inl a) d n b' ltac:(done) Hm) as (? & Hb & Hs).
    split_and!; [done|intros m' d'; rewrite Hb; balances|intros a' d'; rewrite Hb; balances|exact Hs].
  - intros b m a d n Hn _. unfold move. destruct (Z.ltb_spec (bal b (inr m) d) n); [lia|]. eauto.
  - intros b m d n b' _. unfold mint. destruct (_ && _); [|done]. intros [= <-]. split_and!.
    + intros m' d'. change (bal (issue d n (credit_to (inr m) d n b))) with (bal (credit_to (inr m) d n b)). rewrite credit_bal. balances.
    + intros a d'. change (bal (issue d n (credit_to (inr m) d n b))) with (bal (credit_to (inr m) d n b)). rewrite credit_bal. balances.
    + intros d'. rewrite issue_sup. reflexivity.
  - intros b m d n Hm Hn Hr. unfold mint, int_in_range. rewrite Hm. unfold int256 in Hr. destruct (Z.ltb_spec (Z.abs (sup b d + n)) (2 ^ 256)); [|lia]. eauto.
  - intros b m d n b' _. unfold burn. destruct (_ && _) eqn:E; [|done]. intros [= <-]. zb. split_and!; [done|..].
    + intros m' d'. change (bal (issue d (- n) (credit_to (inr m) d (- n) b))) with (bal (credit_to (inr m) d (- n) b)). rewrite credit_bal. balances.
    + intros a d'. change (bal (issue d (- n) (credit_to (inr m) d (- n) b))) with (bal (credit_to (inr m) d (- n) b)). rewrite credit_bal. balances.
    + intros d'. rewrite issue_sup. change (sup (credit_to _ _ _ _)) with (sup b). balances.
  - intros b m d n Hm [? ?]. unfold burn. rewrite Hm. destruct (Z.ltb_spec (bal b (inr m) d) n); [lia|]. eauto.
Defined.

(** ** A history *)

Definition params : PublisherParams := DefaultPublisherParams.
Definition order (m : gmap gostr Z) : list (gostr * Z) := map_to_list m.

(** The first and the second round, and a block before each. *)
Definition round1 : Z := 1700002800.
Definition round2 : Z := 1700013600.
Definition block_before (r h : Z) : BlockCtx := mkCtx (go "congrid-1") h ((r - 1800) * 10 ^ 9) [h].
Definition ctx1 : BlockCtx := block_before round1 5.
Definition ctx2 : BlockCtx := block_before round2 50.

(** The beacon that a round requires. *)
Definition beacon_for (r : Z) : MsgSubmitDrandBeacon :=
  let n := match requiredDrandRound params r with Ok (n, _) => n | Err _ => 0 end in
  let sig := digestUnchainedRound n in
  {| mdb_Submitter := go "v1"; mdb_Round := n; mdb_RandomnessHex := EncodeToString (Sum256 sig); mdb_SignatureHex := EncodeToString sig |}.
Definition seed_of (c : BlockCtx) (r : Z) : list Z :=
  ComputeRoundSeedWithDrand (c_ChainID c) r (c_Height c - 1) (c_LastHash c) (mdb_Round (beacon_for r))
    (Sum256 (digestUnchainedRound (mdb_Round (beacon_for r)))).
Definition start_of (c : BlockCtx) (r : Z) : Z := ComputeAssignmentStartAtUnix (seed_of c r) (go "example.com") r 3600 3600.
Definition start1 : Z := Eval vm_compute in start_of ctx1 round1.
Definition start2 : Z := Eval vm_compute in start_of ctx2 round2.

Definition first_register : MsgRegisterPublisher := {|
  mr_Owner := go "alice"; mr_Domain := go "Example.com"; mr_MetadataUri := []; mr_Proof := []; mr_Verifier := []; mr_Referrer := [] |}.
Definition commit_of (v : gostr) : MsgCommit := {|
  mk_Verifier := v; mk_Domain := go "example.com"; mk_RoundStartUnix := round1;
  mk_CommitHash := ComputeVerificationCommitHashV2 (go "example.com") round1 v (go "alice") true [] (go "n") |}.
Definition reveal_of (v : gostr) : MsgReveal := {|
  mv_Verifier := v; mv_Domain := go "example.com"; mv_RoundStartUnix := round1; mv_Passed := true; mv_EvidenceHash := [];
  mv_Nonce := go "n"; mv_VerificationOwner := go "alice"; mv_ObservedSimilarDomains := 0; mv_MatchedSimilarDomains := 0;
  mv_ExpectedSimilarDomains := 0; mv_ExpectedSetHash := []; mv_ObservedSetHash := [] |}.
Definition create : MsgCreateSlot := {|
  mc_Publisher := go "alice"; mc_Domain := go "example.com"; mc_Label := go "Header"; mc_Summary := []; mc_Category := [];
  mc_Placement := []; mc_Size := []; mc_RateDenom := go "ucongrid"; mc_RateAmount := go "200"; mc_UnitSeconds := 60;
  mc_MinDurationSeconds := 60; mc_MaxDurationSeconds := 6000; mc_Tags := [] |}.
Definition list_slot : MsgUpdateSlotStatus := {| mu_Publisher := go "alice"; mu_SlotId := go "slot-000001"; mu_Status := SlotStatusListed |}.
Definition lease : MsgLeaseSlot := {|
  ml_Lessee := go "bob"; ml_SlotId := go "slot-000001"; ml_TargetUrl := go "https://b.example/"; ml_StartsAtUnix := 0;
  ml_DurationSeconds := 600 |}.

Definition bond (v n : gostr) : MsgBond := {| mb_Verifier := v; mb_Denom := DefaultDenom; mb_Amount := n |}.

Definition funded : ledger := mkLedger
  {[(inl (go "bob"), DefaultDenom) := 5000; (inl (go "v1"), DefaultDenom) := 100; (inl (go "v2"), DefaultDenom) := 100;
    (inl (go "v3"), DefaultDenom) := 100]} {[DefaultDenom := 5300]}.
Definition assigned : list op :=
  [ORegister 7 first_register; OBond (bond (go "v1") (go "10")); OBond (bond (go "v2") (go "20")); OBond (bond (go "v3") (go "30"));
   OBeacon params ctx1 (beacon_for round1); OAssign params ctx1].
Definition verifying : list op :=
  assigned ++ [OCommit params (start1 + 100) (commit_of (go "v1")); OCommit params (start1 + 100) (commit_of (go "v2"));
   OReveal params (start1 + 400) (reveal_of (go "v1")); OReveal params (start1 + 400) (reveal_of (go "v2"))].
Definition slot_made : list op := verifying ++ [OFinalize params (start1 + 600) 8; ORewards params; OCreateSlot (start1 + 700) create].
Definition listed : list op := slot_made ++ [OUpdateSlotStatus (start1 + 700) list_slot].
Definition leasing : list op := listed ++ [OLeaseSlot (start1 + 1400) lease].

(** Carol re-registers the domain and two of the three verifiers confirm her. *)
Definition reregister : MsgRegisterPublisher := {|
  mr_Owner := go "carol"; mr_Domain := go "example.com"; mr_MetadataUri := []; mr_Proof := []; mr_Verifier := []; mr_Referrer := [] |}.
Definition commit_carol (v : gostr) : MsgCommit := {|
  mk_Verifier := v; mk_Domain := go "example.com"; mk_RoundStartUnix := round2;
  mk_CommitHash := ComputeVerificationCommitHashV2 (go "example.com") round2 v (go "carol") true [] (go "n") |}.
Definition reveal_carol (v : gostr) : MsgReveal := {|
  mv_Verifier := v; mv_Domain := go "example.com"; mv_RoundStartUnix := round2; mv_Passed := true; mv_EvidenceHash := [];
  mv_Nonce := go "n"; mv_VerificationOwner := go "carol"; mv_ObservedSimilarDomains := 0; mv_MatchedSimilarDomains := 0;
  mv_ExpectedSimilarDomains := 0; mv_ExpectedSetHash := []; mv_ObservedSetHash := [] |}.
Definition committing : list op :=
  leasing ++ [OSettle (start1 + 2000); ORegister 9 reregister; OBeacon params ctx2 (beacon_for round2); OAssign params ctx2;
    OCommit params (start2 + 100) (commit_carol (go "v1")); OCommit params (start2 + 100) (commit_carol (go "v2"))].
Definition contesting : list op :=
  committing ++ [OReveal params (start2 + 400) (reveal_carol (go "v1")); OReveal params (start2 + 400) (reveal_carol (go "v2"))].

(** The store after a history that starts with funds of Bob's. *)
Abbreviation after_ops ops := (run order ops (no_sites funded)).

(** The stores along the history, each computed from the one before. *)
Lemma run_app ops ops' (s : VStore ledger) : run order (ops ++ ops') s = run order ops' (run order ops s).
Proof. apply foldl_app. Qed.

Definition s_assigned : VStore ledger := Eval vm_compute in after_ops assigned.
Definition s_verifying : VStore ledger := Eval vm_compute in run order (drop (length assigned) verifying) s_assigned.
Definition s_made : VStore ledger := Eval vm_compute in run order (drop (length verifying) slot_made) s_verifying.
Definition s_leasing : VStore ledger := Eval vm_compute in run order (drop (length slot_made) leasing) s_made.
Definition s_committing : VStore ledger := Eval vm_compute in run order (drop (length leasing) committing) s_leasing.
Definition s_contesting : VStore ledger := Eval vm_compute in run order (drop (length committing) contesting) s_committing.

Lemma assigned_state : after_ops assigned = s_assigned.
Proof. vm_compute. reflexivity. Qed.
Lemma verifying_state : after_ops verifying = s_verifying.
Proof. unfold verifying. rewrite run_app, assigned_state. vm_compute. reflexivity. Qed.
Lemma made_state : after_ops slot_made = s_made.
Proof. unfold slot_made. rewrite run_app, verifying_state. vm_compute. reflexivity. Qed.
Lemma leasing_state : after_ops leasing = s_leasing.
Proof. unfold leasing, listed. rewrite !run_app, made_state. vm_compute. reflexivity. Qed.
Lemma listed_state : after_ops listed = run order [OUpdateSlotStatus (start1 + 700) list_slot] s_made.
Proof. unfold listed. by rewrite run_app, made_state. Qed.
Lemma committing_state : after_ops committing = s_committing.
Proof. unfold committing. rewrite run_app, leasing_state. vm_compute. reflexivity. Qed.
Lemma contesting_state : after_ops contesting = s_contesting.
Proof. unfold contesting. rewrite run_app, committing_state. vm_compute. reflexivity. Qed.

(** Evaluate a statement about a store of the history. *)
Ltac at_state :=
  rewrite ?contesting_state, ?committing_state, ?leasing_state, ?listed_state, ?made_state, ?verifying_state, ?assigned_state;
  vm_compute; reflexivity.

(** Each history is typed. *)
Definition typedb (o : op) : bool :=
  match o with
  | ORegister _ _ | OCreateSlot _ _ | OUpdateSlotStatus _ _ | OBond _ | OUnbond _ | OBeacon _ _ _ | ORewards _ => true
  | OLeaseSlot now m => (0 <? now) && (now <? 2 ^ 63) && (- 2 ^ 63 <=? ml_StartsAtUnix m) && (ml_StartsAtUnix m <? 2 ^ 63)
                        && (- 2 ^ 63 <=? ml_DurationSeconds m) && (ml_DurationSeconds m <? 2 ^ 63)
  | OCommit _ now m => (0 <? now) && (now <? 2 ^ 63) && (- 2 ^ 63 <=? mk_RoundStartUnix m) && (mk_RoundStartUnix m <? 2 ^ 63)
  | OReveal _ now m => (0 <? now) && (now <? 2 ^ 63) && (- 2 ^ 63 <=? mv_RoundStartUnix m) && (mv_RoundStartUnix m <? 2 ^ 63)
  | OAssign _ c => (0 <=? c_TimeNs c) && (c_TimeNs c <? 2 ^ 62 * 10 ^ 9)
  | OFinalize _ now _ | OSettle now => (0 <? now) && (now <? 2 ^ 63)
  end.
Lemma typedb_typed ops : forallb typedb ops = true → Forall op_typed ops.
Proof.
  intros Ho%forallb_Forall. eapply list.Forall_impl; [exact Ho|]. intros [] Ht; cbn in *; zb; unfold lease_msg_typed, in_s;
    change (64 - 1) with 63; try done; split_and?; lia.
Qed.

End Demo.
