(* ===== verification/ChainDemo.v ===== *)
(** The theorems of the registry, applied to the history of [DemoEnv]: each of their
    hypotheses can hold. *)

From stdpp Require Import sorting.
From S2P Require Import Prelude JsBase GoBase GoHash Market MarketProofs GoSdk Tokenomics Verifiers RegParams Verification VerificationProofs BankFrame ChainInv Rounds RoundProofs Rewards RewardProofs RoundSteps RoundInv Chain DemoEnv ChainProps.

Module Witness.
Import Demo.

(** Times of the history are closed terms. *)
Ltac time_ok := unfold start1, start2, round1, round2; lia.

Lemma after_inv ops : forallb typedb ops = true → (Z.of_nat (length ops) <? 2 ^ 60) = true →
  registry_inv (after_ops ops) ∧ ∀ d, surplus d (market (after_ops ops)) = 0.
Proof.
  intros Ht Hn. zb. destruct (run_good order ops (no_sites funded) (no_sites_inv funded) (typedb_typed ops Ht)) as [Hi Hs]; [cbn; lia..|].
  split; [done|]. intros d. rewrite Hs. unfold surplus. cbn [no_sites market bank leases].
  change (sum_over (escrow d) ∅) with 0. cbn [module_bal registry_bank mod_bal demo_bank]. unfold bal, funded. cbn [bals].
  by rewrite !lookup_insert_ne, lookup_singleton_ne by done.
Qed.

Lemma after_solvent ops : forallb typedb ops = true → (Z.of_nat (length ops) <? 2 ^ 60) = true →
  market_inv (market (after_ops ops)) ∧ solvent (market (after_ops ops)) ∧ payees_ok (market (after_ops ops)).
Proof.
  intros Ht Hn. destruct (after_inv ops Ht Hn) as [Hi Hs]. split_and!; [apply Hi|intros d; by rewrite Hs|]. by intros k l to_ a _ _ _ _.
Qed.

Lemma exec_applied o s : is_ok (exec order o s) = true → exec order o s = Ok (apply_op order s o).
Proof. unfold apply_op. by destruct (exec order o s). Qed.

Lemma finalize_applied p now h s : is_ok (finalizeAssignments order p now h s) = true →
  finalizeAssignments order p now h s = Ok (apply_op order s (OFinalize p now h)).
Proof. intros Hok. apply (exec_applied (OFinalize p now h) s Hok). Qed.

Lemma order_visits : visits order.
Proof. by intros m. Qed.

(** ** The theorems at these histories *)

(** Bob's lease is in the books. *)
Lemma market_invariant_witness : ∃ l, leases (market (after_ops leasing)) !! go "lease-000001" = Some l ∧
  l_Status l = LeaseStatusActive ∧ books_ok l ∧ l_EscrowTotal l * l_UnitSeconds l = l_RateAmount l * (l_EndsAtUnix l - l_StartsAtUnix l).
Proof.
  destruct (leases (market (after_ops leasing)) !! go "lease-000001") as [l|] eqn:E; [|exfalso; revert E; rewrite ?contesting_state, ?leasing_state, ?verifying_state; vm_compute; discriminate].
  exists l. split; [reflexivity|]. split; [revert E; rewrite leasing_state; vm_compute; intros [= <-]; reflexivity|].
  destruct (market_invariant order leasing funded (go "lease-000001") l (typedb_typed leasing eq_refl) eq_refl E) as (_ & _ & H1 & H2 & _).
  exact (conj H1 H2).
Defined.

Lemma escrow_conserved_witness : module_bal (bank (market (after_ops leasing))) (go "ucongrid") = 2000 ∧
  2000 = module_bal funded (go "ucongrid") + sum_over (escrow (go "ucongrid")) (leases (market (after_ops leasing))).
Proof.
  assert (module_bal (bank (market (after_ops leasing))) (go "ucongrid") = 2000) as E by at_state.
  split; [exact E|]. rewrite <- E.
  exact (escrow_conserved order leasing funded (go "ucongrid") (typedb_typed leasing eq_refl) eq_refl).
Defined.

Lemma settlement_exact_witness : ∃ s', settleLeases (start1 + 2000) (market (after_ops leasing)) = Ok s' ∧
  account_bal (bank s') (go "alice") (go "ucongrid") = 11417525.
Proof.
  destruct (after_solvent leasing eq_refl eq_refl) as (Hi & Hs & Hp).
  destruct (settlement_exact (start1 + 2000) (market (after_ops leasing)) ltac:(time_ok) Hi Hs Hp) as (s' & E & _ & _ & _ & Ha).
  exists s'. split; [exact E|]. rewrite Ha. at_state.
Defined.

Lemma violations_refunded_witness : ∃ s', violateActiveLeasesForDomain (go "example.com") (start1 + 1700) (start1 + 1700) (market (after_ops leasing)) = Ok s' ∧
  account_bal (bank s') (go "bob") (go "ucongrid") = 5000.
Proof.
  destruct (after_solvent leasing eq_refl eq_refl) as (Hi & Hs & Hp).
  destruct (violations_refunded (go "example.com") (start1 + 1700) (market (after_ops leasing)) ltac:(time_ok) Hi Hs Hp) as (s' & E & _ & _ & _ & Ha).
  exists s'. split; [exact E|]. rewrite Ha. at_state.
Defined.

Lemma lease_terms_witness : ∃ l s', LeaseSlot (start1 + 1400) lease (market (after_ops listed)) = Ok (l, s') ∧
  l_EndsAtUnix l = l_StartsAtUnix l + 600 ∧ module_bal (bank s') (go "ucongrid") =
    module_bal (bank (market (after_ops listed))) (go "ucongrid") + escrow (go "ucongrid") l.
Proof.
  destruct (after_solvent listed eq_refl eq_refl) as (Hi & _).
  assert (is_ok (LeaseSlot (start1 + 1400) lease (market (after_ops listed))) = true) as Hok by at_state.
  destruct (LeaseSlot (start1 + 1400) lease (market (after_ops listed))) as [[l s']|e] eqn:E; [|discriminate Hok]. exists l, s'. split; [reflexivity|].
  destruct (lease_terms (start1 + 1400) lease (market (after_ops listed)) l s' Hi) as (x & w & _ & _ & _ & _ & _ & He & _ & _ & _ & Hm & _);
    [time_ok|unfold lease_msg_typed, in_s; cbn; lia|exact E|]. split; [exact He|apply Hm].
Defined.

(** Carol takes the domain over. *)
Lemma owner_change_needs_quorum_witness : ∃ w w', websites (market (after_ops contesting)) !! go "example.com" = Some w ∧
  websites (market (apply_op order (after_ops contesting) (OFinalize params (start2 + 600) 20))) !! go "example.com" = Some w' ∧
  w_Owner w = go "alice" ∧ ∃ a, a ∈ values (assignments (after_ops contesting)) ∧
    takes_over (start2 + 600) (after_ops contesting) a ∧ w_Owner w' = TrimSpace (a_VerificationOwner a).
Proof.
  destruct (after_inv contesting eq_refl eq_refl) as [Hi _].
  assert (is_ok (exec order (OFinalize params (start2 + 600) 20) (after_ops contesting)) = true) as Hok by at_state.
  assert (w_Owner <$> websites (market (after_ops contesting)) !! go "example.com" = Some (go "alice")) as E1 by at_state.
  assert (w_Owner <$> websites (market (apply_op order (after_ops contesting) (OFinalize params (start2 + 600) 20))) !! go "example.com" =
    Some (go "carol")) as E2 by at_state.
  apply fmap_Some in E1 as (w & E1 & O1). apply fmap_Some in E2 as (w' & E2 & O2). exists w, w'.
  split; [exact E1|]. split; [exact E2|]. split; [symmetry; exact O1|].
  destruct (owner_change_needs_quorum order (OFinalize params (start2 + 600) 20) (after_ops contesting)
    (apply_op order (after_ops contesting) (OFinalize params (start2 + 600) 20)) (go "example.com") w w' Hi)
    as (p & now & h & a & [= <- <- <-] & Ha & Ht & _ & Ho);
    [cbn; time_ok|exact (exec_applied _ _ Hok)|exact E1|exact E2|rewrite <- O1, <- O2; discriminate|].
  exists a. exact (conj Ha (conj Ht Ho)).
Defined.

(** Two of three verifiers submitted before the deadline. *)
Lemma votes_of_assigned_verifiers_witness : ∃ a,
  assignments (after_ops verifying) !! assignmentKey round1 (go "example.com") = Some a ∧
  (length (ListSubmissions (a_RoundStartUnix a) (a_Domain a) (after_ops verifying)) ≤ length (a_Verifiers a))%nat.
Proof.
  destruct (assignments (after_ops verifying) !! assignmentKey round1 (go "example.com")) as [a|] eqn:E; [|exfalso; revert E; rewrite ?contesting_state, ?leasing_state, ?verifying_state; vm_compute; discriminate].
  exists a. split; [reflexivity|].
  destruct (votes_of_assigned_verifiers order verifying funded (assignmentKey round1 (go "example.com")) a (typedb_typed verifying eq_refl) eq_refl E) as (_ & _ & Hl & _).
  exact Hl.
Defined.

(** Visiting the map backwards makes no difference. *)
Definition backwards (m : gmap gostr Z) : list (gostr * Z) := reverse (map_to_list m).
Lemma history_deterministic_witness : run order contesting (no_sites funded) = run backwards contesting (no_sites funded).
Proof.
  apply (history_deterministic order backwards contesting (no_sites funded)); [exact order_visits|].
  intros m. unfold backwards. apply reverse_Permutation.
Defined.

Lemma finalisation_once_witness : ∃ a', assignments (apply_op order (after_ops verifying) (OFinalize params (start1 + 600) 8)) !!
  assignmentKey round1 (go "example.com") = Some a' ∧ a_Finalized a' = true.
Proof.
  destruct (after_inv verifying eq_refl eq_refl) as [[Hi _] _].
  assert (is_ok (finalizeAssignments order params (start1 + 600) 8 (after_ops verifying)) = true) as Hok by at_state.
  destruct (finalisation_once order params (start1 + 600) 8 (after_ops verifying)
    (apply_op order (after_ops verifying) (OFinalize params (start1 + 600) 8)) ltac:(time_ok) Hi (finalize_applied _ _ _ _ Hok)) as [_ Hk].
  specialize (Hk (assignmentKey round1 (go "example.com"))).
  assert ((λ a, a_Finalized a || (start1 + 600 <? a_DeadlineUnix a)) <$> assignments (after_ops verifying) !! assignmentKey round1 (go "example.com")
    = Some false) as E by at_state.
  apply fmap_Some in E as (a & E & Hf). rewrite E, <- Hf in Hk. destruct Hk as (a' & Ha' & v & ->).
  exists (finalized (start1 + 600) v a). split; [exact Ha'|reflexivity].
Defined.

(** The commitment of the first verifier, and its reveal. *)
Lemma commitment_binds_witness : ∃ h m, 
  commits (after_ops committing) !! commitKey round2 (go "example.com") (go "v1") = Some h ∧
  is_ok (exec order (OReveal params (start2 + 400) m) (after_ops committing)) = true ∧
  ∃ a, ToLower h = EncodeToString (Sum256 (Join (opening m a) (go "|"))).
Proof.
  destruct (after_inv committing eq_refl eq_refl) as [Hi _].
  assert (is_ok (exec order (OReveal params (start2 + 400) (reveal_carol (go "v1"))) (after_ops committing)) = true) as Hok by at_state.
  assert ((λ h, negb (empty h)) <$> commits (after_ops committing) !! commitKey round2 (go "example.com") (go "v1") = Some true) as E by at_state.
  assert (commits (apply_op order (after_ops committing) (OReveal params (start2 + 400) (reveal_carol (go "v1")))) !!
    commitKey round2 (go "example.com") (go "v1") = None) as Hgone by at_state.
  apply fmap_Some in E as (h & E & Hne). exists h, (reveal_carol (go "v1")). split; [exact E|]. split; [exact Hok|].
  destruct (commitment_binds order (OReveal params (start2 + 400) (reveal_carol (go "v1"))) (after_ops committing)
    (apply_op order (after_ops committing) (OReveal params (start2 + 400) (reveal_carol (go "v1")))) (commitKey round2 (go "example.com") (go "v1")) h Hi)
    as [Hl|(p & now & m & a & [= <- <- <-] & _ & _ & _ & _ & He)];
    [cbn; unfold in_s; cbn; time_ok|exact (exec_applied _ _ Hok)|exact E|intros ->; discriminate Hne| |].
  - rewrite Hgone in Hl. discriminate Hl.
  - exists a. exact He.
Defined.

Lemma one_site_per_primary_domain_witness : ∃ w, websites (market (run order contesting (no_sites funded))) !! go "example.com" = Some w ∧
  GetPrimaryDomain (go "example.com") = Ok (go "example.com") ∧ go "example.com" = go "example.com".
Proof.
  destruct (websites (market (run order contesting (no_sites funded))) !! go "example.com") as [w|] eqn:E; [|exfalso; revert E; rewrite ?contesting_state, ?leasing_state, ?verifying_state; vm_compute; discriminate].
  exists w. split; [reflexivity|].
  assert (GetPrimaryDomain (go "example.com") = Ok (go "example.com")) as Hp by at_state. split; [exact Hp|].
  exact (one_site_per_primary_domain order contesting funded (go "example.com") (go "example.com") (go "example.com")
    (typedb_typed contesting eq_refl) eq_refl (mk_is_Some _ _ E) (mk_is_Some _ _ E) Hp Hp).
Defined.

(** Alice lists her slot. *)
Lemma slots_change_by_publisher_witness : let s := after_ops (slot_made) in
  ∃ x, slots (market s) !! go "slot-000001" = Some x ∧ s_Publisher x = go "alice" ∧
    slots (market (apply_op order s (OUpdateSlotStatus (start1 + 700) list_slot))) !! go "slot-000001" =
      Some (slot_with (s_Publisher x) SlotStatusListed (start1 + 700) x).
Proof.
  intros s. destruct (after_inv (slot_made) eq_refl eq_refl) as [Hi _]. fold s in Hi.
  assert (is_ok (exec order (OUpdateSlotStatus (start1 + 700) list_slot) s) = true) as Hok by at_state.
  assert (s_Status <$> slots (market s) !! go "slot-000001" = Some 2) as E1 by at_state.
  assert (s_Status <$> slots (market (apply_op order s (OUpdateSlotStatus (start1 + 700) list_slot))) !! go "slot-000001" = Some 1) as E2 by at_state.
  assert (slotSeq (market s) < 2 ^ 64 - 1) as Hq by at_state.
  destruct (slots_change_by_publisher order (OUpdateSlotStatus (start1 + 700) list_slot) s
    (apply_op order s (OUpdateSlotStatus (start1 + 700) list_slot)) (go "slot-000001") Hi I Hq (exec_applied _ _ Hok))
    as [(now & m & w & Ho & _)|[(now & m & x & [= <- <-] & _ & Hx & Hp & Hx')|(p & now & h & Ho & _)]]; try discriminate Ho.
  - intros Hs. rewrite Hs, E1 in E2. discriminate E2.
  - exists x. split; [exact Hx|]. split; [exact Hp|exact Hx'].
Defined.

(** The forty-fourth violation in a row. *)
Lemma cooldown_doubles_witness : computeCooldownSeconds 604800 44 = 604800 * 2 ^ 43.
Proof. exact (cooldown_doubles 604800 44 ltac:(time_ok) ltac:(time_ok) ltac:(vm_compute; reflexivity)). Defined.

(** Carol's message is accepted for Alice's verified domain. *)
Lemma reregistration_any_status_witness : let s := market (after_ops leasing) in
  ∃ w, GetWebsite (go "example.com") s = Some w ∧ w_Status w = StatusVerified ∧
    is_ok (RegisterPublisher 9 reregister s) = true.
Proof.
  intros s. destruct (after_solvent leasing eq_refl eq_refl) as (Hi & _). fold s in Hi.
  assert ((λ w, (w_Status w, w_PendingOwner w)) <$> GetWebsite (NormalizeDomain (mr_Domain reregister)) s = Some (2, [])) as E by at_state.
  apply fmap_Some in E as (w & E & [= Hst Hp]). exists w. split; [exact E|]. split; [symmetry; exact Hst|].
  assert (Register_ValidateBasic reregister = Ok tt) as Hv by at_state.
  assert (TrimSpace (mr_Owner reregister) = mr_Owner reregister) as Ht by at_state.
  rewrite (reregistration_any_status 9 reregister s w Hi E Hv Ht ltac:(discriminate) (or_introl (eq_sym Hp))). reflexivity.
Defined.

(** An unlisted slot is listed again. *)
Lemma slot_status_any_witness : let s := market (after_ops (listed ++ [OUpdateSlotStatus (start1 + 800)
    {| mu_Publisher := go "alice"; mu_SlotId := go "slot-000001"; mu_Status := SlotStatusUnlisted |}])) in
  ∃ x, slots s !! go "slot-000001" = Some x ∧ s_Status x = SlotStatusUnlisted ∧
    UpdateSlotStatus (start1 + 900) list_slot s = Ok (slot_with (s_Publisher x) SlotStatusListed (start1 + 900) x,
      set_slots (<[s_ID x := slot_with (s_Publisher x) SlotStatusListed (start1 + 900) x]> (slots s)) s).
Proof.
  intros s. destruct (after_solvent (listed ++ [OUpdateSlotStatus (start1 + 800)
    {| mu_Publisher := go "alice"; mu_SlotId := go "slot-000001"; mu_Status := SlotStatusUnlisted |}]) eq_refl eq_refl) as (Hi & _). fold s in Hi.
  assert ((λ x, (s_Publisher x, s_Status x)) <$> slots s !! go "slot-000001" = Some (go "alice", 3)) as E by at_state.
  apply fmap_Some in E as (x & E & [= Hp Hst]). exists x. split; [exact E|]. split; [symmetry; exact Hst|].
  exact (slot_status_any (start1 + 900) list_slot s x Hi ltac:(time_ok) E (eq_sym Hp) ltac:(discriminate)).
Defined.

Definition genesis_site : Website :=
  mkWebsite (go "a.example.com") (go "alice") StatusVerified [] [] 0 [] [] 0 0 [] [].
Definition sibling : MsgRegisterPublisher := {|
  mr_Owner := go "bob"; mr_Domain := go "b.example.com"; mr_MetadataUri := []; mr_Proof := []; mr_Verifier := []; mr_Referrer := [] |}.

Definition both_registered (x : result err (Store ledger)) : bool :=
  match x with
  | Ok s => match RegisterPublisher 5 sibling s with
            | Ok (_, s') => bool_decide (is_Some (websites s' !! go "a.example.com")) && bool_decide (is_Some (websites s' !! go "b.example.com"))
            | Err _ => false
            end
  | Err _ => false
  end.

(** The genesis import does not claim primary domains: after the
    import of one website, a second website of the same primary domain registers
    by message, which the messages alone never allow. *)
Theorem genesis_misses_primary_domain : ∃ s r s', InitGenesis [genesis_site] (market (no_sites funded)) = Ok s ∧
  RegisterPublisher 5 sibling s = Ok (r, s') ∧
  is_Some (websites s' !! go "a.example.com") ∧ is_Some (websites s' !! go "b.example.com") ∧
  GetPrimaryDomain (go "a.example.com") = GetPrimaryDomain (go "b.example.com").
Proof.
  assert (both_registered (InitGenesis [genesis_site] (market (no_sites funded))) = true) as Hb by at_state.
  assert (GetPrimaryDomain (go "a.example.com") = GetPrimaryDomain (go "b.example.com")) as Hp by at_state.
  revert Hb. generalize (InitGenesis [genesis_site] (market (no_sites funded))). intros [s|e] Hb; [|discriminate Hb].
  cbn [both_registered] in Hb. destruct (RegisterPublisher 5 sibling s) as [[r s']|e] eqn:E; [|discriminate Hb].
  apply andb_true_iff in Hb as [H1%bool_decide_eq_true H2%bool_decide_eq_true]. exists s, r, s'.
  split; [reflexivity|]. split; [exact E|]. split; [exact H1|]. split; [exact H2|exact Hp].
Qed.
End Witness.
