(* ===== verification/RoundDemo.v ===== *)
(** The theorems on rounds, rewards, bonds and the emission, applied to the history
    of [DemoEnv]: each of their hypotheses can hold. *)

From stdpp Require Import sorting.
From S2P Require Import Prelude JsBase GoBase GoHash Market MarketProofs GoSdk Tokenomics Verifiers RegParams Verification VerificationProofs BankFrame ChainInv Rounds RoundProofs Rewards RewardProofs RoundSteps RoundInv Chain EndBlock Emission Halts RoundProps DemoEnv.

Module RoundWitness.
Import Demo.

Lemma after_invariant ops : forallb typedb ops = true → (Z.of_nat (length ops) <? 2 ^ 60) = true → registry_inv (after_ops ops).
Proof.
  intros Ht Hn. zb. by destruct (run_good order ops (no_sites funded) (no_sites_inv funded) (typedb_typed ops Ht)) as [Hi _]; [cbn; lia..|].
Qed.

Lemma one_applied o s : is_ok (exec order o s) = true → exec order o s = Ok (apply_op order s o).
Proof. unfold apply_op. by destruct (exec order o s). Qed.

Lemma one_more ops o : apply_op order (after_ops ops) o = after_ops (ops ++ [o]).
Proof. unfold run. by rewrite foldl_snoc. Qed.

(** The websites registered, the verifiers bonded and the beacon recorded. *)
Definition bonding : list op := take 4 assigned.
Definition beaconed : list op := take 5 assigned.
Definition s_bonding : VStore ledger := Eval vm_compute in after_ops bonding.
Definition s_beaconed : VStore ledger := Eval vm_compute in after_ops beaconed.
Lemma bonding_state : after_ops bonding = s_bonding.
Proof. vm_compute. reflexivity. Qed.
Lemma beaconed_state : after_ops beaconed = s_beaconed.
Proof. vm_compute. reflexivity. Qed.
Ltac at_round := rewrite ?bonding_state, ?beaconed_state; at_state.

(** ** Rounds *)

(** Half of the weight is the second candidate's. *)
Lemma draw_proportional_witness :
  Z.of_nat (length (filter (λ pick, picked_idx pick 0 [(go "v1", 10); (go "v2", 20); (go "v3", 10)] = 1%nat) (seqZ 0 40))) = 20.
Proof. exact (draw_proportional [(go "v1", 10); (go "v2", 20); (go "v3", 10)] 1 (go "v2") 20 ltac:(repeat constructor) eq_refl). Defined.

(** The first round assigns the website to the three verifiers. *)
Lemma round_assigned_witness : ∃ a, assignments (after_ops assigned) !! assignmentKey round1 (go "example.com") = Some a ∧
  NoDup (a_Verifiers a) ∧ Z.of_nat (length (a_Verifiers a)) = 3 ∧ a_DeadlineUnix a = a_StartAtUnix a + 600.
Proof.
  pose proof (after_invariant beaconed eq_refl eq_refl) as Hi.
  assert (is_ok (exec order (OAssign params ctx1) (after_ops beaconed)) = true) as Hok by at_round.
  pose proof (one_applied _ _ Hok) as HE. cbn [exec] in HE.
  rewrite one_more in HE. change (beaconed ++ [OAssign params ctx1]) with assigned in HE.
  assert (lastRoundStart (rounds (after_ops beaconed)) = None) as L1 by at_round.
  assert (lastRoundStart (rounds (after_ops assigned)) = Some round1) as L2 by at_round.
  assert ((λ w, (w_Domain w, w_CooldownUntilUnix w, w_Status w)) <$> websites (market (after_ops beaconed)) !! go "example.com" = Some (go "example.com", 0, StatusPending)) as Ew by at_round.
  apply fmap_Some in Ew as (w & Hw & [= Hd Hc Hv]).
  assert (nextVerificationRoundStartUnix (c_TimeNs ctx1) (round_interval params) = round1) as Hrs by (vm_compute; reflexivity).
  assert (length (eligibleVerifierAddrs (block_time ctx1) (after_ops beaconed)).1 = 3%nat) as Hel by at_round.
  destruct (round_assigned params ctx1 (after_ops beaconed) (after_ops assigned) w Hi) as (a & Ha & _ & Hn & _ & Hl & _ & Hdl);
    [vm_compute; split; congruence..|exact HE| | | |].
  - rewrite L1, L2. discriminate.
  - rewrite <- Hd. exact Hw.
  - right. rewrite Hrs, <- Hc. split; [discriminate|left; exact (eq_sym Hv)].
  - rewrite Hrs, <- Hd in Ha. exists a. split; [exact Ha|]. split; [exact Hn|]. split; [rewrite Hl, Hel; reflexivity|exact Hdl].
Defined.

Lemma round_schedule_witness : let rs := nextVerificationRoundStartUnix (c_TimeNs ctx1) 3600 in rs = round1 ∧
  ∃ n, requiredDrandRound params rs = Ok (n, EffectiveDrandGenesisTimeUnix params + (n - 1) * EffectiveDrandPeriodSeconds params) ∧ 0 < n.
Proof.
  assert (nextVerificationRoundStartUnix (c_TimeNs ctx1) 3600 = round1) as Hrs by (vm_compute; reflexivity). intros rs. split; [exact Hrs|].
  assert (drand_typed params) as Hd by (vm_compute; split; [reflexivity|split; reflexivity]).
  destruct (round_schedule params (c_TimeNs ctx1) 3600 ltac:(lia) ltac:(vm_compute; split; congruence) Hd) as [_ Hn].
  destruct Hn as (n & E & Hp & _); [rewrite Hrs; vm_compute; discriminate|]. exists n. exact (conj E Hp).
Defined.

(** The beacon of the first round. *)
Lemma beacon_recorded_once_witness : ∃ x sig, drandBeacons (rounds (after_ops beaconed)) !! drandBeaconKey (mdb_Round (beacon_for round1)) = Some x ∧
  DecodeString (TrimSpace (db_SignatureHex x)) = Some sig ∧ DecodeString (TrimSpace (db_RandomnessHex x)) = Some (Sum256 sig).
Proof.
  pose proof (after_invariant bonding eq_refl eq_refl) as Hi.
  assert (is_ok (exec order (OBeacon params ctx1 (beacon_for round1)) (after_ops bonding)) = true) as Hok by at_round.
  pose proof (one_applied _ _ Hok) as HE.
  rewrite one_more in HE. change (bonding ++ [OBeacon params ctx1 (beacon_for round1)]) with beaconed in HE.
  assert (drandBeacons (rounds (after_ops bonding)) !! drandBeaconKey (mdb_Round (beacon_for round1)) = None) as E1 by at_round.
  assert (match drandBeacons (rounds (after_ops beaconed)) !! drandBeaconKey (mdb_Round (beacon_for round1)) with Some _ => true | None => false end = true)
    as E2 by at_round.
  destruct (beacon_recorded_once order (OBeacon params ctx1 (beacon_for round1)) (after_ops bonding) (after_ops beaconed)
    (drandBeaconKey (mdb_Round (beacon_for round1))) Hi I HE) as [E|(p & c & m & x & t & sig & key & id & _ & _ & _ & Hx & _ & _ & Hs & Hr & _)].
  - rewrite E, E1 in E2. discriminate E2.
  - exists x, sig. exact (conj Hx (conj Hs Hr)).
Defined.

Lemma stored_records_valid_witness : ∃ w, websites (market (after_ops contesting)) !! go "example.com" = Some w ∧ ValidateWebsite w = Ok tt.
Proof.
  assert (match websites (market (after_ops contesting)) !! go "example.com" with Some _ => true | None => false end = true) as E by at_round.
  destruct (stored_records_valid order contesting funded (typedb_typed contesting eq_refl) eq_refl) as (Hw & _).
  destruct (websites (market (after_ops contesting)) !! go "example.com") as [w|] eqn:Ew; [|discriminate E].
  exists w. split; [reflexivity|]. exact (proj2 (Hw _ _ Ew)).
Defined.

(** ** The end of a block *)

(** The block after the deadline of the first round. *)
Definition ctx_end : BlockCtx := mkCtx (go "congrid-1") 8 ((start1 + 600) * 10 ^ 9) [8].

Lemma end_block_clears_witness : ∃ s' a, EndBlock order params ctx_end (after_ops verifying) = Ok s' ∧
  assignments s' !! assignmentKey round1 (go "example.com") = Some a ∧ (a_Finalized a = true ∨ assignment_open (block_time ctx_end) a).
Proof.
  pose proof (after_invariant verifying eq_refl eq_refl) as Hi.
  assert (match EndBlock order params ctx_end (after_ops verifying) with
          | Ok s' => bool_decide (is_Some (assignments s' !! assignmentKey round1 (go "example.com"))) | Err _ => false end = true) as Hok by at_round.
  assert (match assignments (after_ops verifying) !! assignmentKey round1 (go "example.com") with Some _ => true | None => false end = true) as Hs by at_round.
  destruct (EndBlock order params ctx_end (after_ops verifying)) as [s'|e] eqn:E; [|discriminate Hok]. apply bool_decide_eq_true in Hok as [a Ha].
  exists s', a. split; [reflexivity|]. split; [exact Ha|].
  destruct (end_block_clears order params ctx_end (after_ops verifying) s' Hi) as (_ & _ & Hc & _); [vm_compute; split; congruence|exact E|].
  apply (Hc (assignmentKey round1 (go "example.com")) a); [|exact Ha].
  destruct (assignments (after_ops verifying) !! assignmentKey round1 (go "example.com")) as [b|]; [exact (mk_is_Some _ _ eq_refl)|discriminate Hs].
Defined.

(** ** Rewards *)

(** Of 1000, 400 are split equally, and 600 by weight. *)
Lemma split_exact_witness : ∃ payout, splitVerifierAssignmentRewards 1000 [go "v1"; go "v2"; go "v3"] {[go "v1" := 10; go "v3" := 20]} 4000 = Ok (payout, 0) ∧
  sum_over id payout + 0 = 1000.
Proof.
  assert (is_ok (splitVerifierAssignmentRewards 1000 [go "v1"; go "v2"; go "v3"] {[go "v1" := 10; go "v3" := 20]} 4000) = true) as Hok by (vm_compute; reflexivity).
  assert (match splitVerifierAssignmentRewards 1000 [go "v1"; go "v2"; go "v3"] {[go "v1" := 10; go "v3" := 20]} 4000 with Ok r => r.2 | Err _ => 1 end = 0) as Hr by (vm_compute; reflexivity).
  destruct (splitVerifierAssignmentRewards 1000 [go "v1"; go "v2"; go "v3"] {[go "v1" := 10; go "v3" := 20]} 4000) as [[payout rest]|e] eqn:E; [|discriminate Hok].
  cbn in Hr. subst rest. exists payout. split; [reflexivity|].
  exact (proj1 (split_exact 1000 [go "v1"; go "v2"; go "v3"] {[go "v1" := 10; go "v3" := 20]} 4000 payout 0 ltac:(lia) E)).
Defined.

(** The first round, when its assignment is final. *)
Definition decided : list op := verifying ++ [OFinalize params (start1 + 600) 8].
Definition s_decided : VStore ledger := Eval vm_compute in run order [OFinalize params (start1 + 600) 8] s_verifying.
Lemma decided_state : after_ops decided = s_decided.
Proof. unfold decided. rewrite run_app, verifying_state. vm_compute. reflexivity. Qed.
Ltac at_decided := rewrite ?decided_state; at_state.

Lemma pools_ok : round_pools params = Ok (114155251, 570776255).
Proof. vm_compute. reflexivity. Qed.

Lemma round_rewards_witness : ∃ s' log burnt, settle_round order params round1 (after_ops decided) = Ok s' ∧ paid log + burnt = 114155251 + 570776255 ∧
  acc_bal (bank (market s')) (go "v1") DefaultDenom = acc_bal (bank (market (after_ops decided))) (go "v1") DefaultDenom + received (go "v1") log.
Proof.
  pose proof (after_invariant decided eq_refl eq_refl) as Hi.
  assert (is_ok (settle_round order params round1 (after_ops decided)) = true) as Hok by at_decided.
  assert ((λ a, (a_RoundStartUnix a, a_RewardsSettled a)) <$> assignments (after_ops decided) !! assignmentKey round1 (go "example.com") = Some (round1, false)) as Ea by at_decided.
  assert (forallb a_Finalized (values (assignments (after_ops decided))) = true) as Hf by at_decided.
  destruct (settle_round order params round1 (after_ops decided)) as [s'|e] eqn:E; [|discriminate Hok].
  apply fmap_Some in Ea as (a & Ha & [= Hr Hset]).
  destruct (round_rewards order params round1 (after_ops decided) s' Hi) as (P & V & log & burnt & Hp & Hsum & _ & _ & Hacc & _);
    [vm_compute; split; congruence|vm_compute; reflexivity|exists (assignmentKey round1 (go "example.com")), a; exact (conj Ha (conj (eq_sym Hr) (eq_sym Hset)))| |exact E|].
  - intros k b Hb _. rewrite forallb_Forall, list.Forall_forall in Hf. apply Hf, elem_of_values. exists k. exact Hb.
  - rewrite pools_ok in Hp. injection Hp as <- <-. exists s', log, burnt. split; [reflexivity|]. split; [exact Hsum|]. exact (Hacc (go "v1") DefaultDenom).
Defined.

(** The parameters with another equal share and another duration of the emission. *)
Definition terms (share hours : Z) : PublisherParams := {|
  p_VerifierBond := p_VerifierBond params; p_VerificationTTL := p_VerificationTTL params; p_MinVerifierCount := p_MinVerifierCount params;
  p_MinPublisherScore := p_MinPublisherScore params; p_MinVerifierScore := p_MinVerifierScore params;
  p_RewardWeights := p_RewardWeights params; p_RewardSplit := p_RewardSplit params; p_VerifierWeights := p_VerifierWeights params;
  p_CommitWindowSeconds := p_CommitWindowSeconds params; p_SubmissionWindowSeconds := p_SubmissionWindowSeconds params;
  p_RoundIntervalSeconds := p_RoundIntervalSeconds params; p_AssignmentDelayMaxSeconds := p_AssignmentDelayMaxSeconds params;
  p_CooldownBaseSeconds := p_CooldownBaseSeconds params; p_PublisherVerificationReward := p_PublisherVerificationReward params;
  p_VerifierVerificationReward := p_VerifierVerificationReward params; p_VerifierRewardBaseShareBps := share;
  p_RequiredExternalLinksForFullReward := p_RequiredExternalLinksForFullReward params;
  p_PublisherMinRewardBps := p_PublisherMinRewardBps params; p_EmissionTotalSupply := p_EmissionTotalSupply params;
  p_OperatorReserveBps := p_OperatorReserveBps params; p_PublisherEmissionBps := p_PublisherEmissionBps params;
  p_VerifierEmissionBps := p_VerifierEmissionBps params; p_EmissionDurationHours := hours;
  p_PublisherRevokeFailureThreshold := p_PublisherRevokeFailureThreshold params;
  p_VerifierPenaltySuspendThreshold := p_VerifierPenaltySuspendThreshold params;
  p_VerifierPenaltySuspendRounds := p_VerifierPenaltySuspendRounds params; p_DrandEnabled := p_DrandEnabled params;
  p_DrandStrictMode := p_DrandStrictMode params; p_DrandSchemeID := p_DrandSchemeID params;
  p_DrandPublicKeyHex := p_DrandPublicKeyHex params; p_DrandChainHash := p_DrandChainHash params;
  p_DrandGenesisTimeUnix := p_DrandGenesisTimeUnix params; p_DrandPeriodSeconds := p_DrandPeriodSeconds params;
  p_DrandRoundOffsetSeconds := p_DrandRoundOffsetSeconds params |}.
Definition unequal : PublisherParams := terms 0 (100 * 365 * 24).
Definition brief : PublisherParams := terms 4000 1.

Lemma due_of now r s : existsb (λ a, (a_RoundStartUnix a =? r) && negb (a_RewardsSettled a)) (values (assignments s)) = true →
  forallb (λ a, negb (a_RoundStartUnix a =? r) || a_Finalized a || (a_DeadlineUnix a <=? now)) (values (assignments s)) = true →
  round_due now r (s : VStore ledger).
Proof.
  intros He Hf. rewrite existsb_exists in He. destruct He as (a & Ha & Hp). apply list_elem_of_In, elem_of_values in Ha as [k Ha]. zb.
  split; [by exists k, a|]. intros k' b Hb Hr. rewrite forallb_Forall, list.Forall_forall in Hf.
  assert (b ∈ values (assignments s)) as Hin by (apply elem_of_values; eauto). specialize (Hf b Hin). cbn in Hf.
  rewrite Hr, Z.eqb_refl in Hf. destruct (a_Finalized b); [by left|right]. by apply Z.leb_le.
Qed.

(** The second verifier leaves before the rewards, and there is no equal share. *)
Definition leaving : list op := decided ++ [OUnbond (bond (go "v2") (go "20"))].
Definition s_leaving : VStore ledger := Eval vm_compute in run order [OUnbond (bond (go "v2") (go "20"))] s_decided.
Lemma leaving_state : after_ops leaving = s_leaving.
Proof. unfold leaving. rewrite run_app, decided_state. vm_compute. reflexivity. Qed.

(** The parameters are accepted, and the end of the block fails. *)
Lemma unbonded_verifier_halts_witness : Params_Validate unequal = Ok tt ∧ ∀ s', EndBlock order unequal ctx_end (after_ops leaving) ≠ Ok s'.
Proof.
  split; [vm_compute; reflexivity|]. intros s'. pose proof (after_invariant leaving eq_refl eq_refl) as Hi.
  assert (match assignments (after_ops leaving) !! assignmentKey round1 (go "example.com") with
    | Some a => (a_RoundStartUnix a =? round1) && a_Finalized a && a_Verified a && bool_decide (go "v2" ∈ successful_verifiers a (after_ops leaving))
    | None => false end = true) as E by (rewrite leaving_state; vm_compute; reflexivity).
  destruct (assignments (after_ops leaving) !! assignmentKey round1 (go "example.com")) as [a|] eqn:Ha; [|discriminate E].
  apply andb_true_iff in E as [E Hs%bool_decide_eq_true]. apply andb_true_iff in E as [E Hv]. apply andb_true_iff in E as [Hr%Z.eqb_eq Hf].
  apply (unbonded_verifier_halts order unequal 114155251 570776255 ctx_end (assignmentKey round1 (go "example.com")) a (go "v2") (after_ops leaving) s' Hi).
  - vm_compute. split; congruence.
  - rewrite Hr. apply due_of; rewrite leaving_state; vm_compute; reflexivity.
  - exact Ha.
  - exact Hf.
  - exact Hv.
  - vm_compute. reflexivity.
  - rewrite leaving_state. vm_compute. discriminate.
  - vm_compute. reflexivity.
  - exact Hs.
  - rewrite leaving_state. vm_compute. reflexivity.
Defined.

(** ** The emission *)

(** The rewards of the first round are one step of the emission. *)
Lemma emission_refines_witness : let s' := apply_op order (after_ops decided) (ORewards params) in
  emission_of s' ≠ emission_of (after_ops decided) ∧ rtc (emits params (114155251 + 570776255)) (emission_of (after_ops decided)) (emission_of s').
Proof.
  intros s'. pose proof (after_invariant decided eq_refl eq_refl) as Hi.
  assert (is_ok (exec order (ORewards params) (after_ops decided)) = true) as Hok by at_decided. split.
  - assert (pool_funded (apply_op order (after_ops decided) (ORewards params)) = 600000000000000) as E1 by at_decided.
    assert (pool_funded (after_ops decided) = 0) as E2 by at_decided.
    intros E. apply (f_equal em_funded) in E. cbn [em_funded emission_of] in E. unfold s' in E. rewrite E1, E2 in E. discriminate E.
  - refine (emission_refines order (ORewards params) params 114155251 570776255 (after_ops decided) s' Hi I pools_ok _ (one_applied _ _ Hok)).
    intros q [= ->]. reflexivity.
Defined.

(** One round was settled by the time the slot is made. *)
Lemma emission_accounted_witness : let s := after_ops slot_made in
  pool_funded s = 600000000000000 ∧ mod_bal (bank (market s)) tokenomics_module verificationRewardDenom =
    mod_bal funded tokenomics_module verificationRewardDenom + pool_funded s - (114155251 + 570776255) * Z.of_nat (size (settled_rounds s)).
Proof.
  intros s. split; [at_state|].
  refine (proj1 (emission_accounted order slot_made funded params 114155251 570776255 (typedb_typed slot_made eq_refl) eq_refl _ pools_ok)).
  intros q Hq. unfold slot_made, verifying, assigned in Hq. cbn [app] in Hq.
  repeat (apply elem_of_cons in Hq as [Hq|Hq]; [first [discriminate Hq|injection Hq as ->; reflexivity]|]). apply elem_of_nil in Hq. destruct Hq.
Defined.

(** A hundred years of hourly rounds. *)
Lemma emission_budget_witness : RoundEmissionPools params 3600 = Ok (114155251, 570776255) ∧
  100 * 365 * 24 * (114155251 + 570776255) ≤ emission_target params.
Proof.
  assert (RoundEmissionPools params 3600 = Ok (114155251, 570776255)) as E by (vm_compute; reflexivity). split; [exact E|].
  exact (emission_budget params 114155251 570776255 (100 * 365 * 24) ltac:(vm_compute; reflexivity) ltac:(vm_compute; reflexivity) E ltac:(lia) ltac:(vm_compute; discriminate)).
Defined.

(** An emission of one hour is used up by the first round; the second is due. *)
Definition spending : list op := decided ++ [ORewards brief; OBeacon params ctx2 (beacon_for round2); OAssign params ctx2].
Definition s_spending : VStore ledger := Eval vm_compute in run order [ORewards brief; OBeacon params ctx2 (beacon_for round2); OAssign params ctx2] s_decided.
Lemma spending_state : after_ops spending = s_spending.
Proof. unfold spending. rewrite run_app, decided_state. vm_compute. reflexivity. Qed.
Definition ctx_last : BlockCtx := mkCtx (go "congrid-1") 60 ((start2 + 600) * 10 ^ 9) [60].
Lemma exhausted_pool_halts_witness : Params_Validate brief = Ok tt ∧ ∀ s', EndBlock order brief ctx_last (after_ops spending) ≠ Ok s'.
Proof.
  split; [vm_compute; reflexivity|]. intros s'. pose proof (after_invariant spending eq_refl eq_refl) as Hi.
  apply (exhausted_pool_halts order brief 100000000000000 500000000000000 ctx_last round2 (after_ops spending) s' Hi).
  - vm_compute. split; congruence.
  - vm_compute. split; congruence.
  - reflexivity.
  - apply due_of; rewrite spending_state; vm_compute; reflexivity.
  - vm_compute. reflexivity.
  - lia.
  - rewrite spending_state. vm_compute. reflexivity.
  - rewrite spending_state. vm_compute. reflexivity.
Defined.

(** ** Bonds *)

Lemma bonds_covered_witness : bonded DefaultDenom (bond_table (after_ops contesting)) = 60 ∧
  mod_bal funded verifiers_module DefaultDenom + 60 ≤ mod_bal (bank (market (after_ops contesting))) verifiers_module DefaultDenom.
Proof.
  assert (bonded DefaultDenom (bond_table (after_ops contesting)) = 60) as E by at_state. split; [exact E|]. rewrite <- E.
  exact (bonds_covered order contesting funded DefaultDenom (typedb_typed contesting eq_refl) eq_refl).
Defined.

Lemma bond_withdrawable_witness : ∃ w t' b',
  UnbondCoins (go "v3") (mkCoin DefaultDenom 30) (bond_table (after_ops contesting)) (bank (market (after_ops contesting))) = Ok (w, t', b') ∧
  stake t' (go "v3") = 0.
Proof.
  assert (v_Bond <$> verifiers (bond_table (after_ops contesting)) !! go "v3" = Some (mkCoin DefaultDenom 30)) as E by at_state.
  apply fmap_Some in E as (v & Hv & Hb).
  destruct (bond_withdrawable order contesting funded (go "v3") v (typedb_typed contesting eq_refl) eq_refl) as (w & t' & b' & HU & _ & Hs);
    [rewrite <- Hb; vm_compute; discriminate|exact Hv|rewrite <- Hb; reflexivity|reflexivity|].
  rewrite <- Hb in HU. exists w, t', b'. exact (conj HU Hs).
Defined.

(** With a minimum of ten, taking nine of twelve back loses three. *)
Definition table : BondTable := mkBonds (Some (mkBondParams DefaultDenom 10))
  {[go "v1" := mkVerifier (go "v1") (mkCoin DefaultDenom 12) VerifierStatusActive]}.
Definition bank_of : ledger := mkLedger {[(inr verifiers_module, DefaultDenom) := 12]} {[DefaultDenom := 12]}.
Lemma unbond_strands_residue_witness : ∃ w t' b', UnbondCoins (go "v1") (mkCoin DefaultDenom 9) table bank_of = Ok (w, t', b') ∧
  stake t' (go "v1") = 0 ∧ slack DefaultDenom t' b' = slack DefaultDenom table bank_of + 3 ∧ ∀ c b'' r, UnbondCoins (go "v1") c t' b'' ≠ Ok r.
Proof.
  assert (is_ok (UnbondCoins (go "v1") (mkCoin DefaultDenom 9) table bank_of) = true) as Hok by (vm_compute; reflexivity).
  destruct (UnbondCoins (go "v1") (mkCoin DefaultDenom 9) table bank_of) as [[[w t'] b']|e] eqn:E; [|discriminate Hok]. exists w, t', b'.
  split; [reflexivity|]. assert (bonds_inv table) as Hi.
  { split; [intros p [= <-]; vm_compute; reflexivity|..]; unfold table; cbn [verifiers]; intros k v [<- <-]%lookup_singleton_Some;
      [split; vm_compute; reflexivity|vm_compute; reflexivity]. }
  exact (unbond_strands_residue (go "v1") (mkCoin DefaultDenom 9) table bank_of w t' b' Hi E ltac:(vm_compute; split; reflexivity)).
Defined.
End RoundWitness.
