(* ===== verification/UpgradeProps.v ===== *)
(** The theorems on the software upgrades and on the genesis of the registry, and
    their application to the history of [DemoEnv] with a module manager that runs
    the registry's migrations only. *)

From stdpp Require Import sorting.
From S2P Require Import Prelude JsBase GoBase GoHash Market MarketProofs GoSdk Tokenomics Verifiers RegParams Verification VerificationProofs BankFrame ChainInv Rounds RoundProofs Rewards RewardProofs RoundSteps RoundInv Chain EndBlock Emission Upgrades DemoEnv.

Section Theorems.
Context `{GoEnv} `{!AddrText} `{DrandSuite} {B : Type} `{BankKeeper B}.
Abbreviation VStore := (VStore B).
Abbreviation RegState := (RegState (B := B)).


(** The migration to version 3 goes through on every store of an
    older version ([old_store]) whose parameters are valid, whatever of it was settled: it sets the minimum reward of a
    publisher to ten percent, marks every assignment as settled and changes nothing
    else of it, takes its round off the index, leaves the market and the bank alone
    and keeps the invariants; the next settlement of rewards goes through and pays
    nothing. *)
Theorem migration_settles order p (st : RegState) : old_store (rs_store st) → Params_Validate (GetParams st) = Ok tt →
  ∃ st', migrate2To3 st = Ok st' ∧ registry_inv (rs_store st') ∧
    p_PublisherMinRewardBps (GetParams st') = 1000 ∧ Params_Validate (GetParams st') = Ok tt ∧
    market (rs_store st') = market (rs_store st) ∧
    (∀ k, assignments (rs_store st') !! k = rewards_settled <$> assignments (rs_store st) !! k) ∧
    (∀ k a, assignments (rs_store st) !! k = Some a → verificationRoundKey (a_RoundStartUnix a) ∉ unsettled (rs_store st')) ∧
    ∃ s', settleFinalizedVerificationRounds order p (rs_store st') = Ok s' ∧ market s' = market (rs_store st).
Proof.
  intros Hi Hv. eexists. split; [by apply migrate2To3_spec|]. cbn [rs_store]. split; [by apply migrated_inv|]. split; [done|].
  split; [by apply min_reward_valid|]. split; [done|]. split; [intros k; unfold migrated; cbn; by rewrite lookup_fmap|]. split.
  - intros k a Ha. unfold migrated. cbn. rewrite elem_of_difference. intros [_ Hn]. apply Hn. apply elem_of_list_to_set.
    apply list_elem_of_fmap_2, list_elem_of_fmap_2, elem_of_values. eauto.
  - destruct (migrated_rewards order p (rs_store st) Hi) as (s' & HS & Hm & _). eauto.
Qed.

Section Handlers.
Context {S : Type} `{!ModuleManager (B := B) S}.


(** The upgrade [ibc-transfer-v1] goes on only from the current release,
    whatever the order in which the versions are visited: every other module has its
    current version, the three modules of IBC have none, and the registry is left as
    it is. *)
Theorem ibc_upgrade_keeps_registry visit fromVM (s : S) vm' s' : (∀ m, visit m ≡ₚ map_to_list m) →
  ibc_transfer_v1 visit fromVM s = Ok (vm', s') →
  (∀ name v, GetVersionMap !! name = Some v →
     if decide (name ∈ ibc_names) then fromVM !! name = None else fromVM !! name = Some v) ∧
  registry_of s' = registry_of s.
Proof.
  intros Hv HI. destruct (ibc_checked visit fromVM s _ Hv HI) as [HR Hc]. split; [done|].
  pose proof (Hc registry_name registry_version GetVersionMap_registry) as Hn.
  rewrite decide_False in Hn by (by apply (bool_decide_eq_false_1 (registry_name ∈ ibc_names))).
  apply (RunMigrations_registry _ _ _ _ registry_version) in HR; [|done|done]. by injection HR.
Qed.

(** The upgrade [drand-strict-v2], from any version of the registry
    or from none, leaves valid parameters with drand enabled and strict, and the
    market as it was. *)
Theorem drand_upgrade_strict fromVM (s : S) vm' s' v : old_store (rs_store (registry_of s)) → Params_Validate (GetParams (registry_of s)) = Ok tt →
  default 1 (fromVM !! registry_name) = v → 1 ≤ v ≤ registry_version → drand_strict_v2 fromVM s = Ok (vm', s') →
  let p := GetParams (registry_of s') in
  Params_Validate p = Ok tt ∧ p_DrandEnabled p = true ∧ p_DrandStrictMode p = true ∧
  market (rs_store (registry_of s')) = market (rs_store (registry_of s)).
Proof.
  intros Hi Hv Hd Hr HU. unfold drand_strict_v2 in HU. apply bind_Ok_inv in HU as ([vm s1] & HR & HU). cbn [fst snd] in HU.
  apply bind_Ok_inv in HU as (st & HS & [= <- <-]). rewrite registry_of_with. unfold SetParams in HS. apply bind_Ok_inv in HS as ([] & Hp & [= <-]).
  cbn [rs_store]. split; [done|]. split; [done|]. split; [done|].
  apply (RunMigrations_registry _ _ _ _ v) in HR; [|unfold prepareDrandStrictV2VersionMap; by rewrite (prepared_registry 1), Hd|done].
  unfold registry_migrations in HR. destruct (v =? 1).
  - apply bind_Ok_inv in HR as (st & H1' & H2'). unfold migrate1To2, SetParams in H1'. apply bind_Ok_inv in H1' as ([] & Hp1 & [= <-]).
    rewrite migrate2To3_spec in H2' by done. by injection H2' as <-.
  - destruct (v =? 2); [|by injection HR as <-]. rewrite migrate2To3_spec in HR by done. by injection HR as <-.
Qed.
End Handlers.

(** C31 (roundtrip).  Exporting the registry after any history and importing the
    export on a fresh chain that has the balances of the old one succeeds, gives back
    the parameters and every website, and exports the same again; of slots, leases
    and assignments nothing comes back, so what was in escrow for the leases is held
    by the module and belongs to no lease. *)
Theorem genesis_roundtrip order ops (b : B) (params : option PublisherParams) d : Forall op_typed ops → Z.of_nat (length ops) < 2 ^ 64 →
  let st := mkReg params (run order ops (no_sites b)) in
  Params_Validate (GetParams st) = Ok tt →
  ∃ st', Registry_InitGenesis (Some (Registry_ExportGenesis st)) (mkReg None (no_sites (bank (market (rs_store st))))) = Ok st' ∧
    GetParams st' = GetParams st ∧ (∀ x, GetWebsite x (market (rs_store st')) = GetWebsite x (market (rs_store st))) ∧
    Registry_ExportGenesis st' = Registry_ExportGenesis st ∧
    slots (market (rs_store st')) = ∅ ∧ leases (market (rs_store st')) = ∅ ∧ assignments (rs_store st') = ∅ ∧
    surplus d (market (rs_store st')) = surplus d (market (rs_store st)) + sum_over (escrow d) (leases (market (rs_store st))).
Proof.
  intros Hops Hn st Hp. destruct (run_good order ops (no_sites b) (no_sites_inv b) Hops) as [Hi _]; [cbn; lia..|].
  eexists. split; [apply reimport; [apply Hi|done|done]|]. cbn. split_and!; try done.
  unfold surplus. cbn. change (sum_over (escrow d) ∅) with 0. lia.
Qed.
End Theorems.

Module UpgradeWitness.
Import Demo.

Abbreviation demo_state := (@RegState ledger).

(** An application whose module manager runs the registry only. *)
Definition demo_versions : VersionMap := {[nodes_name := 1; verifiers_name := 1; tokenomics_name := 1; registry_name := 3;
  go "ibc" := 5; go "transfer" := 5; go "07-tendermint" := 1; go "bank" := 4]}.
Definition demo_migrations (vm : VersionMap) (s : demo_state) : result err (VersionMap * demo_state) :=
  match vm !! registry_name with
  | Some v => st ← registry_migrations v s; Ok (demo_versions, st)
  | None => st ← Registry_InitGenesis (Some DefaultRegGenesis) s; Ok (demo_versions, st)
  end.
#[export, refine] Instance demo_manager : ModuleManager demo_state := {|
  registry_of s := s; with_registry st _ := st; GetVersionMap := demo_versions; RunMigrations := demo_migrations;
  registry_of_with := _; GetVersionMap_registry := _; RunMigrations_registry := _; RunMigrations_absent := _ |}.
Proof.
  - done.
  - reflexivity.
  - intros vm s vm' s' v HR Hv _. unfold demo_migrations in HR. rewrite Hv in HR. by apply bind_Ok_inv in HR as (st & ? & [= _ <-]).
  - intros vm s vm' s' HR Hv. unfold demo_migrations in HR. rewrite Hv in HR. by apply bind_Ok_inv in HR as (st & ? & [= _ <-]).
Defined.

Lemma history_inv ops : forallb typedb ops = true → (Z.of_nat (length ops) <? 2 ^ 60) = true → registry_inv (after_ops ops).
Proof.
  intros Ht Hn. zb. by destruct (run_good order ops (no_sites funded) (no_sites_inv funded) (typedb_typed ops Ht)) as [Hi _]; [cbn; lia..|].
Qed.

Lemma params_valid : Params_Validate params = Ok tt.
Proof. vm_compute. reflexivity. Qed.

Definition verified_state : demo_state := mkReg None (after_ops verifying).

(** The round whose results are in is not settled before the migration. *)
Lemma migration_settles_witness : unsettled (after_ops verifying) = {[verificationRoundKey round1]} ∧
  ∃ st', migrate2To3 verified_state = Ok st' ∧ verificationRoundKey round1 ∉ unsettled (rs_store st').
Proof.
  split; [at_state|]. assert (a_RoundStartUnix <$> assignments (after_ops verifying) !! assignmentKey round1 (go "example.com") = Some round1) as Ea by at_state.
  apply fmap_Some in Ea as (a & Ha & Hr).
  destruct (migration_settles order params verified_state (registry_old _ (history_inv verifying eq_refl eq_refl)) params_valid)
    as (st' & HM & _ & _ & _ & _ & _ & Hu & _).
  exists st'. split; [exact HM|]. rewrite Hr. exact (Hu _ a Ha).
Defined.







(** The IBC upgrade of a chain at the current versions. *)
Definition before_ibc : VersionMap := {[nodes_name := 1; verifiers_name := 1; tokenomics_name := 1; registry_name := 3; go "bank" := 4]}.
Lemma ibc_upgrade_keeps_registry_witness : ∃ vm' (s' : demo_state), ibc_transfer_v1 map_to_list before_ibc verified_state = Ok (vm', s') ∧
  registry_of s' = verified_state.
Proof.
  assert (each (λ nv (_ : unit), ibc_check before_ibc nv) (map_to_list demo_versions) tt = Ok tt) as Hc by (vm_compute; reflexivity).
  exists demo_versions, verified_state.
  assert (ibc_transfer_v1 map_to_list before_ibc verified_state = Ok (demo_versions, verified_state)) as HI.
  { unfold ibc_transfer_v1. cbn [GetVersionMap RunMigrations demo_manager]. rewrite Hc. reflexivity. }
  split; [exact HI|].
  exact (proj2 (ibc_upgrade_keeps_registry (ModuleManager0 := demo_manager) map_to_list before_ibc verified_state demo_versions verified_state (λ m, reflexivity _) HI)).
Defined.

(** The export of a chain with a lease of two thousand coins in escrow. *)
Lemma genesis_roundtrip_witness : sum_over (escrow DefaultDenom) (leases (market (after_ops leasing))) = 2000 ∧
  ∃ st', Registry_InitGenesis (Some (Registry_ExportGenesis (mkReg None (after_ops leasing))))
    (mkReg None (no_sites (bank (market (after_ops leasing))))) = Ok st' ∧
  surplus DefaultDenom (market (rs_store st')) = surplus DefaultDenom (market (after_ops leasing)) + 2000.
Proof.
  assert (sum_over (escrow DefaultDenom) (leases (market (after_ops leasing))) = 2000) as E by at_state. split; [exact E|].
  destruct (genesis_roundtrip order leasing funded None DefaultDenom (typedb_typed leasing eq_refl) eq_refl params_valid)
    as (st' & HI & _ & _ & _ & _ & _ & _ & Hs).
  exists st'. split; [exact HI|]. cbn [rs_store] in Hs. rewrite E in Hs. exact Hs.
Defined.
End UpgradeWitness.
