(* ===== verification/NodeProps.v ===== *)
(** The theorem on the registry of nodes over any history of calls, and its
    application to one. *)

From S2P Require Import Prelude JsBase GoBase Market Nodes DemoEnv.

Section Theorems.
Context `{GoEnv}.
Import Nodes.

(** C32 (roundtrip).  Whatever calls a new keeper has taken, failed ones included, its
    parameters are those it was made with, and every record is filed under its
    operator and meets the checks.  In whatever order the runtime visits the map,
    the listing holds each record once, it is a valid genesis, and filing it in a new
    keeper gives the same keeper. *)
Theorem node_list_roundtrip visit p cs k : visits visit → NewKeeper p = Ok k →
  let k' := calls cs k in
  k_params k' = p ∧
  (∀ o n, GetNode o k' = Some n → n_Operator n = o ∧ node_ok p n) ∧
  (∀ n, n ∈ ListNodes visit k' ↔ GetNode (n_Operator n) k' = Some n) ∧
  NoDup (n_Operator <$> ListNodes visit k') ∧
  NodeGenesis_Validate (mkNodeGenesis p (ListNodes visit k')) = Ok tt ∧
  calls (CUpsert <$> ListNodes visit k') k = k'.
Proof.
  intros Hv Hk k'. destruct (NewKeeper_books p k Hk) as (Hb & Hp & He). destruct (calls_books cs k Hb) as [Hb' Hp'].
  assert (k_params k' = p) as Ep by (unfold k'; congruence). fold k' in Hb'.
  assert (∀ o n, GetNode o k' = Some n → n_Operator n = o ∧ node_ok p n) as Hok.
  { intros o n Hn. rewrite <- Ep. by apply (bk_nodes k' Hb'). }
  assert (NoDup (n_Operator <$> ListNodes visit k')) as Hnd.
  { rewrite (ListNodes_operators visit k' Hv Hb'). apply NoDup_fst_map_to_list. }
  assert (Forall (node_ok p) (ListNodes visit k')) as Hall.
  { apply list.Forall_forall. intros n Hn%(ListNodes_elem visit k' n Hv Hb'). by destruct (Hok _ _ Hn). }
  split; [done|]. split; [done|]. split; [intros n; exact (ListNodes_elem visit k' n Hv Hb')|]. split; [done|]. split.
  - apply NodeGenesis_Validate_spec. cbn [ng_Params ng_Nodes]. destruct (bk_params k' Hb') as [Hm Hl]. rewrite Ep in Hm, Hl. split; [split; [congruence|done]|done].
  - destruct k as [p0 m]. cbn in Hp, He. subst p0 m. rewrite upsert_all by done. rewrite (right_id_L ∅ (∪)).
    transitivity (mkKeeper p (k_nodes k')); [|rewrite <- Ep; by destruct k']. f_equal. apply map_eq. intros o. apply option_eq. intros n.
    rewrite <- elem_of_list_to_map by (rewrite <- list_fmap_compose; exact Hnd). rewrite list_elem_of_fmap. split.
    + intros (n' & [= -> ->] & Hn). by apply (ListNodes_elem visit k' n' Hv Hb').
    + intros Hn. exists n. destruct (Hok o n Hn) as [E _]. rewrite E. split; [done|]. apply (ListNodes_elem visit k' n Hv Hb'). by rewrite E.
Qed.
End Theorems.

Module NodeWitness.
Import Demo Nodes.

(** A node registers, another fails to, the first raises its stake, is activated, and
    fails to lower its stake below the minimum. *)
Definition node1 : Node := mkNode (go "op1") 1000000 (go "https://worker-1.contentgrid.example") NodeStatusPending.
Definition history : list call :=
  [CUpsert node1; CUpsert (mkNode (go "op2") 999999 [] NodeStatusActive); CStake (go "op1") 1001000; CStatus (go "op1") NodeStatusActive;
   CStake (go "op1") 1].
Definition activated : Node := mkNode (go "op1") 1001000 (go "https://worker-1.contentgrid.example") NodeStatusActive.

Lemma node_list_roundtrip_witness : let k := mkKeeper DefaultParams ∅ in
  k_nodes (calls history k) = {[go "op1" := activated]} ∧
  calls (CUpsert <$> ListNodes map_to_list (calls history k)) k = calls history k.
Proof.
  intros k. split; [vm_compute; reflexivity|].
  destruct (node_list_roundtrip map_to_list DefaultParams history k (λ m, reflexivity _) eq_refl) as (_ & _ & _ & _ & _ & E). exact E.
Defined.
End NodeWitness.
