(* ===== verification/PageDemo.v ===== *)
(** The theorems from the page's forms to the chain's records, applied to a form of
    each kind on the demonstration page and the history of [DemoEnv]. *)

From stdpp Require Import sorting.
From S2P Require Import Prelude JsBase JsLong JsWriter ProtoWire WalletMsgs WalletFee WalletPure WalletApp WalletMachine WalletProofs WalletProps GoBase GoHash Market MarketProofs PageToChain GoSdk Tokenomics Verifiers RegParams Verification VerificationProofs BankFrame ChainInv Rounds RoundProofs Rewards RewardProofs RoundSteps RoundInv Chain DemoEnv.

Module PageWitness.
Import DemoEnv.Demo.

#[local] Existing Instance WalletProps.Demo.demo_env.

Lemma listed_inv ops : forallb typedb ops = true → (Z.of_nat (length ops) <? 2 ^ 60) = true → market_inv (market (after_ops ops)).
Proof.
  intros Ht Hn. zb. destruct (run_good order ops (no_sites funded) (no_sites_inv funded) (typedb_typed ops Ht)) as [Hi _]; [cbn; lia..|].
  apply Hi.
Qed.

(** What the chain does with what the page encodes for a message. *)
Definition sent {G A} (decode : list Z → option G) (handle : G → result err A) (m : EncodeObject) : bool :=
  match registry_encode (page_registry []) m with
  | Ok bs => match decode bs with Some g => is_ok (handle g) | None => false end
  | Err _ => false
  end.

Lemma sent_ok {G A} (decode : list Z → option G) (handle : G → result err A) m bs g : sent decode handle m = true →
  registry_encode (page_registry []) m = Ok bs → decode bs = Some g → ∃ r, handle g = Ok r.
Proof. intros Hs E1 E2. unfold sent in Hs. rewrite E1, E2 in Hs. destruct (handle g); [eauto|discriminate Hs]. Qed.

(** ** A lease of ten minutes by Bob *)

Definition lease_form : list (jsstr * jsstr) :=
  [(js "slot_id", js "slot-000001"); (js "target_url", js " https://b.example/ "); (js "duration_seconds", js "600"); (js "start_date", [])].
Definition lease_sent : EncodeObject :=
  match lease_msg 1700000000000 (js "bob") lease_form with Ok m => m | Err _ => register_msg [] [] [] end.

Lemma lease_form_to_record_witness : ∃ g l s', LeaseSlot (start1 + 1400) g (market (after_ops listed)) = Ok (l, s') ∧
  leases s' !! l_ID l = Some l ∧ l_Lessee l = go "bob" ∧ l_TargetURL l = go "https://b.example/" ∧
  l_StartsAtUnix l = start1 + 1400 ∧ l_EndsAtUnix l = start1 + 2000.
Proof.
  assert (lease_msg 1700000000000 (js "bob") lease_form = Ok lease_sent) as Hm by (vm_compute; reflexivity).
  assert (sent go_lease_slot (λ g, LeaseSlot (start1 + 1400) g (market (after_ops listed))) lease_sent = true) as Hsent by at_state.
  assert (leaseSeq (market (after_ops listed)) = 0) as Hq by at_state.
  destruct (lease_form_to_record [] 1700000000000 (js "bob") lease_form 600 lease_sent) as (bs & g & st & E1 & E2 & E3 & Hrec).
  - unfold max_time. lia.
  - reflexivity.
  - lia.
  - oks.
  - exact Hm.
  - destruct (sent_ok _ _ _ _ _ Hsent E1 E2) as [[l s'] HL]. exists g, l, s'. split; [exact HL|].
    destruct (Hrec (start1 + 1400) (market (after_ops listed)) l s') as (_ & Hl & _ & Hb & Ht & Hst & He).
    + exact (listed_inv listed eq_refl eq_refl).
    + vm_compute. split; reflexivity.
    + rewrite Hq. lia.
    + exact HL.
    + assert (st = 0) as E0 by (injection E3; intros; congruence). rewrite E0 in Hst. cbn [Z.eqb] in Hst.
      split; [exact Hl|]. split; [rewrite Hb; reflexivity|]. split; [rewrite Ht; vm_compute; reflexivity|]. split; [exact Hst|].
      rewrite He, Hst. lia.
Defined.

(** ** A second slot by Alice *)

Definition slot_form : list (jsstr * jsstr) :=
  [(js "publisher", js "Example.com"); (js "label", js "Footer "); (js "rate", js "250"); (js "size", js "728x90")].
Definition slot_sent : EncodeObject := match create_slot_msg (js "alice") slot_form with Ok m => m | Err _ => register_msg [] [] [] end.

Lemma create_form_to_record_witness : ∃ g r s' x, CreateSlot (start1 + 800) g (market (after_ops listed)) = Ok (r, s') ∧
  slots s' !! s_ID r = Some x ∧ s_Publisher x = go "alice" ∧ s_Domain x = go "example.com" ∧ s_Label x = go "Footer" ∧ s_RateAmount x = 250 ∧
  s_UnitSeconds x = 3600.
Proof.
  assert (create_slot_msg (js "alice") slot_form = Ok slot_sent) as Hm by (vm_compute; reflexivity).
  assert (sent go_create_slot (λ g, CreateSlot (start1 + 800) g (market (after_ops listed))) slot_sent = true) as Hsent by at_state.
  assert (slotSeq (market (after_ops listed)) = 1) as Hq by at_state.
  destruct (create_form_to_record (B := ledger) [] (js "alice") slot_form 250 slot_sent) as (bs & g & E1 & E2 & Hrec).
  - reflexivity.
  - lia.
  - oks.
  - exact Hm.
  - destruct (sent_ok _ _ _ _ _ Hsent E1 E2) as [[r s'] HC]. exists g, r, s'.
    destruct (Hrec (start1 + 800) (market (after_ops listed)) r s') as (x & w & _ & Hx & _ & _ & _ & Hp & Hd & Hl & _ & _ & _ & _ & Hr & _ & Hu & _).
    + exact (listed_inv listed eq_refl eq_refl).
    + rewrite Hq. lia.
    + exact HC.
    + exists x. split; [exact HC|]. split; [exact Hx|]. split; [rewrite Hp; vm_compute; reflexivity|]. split; [rewrite Hd; vm_compute; reflexivity|].
      split; [rewrite Hl; vm_compute; reflexivity|]. split; [exact Hr|]. rewrite Hu. vm_compute. reflexivity.
Defined.

(** ** A re-registration by Carol *)

Definition carol_form : list (jsstr * jsstr) := [(js "domain", js "Example.com"); (js "wallet", js "carol"); (js "referrer", [])].
Lemma register_form_to_record_witness : ∃ g w s', RegisterPublisher 9 g (market (after_ops listed)) = Ok (w, s') ∧
  websites s' !! go "example.com" = Some w ∧ w_PendingOwner w = go "carol" ∧ w_Owner w = go "alice".
Proof.
  assert (register_checks (js "carol") carol_form = Ok (js "example.com", [])) as Hc by (vm_compute; reflexivity).
  assert (sent go_register_publisher (λ g, RegisterPublisher 9 g (market (after_ops listed))) (register_msg (js "carol") (js "example.com") []) = true)
    as Hsent by at_state.
  assert (w_Owner <$> websites (market (after_ops listed)) !! go "example.com" = Some (go "alice")) as Ew by at_state.
  apply fmap_Some in Ew as (old & Hold & Ho).
  destruct (register_form_to_record (B := ledger) [] (js "carol") carol_form (js "example.com") [] Hc ltac:(oks)) as (_ & _ & _ & bs & g & E1 & E2 & Hrec).
  destruct (sent_ok _ _ _ _ _ Hsent E1 E2) as [[w s'] HR]. exists g, w, s'. split; [exact HR|].
  assert (NormalizeDomain (NormalizeDomain (utf8_write (js "example.com"))) = go "example.com") as En by (vm_compute; reflexivity).
  destruct (Hrec 9 (market (after_ops listed)) w s' (listed_inv listed eq_refl eq_refl) HR) as (Hw & _ & _ & Hp).
  rewrite En in Hw, Hp. rewrite Hold in Hp. split; [exact Hw|]. rewrite Hp. split; [vm_compute; reflexivity|]. cbn [w_Owner with_pending].
  exact (eq_sym Ho).
Defined.
End PageWitness.
