(* ===== verification/LiveDemo.v ===== *)
(** The theorem on the end of a block, applied to the history of [DemoEnv]: the block
    after the deadline of the first round is ready, and ends. *)

From stdpp Require Import sorting.
From S2P Require Import Prelude JsBase GoBase GoHash Market MarketProofs GoSdk Tokenomics Verifiers RegParams Verification VerificationProofs BankFrame ChainInv Rounds RoundProofs Rewards RewardProofs RoundSteps RoundInv Chain EndBlock Emission Halts ChainProps RoundProps FinalizeTotal RewardsTotal AssignTotal Liveness DemoEnv.

Module LiveWitness.
Import Demo.

Definition ctx_due : BlockCtx := mkCtx (go "congrid-1") 8 ((start1 + 600) * 10 ^ 9) [8].
Definition pools1 : Z * Z := Eval vm_compute in match round_pools params with Ok r => r | Err _ => (0, 0) end.
Abbreviation due := (after_ops verifying).

(** A statement about a store that can be decided is evaluated. *)
Lemma decided (Q : Prop) `{!Decision Q} : bool_decide Q = true → Q.
Proof. apply bool_decide_eq_true_1. Qed.
Ltac evaluate := apply (decided _); rewrite ?verifying_state; vm_compute; reflexivity.

Lemma demo_payable v : addr_ok v = true → payable_to (B := ledger) v.
Proof. unfold addr_ok. destruct (AccAddressFromBech32 v) as [a|] eqn:E; [|done]. intros _. by exists a. Qed.

Lemma due_payroll : payroll params pools1.2 due.
Proof.
  split; [split|..].
  - assert (map_Forall (λ _ x, x ≤ 2 ^ 127) (bonds_of due)) as Hm by evaluate. intros a x. exact (Hm a x).
  - evaluate.
  - assert (map_Forall (λ _ a, Forall (λ v, addr_ok v = true) (a_Verifiers a)) (assignments due)) as Hm by evaluate.
    intros k a v Ha _ Hv. apply demo_payable. specialize (Hm k a Ha). cbv beta in Hm. rewrite list.Forall_forall in Hm. by apply Hm.
  - assert (map_Forall (λ _ a, Z.of_nat (length (a_Verifiers a)) ≤
      base_pool (Z.quot pools1.2 (Z.of_nat (round_size (a_RoundStartUnix a) due))) (EffectiveVerifierRewardBaseShareBps params)) (assignments due)) as Hm by evaluate.
    intros k a Ha _ per _. exact (Hm k a Ha).
Qed.

Lemma due_block_ready : block_ready params pools1.1 pools1.2 ctx_due due.
Proof.
  split.
  - vm_compute. reflexivity.
  - split_and!; evaluate.
  - split_and!; [vm_compute; reflexivity|evaluate..].
  - split; evaluate.
  - split; evaluate.
  - intros _. split; [split_and!|]; evaluate.
  - evaluate.
  - unfold payees_ok. intros k l to_ a _ _ _ _. reflexivity.
  - assert (map_Forall (λ _ w, w_CooldownCount w + 1 < 2 ^ 31 ∧ p_CooldownBaseSeconds params * 2 ^ w_CooldownCount w + block_time ctx_due < 2 ^ 63)
      (websites (market due))) as Hm by evaluate. intros k w Hw. split; [intros a _; reflexivity|intros _ a _; reflexivity|]. intros _. exact (Hm k w Hw).
  - exact due_payroll.
  - split; [evaluate|]. intros _. evaluate.
  - evaluate.
Qed.

Lemma funded_modules m d : mod_bal funded m d = 0.
Proof. cbn [mod_bal demo_bank]. unfold bal, funded. cbn [bals]. rewrite !lookup_insert_ne by congruence. by rewrite lookup_singleton_ne by congruence. Qed.

Lemma end_block_succeeds_witness : ∃ s', EndBlock order params ctx_due (after_ops verifying) = Ok s' ∧ registry_inv s'.
Proof.
  assert (∀ t a, AccAddressFromBech32 t = Some a → TrimSpace t = t) as Hclean.
  { intros t a. cbn [AccAddressFromBech32 demo_env]. destruct (_ || _) eqn:E; [discriminate|]. intros _. zb. by case_bool_decide. }
  assert (ValidDenom verificationRewardDenom = true) as Hd by reflexivity.
  assert (minter tokenomics_module = true) as Hm by reflexivity. assert (burner tokenomics_module = true) as Hb by reflexivity.
  pose proof due_block_ready as Hr. destruct (end_block_succeeds (B := ledger) Hd Hm Hb Hclean order verifying funded params pools1.1 pools1.2 ctx_due)
    as (s' & E & Hi & _); [exact (typedb_typed verifying eq_refl)|reflexivity|intros d; rewrite funded_modules; exact (Z.le_refl 0)|exact Hr|].
  exists s'. exact (conj E Hi).
Defined.
End LiveWitness.
