(* ===== verification/Agent.v ===== *)
(** The verifier's daemon and the commands it runs: what it observes on a publisher's
    page, the result it commits to and later reveals, and the file in which it keeps
    that result between the two ([src/offchain/verifierd/agent.go], [pending.go],
    [similar.go]; [src/cmd/content-grid-d/verifier.go]).  The page is a list of tokens of
    the HTML tokenizer, files hold their records as they are, and the answers of the
    chain, the network and the clock are inputs. *)

From S2P Require Import Prelude JsBase GoBase GoHash Market Verifiers RegParams Verification.

(** What the tokenizer yields: a start tag with its attributes, an end tag, or another
    token (text, comments, self-closing tags). *)
Inductive html_token := StartTag (name : gostr) (attrs : list (gostr * gostr)) | EndTag (name : gostr) | OtherToken.

(** [url.Parse] and then [Hostname]; [None] is an error of the parser. *)
Class UrlHost := { Hostname : gostr → option gostr }.

(** [strings.EqualFold], where the second string has no letter that a rune outside
    ASCII folds to ([k] and [s] are the two that do). *)
Definition EqualFold (s t : gostr) : bool := bool_decide (ascii_lower <$> s = ascii_lower <$> t).

(** * Similar sites *)

Section Similar.
Context `{GoEnv} `{UrlHost}.

Definition normalizeDomainOnly (raw : gostr) : gostr :=
  let raw := TrimSpace raw in
  if empty raw then []
  else
    let raw := if includes raw (go "://") then raw else go "https://" ++ raw in
    match Hostname raw with
    | None => []
    | Some h => ToLower (TrimSpace h)
    end.

(** The last attribute of that name. *)
Definition attr_of (name : gostr) (attrs : list (gostr * gostr)) : gostr :=
  foldl (λ v kv, if EqualFold kv.1 name then kv.2 else v) [] attrs.

(** The state of the scan; what is seen is what is put out, in the order it was seen. *)
Record scan := mkScan { inContainer : bool; containerDivDepth : Z; seen : list gostr }.

Definition add_seen (d : gostr) (out : list gostr) : list gostr :=
  if empty d || bool_decide (d ∈ out) then out else out ++ [d].

Definition scan_token (st : scan) (t : html_token) : scan :=
  match t with
  | StartTag name attrs =>
      let tag := ToLower name in
      if bool_decide (tag = go "div") then
        if bool_decide (attr_of (go "id") attrs = go "congrid-similar") then mkScan true 1 (seen st)
        else if inContainer st then mkScan true (containerDivDepth st + 1) (seen st) else st
      else if inContainer st && bool_decide (tag = go "a")
      then mkScan (inContainer st) (containerDivDepth st) (add_seen (normalizeDomainOnly (attr_of (go "href") attrs)) (seen st))
      else st
  | EndTag name =>
      if inContainer st && EqualFold name (go "div") then
        let depth := containerDivDepth st - 1 in
        if depth <=? 0 then mkScan false 0 (seen st) else mkScan true depth (seen st)
      else st
  | OtherToken => st
  end.
Definition parseObservedSimilarDomains (page : list html_token) : list gostr := seen (foldl scan_token (mkScan false 0 []) page).

Definition set_hash (l : list gostr) : gostr := EncodeToString (Sum256 (Join l [10])).

Definition sha256HexOfSet (domains : list gostr) : gostr :=
  set_hash (SortStrings (foldl (λ clean d, add_seen (normalizeDomainOnly d) clean) [] domains)).

Definition overlapCount (a b : list gostr) : Z :=
  let set := normalizeDomainOnly <$> a in Z.of_nat (length (filter (λ y, normalizeDomainOnly y ∈ set) b)).

(** The answer of the indexer: the domains of its hits and its hash. *)
Definition expected_similar (hits : list gostr) (hash : gostr) : list gostr * gostr :=
  let doms := SortStrings (filter (λ d, d ≠ []) (normalizeDomainOnly <$> hits)) in
  let setHash := TrimSpace hash in
  (doms, if empty setHash then set_hash doms else setHash).
End Similar.

(** * The commands *)

Section Commands.
Context `{GoEnv}.

Definition validateCommitHash (hash : gostr) : result err unit :=
  let hash := TrimSpace hash in
  first_error [
   (empty hash, Errorf "commit_hash required");
   (negb (length hash =? 64)%nat, Errorf "commit_hash must be 64 hex chars");
   (negb (is_hex hash), Errorf "commit_hash must be hex")].
Definition Commit_ValidateBasic (m : MsgCommit) : result err unit :=
  first_error [
   (negb (addr_ok (mk_Verifier m)), Errorf "invalid verifier address");
   (blank (mk_Domain m), Errorf "domain required");
   (mk_RoundStartUnix m <=? 0, Errorf "round start unix must be positive")];;
  validateCommitHash (mk_CommitHash m).

Record similarEvidenceFlags := mkEvidence {
  ef_observed : Z; ef_matched : Z; ef_expected : Z; ef_expectedSetHash : gostr; ef_observedSetHash : gostr }.
Definition resolveHash (f : similarEvidenceFlags) (raw : gostr) : gostr :=
  let raw := TrimSpace raw in
  if negb (empty raw) || negb (HasVerificationEvidence (ef_observed f) (ef_matched f) (ef_expected f) (ef_expectedSetHash f) (ef_observedSetHash f))
  then raw
  else ComputeVerificationEvidenceHash (ef_observed f) (ef_matched f) (ef_expected f) (ef_expectedSetHash f) (ef_observedSetHash f).

(** The check of the domain both commands start with. *)
Definition domain_arg (arg : gostr) : result err gostr :=
  let domain := NormalizeDomain arg in
  guard_err (empty domain) (Errorf "domain required");;
  guard_err (negb (IsDomainFormatValid domain)) (Errorf "not a valid hostname");;
  Ok domain.

(** The round is looked up among the assignments of the verifier when none is given;
    [queried] is the answer to that query, an error or the assignments. *)
Definition resolve_round (queried : result err (list Assignment)) (now : Z) (domain : gostr) (roundStart : Z) (owner : gostr) : result err (Z * gostr) :=
  if negb (roundStart =? 0) then Ok (roundStart, owner)
  else
    l ← queried;
    match filter (λ a, a_Domain a = domain ∧ a_Finalized a = false ∧ a_StartAtUnix a ≤ now ≤ a_DeadlineUnix a) l with
    | [] => Err (Errorf "no active assignment found")
    | [a] =>
        let assignmentOwner := TrimSpace (a_VerificationOwner a) in
        if empty owner then Ok (a_RoundStartUnix a, assignmentOwner)
        else
          guard_err (negb (empty assignmentOwner) && negb (bool_decide (owner = assignmentOwner))) (Errorf "--verification-owner does not match assignment");;
          Ok (a_RoundStartUnix a, owner)
    | _ => Err (Errorf "multiple active assignments found")
    end.

(** The flags of the two commands; a string that was not given is empty. *)
Record cmd_flags := mkFlags {
  fl_passed : bool; fl_failed : bool; fl_roundStart : Z; fl_commitHash : gostr; fl_evidenceHash : gostr; fl_nonce : gostr;
  fl_verificationOwner : gostr; fl_similar : similarEvidenceFlags }.

Definition verifierCommitCmd (from : gostr) (queried : result err (list Assignment)) (now : Z) (arg : gostr) (f : cmd_flags) : result err MsgCommit :=
  domain ← domain_arg arg;
  r ← resolve_round queried now domain (fl_roundStart f) (fl_verificationOwner f);
  let '(roundStart, verificationOwner) := r in
  commitHash ←
    (if empty (fl_commitHash f) then
       guard_err (Bool.eqb (fl_passed f) (fl_failed f)) (Errorf "specify exactly one of --passed or --failed when computing commit hash");;
       guard_err (empty (fl_nonce f)) (Errorf "--nonce required when computing commit hash");;
       let evidenceHash := resolveHash (fl_similar f) (fl_evidenceHash f) in
       Ok (if negb (blank verificationOwner)
           then ComputeVerificationCommitHashV2 domain roundStart from verificationOwner (fl_passed f) evidenceHash (fl_nonce f)
           else ComputeVerificationCommitHash domain roundStart from (fl_passed f) evidenceHash (fl_nonce f))
     else Ok (fl_commitHash f));
  let msg := {| mk_Verifier := from; mk_Domain := domain; mk_RoundStartUnix := roundStart; mk_CommitHash := commitHash |} in
  Commit_ValidateBasic msg;;
  Ok msg.

Definition verifierRevealCmd (from : gostr) (queried : result err (list Assignment)) (now : Z) (arg : gostr) (f : cmd_flags) : result err MsgReveal :=
  guard_err (Bool.eqb (fl_passed f) (fl_failed f)) (Errorf "specify exactly one of --passed or --failed");;
  guard_err (empty (fl_nonce f)) (Errorf "--nonce required");;
  domain ← domain_arg arg;
  r ← resolve_round queried now domain (fl_roundStart f) (fl_verificationOwner f);
  let '(roundStart, verificationOwner) := r in
  let s := fl_similar f in
  let msg := {| mv_Verifier := from; mv_Domain := domain; mv_RoundStartUnix := roundStart; mv_Passed := fl_passed f;
    mv_EvidenceHash := resolveHash s (fl_evidenceHash f); mv_Nonce := fl_nonce f; mv_VerificationOwner := TrimSpace verificationOwner;
    mv_ObservedSimilarDomains := ef_observed s; mv_MatchedSimilarDomains := ef_matched s; mv_ExpectedSimilarDomains := ef_expected s;
    mv_ExpectedSetHash := ef_expectedSetHash s; mv_ObservedSetHash := ef_observedSetHash s |} in
  Reveal_ValidateBasic msg;;
  Ok msg.
End Commands.

(** * The result that waits to be revealed *)

Record pendingReveal := mkPending {
  pr_Key : gostr; pr_Domain : gostr; pr_RoundStartUnix : Z; pr_Verifier : gostr; pr_Passed : bool; pr_EvidenceHash : gostr;
  pr_ObservedSimilarDomains : Z; pr_MatchedSimilarDomains : Z; pr_ExpectedSimilarDomains : Z; pr_ExpectedSetHash : gostr;
  pr_ObservedSetHash : gostr; pr_VerificationOwner : gostr; pr_Nonce : gostr; pr_CommitHash : gostr; pr_CommitRecorded : bool;
  pr_CreatedAtUnix : Z; pr_UpdatedAtUnix : Z }.

(** What the daemon reads of its configuration. *)
Record AgentConfig := mkAgentConfig {
  ag_VerifierAddress : gostr; ag_StateDir : gostr; ag_IndexerdBaseURL : gostr; ag_CommitWindowSeconds : Z; ag_CommitStartBufferSeconds : Z }.

Section Agent.
Context `{GoEnv} `{UrlHost} (cfg : AgentConfig).

(** [fmt.Sprintf("%d:%s", ...)]. *)
Definition agentKey (a : Assignment) : gostr := FormatInt (a_RoundStartUnix a) ++ go ":" ++ a_Domain a.

(** The name of a file of the state directory; without a directory there is none. *)
Definition pendingRevealPathForKey (key : gostr) : option gostr :=
  if blank (ag_StateDir cfg) || blank key then None else Some (EncodeToString (Sum256 key) ++ go ".json").
Abbreviation files := (gmap gostr pendingReveal).

(** The hash of a result; the owner it is bound to is that of the assignment. *)
Definition commit_hash_of (a : Assignment) (domain : gostr) (round : Z) (verifier : gostr) (passed : bool) (evidenceHash nonce : gostr) : gostr :=
  let owner := TrimSpace (a_VerificationOwner a) in
  if negb (empty owner) then ComputeVerificationCommitHashV2 domain round verifier owner passed evidenceHash nonce
  else ComputeVerificationCommitHash domain round verifier passed evidenceHash nonce.

Definition pending_evidence (p : pendingReveal) : bool :=
  HasVerificationEvidence (pr_ObservedSimilarDomains p) (pr_MatchedSimilarDomains p) (pr_ExpectedSimilarDomains p) (pr_ExpectedSetHash p) (pr_ObservedSetHash p).
Definition pending_evidence_hash (p : pendingReveal) : gostr :=
  ComputeVerificationEvidenceHash (pr_ObservedSimilarDomains p) (pr_MatchedSimilarDomains p) (pr_ExpectedSimilarDomains p) (pr_ExpectedSetHash p)
    (pr_ObservedSetHash p).

Definition validateForAssignment (p : pendingReveal) (a : Assignment) (verifier : gostr) : result err unit :=
  first_error [
   (negb (bool_decide (pr_Key p = agentKey a)), Errorf "pending key mismatch");
   (negb (bool_decide (pr_Domain p = a_Domain a)) || negb (pr_RoundStartUnix p =? a_RoundStartUnix a), Errorf "pending assignment mismatch");
   (negb (bool_decide (TrimSpace (pr_Verifier p) = TrimSpace verifier)), Errorf "pending verifier mismatch");
   (blank (pr_Nonce p), Errorf "pending nonce missing");
   (blank (pr_CommitHash p), Errorf "pending commit hash missing");
   (pending_evidence p && negb (EqualFold (TrimSpace (pr_EvidenceHash p)) (pending_evidence_hash p)), Errorf "pending evidence hash mismatch");
   (negb (bool_decide (TrimSpace (pr_VerificationOwner p) = TrimSpace (a_VerificationOwner a))), Errorf "pending verification owner mismatch");
   (negb (EqualFold (TrimSpace (pr_CommitHash p))
      (commit_hash_of a (pr_Domain p) (pr_RoundStartUnix p) (pr_Verifier p) (pr_Passed p) (pr_EvidenceHash p) (pr_Nonce p))), Errorf "pending commit hash mismatch")].

Definition pendingRevealForAssignment (a : Assignment) (fs : files) : result err (option pendingReveal) :=
  match path ← pendingRevealPathForKey (agentKey a); fs !! path with
  | None => Ok None
  | Some p => validateForAssignment p a (ag_VerifierAddress cfg);; Ok (Some p)
  end.

Definition stamped (now : Z) (p : pendingReveal) : pendingReveal :=
  mkPending (pr_Key p) (pr_Domain p) (pr_RoundStartUnix p) (pr_Verifier p) (pr_Passed p) (pr_EvidenceHash p) (pr_ObservedSimilarDomains p)
    (pr_MatchedSimilarDomains p) (pr_ExpectedSimilarDomains p) (pr_ExpectedSetHash p) (pr_ObservedSetHash p) (pr_VerificationOwner p) (pr_Nonce p)
    (pr_CommitHash p) (pr_CommitRecorded p) (if pr_CreatedAtUnix p =? 0 then now else pr_CreatedAtUnix p) now.
Definition recorded (p : pendingReveal) : pendingReveal :=
  mkPending (pr_Key p) (pr_Domain p) (pr_RoundStartUnix p) (pr_Verifier p) (pr_Passed p) (pr_EvidenceHash p) (pr_ObservedSimilarDomains p)
    (pr_MatchedSimilarDomains p) (pr_ExpectedSimilarDomains p) (pr_ExpectedSetHash p) (pr_ObservedSetHash p) (pr_VerificationOwner p) (pr_Nonce p)
    (pr_CommitHash p) true (pr_CreatedAtUnix p) (pr_UpdatedAtUnix p).

(** The record is written to another file that takes the place of the old one, so that
    it is replaced whole or not at all; [io] is whether the system's calls succeed. *)
Definition savePendingReveal (io : bool) (now : Z) (p : pendingReveal) (fs : files) : result err files :=
  if blank (ag_StateDir cfg) then Ok fs
  else
    match pendingRevealPathForKey (pr_Key p) with
    | None => Err (Errorf "state_dir required")
    | Some path => guard_err (negb io) (Errorf "io");; Ok (<[path := stamped now p]> fs)
    end.

Definition deletePendingReveal (a : Assignment) (fs : files) : files :=
  match pendingRevealPathForKey (agentKey a) with Some path => delete path fs | None => fs end.

(** ** The observation *)

(** The counts and hashes of the similar sites: nothing, unless the badge was found and
    an indexer is set; [page] and [answer] are the page and the hits of the indexer, or
    their failure. *)
Definition observe (passed : bool) (page : option (list html_token)) (answer : option (list gostr * gostr)) : similarEvidenceFlags :=
  let none := mkEvidence 0 0 0 [] [] in
  if passed && negb (blank (ag_IndexerdBaseURL cfg)) then
    match page with
    | None => none
    | Some page =>
        let observed := parseObservedSimilarDomains page in
        let n := swrap 32 (Z.of_nat (length observed)) in
        let h := sha256HexOfSet observed in
        match answer with
        | None => mkEvidence n 0 0 [] h
        | Some (hits, hash) =>
            let '(expected, setHash) := expected_similar hits hash in
            mkEvidence n (swrap 32 (overlapCount observed expected)) (swrap 32 (Z.of_nat (length expected))) setHash h
        end
    end
  else none.

Definition make_pending (a : Assignment) (passed : bool) (e : similarEvidenceFlags) (nonce : gostr) : pendingReveal :=
  let evidenceHash :=
    if HasVerificationEvidence (ef_observed e) (ef_matched e) (ef_expected e) (ef_expectedSetHash e) (ef_observedSetHash e)
    then ComputeVerificationEvidenceHash (ef_observed e) (ef_matched e) (ef_expected e) (ef_expectedSetHash e) (ef_observedSetHash e)
    else [] in
  let commitHash := commit_hash_of a (a_Domain a) (a_RoundStartUnix a) (ag_VerifierAddress cfg) passed evidenceHash nonce in
  mkPending (agentKey a) (a_Domain a) (a_RoundStartUnix a) (ag_VerifierAddress cfg) passed evidenceHash (ef_observed e) (ef_matched e)
    (ef_expected e) (ef_expectedSetHash e) (ef_observedSetHash e) (TrimSpace (a_VerificationOwner a)) nonce commitHash false 0 0.

(** ** The commands the daemon runs *)

Definition no_evidence : similarEvidenceFlags := mkEvidence 0 0 0 [] [].
Definition commit_flags (a : Assignment) (hash : gostr) : cmd_flags := mkFlags false false (a_RoundStartUnix a) hash [] [] [] no_evidence.
Definition unless_blank (s : gostr) : gostr := if blank s then [] else s.
Definition reveal_flags (a : Assignment) (p : pendingReveal) : cmd_flags :=
  mkFlags (pr_Passed p) (negb (pr_Passed p)) (a_RoundStartUnix a) [] (unless_blank (pr_EvidenceHash p)) (pr_Nonce p) (pr_VerificationOwner p)
    (mkEvidence (pr_ObservedSimilarDomains p) (pr_MatchedSimilarDomains p) (pr_ExpectedSimilarDomains p) (unless_blank (pr_ExpectedSetHash p))
      (unless_blank (pr_ObservedSetHash p))).

(** The messages, for a key whose address is [from]; a round is given, so that nothing
    is looked up. *)
Definition submitCommit (from : gostr) (a : Assignment) (hash : gostr) : result err MsgCommit :=
  verifierCommitCmd from (Ok []) 0 (a_Domain a) (commit_flags a hash).
Definition submitReveal (from : gostr) (a : Assignment) (p : pendingReveal) : result err MsgReveal :=
  verifierRevealCmd from (Ok []) 0 (a_Domain a) (reveal_flags a p).

(** ** One assignment, step by step *)

Definition errContains (text needle : gostr) : bool := includes (ToLower text) (ToLower needle).
Definition isAlreadyCommittedError (t : gostr) : bool :=
  errContains t (go "verification commit already submitted") || errContains t (go "commit already recorded").
Definition isAlreadySubmittedError (t : gostr) : bool :=
  errContains t (go "verification submission already recorded") || errContains t (go "submission already recorded").
Definition isRetriableCommitError (t : gostr) : bool :=
  errContains t (go "account sequence mismatch") || errContains t (go "timed out waiting for transaction") ||
  errContains t (go "verification commit window closed").
Definition isRetriableRevealError (t : gostr) : bool :=
  errContains t (go "account sequence mismatch") || errContains t (go "timed out waiting for transaction") ||
  errContains t (go "verification reveal window not open") || errContains t (go "verification commit not found").

(** Where [runAssignment] is: between two of these places it does not sleep, and sends
    at most one transaction. *)
Inductive stage := Starting | Fresh | Ready (p : pendingReveal) | Committing (p : pendingReveal) | Waiting (p : pendingReveal)
  | Revealing (p : pendingReveal) | Finished.

(** What the outside answers in one step: the clock, in nanoseconds, when the step reads
    it first and last; whether the sleep before it or after it ran to its end; whether
    files could be written; the owner the chain has; what was found on the page and at
    the indexer; random bytes; and the error of the transaction, if any. *)
Record input := mkInput {
  i_now : Z; i_later : Z; i_slept : bool; i_io : bool; i_owner : result err gostr; i_verified : bool; i_page : option (list html_token);
  i_answer : option (list gostr * gostr); i_random : option (list Z); i_tx : option gostr }.

Inductive action := ACommit (hash : gostr) | AReveal (p : pendingReveal).

Definition second : Z := 10 ^ 9.
Definition unix (ns : Z) : Z := ns / second.
Definition commitDeadlineUnix (a : Assignment) : Z := i64 (a_StartAtUnix a + ag_CommitWindowSeconds cfg).

Definition tx_done (already : gostr → bool) (tx : option gostr) : bool := match tx with None => true | Some t => already t end.
Definition tx_retry (retriable : gostr → bool) (tx : option gostr) : bool := match tx with None => false | Some t => retriable t end.

(** The result is observed and saved before anything is sent. *)
Definition fresh_step (a : Assignment) (i : input) (fs : files) : stage * files * list action :=
  let owner := if empty (TrimSpace (a_VerificationOwner a)) then i_owner i else Ok (TrimSpace (a_VerificationOwner a)) in
  if negb (i_slept i) || (commitDeadlineUnix a <? unix (i_now i)) then (Finished, fs, [])
  else
    match owner, i_random i with
    | Ok owner, Some bytes =>
        if empty owner || (a_DeadlineUnix a * second <=? i_later i) then (Finished, fs, [])
        else
          let p := make_pending a (i_verified i) (observe (i_verified i) (i_page i) (i_answer i)) (EncodeToString bytes) in
          match savePendingReveal (i_io i) (unix (i_later i)) p fs with
          | Ok fs => (Ready p, fs, [])
          | Err _ => (Finished, fs, [])
          end
    | _, _ => (Finished, fs, [])
    end.

Definition agent_step (a : Assignment) (i : input) (st : stage) (fs : files) : stage * files * list action :=
  match st with
  | Starting =>
      if a_DeadlineUnix a <=? commitDeadlineUnix a then (Finished, fs, [])
      else if a_DeadlineUnix a <? unix (i_now i) then (Finished, deletePendingReveal a fs, [])
      else
        match pendingRevealForAssignment a fs with
        | Err _ => (Finished, fs, [])
        | Ok (Some p) => (Ready p, fs, [])
        | Ok None => (Fresh, fs, [])
        end
  | Fresh => fresh_step a i fs
  | Ready p => (if negb (pr_CommitRecorded p) && (unix (i_now i) <=? commitDeadlineUnix a) then Committing p else Waiting p, fs, [])
  | Committing p =>
      let sent := [ACommit (pr_CommitHash p)] in
      if tx_done isAlreadyCommittedError (i_tx i) then
        match savePendingReveal (i_io i) (unix (i_later i)) (recorded p) fs with
        | Ok fs => (Waiting (recorded p), fs, sent)
        | Err _ => (Finished, fs, sent)
        end
      else if tx_retry isRetriableCommitError (i_tx i) && (i_now i <=? commitDeadlineUnix a * second) && i_slept i then (Committing p, fs, sent)
      else (Finished, fs, sent)
  | Waiting p =>
      if negb (i_slept i) then (Finished, fs, [])
      else if a_DeadlineUnix a <? unix (i_now i) then (Finished, deletePendingReveal a fs, [])
      else (Revealing p, fs, [])
  | Revealing p =>
      let sent := [AReveal p] in
      let retry := tx_retry isRetriableRevealError (i_tx i) in
      if tx_done isAlreadySubmittedError (i_tx i) then (Finished, deletePendingReveal a fs, sent)
      else if retry && (i_now i <=? a_DeadlineUnix a * second) && i_slept i then (Revealing p, fs, sent)
      else (Finished, if negb retry || (a_DeadlineUnix a * second <? i_later i) then deletePendingReveal a fs else fs, sent)
  | Finished => (Finished, fs, [])
  end.

(** A history of the daemon: each entry is a step of the current run, or, [None], the
    start of another run, after a crash or at a later poll; the files stay. *)
Fixpoint agent_run (a : Assignment) (l : list (option input)) (st : stage) (fs : files) : stage * files * list action :=
  match l with
  | [] => (st, fs, [])
  | None :: l => agent_run a l Starting fs
  | Some i :: l =>
      let '(st, fs, sent) := agent_step a i st fs in
      let '(st, fs, rest) := agent_run a l st fs in (st, fs, sent ++ rest)
  end.

(** The clock does not go back, a sleep that ends ends after its time, and random bytes
    are there. *)
Fixpoint clocked (a : Assignment) (clock : Z) (l : list (option input)) (st : stage) (fs : files) : Prop :=
  match l with
  | [] => True
  | None :: l => clocked a clock l Starting fs
  | Some i :: l =>
      clock ≤ i_now i ≤ i_later i ∧
      (match st with Waiting _ => i_slept i = true → i64 (commitDeadlineUnix a + 6) * second ≤ i_now i | _ => True end) ∧
      (∀ b, i_random i = Some b → length b = 16%nat ∧ Forall (λ x, 0 ≤ x < 256) b) ∧
      clocked a (i_later i) l (agent_step a i st fs).1.1 (agent_step a i st fs).1.2
  end.
End Agent.
