(* ===== verification/AgentProofs.v ===== *)
(** The daemon never commits to two results for one assignment, whatever crashes and
    failures it meets, and what it reveals opens what it committed to. *)

From S2P Require Import Prelude JsBase GoBase GoHash Market MarketProofs GoSdk Tokenomics Verifiers RegParams Verification VerificationProofs BankFrame ChainInv Rounds RoundProofs Rewards RewardProofs RoundSteps RoundInv Chain FinalizeTotal AssignTotal Agent.

(** * Hashes as text *)

Lemma lower_hex_digit d : 0 ≤ d < 16 → ascii_lower (hex_digit d) = hex_digit d ∧ 0 ≤ hex_digit d < 128.
Proof.
  intros Hd. assert (forallb (λ d, (ascii_lower (hex_digit d) =? hex_digit d) && (0 <=? hex_digit d) && (hex_digit d <? 128)) (seqZ 0 16) = true) as Hall by reflexivity.
  apply forallb_Forall in Hall. rewrite list.Forall_forall in Hall. specialize (Hall d ltac:(apply elem_of_seqZ; lia)). cbn beta in Hall. zb. lia.
Qed.

Lemma lower_encode bs : bytes bs → ascii_lower <$> EncodeToString bs = EncodeToString bs ∧ Forall (λ c, 0 ≤ c < 128) (EncodeToString bs).
Proof.
  induction 1 as [|b bs Hb _ [IH1 IH2]]; [split; [done|constructor]|].
  change (EncodeToString (b :: bs)) with ([hex_digit (b / 16); hex_digit (b mod 16)] ++ EncodeToString bs).
  destruct (lower_hex_digit (b / 16)) as [E1 H1]; [split; [apply Z.div_pos; lia|apply Z.div_lt_upper_bound; lia]|].
  destruct (lower_hex_digit (b mod 16)) as [E2 H2]; [apply Z.mod_pos_bound; lia|]. split.
  - rewrite fmap_app, IH1. cbn [fmap list_fmap]. by rewrite E1, E2.
  - apply Forall_app_2; [|done]. constructor; [done|]. constructor; [done|constructor].
Qed.

Section Hashes.
Context `{GoEnv}.

(** What compares equal to a hash without regard to case is lowered to it. *)
Lemma fold_hash s m : EqualFold s (EncodeToString (Sum256 m)) = true → ToLower s = EncodeToString (Sum256 m).
Proof.
  destruct (Sum256_spec m) as [_ Hb]. destruct (lower_encode _ Hb) as [E Ha]. unfold EqualFold. intros Hs%bool_decide_eq_true. rewrite E in Hs.
  rewrite ToLower_ascii; [done|]. rewrite <- Hs in Ha. revert Ha. clear. induction s as [|c s IH]; [constructor|]. cbn. intros [Hc Hs]%Forall_cons_1.
  constructor; [|by apply IH]. unfold ascii_lower in Hc. destruct ((65 <=? c) && (c <=? 90)) eqn:E; [zb; lia|done].
Qed.

Lemma hash_folds m : EqualFold (TrimSpace (EncodeToString (Sum256 m))) (EncodeToString (Sum256 m)) = true.
Proof. destruct (hash_text m) as [Hx _]. rewrite (hex_clean _ Hx). by apply bool_decide_eq_true. Qed.

Lemma hash_not_blank m : blank (EncodeToString (Sum256 m)) = false.
Proof. destruct (hash_text m) as [Hx Hn]. unfold blank. rewrite (hex_clean _ Hx). by destruct (EncodeToString (Sum256 m)). Qed.

Lemma encode_not_blank bs : bytes bs → bs ≠ [] → blank (EncodeToString bs) = false.
Proof. intros Hb Hn. unfold blank. rewrite (hex_clean _ (encode_hex _ Hb)). by destruct bs. Qed.

Lemma commit_hash_is a d r v x e n : ∃ m, commit_hash_of a d r v x e n = EncodeToString (Sum256 m).
Proof. unfold commit_hash_of. destruct (negb _); eexists; reflexivity. Qed.
End Hashes.

(** * No second commit *)

Section Once.
Context `{GoEnv} `{UrlHost} (cfg : AgentConfig) (a : Assignment) (path : gostr).
Hypothesis has_path : pendingRevealPathForKey cfg (agentKey a) = Some path.
Hypothesis in_time : commitDeadlineUnix cfg a + 6 < 2 ^ 63.
Abbreviation files := (gmap gostr pendingReveal).
Abbreviation deadline := (commitDeadlineUnix cfg a).
Abbreviation valid p := (validateForAssignment p a (ag_VerifierAddress cfg) = Ok tt).

(** A result without what is noted about it. *)
Definition core (p : pendingReveal) : pendingReveal := stamped 0 (recorded (mkPending (pr_Key p) (pr_Domain p) (pr_RoundStartUnix p) (pr_Verifier p)
  (pr_Passed p) (pr_EvidenceHash p) (pr_ObservedSimilarDomains p) (pr_MatchedSimilarDomains p) (pr_ExpectedSimilarDomains p) (pr_ExpectedSetHash p)
  (pr_ObservedSetHash p) (pr_VerificationOwner p) (pr_Nonce p) (pr_CommitHash p) true 0 0)).

Definition held (st : stage) : option pendingReveal :=
  match st with Ready p | Committing p | Waiting p | Revealing p => Some p | _ => None end.

(** The one result [o] of the assignment, once there is one: the file has it until the
    commit window is over, and the run holds it. *)
Record once (o : option pendingReveal) (clock : Z) (st : stage) (fs : files) : Prop := {
  on_file q : fs !! path = Some q → o = Some (core q);
  on_held p : held st = Some p → o = Some (core p) ∧ valid p;
  on_gone : is_Some o → fs !! path = None → deadline < unix clock;
  on_fresh : st = Fresh → fs !! path = None;
  on_late p : st = Revealing p → deadline < unix clock;
  on_open : st = Fresh ∨ is_Some (held st) → deadline < a_DeadlineUnix a }.

(** All that is sent is of that result. *)
Definition sent_ok (o : option pendingReveal) (sent : list action) : Prop :=
  Forall (λ x, match x with ACommit h => ∃ p, o = Some p ∧ h = pr_CommitHash p | AReveal p => o = Some (core p) ∧ valid p end) sent.
Definition settled_on (o o' : option pendingReveal) : Prop := is_Some o → o' = o.

Lemma unix_mono x y : x ≤ y → unix x ≤ unix y.
Proof. intros. apply Z.div_le_mono; [done|lia]. Qed.

Lemma make_pending_valid passed e bs : length bs = 16%nat → bytes bs → valid (make_pending cfg a passed e (EncodeToString bs)).
Proof.
  intros Hl Hb. apply first_error_ok. unfold make_pending, pending_evidence, pending_evidence_hash.
  repeat apply Forall_cons_2; try apply Forall_nil_2; cbn [fst pr_Key pr_Domain pr_RoundStartUnix pr_Verifier pr_Passed pr_EvidenceHash pr_ObservedSimilarDomains
    pr_MatchedSimilarDomains pr_ExpectedSimilarDomains pr_ExpectedSetHash pr_ObservedSetHash pr_VerificationOwner pr_Nonce pr_CommitHash].
  - by rewrite bool_decide_eq_true_2.
  - by rewrite bool_decide_eq_true_2, Z.eqb_refl.
  - by rewrite bool_decide_eq_true_2.
  - apply encode_not_blank; [done|]. by destruct bs.
  - match goal with |- blank (commit_hash_of ?a ?d ?r ?v ?x ?e ?n) = _ => destruct (commit_hash_is a d r v x e n) as [m ->] end. apply hash_not_blank.
  - destruct (HasVerificationEvidence _ _ _ _ _); [|done]. cbn [andb]. unfold ComputeVerificationEvidenceHash. by rewrite hash_folds.
  - rewrite bool_decide_eq_true_2; [done|]. by rewrite TrimSpace_idem.
  - match goal with |- context [commit_hash_of ?a ?d ?r ?v ?x ?e ?n] => destruct (commit_hash_is a d r v x e n) as [m ->] end. by rewrite hash_folds.
Qed.

Lemma valid_key p : valid p → pr_Key p = agentKey a.
Proof. intros Hv. apply first_error_ok in Hv. apply Forall_cons_1 in Hv as [Hk _]. cbn in Hk. zb. by apply bool_decide_eq_true in Hk. Qed.

Lemma saved io now p fs fs' : pr_Key p = agentKey a → savePendingReveal cfg io now p fs = Ok fs' → fs' = <[path := stamped now p]> fs.
Proof.
  intros Hk Hs. unfold savePendingReveal in Hs. rewrite Hk, has_path in Hs. destruct (blank (ag_StateDir cfg)) eqn:Hd.
  { unfold pendingRevealPathForKey in has_path. by rewrite Hd in has_path. }
  apply bind_Ok_inv in Hs as (? & _ & [= <-]). done.
Qed.

Lemma deleted fs : deletePendingReveal cfg a fs = delete path fs.
Proof. unfold deletePendingReveal. by rewrite has_path. Qed.

(** The ends of a run: the files stay, or the file goes when it is late. *)
Lemma once_stop o c c' st fs : c ≤ c' → once o c st fs → once o c' Finished fs ∧ once o c' Starting fs.
Proof.
  intros Hc [H1 H2 H3 H4 H5 H6]. pose proof (unix_mono c c' Hc). split; split; try done; try (by intros [?|[? ?]]); intros; specialize (H3 ltac:(done) ltac:(done)); lia.
Qed.

Lemma once_delete o c c' st fs : deadline < unix c' → once o c st fs → once o c' Finished (deletePendingReveal cfg a fs).
Proof.
  intros Hc [H1 H2 H3 H4 H5 H6]. rewrite deleted. split; try done; [|by intros [?|[? ?]]]. intros q. by rewrite lookup_delete_eq.
Qed.

(** A held result moves on, with the file as it is or saved again. *)
Lemma once_move o c c' st st' p q fs fs' : c ≤ c' → once o c st fs → held st = Some p → held st' = Some q → core q = core p → valid q →
  fs' !! path = fs !! path ∨ (∃ n, fs' !! path = Some (stamped n q)) → (∀ r, st' = Revealing r → deadline < unix c') → once o c' st' fs'.
Proof.
  intros Hc [H1 H2 H3 H4 H5 H6] Hp Hq Hcore Hv Hf Hr. pose proof (unix_mono c c' Hc). destruct (H2 p Hp) as [Ho _].
  assert (∀ x, fs' !! path = Some x → o = Some (core x)) as Hx.
  { intros x Hx. destruct Hf as [Hf|[n Hf]]; [apply H1; congruence|]. rewrite Hf in Hx. injection Hx as <-. change (core (stamped n q)) with (core q). congruence. }
  split; try done.
  - intros r Hr'. rewrite Hq in Hr'. injection Hr' as <-. split; [congruence|done].
  - intros _ Hn. destruct Hf as [Hf|[n Hf]]; [|congruence]. specialize (H3 ltac:(eauto) ltac:(congruence)). lia.
  - intros ->. discriminate Hq.
  - intros _. apply H6. right. by rewrite Hp.
Qed.

(** The first result is chosen while the commit window is open: there was none before. *)
Lemma fresh_once o c i fs : once o c Fresh fs → c ≤ i_now i ≤ i_later i → (∀ b, i_random i = Some b → length b = 16%nat ∧ bytes b) →
  let '(st', fs', sent) := fresh_step cfg a i fs in ∃ o', settled_on o o' ∧ once o' (i_later i) st' fs' ∧ sent = [].
Proof.
  intros Ho Hc Hb. unfold fresh_step. assert (∃ o', settled_on o o' ∧ once o' (i_later i) Finished fs ∧ ([] : list action) = []) as Hstop.
  { exists o. split; [by intros ?|]. split; [|done]. apply (once_stop o c _ Fresh); [lia|done]. }
  destruct (negb (i_slept i)) eqn:Es, (Z.ltb_spec deadline (unix (i_now i))) as [|Hin]; cbn [orb]; try exact Hstop.
  destruct (if empty (TrimSpace (a_VerificationOwner a)) then i_owner i else _) as [owner|]; [|exact Hstop].
  destruct (i_random i) as [b|]; [|exact Hstop]. destruct (empty owner || _); [exact Hstop|]. destruct (Hb b eq_refl) as [Hl Hby].
  set (p := make_pending _ _ _ _ _). pose proof (make_pending_valid (i_verified i) (observe cfg (i_verified i) (i_page i) (i_answer i)) b Hl Hby) as Hv.
  fold p in Hv. destruct (savePendingReveal _ _ _ _ _) as [fs'|] eqn:Esave; [|exact Hstop].
  apply saved in Esave as ->; [|done]. destruct Ho as [H1 H2 H3 H4 H5 H6]. assert (o = None) as ->.
  { destruct o as [q|]; [|done]. specialize (H3 ltac:(eauto) (H4 eq_refl)). pose proof (unix_mono c (i_now i) ltac:(lia)). lia. }
  exists (Some (core p)). split; [by intros [? [=]]|]. split; [|done]. split; try done.
  - intros q. rewrite lookup_insert_eq. by intros [= <-].
  - intros q [= <-]. done.
  - intros _. by rewrite lookup_insert_eq.
  - intros _. apply H6. by left.
Qed.

Lemma load_once o c i fs : once o c Starting fs → c ≤ i_now i ≤ i_later i →
  let '(st', fs', sent) := agent_step cfg a i Starting fs in once o (i_later i) st' fs' ∧ sent = [].
Proof.
  intros Ho Hc. cbn [agent_step]. destruct (once_stop o c (i_later i) Starting fs ltac:(lia) Ho) as [Hfin _].
  destruct (Z.leb_spec (a_DeadlineUnix a) deadline) as [|Hopen]; [done|]. destruct (Z.ltb_spec (a_DeadlineUnix a) (unix (i_now i))) as [Hlate|_].
  { split; [|done]. apply (once_delete o c _ Starting); [|done]. pose proof (unix_mono (i_now i) (i_later i) ltac:(lia)). lia. }
  unfold pendingRevealForAssignment. rewrite has_path. cbn [mbind option_bind]. destruct Hfin as [H1 H2 H3 H4 H5 H6].
  destruct (fs !! path) as [q|] eqn:Ef.
  2:{ split; [|done]. split; rewrite ?Ef; done. }
  destruct (validateForAssignment q a (ag_VerifierAddress cfg)) as [[]|] eqn:Ev; cbn [mbind result_bind]; [|split; [split; rewrite ?Ef; done|done]].
  split; [|done]. split; rewrite ?Ef; try done. intros p [= <-]. split; [by apply H1|done].
Qed.

Lemma valid_recorded p : valid p → valid (recorded p).
Proof. done. Qed.

(** One step keeps to the result, once it is chosen, and sends nothing else. *)
Lemma step_once o c i st fs : once o c st fs → c ≤ i_now i ≤ i_later i → (∀ b, i_random i = Some b → length b = 16%nat ∧ bytes b) →
  (match st with Waiting _ => i_slept i = true → i64 (deadline + 6) * second ≤ i_now i | _ => True end) →
  let '(st', fs', sent) := agent_step cfg a i st fs in ∃ o', settled_on o o' ∧ once o' (i_later i) st' fs' ∧ sent_ok o' sent.
Proof.
  intros Ho Hc Hb Hs. destruct (once_stop o c (i_later i) st fs ltac:(lia) Ho) as [Hfin _]. pose proof (unix_mono (i_now i) (i_later i) ltac:(lia)) as Hu.
  assert (settled_on o o) as Hoo by by intros ?. assert (sent_ok o []) as Hnil by constructor. destruct st as [| |p|p|p|p|].
  - pose proof (load_once o c i fs Ho Hc) as Hl. destruct (agent_step cfg a i Starting fs) as [[st' fs'] sent]. destruct Hl as [? ->]. eauto.
  - pose proof (fresh_once o c i fs Ho Hc Hb) as Hl. cbn [agent_step]. destruct (fresh_step cfg a i fs) as [[st' fs'] sent]. destruct Hl as (o' & ? & ? & ->).
    exists o'. split_and!; [done..|constructor].
  - cbn [agent_step]. exists o. split_and!; [done| |done]. destruct (on_held _ _ _ _ Ho p eq_refl) as [_ Hv].
    destruct (_ && _); (eapply (once_move o c _ (Ready p) _ p p fs fs); [lia|done..|by left|done]).
  - destruct (on_held _ _ _ _ Ho p eq_refl) as [Hop Hv]. assert (sent_ok o [ACommit (pr_CommitHash p)]) as Hsent by (repeat constructor; by exists (core p)).
    cbn [agent_step]. destruct (tx_done _ _).
    + destruct (savePendingReveal _ _ _ _ _) as [fs'|] eqn:Es; [|by exists o]. apply saved in Es as ->; [|by apply (valid_key p)]. exists o. split_and!; [done| |done].
      eapply (once_move o c _ (Committing p) _ p (recorded p)); [lia|done|done|done|done|by apply valid_recorded| |done]. right. eexists. apply lookup_insert_eq.
    + destruct (_ && _ && _); [|by exists o]. exists o. split_and!; [done| |done].
      eapply (once_move o c _ (Committing p) _ p p fs fs); [lia|done..|by left|done].
  - destruct (on_held _ _ _ _ Ho p eq_refl) as [_ Hv]. cbn [agent_step]. destruct (i_slept i); cbn [negb]; [|by exists o].
    specialize (Hs eq_refl). assert (deadline < unix (i_now i)) as Hlate.
    { pose proof (swrap_range 64 (a_StartAtUnix a + ag_CommitWindowSeconds cfg) ltac:(done)) as Hr. fold (i64 (a_StartAtUnix a + ag_CommitWindowSeconds cfg)) in Hr.
      fold deadline in Hr. unfold in_s in Hr. assert (i64 (deadline + 6) = deadline + 6) as Ei by (apply swrap_small; [done|unfold in_s; lia]). rewrite Ei in Hs.
      enough (deadline + 6 ≤ unix (i_now i)) by lia. apply Z.div_le_lower_bound; [done|]. unfold second in *. lia. }
    destruct (_ <? _); exists o.
    + split_and!; [done| |done]. apply (once_delete o c _ (Waiting p)); [lia|done].
    + split_and!; [done| |done]. eapply (once_move o c _ (Waiting p) _ p p fs fs); [lia|done..|by left|]. intros r _. lia.
  - destruct (on_held _ _ _ _ Ho p eq_refl) as [Hop Hv]. assert (sent_ok o [AReveal p]) as Hsent by (by repeat constructor).
    assert (deadline < unix (i_later i)) as Hlate by (pose proof (on_late _ _ _ _ Ho p eq_refl); pose proof (unix_mono c (i_later i) ltac:(lia)); lia).
    pose proof (once_delete o c (i_later i) (Revealing p) fs Hlate Ho) as Hdel. cbn [agent_step]. destruct (tx_done _ _); [exists o; by split_and!|].
    destruct (_ && _ && _); exists o.
    + split_and!; [done| |done]. eapply (once_move o c _ (Revealing p) _ p p fs fs); [lia|done..|by left|]. intros r _. lia.
    + destruct (negb _ || _); by split_and!.
  - by exists o.
Qed.

Lemma sent_ok_later o o' l : settled_on o o' → sent_ok o l → sent_ok o' l.
Proof. intros Hs Hl. eapply list.Forall_impl; [exact Hl|]. intros [h|p]; [intros (q & -> & ?)|intros [-> ?]]; rewrite (Hs ltac:(eauto)); eauto. Qed.

Lemma run_once l o c st fs : once o c st fs → clocked cfg a c l st fs → ∃ o', settled_on o o' ∧ sent_ok o' (agent_run cfg a l st fs).2.
Proof.
  revert o c st fs. induction l as [|[i|] l IH]; intros o c st fs Ho Hl; cbn [agent_run clocked] in *.
  - exists o. split; [by intros ?|constructor].
  - destruct Hl as (Hc & Hs & Hb & Hl). pose proof (step_once o c i st fs Ho Hc Hb Hs) as H1. destruct (agent_step cfg a i st fs) as [[st' fs'] sent].
    destruct H1 as (o1 & Ho1 & Hon & Hsent). destruct (IH o1 _ st' fs' Hon Hl) as (o2 & Ho2 & Hrest). destruct (agent_run cfg a l st' fs') as [[st2 fs2] rest].
    cbn [snd] in *. exists o2. split; [intros Hi; rewrite <- (Ho1 Hi); apply Ho2; by rewrite (Ho1 Hi)|]. apply Forall_app_2; [by apply (sent_ok_later o1)|done].
  - apply (IH o c); [|done]. by destruct (once_stop o c c st fs ltac:(lia) Ho).
Qed.
End Once.
