(* ===== verification/AgentProps.v ===== *)
(** The theorems on the verifier's daemon: it commits once and reveals what it committed
    to, and the chain accepts both messages; and an answer of the indexer for which it
    builds a reveal that the chain rejects. *)

From S2P Require Import Prelude JsBase GoBase GoHash Market MarketProofs GoSdk Tokenomics Verifiers RegParams Verification VerificationProofs BankFrame ChainInv Rounds RoundProofs Rewards RewardProofs RoundSteps RoundInv Chain FinalizeTotal AssignTotal Agent AgentProofs.

Section Messages.
Context `{GoEnv} `{UrlHost} (cfg : AgentConfig).

Lemma blank_unless s : blank (unless_blank s) = blank s.
Proof. unfold unless_blank. destruct (blank s) eqn:E; [reflexivity|exact E]. Qed.

Lemma trim_unless s : TrimSpace (unless_blank s) = TrimSpace s.
Proof. unfold unless_blank, blank. destruct (TrimSpace s) eqn:E; [reflexivity|exact E]. Qed.

(** The checks of a saved result, spelt out. *)
Lemma valid_parts p a v : validateForAssignment p a v = Ok tt →
  pr_Domain p = a_Domain a ∧ pr_RoundStartUnix p = a_RoundStartUnix a ∧ TrimSpace (pr_Verifier p) = TrimSpace v ∧
  (pending_evidence p = true → EqualFold (TrimSpace (pr_EvidenceHash p)) (pending_evidence_hash p) = true) ∧
  TrimSpace (pr_VerificationOwner p) = TrimSpace (a_VerificationOwner a) ∧
  EqualFold (TrimSpace (pr_CommitHash p))
    (commit_hash_of a (pr_Domain p) (pr_RoundStartUnix p) (pr_Verifier p) (pr_Passed p) (pr_EvidenceHash p) (pr_Nonce p)) = true.
Proof.
  intros Hv%first_error_ok. repeat (apply Forall_cons_1 in Hv as [? Hv]). cbn [fst] in *. zb.
  repeat match goal with E : bool_decide _ = true |- _ => apply bool_decide_eq_true in E | E : negb _ = false |- _ => apply negb_false_iff in E end. split_and!; try done.
  intros E. match goal with Hb : pending_evidence p && _ = false |- _ => rewrite E in Hb; cbn [andb] in Hb; by apply negb_false_iff in Hb end.
Qed.

(** The evidence hash of the message is that of the result. *)
Lemma reveal_evidence p : (pending_evidence p = true → EqualFold (TrimSpace (pr_EvidenceHash p)) (pending_evidence_hash p) = true) →
  ∀ a, resolveHash (fl_similar (reveal_flags a p)) (fl_evidenceHash (reveal_flags a p)) = TrimSpace (pr_EvidenceHash p).
Proof.
  intros He a. unfold reveal_flags, resolveHash. cbn [fl_similar fl_evidenceHash ef_observed ef_matched ef_expected ef_expectedSetHash ef_observedSetHash].
  rewrite trim_unless. unfold HasVerificationEvidence. rewrite !blank_unless. fold (HasVerificationEvidence (pr_ObservedSimilarDomains p)
    (pr_MatchedSimilarDomains p) (pr_ExpectedSimilarDomains p) (pr_ExpectedSetHash p) (pr_ObservedSetHash p)). fold (pending_evidence p).
  destruct (pending_evidence p); [|by rewrite orb_true_r]. specialize (He eq_refl). destruct (TrimSpace (pr_EvidenceHash p)) eqn:E; [|done].
  unfold EqualFold in He. apply bool_decide_eq_true in He. unfold pending_evidence_hash, ComputeVerificationEvidenceHash in He.
  match type of He with _ = ascii_lower <$> EncodeToString (Sum256 ?m) => destruct (hash_text m) as [_ Hn]; by destruct (EncodeToString (Sum256 m)) end.
Qed.

(** The message of a reveal. *)
Definition reveal_message (from : gostr) (a : Assignment) (p : pendingReveal) : MsgReveal :=
  {| mv_Verifier := from; mv_Domain := a_Domain a; mv_RoundStartUnix := a_RoundStartUnix a; mv_Passed := pr_Passed p;
     mv_EvidenceHash := resolveHash (fl_similar (reveal_flags a p)) (fl_evidenceHash (reveal_flags a p)); mv_Nonce := pr_Nonce p;
     mv_VerificationOwner := TrimSpace (pr_VerificationOwner p); mv_ObservedSimilarDomains := pr_ObservedSimilarDomains p;
     mv_MatchedSimilarDomains := pr_MatchedSimilarDomains p; mv_ExpectedSimilarDomains := pr_ExpectedSimilarDomains p;
     mv_ExpectedSetHash := unless_blank (pr_ExpectedSetHash p); mv_ObservedSetHash := unless_blank (pr_ObservedSetHash p) |}.

Lemma submitReveal_is from a p : NormalizeDomain (a_Domain a) = a_Domain a → a_RoundStartUnix a ≠ 0 → submitReveal from a p =
  (guard_err (empty (pr_Nonce p)) (Errorf "--nonce required");; domain_arg (a_Domain a);; Reveal_ValidateBasic (reveal_message from a p);; Ok (reveal_message from a p)).
Proof.
  intros Hd Hr. unfold submitReveal, verifierRevealCmd. cbn [reveal_flags fl_passed fl_failed fl_nonce fl_roundStart fl_verificationOwner fl_similar].
  assert (Bool.eqb (pr_Passed p) (negb (pr_Passed p)) = false) as -> by by destruct (pr_Passed p). cbn [guard_err mbind result_bind].
  destruct (guard_err _ _) as [[]|]; cbn [mbind result_bind]; [|done]. unfold domain_arg. rewrite Hd. destruct (empty (a_Domain a)); cbn [guard_err mbind result_bind]; [done|].
  destruct (negb (IsDomainFormatValid (a_Domain a))); cbn [guard_err mbind result_bind]; [done|]. unfold resolve_round.
  destruct (Z.eqb_spec (a_RoundStartUnix a) 0); [done|]. reflexivity.
Qed.

(** What the chain computes from the message is what the result was committed to. *)
Lemma reveal_opens from a p : TrimSpace from = TrimSpace (ag_VerifierAddress cfg) → NormalizeDomain (a_Domain a) = a_Domain a →
  validateForAssignment p a (ag_VerifierAddress cfg) = Ok tt → expected_hash (reveal_message from a p) a = Ok (ToLower (TrimSpace (pr_CommitHash p))).
Proof.
  intros Hf Hd Hv. apply valid_parts in Hv as (Ed & Er & Ev & He & Eo & Ec). destruct (commit_hash_is a (pr_Domain p) (pr_RoundStartUnix p) (pr_Verifier p)
    (pr_Passed p) (pr_EvidenceHash p) (pr_Nonce p)) as [m Em]. rewrite Em in Ec. apply fold_hash in Ec. rewrite Ec, <- Em. clear Em Ec m.
  unfold expected_hash, commit_hash_of, ComputeVerificationCommitHashV2, ComputeVerificationCommitHash. cbn [reveal_message mv_Verifier mv_Domain mv_RoundStartUnix
    mv_Passed mv_EvidenceHash mv_Nonce mv_VerificationOwner]. rewrite (reveal_evidence p He a), ?TrimSpace_idem, Eo, Ed, Er, Ev, Hf, Hd, ?TrimSpace_idem.
  destruct (TrimSpace (a_VerificationOwner a)) as [|c o] eqn:E; cbn [empty negb]; [done|]. rewrite bool_decide_eq_true_2 by done. cbn [negb guard_err mbind result_bind].
  rewrite <- E, ?TrimSpace_idem. done.
Qed.
End Messages.

(** * What the daemon observes *)

Section Evidence.
Context `{GoEnv} `{UrlHost} (cfg : AgentConfig).

Lemma overlap_bounds (a b : list gostr) : 0 ≤ overlapCount a b ≤ Z.of_nat (length b) ∧
  (NoDup (normalizeDomainOnly <$> b) → overlapCount a b ≤ Z.of_nat (length a)).
Proof.
  unfold overlapCount. pose proof (length_filter (λ y, normalizeDomainOnly y ∈ normalizeDomainOnly <$> a) b). split; [lia|]. intros Hn.
  rewrite <- (length_fmap normalizeDomainOnly a). set (f := filter _ b) in *. rewrite <- (length_fmap normalizeDomainOnly f).
  enough (length (normalizeDomainOnly <$> f) ≤ length (normalizeDomainOnly <$> a))%nat by lia. apply submseteq_length, NoDup_submseteq.
  - assert (f `sublist_of` b) as Hs by apply sublist_filter. eapply sublist_NoDup; [exact Hn|]. by apply fmap_sublist.
  - intros x (y & -> & [Hy _]%list_elem_of_filter)%list_elem_of_fmap. exact Hy.
Qed.

(** Counts in range, no host twice among the hits of the indexer, and a hash that is
    hexadecimal, where it gives one. *)
Definition answers_ok (page : option (list html_token)) (answer : option (list gostr * gostr)) : Prop :=
  (∀ pg, page = Some pg → Z.of_nat (length (parseObservedSimilarDomains pg)) < 2 ^ 31) ∧
  ∀ hits h, answer = Some (hits, h) → Z.of_nat (length (expected_similar hits h).1) < 2 ^ 31 ∧
    NoDup (normalizeDomainOnly <$> (expected_similar hits h).1) ∧ is_hex (TrimSpace h) = true.

(** Hexadecimal text that is there. *)
Definition some_hex (t : gostr) : Prop := is_hex t = true ∧ t ≠ [].

Lemma some_hex_blank t : some_hex t → blank t = false.
Proof. intros [Hx Hn]. unfold blank. rewrite (hex_clean t Hx). by destruct t. Qed.

Lemma hex_lower c : hex_char c = true → hex_char (ascii_lower c) = true ∧ 0 ≤ c < 128.
Proof.
  unfold hex_value, ascii_lower, is_digit. destruct (Z.leb_spec 48 c), (Z.leb_spec c 57), (Z.leb_spec 97 c), (Z.leb_spec c 102), (Z.leb_spec 65 c), (Z.leb_spec c 70),
    (Z.leb_spec c 90); cbn [andb]; try done; try lia; intros _; (split; [|lia]); repeat match goal with |- context [?x <=? ?y] => destruct (Z.leb_spec x y); try lia end; done.
Qed.

Lemma some_hex_lower t : some_hex t → some_hex (ToLower (TrimSpace t)).
Proof.
  intros [Hx Hn]. rewrite (hex_clean t Hx). unfold is_hex in Hx. apply andb_true_iff in Hx as [Hl Hf%forallb_Forall].
  rewrite ToLower_ascii by (eapply list.Forall_impl; [exact Hf|]; intros c Hc; by destruct (hex_lower c Hc)). split; [|by destruct t].
  unfold is_hex. rewrite length_fmap, Hl. cbn [andb]. apply forallb_Forall, Forall_fmap. eapply list.Forall_impl; [exact Hf|]. intros c Hc. by destruct (hex_lower c Hc).
Qed.

Lemma hash_some_hex m : some_hex (EncodeToString (Sum256 m)).
Proof. exact (hash_text m). Qed.

(** Evidence that a reveal may carry. *)
Record evidence_ok (e : similarEvidenceFlags) : Prop := {
  eo_matched : 0 ≤ ef_matched e ≤ ef_observed e; eo_expected : ef_matched e ≤ ef_expected e;
  eo_expected_hash : ef_expectedSetHash e = [] ∧ ef_expected e = 0 ∨ some_hex (ef_expectedSetHash e);
  eo_observed_hash : ef_observedSetHash e = [] ∧ ef_observed e = 0 ∨ some_hex (ef_observedSetHash e) }.

Lemma expected_hash_set hits h : is_hex (TrimSpace h) = true → some_hex (expected_similar hits h).2.
Proof.
  intros Hx. unfold expected_similar. cbn [snd]. destruct (TrimSpace h) as [|c t] eqn:E; cbn [empty]; [apply hash_some_hex|]. by split.
Qed.

Lemma observe_ok passed page answer : answers_ok page answer → evidence_ok (observe cfg passed page answer).
Proof.
  intros [Hp Ha]. unfold observe. assert (evidence_ok (mkEvidence 0 0 0 [] [])) as Hnone by (split; cbn; (lia || by left)).
  destruct (passed && _); [|done]. destruct page as [pg|]; [|done]. specialize (Hp pg eq_refl).
  assert (∀ n, 0 ≤ n < 2 ^ 31 → swrap 32 n = n) as Hw by (intros; apply swrap_small; [done|unfold in_s; lia]). cbv zeta. rewrite Hw by lia.
  destruct answer as [[hits h]|]; [|split; cbn; [lia|lia|by left|right; apply hash_some_hex]]. destruct (Ha hits h eq_refl) as (Hl & Hn & Hhex). pose proof (expected_hash_set hits h Hhex) as He.
  destruct (expected_similar hits h) as [expected setHash]. cbn [fst snd] in *. destruct (overlap_bounds (parseObservedSimilarDomains pg) expected) as [Hb Ho].
  specialize (Ho Hn). rewrite !Hw by lia. split; cbn; [lia|lia|by right|right; apply hash_some_hex].
Qed.
End Evidence.

(** * The chain accepts it *)

Lemma registered_host `{GoEnv} {B : Type} `{Bank B} (m : Store B) d : market_inv m → is_Some (websites m !! d) → domainRe d = true.
Proof.
  intros Hi [w Hw]. destruct (mi_websites m Hi d w Hw) as [<- Hv]. unfold ValidateWebsite in Hv. apply first_error_ok in Hv.
  repeat (apply Forall_cons_1 in Hv as [? Hv]). cbn in *. by zb.
Qed.

Lemma encode_length bs : length (EncodeToString bs) = (2 * length bs)%nat.
Proof. induction bs as [|b bs IH]; [done|]. change (EncodeToString (b :: bs)) with ([hex_digit (b / 16); hex_digit (b mod 16)] ++ EncodeToString bs). rewrite length_app, IH. cbn. lia. Qed.

Section Accepted.
Context `{GoEnv} `{UrlHost} {B : Type} `{Bank B} (cfg : AgentConfig) (a : Assignment) (v : gostr).
Abbreviation VStore := (VStore B).

(** The assignment is one of a registered domain, and [v] is a verifier of it. *)
Hypothesis normal : NormalizeDomain (a_Domain a) = a_Domain a.
Hypothesis host : domainRe (a_Domain a) = true.
Hypothesis stored : Assignment_ValidateBasic a = Ok tt.
Hypothesis assigned : assignmentHasVerifier a v = true.
Hypothesis address : addr_ok v = true ∧ TrimSpace v = v.

Lemma assignment_parts : 0 < a_RoundStartUnix a ∧ blank (a_Domain a) = false ∧
  negb (blank (a_VerificationOwner a)) && negb (addr_ok (TrimSpace (a_VerificationOwner a))) = false.
Proof. pose proof stored as Hv. apply first_error_ok in Hv. repeat (apply Forall_cons_1 in Hv as [? Hv]). cbn [fst] in *. split_and!; [|done|done]. zb. lia. Qed.

Lemma domain_arg_ok : domain_arg (a_Domain a) = Ok (a_Domain a).
Proof.
  unfold domain_arg, IsDomainFormatValid. rewrite !normal. destruct assignment_parts as (_ & Hb & _). destruct (a_Domain a) eqn:E; [by vm_compute in Hb|]. by rewrite host.
Qed.

Lemma submitCommit_ok m : submitCommit v a (EncodeToString (Sum256 m)) =
  Ok {| mk_Verifier := v; mk_Domain := a_Domain a; mk_RoundStartUnix := a_RoundStartUnix a; mk_CommitHash := EncodeToString (Sum256 m) |}.
Proof.
  destruct assignment_parts as (Hr & Hb & _). destruct (hash_text m) as [Hx Hn]. unfold submitCommit, verifierCommitCmd. rewrite domain_arg_ok. cbn [mbind result_bind].
  unfold resolve_round. cbn [commit_flags fl_roundStart fl_commitHash fl_verificationOwner]. destruct (Z.eqb_spec (a_RoundStartUnix a) 0); [lia|]. cbn [negb mbind result_bind].
  destruct (empty (EncodeToString (Sum256 m))) eqn:Ee; [by destruct (EncodeToString (Sum256 m))|]. cbn [mbind result_bind].
  unfold Commit_ValidateBasic, validateCommitHash. cbn [mk_Verifier mk_Domain mk_RoundStartUnix mk_CommitHash]. rewrite (hex_clean _ Hx), Ee, Hx, Hb.
  destruct address as [-> _]. destruct (Z.leb_spec (a_RoundStartUnix a) 0); [lia|]. rewrite encode_length. destruct (Sum256_spec m) as [-> _]. reflexivity.
Qed.

Lemma lower_hash m : ToLower (TrimSpace (EncodeToString (Sum256 m))) = EncodeToString (Sum256 m).
Proof. apply fold_hash, hash_folds. Qed.

(** The reveal of a result with proper evidence passes its checks. *)
Lemma reveal_message_ok passed e bs : v = ag_VerifierAddress cfg → evidence_ok e → bs ≠ [] → bytes bs →
  Reveal_ValidateBasic (reveal_message v a (make_pending cfg a passed e (EncodeToString bs))) = Ok tt.
Proof.
  intros Hv [He1 He2 He3 He4] Hn Hb. destruct assignment_parts as (Hr & Hd & Ho). destruct address as [Ha Ht].
  assert (unless_blank (ef_expectedSetHash e) = ef_expectedSetHash e) as Ux by (unfold unless_blank; by destruct He3 as [[-> _]|Hx3%some_hex_blank]; [|rewrite Hx3]).
  assert (unless_blank (ef_observedSetHash e) = ef_observedSetHash e) as Uo by (unfold unless_blank; by destruct He4 as [[-> _]|Hx4%some_hex_blank]; [|rewrite Hx4]).
  set (p := make_pending cfg a passed e (EncodeToString bs)).
  assert (pending_evidence p = true → EqualFold (TrimSpace (pr_EvidenceHash p)) (pending_evidence_hash p) = true) as Hev.
  { unfold pending_evidence. cbn [p make_pending pr_ObservedSimilarDomains pr_MatchedSimilarDomains pr_ExpectedSimilarDomains pr_ExpectedSetHash pr_ObservedSetHash pr_EvidenceHash].
    intros ->. apply hash_folds. }
  apply first_error_ok. unfold reveal_message. repeat apply Forall_cons_2; try apply Forall_nil_2; cbn [fst mv_Verifier mv_Domain mv_RoundStartUnix mv_Passed mv_EvidenceHash
    mv_Nonce mv_VerificationOwner mv_ObservedSimilarDomains mv_MatchedSimilarDomains mv_ExpectedSimilarDomains mv_ExpectedSetHash mv_ObservedSetHash].
  - by rewrite Ha.
  - done.
  - by apply Z.leb_gt.
  - by apply encode_not_blank.
  - unfold blank in *. cbn [p make_pending pr_VerificationOwner]. by rewrite !TrimSpace_idem.
  - cbn [p make_pending pr_ObservedSimilarDomains pr_MatchedSimilarDomains pr_ExpectedSimilarDomains]. rewrite !orb_false_iff, !Z.ltb_ge. lia.
  - apply Z.ltb_ge. cbn. lia.
  - apply Z.ltb_ge. cbn. lia.
  - cbn [p make_pending pr_ExpectedSimilarDomains pr_ExpectedSetHash]. rewrite Ux. destruct He3 as [[_ ->]| ->%some_hex_blank]; [done|apply andb_false_r].
  - cbn [p make_pending pr_ObservedSimilarDomains pr_ObservedSetHash]. rewrite Uo. destruct He4 as [[_ ->]| ->%some_hex_blank]; [done|apply andb_false_r].
  - rewrite (reveal_evidence p Hev a). cbn [p make_pending pr_ExpectedSetHash pr_ObservedSetHash] in *. rewrite Ux, Uo. fold p.
    change (HasVerificationEvidence _ _ _ _ _) with (pending_evidence p). change (ComputeVerificationEvidenceHash _ _ _ _ _) with (pending_evidence_hash p).
    destruct (pending_evidence p); [|done]. specialize (Hev eq_refl). rewrite TrimSpace_idem. apply fold_hash in Hev.
    fold (pending_evidence_hash p) in Hev. rewrite bool_decide_eq_true_2; done.
Qed.

Lemma commit_accepted params now (s : VStore) m : assignments s !! assignmentKey (a_RoundStartUnix a) (a_Domain a) = Some a → a_Finalized a = false →
  a_StartAtUnix a ≤ now ≤ i64 (a_StartAtUnix a + p_CommitWindowSeconds params) →
  GetCommit (a_RoundStartUnix a) (a_Domain a) v s = None → GetSubmission (a_RoundStartUnix a) (a_Domain a) v s = None →
  ∃ s1, SubmitVerificationCommit params now {| mk_Verifier := v; mk_Domain := a_Domain a; mk_RoundStartUnix := a_RoundStartUnix a;
      mk_CommitHash := EncodeToString (Sum256 m) |} s = Ok s1 ∧ GetCommit (a_RoundStartUnix a) (a_Domain a) v s1 = Some (EncodeToString (Sum256 m)).
Proof.
  intros Hs Hf Hn Hc Hb. unfold SubmitVerificationCommit. cbn [mk_Verifier mk_Domain mk_RoundStartUnix mk_CommitHash]. rewrite !normal. unfold GetAssignment. rewrite normal, Hs.
  rewrite Hf, assigned, Hc, Hb, lower_hash. cbn [guard_err mbind result_bind negb]. destruct (Z.ltb_spec now (a_StartAtUnix a)); [lia|].
  destruct (Z.ltb_spec (i64 (a_StartAtUnix a + p_CommitWindowSeconds params)) now); [lia|]. rewrite !bool_decide_eq_false_2 by (by intros [? [=]]).
  cbn [orb guard_err mbind result_bind]. eexists. split; [done|]. unfold GetCommit, SetCommit. cbn [commits set_commits]. rewrite normal, lookup_insert_eq.
  destruct (hash_text m) as [_ Hne]. by destruct (EncodeToString (Sum256 m)).
Qed.

(** The reveal of a result [p] of which the chain has the commitment. *)
Lemma reveal_accepted params now (s : VStore) p m : assignments s !! assignmentKey (a_RoundStartUnix a) (a_Domain a) = Some a → a_Finalized a = false →
  GetCommit (a_RoundStartUnix a) (a_Domain a) v s = Some (EncodeToString (Sum256 m)) → GetSubmission (a_RoundStartUnix a) (a_Domain a) v s = None → 0 < now →
  i64 (a_StartAtUnix a + p_CommitWindowSeconds params) < now ≤ a_DeadlineUnix a →
  Reveal_ValidateBasic (reveal_message v a p) = Ok tt → expected_hash (reveal_message v a p) a = Ok (EncodeToString (Sum256 m)) →
  mv_ExpectedSimilarDomains (reveal_message v a p) = 0 ∨ some_hex (mv_ExpectedSetHash (reveal_message v a p)) →
  mv_ObservedSimilarDomains (reveal_message v a p) = 0 ∨ some_hex (mv_ObservedSetHash (reveal_message v a p)) → v ≠ [] →
  ∃ x s3, RevealVerification params now (reveal_message v a p) s = Ok (x, s3) ∧ GetSubmission (a_RoundStartUnix a) (a_Domain a) v s3 = Some x ∧
    b_Passed x = pr_Passed p ∧ b_ObservedSimilarDomains x = pr_ObservedSimilarDomains p ∧ b_MatchedSimilarDomains x = pr_MatchedSimilarDomains p ∧
    b_ExpectedSimilarDomains x = pr_ExpectedSimilarDomains p.
Proof.
  intros Hs Hf Hc Hb Hpos Hn HV HE Hx Ho Hv. unfold RevealVerification. rewrite HV. set (M := reveal_message v a p) in *. cbn [mbind result_bind].
  change (mv_Domain M) with (a_Domain a). change (mv_RoundStartUnix M) with (a_RoundStartUnix a). change (mv_Verifier M) with v. rewrite !normal.
  unfold GetAssignment. rewrite normal, Hs, Hf, assigned, Hc, Hb, HE. cbn [guard_err mbind result_bind negb].
  destruct (Z.leb_spec now (i64 (a_StartAtUnix a + p_CommitWindowSeconds params))); [lia|]. destruct (Z.ltb_spec (a_DeadlineUnix a) now); [lia|].
  rewrite (bool_decide_eq_false_2 (is_Some None)) by (by intros [? [=]]). cbn [guard_err mbind result_bind]. rewrite bool_decide_eq_true_2.
  2:{ pose proof (lower_hash m) as Hl. destruct (hash_text m) as [Hhex _]. by rewrite (hex_clean _ Hhex) in Hl. }
  cbn [negb guard_err mbind result_bind]. unfold SetSubmission. set (x := mkSubmission _ _ _ _ _ _ _ _ _ _ _ _).
  assert (with_b_domain (NormalizeDomain (b_Domain x)) x = x) as Ex by (unfold with_b_domain, x; cbn; by rewrite normal). rewrite Ex.
  assert (Submission_ValidateBasic x = Ok tt) as ->.
  { apply first_error_ok in HV. repeat (apply Forall_cons_1 in HV as [? HV]). unfold Submission_ValidateBasic. apply first_error_ok.
    destruct address as [Ha Ht]. destruct assignment_parts as (Hr & Hd & _).
    repeat apply Forall_cons_2; try apply Forall_nil_2; unfold x; cbn [fst b_RoundStartUnix b_Domain b_Verifier b_ObservedAtUnix b_LatencyMs b_SubmittedAtUnix
      b_ObservedSimilarDomains b_MatchedSimilarDomains b_ExpectedSimilarDomains b_ExpectedSetHash b_ObservedSetHash] in *; try done; try (apply Z.leb_gt; lia).
    - unfold blank. rewrite Ht. by destruct v.
    - by rewrite Ht, Ha.
    - destruct Hx as [->|Hx%some_hex_lower%some_hex_blank]; [done|]. rewrite Hx. apply andb_false_r.
    - destruct Ho as [->|Ho%some_hex_lower%some_hex_blank]; [done|]. rewrite Ho. apply andb_false_r. }
  cbn [mbind result_bind]. eexists x, _. split; [done|]. split; [|done]. unfold GetSubmission, DeleteCommit. cbn [submissions set_commits set_submissions]. rewrite normal.
  apply lookup_insert_eq.
Qed.
End Accepted.

Section Theorems.
Context `{GoEnv} `{UrlHost}.

(** The daemon never commits to two results.  Whatever runs for an
    assignment follow each other, after crashes, failed transactions and failed writes,
    and whatever is observed in each, all commit transactions they send carry one and
    the same hash, and every result they reveal, as the chain reads it from the reveal
    message, hashes to it. *)
Theorem agent_commits_once cfg a from path clock l fs : pendingRevealPathForKey cfg (agentKey a) = Some path →
  commitDeadlineUnix cfg a + 6 < 2 ^ 63 → NormalizeDomain (a_Domain a) = a_Domain a → a_RoundStartUnix a ≠ 0 →
  TrimSpace from = TrimSpace (ag_VerifierAddress cfg) → clocked cfg a clock l Starting fs →
  ∃ h, (∀ x, ACommit x ∈ (agent_run cfg a l Starting fs).2 → x = h) ∧
    ∀ p, AReveal p ∈ (agent_run cfg a l Starting fs).2 → pr_CommitHash p = h ∧
      ∀ m, submitReveal from a p = Ok m → expected_hash m a = Ok (ToLower (TrimSpace h)).
Proof.
  intros Hp Ht Hd Hr Hf Hl. destruct (run_once cfg a path Hp Ht l (core <$> fs !! path) clock Starting fs) as (o & _ & Hs); [|done|].
  { split; try done; [intros q Hq; by rewrite Hq|intros [q Hq] Hn; by rewrite Hn in Hq|by intros [?|[? ?]]]. }
  unfold sent_ok in Hs. rewrite list.Forall_forall in Hs. exists (default [] (pr_CommitHash <$> o)). split.
  - intros x Hx. by destruct (Hs _ Hx) as (p & -> & ->).
  - intros p Hx. destruct (Hs _ Hx) as [-> Hv]. split; [done|]. intros m Hm. rewrite submitReveal_is in Hm by done. run_ok Hm. injection Hm as <-.
    by apply (reveal_opens cfg).
Qed.

(** C19 (functional).  What the daemon sends is accepted.  For an open assignment of a
    registered domain, the result it builds from what it observed, with an indexer that
    names no host twice, gives a commit message that the chain takes in the commit
    window; and in any later state in which that commitment stands, and nothing was
    submitted, the reveal message is taken after the window and up to the deadline, and
    the submission has the result and the counts that were observed. *)
Theorem agent_messages_accepted {B : Type} `{Bank B} cfg params a v passed page answer bs now (s : VStore B) : chain_inv s →
  assignments s !! assignmentKey (a_RoundStartUnix a) (a_Domain a) = Some a → Assignment_ValidateBasic a = Ok tt → a_Finalized a = false →
  v ∈ a_Verifiers a → v = ag_VerifierAddress cfg → addr_ok v = true → TrimSpace v = v → v ≠ [] → answers_ok page answer → length bs = 16%nat →
  Forall (λ b, 0 ≤ b < 256) bs → a_StartAtUnix a ≤ now ≤ i64 (a_StartAtUnix a + p_CommitWindowSeconds params) →
  GetCommit (a_RoundStartUnix a) (a_Domain a) v s = None → GetSubmission (a_RoundStartUnix a) (a_Domain a) v s = None →
  let e := observe cfg passed page answer in
  let r := make_pending cfg a passed e (EncodeToString bs) in
  ∃ m s1, submitCommit v a (pr_CommitHash r) = Ok m ∧ SubmitVerificationCommit params now m s = Ok s1 ∧
  ∀ later (s2 : VStore B), assignments s2 !! assignmentKey (a_RoundStartUnix a) (a_Domain a) = Some a →
    GetCommit (a_RoundStartUnix a) (a_Domain a) v s2 = GetCommit (a_RoundStartUnix a) (a_Domain a) v s1 →
    GetSubmission (a_RoundStartUnix a) (a_Domain a) v s2 = None →
    0 < later → i64 (a_StartAtUnix a + p_CommitWindowSeconds params) < later ≤ a_DeadlineUnix a →
    ∃ m' x s3, submitReveal v a r = Ok m' ∧ RevealVerification params later m' s2 = Ok (x, s3) ∧
      GetSubmission (a_RoundStartUnix a) (a_Domain a) v s3 = Some x ∧ b_Passed x = passed ∧
      b_ObservedSimilarDomains x = ef_observed e ∧ b_MatchedSimilarDomains x = ef_matched e ∧ b_ExpectedSimilarDomains x = ef_expected e.
Proof.
  intros Hi Hs Hv Hfin Hin Hcfg Hok Htrim Hvn Hans Hlen Hby Hnow Hc Hb e r.
  destruct (ci_assignments s Hi _ _ Hs) as (_ & _ & Hpos & Hsite). pose proof (stored_domain_normal _ _ (ci_market s Hi) Hsite) as Hnorm.
  pose proof (registered_host _ _ (ci_market s Hi) Hsite) as Hhost.
  assert (assignmentHasVerifier a v = true) as Hhas by (apply existsb_exists; exists v; rewrite bool_decide_eq_true_2 by done; by rewrite <- list_elem_of_In).
  pose proof (observe_ok cfg passed page answer Hans) as He. fold e in He. assert (bs ≠ []) as Hbs by by intros ->.
  pose proof (make_pending_valid cfg a passed e bs Hlen Hby) as Hval. fold r in Hval.
  destruct (commit_hash_is a (pr_Domain r) (pr_RoundStartUnix r) (pr_Verifier r) (pr_Passed r) (pr_EvidenceHash r) (pr_Nonce r)) as [hm Hhm].
  change (commit_hash_of _ _ _ _ _ _ _) with (pr_CommitHash r) in Hhm.
  pose proof (reveal_message_ok cfg a v Hv (conj Hok Htrim) passed e bs Hcfg He Hbs Hby) as Hbasic. fold r in Hbasic.
  pose proof (reveal_opens cfg v a r ltac:(by rewrite Hcfg) Hnorm Hval) as Hopen. rewrite Hhm, lower_hash in Hopen.
  destruct (commit_accepted a v Hnorm Hhas params now s hm Hs Hfin Hnow Hc Hb) as (s1 & E1 & G1).
  eexists _, s1. rewrite Hhm. split; [by apply submitCommit_ok|]. split; [exact E1|]. intros later s2 Hs2 Hc2 Hb2 Hl0 Hl. rewrite G1 in Hc2.
  destruct (reveal_accepted a v Hnorm Hv Hhas (conj Hok Htrim) params later s2 r hm Hs2 Hfin Hc2 Hb2 Hl0 Hl Hbasic Hopen) as (x & s3 & E3 & G3 & Hx); [..|done|].
  - destruct (eo_expected_hash e He) as [[_ Hz]|Hz]; [by left|right]. cbn [reveal_message mv_ExpectedSetHash r make_pending pr_ExpectedSetHash]. unfold unless_blank.
    by rewrite (some_hex_blank _ Hz).
  - destruct (eo_observed_hash e He) as [[_ Hz]|Hz]; [by left|right]. cbn [reveal_message mv_ObservedSetHash r make_pending pr_ObservedSetHash]. unfold unless_blank.
    by rewrite (some_hex_blank _ Hz).
  - exists (reveal_message v a r), x, s3. split; [|split_and!; [exact E3|exact G3|apply Hx..]]. rewrite submitReveal_is by (done || lia).
    rewrite (domain_arg_ok a Hnorm Hhost Hv), Hbasic. cbn [r make_pending pr_Nonce]. destruct (EncodeToString bs) eqn:En; [|reflexivity].
    pose proof (encode_length bs) as Hle. rewrite En, Hlen in Hle. discriminate Hle.
Qed.
End Theorems.
