(* ===== verification/Relay.v ===== *)
(** The relay of drand beacons by the verifier's daemon: who of the active verifiers sends
    the beacon of a round and when ([src/offchain/verifierd/drand.go], the list of
    candidates of [chain_client.go]), the command it runs
    ([src/cmd/content-grid-d/registry_cli.go]), and what the daemon reports of itself
    ([health.go]).  The answers of the chain, of the drand service and of the clock are
    inputs. *)

From stdpp Require Import sorting.
From S2P Require Import Prelude JsBase GoBase GoHash Market GoSdk Verifiers RegParams Verification Rounds Agent.

(** * Candidates *)

Record drandRelayCandidate := mkCandidate { rc_Address : gostr; rc_BondAmount : gostr }.

(** [big.Int.SetString] in base ten: a sign, if any, and digits up to the end. *)
Definition SetString10 (s : gostr) : option Z :=
  let '(sign, ds) := match s with
                     | 45 :: r => (-1, r)
                     | 43 :: r => (1, r)
                     | _ => (1, s)
                     end in
  if empty ds || negb (forallb is_digit ds) then None else Some (sign * dec_val ds).

(** [Verifier.ToProto]: the address, the text of the bond and the status. *)
Definition Verifier_ToProto (v : Verifier) : drandRelayCandidate * Z := (mkCandidate (v_Address v) (FormatInt (c_Amount (v_Bond v))), v_Status v).

Definition candidate_le (a b : drandRelayCandidate) : Prop := str_le (rc_Address a) (rc_Address b).
#[export] Instance candidate_le_dec a b : Decision (candidate_le a b).
Proof. unfold candidate_le. apply _. Defined.

(** The answer of the chain, [resp], is every bonded verifier. *)
Definition ActiveVerifierRelayCandidates (resp : list (drandRelayCandidate * Z)) : list drandRelayCandidate :=
  merge_sort candidate_le (omap (λ e,
    if negb (e.2 =? VerifierStatusActive) then None
    else
      let addr := TrimSpace (rc_Address e.1) in
      if empty addr then None else Some (mkCandidate addr (TrimSpace (rc_BondAmount e.1)))) resp).
Definition ActiveVerifierAddresses (resp : list (drandRelayCandidate * Z)) : list gostr := rc_Address <$> ActiveVerifierRelayCandidates resp.

(** * Ranks *)

(** The loop over the active verifiers: an address counts once, with the first bond it
    is listed with; what is no positive number weighs one. *)
Definition add_candidate (pool : list (gostr * Z)) (entry : drandRelayCandidate) : list (gostr * Z) :=
  let address := TrimSpace (rc_Address entry) in
  if empty address || bool_decide (address ∈ pool.*1) then pool
  else
    let weight := match SetString10 (TrimSpace (rc_BondAmount entry)) with
                  | Some w => if w <=? 0 then 1 else w
                  | None => 1
                  end in
    pool ++ [(address, weight)].
Definition relay_pool (active : list drandRelayCandidate) : list (gostr * Z) := merge_sort entry_le (foldl add_candidate [] active).

Definition primary_index (round : Z) (candidates : list (gostr * Z)) : nat :=
  let pick := be_val (Sum256 (go "content-grid/drand-relay/v2/primary" ++ be_bytes 8 round)) mod total_weight candidates in
  picked_idx pick 0 candidates.

Definition fallback_score (round : Z) (address : gostr) : list Z := Sum256 (go "content-grid/drand-relay/v2/fallback" ++ be_bytes 8 round ++ address).

(** By score, then by address. *)
Definition fallback_le (a b : gostr * list Z) : Prop := (if bool_decide (a.2 = b.2) then key_leb a.1 b.1 else key_leb a.2 b.2) = true.
#[export] Instance fallback_le_dec a b : Decision (fallback_le a b).
Proof. unfold fallback_le. apply _. Defined.

Definition relay_fallbacks (round : Z) (primaryIndex : nat) (candidates : list (gostr * Z)) : list (gostr * list Z) :=
  merge_sort fallback_le ((λ e, (e.1, fallback_score round e.1)) <$> delete primaryIndex candidates).

Definition drandRelayRank (round : Z) (verifier : gostr) (active : list drandRelayCandidate) : result err (Z * Z) :=
  let verifier := TrimSpace verifier in
  guard_err ((round =? 0) || empty verifier) (Errorf "drand relay round and verifier required");;
  let candidates := relay_pool active in
  guard_err (match candidates with [] => true | _ => false end) (Errorf "no active verifiers available for drand relay");;
  guard_err (negb (bool_decide (verifier ∈ candidates.*1))) (Errorf "verifier is not active and cannot relay drand");;
  let totalCandidates := Z.of_nat (length candidates) in
  let primaryIndex := primary_index round candidates in
  if bool_decide (fst <$> candidates !! primaryIndex = Some verifier) then Ok (0, totalCandidates)
  else
    match list_find (λ e, e.1 = verifier) (relay_fallbacks round primaryIndex candidates) with
    | Some (i, _) => Ok (Z.of_nat i + 1, totalCandidates)
    | None => Err (Errorf "verifier relay rank unavailable")
    end.

Definition drandRelayDelaySeconds (rank staggerSeconds maxDelaySeconds : Z) : Z :=
  if (rank <=? 0) || (staggerSeconds <=? 0) then 0
  else
    let delay := i64 (rank * staggerSeconds) in
    if (0 <? maxDelaySeconds) && (maxDelaySeconds <? delay) then maxDelaySeconds else delay.

(** * The command *)

Section Command.
Context `{GoEnv}.

Definition Beacon_Msg_ValidateBasic (m : MsgSubmitDrandBeacon) : result err unit :=
  let r := TrimSpace (ToLower (mdb_RandomnessHex m)) in
  let s := TrimSpace (ToLower (mdb_SignatureHex m)) in
  first_error [
   (negb (addr_ok (TrimSpace (mdb_Submitter m))), Errorf "invalid submitter address");
   ((mdb_Round m =? 0), Errorf "round must be positive");
   (negb (length r =? 64)%nat, Errorf "randomness_hex must be 64 hex chars");
   (negb (is_hex r), Errorf "invalid randomness_hex");
   (empty s, Errorf "signature_hex required");
   (negb (is_hex s), Errorf "invalid signature_hex")].

(** [from] is the address of the key the command signs with. *)
Definition registrySubmitDrandBeaconTxCmd (from : gostr) (round : Z) (randomnessHex signatureHex : gostr) : result err MsgSubmitDrandBeacon :=
  guard_err (round =? 0) (Errorf "--round required");;
  guard_err (blank randomnessHex) (Errorf "--randomness-hex required");;
  guard_err (blank signatureHex) (Errorf "--signature-hex required");;
  let msg := {| mdb_Submitter := from; mdb_Round := round; mdb_RandomnessHex := TrimSpace (ToLower randomnessHex);
    mdb_SignatureHex := TrimSpace (ToLower signatureHex) |} in
  Beacon_Msg_ValidateBasic msg;;
  Ok msg.
End Command.

(** * Health *)

(** What the daemon records of its polls and of the relay, without the fields that are
    only reported; times are in nanoseconds, and
    a time or an error that was not recorded is [None]. *)
Record daemonHealth := mkHealth {
  h_pollInterval : Z; h_lastPollSuccessAt : option Z; h_lastPollError : option err; h_consecutiveErrors : Z;
  h_drandPending : bool; h_drandSubmitted : bool; h_drandRequiredRound : Z; h_drandRelayRank : Z; h_drandRelayTotal : Z;
  h_drandRelayNotBeforeUnix : Z; h_lastDrandSubmissionRound : Z; h_lastDrandError : option err }.

Definition newDaemonHealth (pollInterval : Z) : daemonHealth := mkHealth pollInterval None None 0 false false 0 0 0 0 0 None.

Definition recordPollResult (now : Z) (e : option err) (h : daemonHealth) : daemonHealth :=
  let '(success, error, n) := match e with
                              | Some e => (h_lastPollSuccessAt h, Some e, h_consecutiveErrors h + 1)
                              | None => (Some now, None, 0)
                              end in
  mkHealth (h_pollInterval h) success error n (h_drandPending h) (h_drandSubmitted h) (h_drandRequiredRound h) (h_drandRelayRank h)
    (h_drandRelayTotal h) (h_drandRelayNotBeforeUnix h) (h_lastDrandSubmissionRound h) (h_lastDrandError h).

Definition recordDrandRequirement (q : DrandRequirement) (h : daemonHealth) : daemonHealth :=
  let idle := negb (dr_Pending q) || dr_Submitted q in
  let or_zero z := if idle then 0 else z in
  mkHealth (h_pollInterval h) (h_lastPollSuccessAt h) (h_lastPollError h) (h_consecutiveErrors h) (dr_Pending q) (dr_Submitted q)
    (dr_RequiredDrandRound q) (or_zero (h_drandRelayRank h)) (or_zero (h_drandRelayTotal h)) (or_zero (h_drandRelayNotBeforeUnix h))
    (h_lastDrandSubmissionRound h) (if idle then None else h_lastDrandError h).

Definition recordDrandRelaySchedule (rank total notBeforeUnix : Z) (h : daemonHealth) : daemonHealth :=
  mkHealth (h_pollInterval h) (h_lastPollSuccessAt h) (h_lastPollError h) (h_consecutiveErrors h) (h_drandPending h) (h_drandSubmitted h)
    (h_drandRequiredRound h) rank total notBeforeUnix (h_lastDrandSubmissionRound h) (h_lastDrandError h).

Definition recordDrandSubmission (round : Z) (e : option err) (h : daemonHealth) : daemonHealth :=
  let last := if 0 <? round then round else h_lastDrandSubmissionRound h in
  let submitted := match e with
                   | Some _ => h_drandSubmitted h
                   | None => if (0 <? round) && (round =? h_drandRequiredRound h) then true else h_drandSubmitted h
                   end in
  mkHealth (h_pollInterval h) (h_lastPollSuccessAt h) (h_lastPollError h) (h_consecutiveErrors h) (h_drandPending h) submitted
    (h_drandRequiredRound h) (h_drandRelayRank h) (h_drandRelayTotal h) (h_drandRelayNotBeforeUnix h) last e.

(** ** Readiness *)

Inductive reason := NoSuccessfulPoll | LastPollFailed (e : option err) | PollStale | DrandDeliveryFailed (e : err).

Definition staleAfter (h : daemonHealth) : Z :=
  let s := i64 (i64 (h_pollInterval h * 3) + 30 * second) in if s <? 60 * second then 60 * second else s.

Definition readinessReasons (now stale : Z) (h : daemonHealth) : list reason :=
  (match h_lastPollSuccessAt h with Some _ => [] | None => [NoSuccessfulPoll] end) ++
  (if 0 <? h_consecutiveErrors h then [LastPollFailed (h_lastPollError h)] else []) ++
  (match h_lastPollSuccessAt h with Some t => if stale <? now - t then [PollStale] else [] | None => [] end) ++
  (match h_lastDrandError h with Some e => [DrandDeliveryFailed e] | None => [] end).

(** The status of the answer to [/readyz]. *)
Definition ready_status (now : Z) (h : daemonHealth) : Z := match readinessReasons now (staleAfter h) h with [] => 200 | _ => 503 end.

(** * The relay *)

Record RelayConfig := mkRelayConfig {
  rl_VerifierAddress : gostr; rl_Disabled : bool; rl_APIBaseURL : gostr; rl_RelayStaggerSec : Z; rl_RelayMaxDelaySec : Z; rl_From : gostr }.

(** The defaults of the configuration. *)
Definition relay_defaults (c : RelayConfig) : RelayConfig :=
  mkRelayConfig (rl_VerifierAddress c) (rl_Disabled c) (if empty (rl_APIBaseURL c) then go "https://api.drand.sh" else rl_APIBaseURL c)
    (if rl_RelayStaggerSec c <=? 0 then 60 else rl_RelayStaggerSec c) (if rl_RelayMaxDelaySec c <=? 0 then 180 else rl_RelayMaxDelaySec c) (rl_From c).

Record drandHTTPResponse := mkDrandResponse { dh_Round : Z; dh_Randomness : gostr; dh_Signature : gostr }.

(** [strings.TrimRight] of slashes. *)
Fixpoint drop_slashes (s : gostr) : gostr := match s with 47 :: r => drop_slashes r | _ => s end.
Definition TrimRightSlash (s : gostr) : gostr := rev (drop_slashes (rev s)).

(** What one call meets: the requirement of the chain before and after, the clock in
    seconds each time it is read, the bonded verifiers, what a [GET] of a URL gives (a
    failed request, a status that is not 2xx and a body that is no such record are
    errors), and the error of the transaction, if any. *)
Record relay_input := mkRelayInput {
  ri_requirement : result err DrandRequirement; ri_now : Z; ri_verifiers : result err (list (drandRelayCandidate * Z)); ri_then : Z;
  ri_get : gostr → result err drandHTTPResponse; ri_tx : option err; ri_latest : result err DrandRequirement }.

Section Relay.
Context `{GoEnv} (cfg : RelayConfig).

Definition drand_url (base chainHash : gostr) (round : Z) : gostr := base ++ go "/" ++ chainHash ++ go "/public/" ++ dec_print round.

Definition fetchDrandRound (get : gostr → result err drandHTTPResponse) (chainHash : gostr) (round : Z) : result err drandHTTPResponse :=
  let base := TrimRightSlash (TrimSpace (rl_APIBaseURL cfg)) in
  let chainHash := ToLower (TrimSpace chainHash) in
  guard_err (empty base || empty chainHash || (round =? 0)) (Errorf "drand endpoint, chain hash, and round are required");;
  out ← get (drand_url base chainHash round);
  let out := mkDrandResponse (dh_Round out) (ToLower (TrimSpace (dh_Randomness out))) (ToLower (TrimSpace (dh_Signature out))) in
  guard_err (negb (dh_Round out =? round)) (Errorf "drand response round mismatch");;
  guard_err (empty (dh_Randomness out) || empty (dh_Signature out)) (Errorf "drand payload missing randomness or signature");;
  Ok out.

(** The outcome of the command, and the message it sent, if it got so far; [tx] is the
    error of sending it or of waiting for it. *)
Definition submitDrandBeacon (tx : option err) (beacon : drandHTTPResponse) : option err * list MsgSubmitDrandBeacon :=
  match registrySubmitDrandBeaconTxCmd (rl_From cfg) (dh_Round beacon) (dh_Randomness beacon) (dh_Signature beacon) with
  | Err e => (Some e, [])
  | Ok m => (tx, [m])
  end.

(** The daemon's health after the call, its error if any, and what it sent. *)
Definition relay_result : Type := daemonHealth * option err * list MsgSubmitDrandBeacon.

(** The last part: the beacon is fetched and sent; a transaction that failed is no
    error when another daemon was first. *)
Definition relay_send (i : relay_input) (q : DrandRequirement) (h : daemonHealth) : relay_result :=
  let round := dr_RequiredDrandRound q in
  match fetchDrandRound (ri_get i) (dr_DrandChainHash q) round with
  | Err e => (recordDrandSubmission round (Some e) h, Some e, [])
  | Ok beacon =>
      let '(e, sent) := submitDrandBeacon (ri_tx i) beacon in
      match e with
      | None => (recordDrandSubmission round None h, None, sent)
      | Some e =>
          let filled := match ri_latest i with
                        | Ok l => negb (dr_Pending l) || dr_Submitted l || negb (dr_RequiredDrandRound l =? round)
                        | Err _ => false
                        end in
          if filled then (recordDrandSubmission round None h, None, sent) else (recordDrandSubmission round (Some e) h, Some e, sent)
      end
  end.

Definition relayRequiredDrand (i : relay_input) (h : daemonHealth) : relay_result :=
  if rl_Disabled cfg then (h, None, [])
  else
    match ri_requirement i with
    | Err e => (h, Some e, [])
    | Ok q =>
        let h := recordDrandRequirement q h in
        if negb (dr_Enabled q) || negb (dr_Pending q) || dr_Submitted q || (dr_RequiredDrandRound q =? 0) then (h, None, [])
        else if ri_now i <? dr_RequiredBeaconUnix q then (h, None, [])
        else
          match ri_verifiers i with
          | Err e => (h, Some e, [])
          | Ok resp =>
              match drandRelayRank (dr_RequiredDrandRound q) (rl_VerifierAddress cfg) (ActiveVerifierRelayCandidates resp) with
              | Err e => (h, Some e, [])
              | Ok (rank, total) =>
                  let notBeforeUnix := i64 (dr_RequiredBeaconUnix q + drandRelayDelaySeconds rank (rl_RelayStaggerSec cfg) (rl_RelayMaxDelaySec cfg)) in
                  let h := recordDrandRelaySchedule rank total notBeforeUnix h in
                  if ri_then i <? notBeforeUnix then (h, None, []) else relay_send i q h
              end
          end
    end.
End Relay.
