(* ===== verification/RelayProofs.v ===== *)
(** The ranks of the relay: the order of the active verifiers that the daemons compute,
    and the delays that follow from it. *)

From stdpp Require Import sorting.
From S2P Require Import Prelude JsBase GoBase GoHash Market MarketProofs GoSdk Verifiers RegParams Verification VerificationProofs Rounds RoundProofs Agent Relay.

(** * The pool *)

Definition weight_of (entry : drandRelayCandidate) : Z :=
  match SetString10 (TrimSpace (rc_BondAmount entry)) with Some w => if w <=? 0 then 1 else w | None => 1 end.

Lemma weight_of_pos e : 0 < weight_of e.
Proof. unfold weight_of. destruct (SetString10 _) as [w|]; [|lia]. destruct (Z.leb_spec w 0); lia. Qed.

Lemma add_candidate_cases pool e : let a := TrimSpace (rc_Address e) in
  (add_candidate pool e = pool ∧ (a = [] ∨ a ∈ pool.*1)) ∨ (add_candidate pool e = pool ++ [(a, weight_of e)] ∧ a ≠ [] ∧ a ∉ pool.*1).
Proof.
  cbv zeta. unfold add_candidate. destruct (TrimSpace (rc_Address e)) as [|x l] eqn:E; [left; split; [done|by left]|].
  cbn [empty orb]. case_bool_decide; [left|right]; split; auto.
Qed.

Record pool_ok (pool : list (gostr * Z)) : Prop := {
  po_nodup : NoDup pool.*1;
  po_pos : Forall (λ e, 0 < e.2) pool }.

Lemma fold_pool l pool : pool_ok pool → pool_ok (foldl add_candidate pool l) ∧
  ∀ a, a ∈ (foldl add_candidate pool l).*1 ↔ a ∈ pool.*1 ∨ (a ≠ [] ∧ ∃ e, e ∈ l ∧ TrimSpace (rc_Address e) = a).
Proof.
  revert pool. induction l as [|e l IH]; intros pool Hp; cbn [foldl].
  { split; [done|]. intros a. split; [by left|]. intros [?|(_ & e & He & _)]; [done|]. by apply not_elem_of_nil in He. }
  destruct (add_candidate_cases pool e) as [[-> Hc]|(-> & Hne & Hnew)].
  - destruct (IH pool Hp) as [Hok Hin]. split; [done|]. intros a. rewrite Hin. split.
    { intros [?|(Hne & x & Hx & Hx')]; [by left|right]. split; [done|]. exists x. split; [by right|done]. }
    intros [?|(Hne & x & [->|Hx]%elem_of_cons & Hx')]; [by left| |right; eauto]. destruct Hc as [Hc|Hc]; [congruence|left; congruence].
  - destruct (IH (pool ++ [(TrimSpace (rc_Address e), weight_of e)])) as [Hok Hin].
    { destruct Hp as [Hn Hpos]. split.
      - rewrite fmap_app. cbn. apply list.NoDup_app. split_and!; [done| |apply NoDup_singleton]. by intros x Hx ->%list_elem_of_singleton.
      - apply Forall_app. split; [done|]. constructor; [apply weight_of_pos|done]. }
    split; [done|]. intros a. rewrite Hin, fmap_app, elem_of_app. cbn. rewrite list_elem_of_singleton. split.
    + intros [[?|E0]|(Hn & x & Hx & Hx')]; [by left|right; subst a|right; split; [done|]; exists x; split; [by right|done]]. split; [done|]. exists e. split; [by left|done].
    + intros [?|(Hn & x & [->|Hx]%elem_of_cons & Hx')]; [by left; left|by left; right|right; eauto].
Qed.

Lemma relay_pool_perm active : relay_pool active ≡ₚ foldl add_candidate [] active.
Proof. apply merge_sort_Permutation. Qed.

Lemma relay_pool_ok active : pool_ok (relay_pool active).
Proof.
  destruct (fold_pool active []) as [[Hn Hp] _]; [split; constructor|]. split; by rewrite relay_pool_perm.
Qed.

Lemma relay_pool_elem active a : a ∈ (relay_pool active).*1 ↔ a ≠ [] ∧ ∃ e, e ∈ active ∧ TrimSpace (rc_Address e) = a.
Proof.
  rewrite relay_pool_perm. destruct (fold_pool active []) as [_ Hin]; [split; constructor|]. rewrite Hin. cbn. rewrite elem_of_nil. tauto.
Qed.

(** ** The order the chain lists the verifiers in does not matter *)

Definition pooled (e : drandRelayCandidate) : option (gostr * Z) :=
  let a := TrimSpace (rc_Address e) in if empty a then None else Some (a, weight_of e).

Lemma fold_pool_omap l pool : NoDup (pool.*1 ++ ((λ e, TrimSpace (rc_Address e)) <$> l)) → foldl add_candidate pool l = pool ++ omap pooled l.
Proof.
  revert pool. induction l as [|e l IH]; intros pool Hn; cbn [foldl]; [by rewrite app_nil_r|]. rewrite fmap_cons in Hn.
  assert (TrimSpace (rc_Address e) ∉ pool.*1) as Hnew by (intros Hin; apply list.NoDup_app in Hn as (_ & Hd & _); apply (Hd _ Hin); by left).
  change (omap pooled (e :: l)) with (match pooled e with Some y => y :: omap pooled l | None => omap pooled l end). unfold pooled at 1.
  destruct (add_candidate_cases pool e) as [[-> [Hc|Hc]]|(-> & Hne & _)]; [|done|].
  - rewrite Hc. cbn [empty]. apply IH. eapply sublist_NoDup; [exact Hn|]. apply sublist_app; [done|]. by constructor.
  - rewrite IH, <- app_assoc; [by destruct (TrimSpace (rc_Address e))|]. rewrite fmap_app. cbn [fmap list_fmap]. by rewrite <- app_assoc.
Qed.

#[export] Instance entry_le_trans {V} : Transitive (@entry_le V).
Proof. intros x y z. apply key_leb_trans. Qed.
#[export] Instance entry_le_total {V} : Total (@entry_le V).
Proof. intros x y. apply key_leb_total. Qed.

(** Entries with distinct keys are sorted in one way only. *)
Lemma sorted_entries_unique {V} (l k : list (gostr * V)) : NoDup l.*1 → l ≡ₚ k → merge_sort entry_le l = merge_sort entry_le k.
Proof.
  intros Hn Hp. apply (StronglySorted_unique_strong entry_le); [|apply StronglySorted_merge_sort; apply _..|by rewrite !merge_sort_Permutation].
  intros [a x] [b y] Hx Hy Hab Hba. rewrite merge_sort_Permutation in Hx, Hy. rewrite <- Hp in Hy.
  assert (a = b) as <- by (by apply key_leb_antisym). f_equal. apply list_elem_of_lookup in Hx as [i Hi], Hy as [j Hj].
  assert (i = j) as <-; [|congruence]. eapply (NoDup_lookup l.*1); [done|by rewrite list_lookup_fmap, Hi|by rewrite list_lookup_fmap, Hj].
Qed.

Lemma relay_pool_order active active' : active' ≡ₚ active → NoDup ((λ e, TrimSpace (rc_Address e)) <$> active) → relay_pool active' = relay_pool active.
Proof.
  intros Hp Hn. assert (NoDup ((λ e, TrimSpace (rc_Address e)) <$> active')) as Hn' by (by rewrite Hp).
  unfold relay_pool. pose proof (relay_pool_ok active') as Hok. apply po_nodup in Hok. unfold relay_pool in Hok.
  rewrite merge_sort_Permutation in Hok. apply sorted_entries_unique; [done|]. rewrite !fold_pool_omap by done. cbn. by rewrite Hp.
Qed.

(** * The order of the relays *)

Definition relay_order (round : Z) (active : list drandRelayCandidate) : list gostr :=
  let pool := relay_pool active in
  let i := primary_index round pool in
  match pool !! i with Some e => e.1 :: (relay_fallbacks round i pool).*1 | None => [] end.

Lemma fallback_addresses round i pool : (relay_fallbacks round i pool).*1 ≡ₚ (delete i pool).*1.
Proof. unfold relay_fallbacks. rewrite merge_sort_Permutation, <- list_fmap_compose. done. Qed.

Lemma primary_index_lt round pool : pool ≠ [] → (primary_index round pool < length pool)%nat.
Proof. intros Hne. unfold primary_index. by apply picked_idx_lt. Qed.

Lemma relay_order_perm round active : relay_order round active ≡ₚ (relay_pool active).*1.
Proof.
  unfold relay_order. cbv zeta. destruct (decide (relay_pool active = [])) as [->|Hne]; [done|].
  destruct (lookup_lt_is_Some_2 (relay_pool active) (primary_index round (relay_pool active))) as [e He]; [by apply primary_index_lt|].
  rewrite He, fallback_addresses. symmetry. etrans; [apply fmap_Permutation, delete_Permutation; exact He|]. done.
Qed.

Lemma relay_order_nodup round active : NoDup (relay_order round active).
Proof. rewrite relay_order_perm. apply relay_pool_ok. Qed.

Lemma relay_order_elem round active a : a ∈ relay_order round active ↔ a ≠ [] ∧ ∃ e, e ∈ active ∧ TrimSpace (rc_Address e) = a.
Proof. by rewrite relay_order_perm, relay_pool_elem. Qed.

Lemma list_find_fst {V} (l : list (gostr * V)) (a : gostr) i : NoDup l.*1 → l.*1 !! i = Some a → ∃ e, list_find (λ e, e.1 = a) l = Some (i, e).
Proof.
  intros Hn Hi. rewrite list_lookup_fmap in Hi. apply fmap_Some in Hi as (e & He & ->). exists e. apply list_find_Some. split_and!; [done|done|].
  intros j y Hj Hlt Hy. assert (j = i) as ->; [|lia]. eapply (NoDup_lookup l.*1); [done|by rewrite list_lookup_fmap, Hj; cbn; rewrite Hy|by rewrite list_lookup_fmap, He].
Qed.

(** The rank of a verifier is its place in the order. *)
Lemma relay_rank_at round v active i : round ≠ 0 → relay_order round active !! i = Some (TrimSpace v) →
  drandRelayRank round v active = Ok (Z.of_nat i, Z.of_nat (length (relay_order round active))).
Proof.
  intros Hr Hi. assert (TrimSpace v ∈ relay_order round active) as Hin by (by eapply list_elem_of_lookup_2).
  pose proof (proj1 (relay_order_elem _ _ _) Hin) as [Hne _]. assert (TrimSpace v ∈ (relay_pool active).*1) as Hp by (by rewrite <- relay_order_perm).
  assert (length (relay_order round active) = length (relay_pool active)) as Hl by (by rewrite relay_order_perm, length_fmap).
  pose proof (relay_order_nodup round active) as Hn. unfold drandRelayRank. cbv zeta. rewrite Hl.
  assert ((round =? 0) || empty (TrimSpace v) = false) as ->.
  { apply orb_false_iff. split; [by apply Z.eqb_neq|by destruct (TrimSpace v)]. }
  rewrite (bool_decide_eq_true_2 (TrimSpace v ∈ _)) by done. unfold relay_order in Hi, Hn. cbv zeta in Hi, Hn.
  destruct (relay_pool active) as [|e0 pool] eqn:E; [by apply not_elem_of_nil in Hp|]. rewrite <- E in *. cbn [guard_err mbind result_bind negb].
  destruct (relay_pool active !! primary_index round (relay_pool active)) as [e|] eqn:He; [|done]. cbn [fmap option_fmap option_map].
  destruct i as [|i]; cbn in Hi.
  - injection Hi as ->. by rewrite bool_decide_eq_true_2.
  - apply list.NoDup_cons in Hn as [Hnot Hn]. rewrite bool_decide_eq_false_2.
    + destruct (list_find_fst _ _ _ Hn Hi) as [x ->]. f_equal. f_equal. lia.
    + intros [= Heq]. apply Hnot. rewrite Heq. by eapply list_elem_of_lookup_2.
Qed.

Lemma relay_rank_other round v active : TrimSpace v ∉ relay_order round active → ∃ e, drandRelayRank round v active = Err e.
Proof.
  intros Hn. rewrite relay_order_perm in Hn. unfold drandRelayRank. cbv zeta. destruct (_ || _); [by eexists|]. cbn [guard_err mbind result_bind].
  destruct (relay_pool active) eqn:E; [by eexists|]. rewrite <- E in *. rewrite (bool_decide_eq_false_2 (TrimSpace v ∈ _)) by done. by eexists.
Qed.

(** The verifier that goes first: as many draws out of the total bond choose it as it has bonded. *)
Lemma primary_weight round active : round ≠ 0 → relay_pool active ≠ [] → ∃ a, relay_order round active !! 0%nat = Some a ∧
  fst <$> relay_pool active !! primary_index round (relay_pool active) = Some a.
Proof.
  intros Hr Hne. destruct (lookup_lt_is_Some_2 (relay_pool active) (primary_index round (relay_pool active))) as [e He]; [by apply primary_index_lt|].
  exists e.1. unfold relay_order. cbv zeta. rewrite He. done.
Qed.

(** * Delays *)

Lemma delay_le rank stagger max : 0 < max → drandRelayDelaySeconds rank stagger max ≤ max.
Proof.
  intros Hm. unfold drandRelayDelaySeconds. destruct (_ || _); [lia|]. cbv zeta. rewrite (proj2 (Z.ltb_lt 0 max)) by done. cbn [andb].
  destruct (Z.ltb_spec max (i64 (rank * stagger))); lia.
Qed.

Lemma i64_range z : - 2 ^ 63 ≤ i64 z < 2 ^ 63.
Proof. unfold i64. pose proof (swrap_range 64 z ltac:(lia)) as Hr. unfold in_s in Hr. by change (64 - 1) with 63 in Hr. Qed.

Lemma delay_range rank stagger max : 0 < max < 2 ^ 63 → - 2 ^ 63 ≤ drandRelayDelaySeconds rank stagger max < 2 ^ 63.
Proof.
  intros Hm. split; [|pose proof (delay_le rank stagger max); lia]. unfold drandRelayDelaySeconds. destruct (_ || _); [lia|]. cbv zeta.
  destruct (_ && _); [lia|]. apply i64_range.
Qed.

(** With nothing lost to overflow a delay is the smaller of the verifier's turn and the bound. *)
Lemma delay_is rank stagger max : 0 < rank → 0 < stagger → 0 < max → rank * stagger < 2 ^ 63 →
  drandRelayDelaySeconds rank stagger max = Z.min (rank * stagger) max.
Proof.
  intros Hr Hs Hm Hb. unfold drandRelayDelaySeconds. rewrite (proj2 (Z.leb_gt rank 0)), (proj2 (Z.leb_gt stagger 0)) by lia. cbn [orb]. cbv zeta.
  rewrite i64_id by nia. rewrite (proj2 (Z.ltb_lt 0 max)) by done. cbn [andb]. destruct (Z.ltb_spec max (rank * stagger)); lia.
Qed.
