(* ===== verification/RelayProps.v ===== *)
(** The relay against the chain: the daemons agree on who sends a beacon and when, what
    the daemon sends is what [SubmitDrandBeacon] of [src/x/registry] accepts, and what
    becomes of a beacon that is sent after the start of its round. *)

From stdpp Require Import sorting.
From S2P Require Import Prelude JsBase GoBase GoHash Market MarketProofs GoSdk Tokenomics Verifiers RegParams Verification VerificationProofs BankFrame ChainInv Rounds RoundProofs RoundSteps FinalizeTotal AssignTotal Agent AgentProofs AgentProps Relay RelayProofs.

(** * Hexadecimal text, read back *)

Lemma hex_digit_value d : 0 ≤ d < 16 → hex_value (hex_digit d) = Some d.
Proof.
  intros Hd. assert (forallb (λ d, bool_decide (hex_value (hex_digit d) = Some d)) (seqZ 0 16) = true) as Hall by reflexivity.
  apply forallb_Forall in Hall. rewrite list.Forall_forall in Hall. eapply bool_decide_eq_true, Hall, elem_of_seqZ. lia.
Qed.

Lemma pairs_encode bs : bytes bs → hex_pairs (EncodeToString bs) = bs.
Proof.
  induction 1 as [|b bs Hb _ IH]; [done|]. change (EncodeToString (b :: bs)) with (hex_digit (b / 16) :: hex_digit (b mod 16) :: EncodeToString bs). cbn [hex_pairs].
  rewrite !hex_digit_value; [|apply Z.mod_pos_bound; lia|split; [apply Z.div_pos; lia|apply Z.div_lt_upper_bound; lia]].
  rewrite IH. f_equal. cbn [default from_option]. unfold id. pose proof (Z.div_mod b 16). lia.
Qed.

Lemma decode_encode bs : bytes bs → DecodeString (EncodeToString bs) = Some bs.
Proof. intros Hb. unfold DecodeString. by rewrite encode_hex, pairs_encode. Qed.

(** * The requirement *)

Section Requirement.
Context `{GoEnv} {B : Type}.
Abbreviation VStore := (VStore B).

Definition next_start (p : PublisherParams) (c : BlockCtx) : Z := nextVerificationRoundStartUnix (c_TimeNs c) (p_RoundIntervalSeconds p).

Lemma pending_parts p c (s : VStore) q : PendingDrandRequirement p c s = Ok q → dr_Pending q = true →
  EffectiveDrandEnabled p = true ∧ dr_Enabled q = true ∧ dr_RoundStartUnix q = next_start p c ∧
  requiredDrandRound p (next_start p c) = Ok (dr_RequiredDrandRound q, dr_RequiredBeaconUnix q) ∧
  dr_Submitted q = bool_decide (is_Some (GetDrandBeacon (dr_RequiredDrandRound q) s)) ∧ dr_DrandChainHash q = EffectiveDrandChainHash p.
Proof.
  intros HQ Hp. unfold PendingDrandRequirement in HQ. destruct (EffectiveDrandEnabled p) eqn:E; cbn [negb] in HQ; [|by injection HQ as <-].
  cbv zeta in HQ. fold (next_start p c) in HQ. destruct (match GetLastRoundStart s with Some last => _ | None => false end); [by injection HQ as <-|].
  apply bind_Ok_inv in HQ as ([n t] & Hn & HQ). injection HQ as <-. done.
Qed.

(** The first beacon has number one. *)
Lemma required_pos p rs n t : requiredDrandRound p rs = Ok (n, t) → 0 < n < 2 ^ 64.
Proof.
  unfold requiredDrandRound. cbv zeta. intros HR. run_ok HR. guards. zb. injection HR as <- _.
  match goal with |- context [i64 (?a - ?g)] => set (la := a) in *; set (ge := g) in * end.
  assert (- 2 ^ 63 ≤ la < 2 ^ 63) as Hla by apply i64_range. rewrite (i64_id (la - ge)) by lia.
  assert (0 ≤ Z.quot (la - ge) (EffectiveDrandPeriodSeconds p) < 2 ^ 63) as Hq.
  { rewrite Z.quot_div_nonneg by lia. split; [apply Z.div_pos; lia|]. apply Z.div_lt_upper_bound; nia. }
  unfold u64. rewrite (uwrap_small 64) by (unfold in_u; rewrite uwrap_small by (unfold in_u; lia); lia). rewrite uwrap_small by (unfold in_u; lia). lia.
Qed.
End Requirement.

(** * Delivery *)

Section Delivery.
Context `{GoEnv} `{DrandSuite} {B : Type}.
Abbreviation VStore := (VStore B).

(** A signature of a drand round that verifies under the parameters. *)
Record genuine (p : PublisherParams) (round : Z) (sig : list Z) : Prop := {
  gn_bytes : bytes sig;
  gn_some : sig ≠ [];
  gn_verifies : VerifyRecovered (EffectiveDrandSchemeID p) (hex_pairs (EffectiveDrandPublicKeyHex p)) (digestUnchainedRound round) sig = true }.

(** The address a key signs with. *)
Record signer (from : gostr) : Prop := { sg_ok : addr_ok from = true; sg_clean : TrimSpace from = from; sg_some : from ≠ [] }.

Definition drand_answer (round : Z) (sig : list Z) : drandHTTPResponse := mkDrandResponse round (EncodeToString (Sum256 sig)) (EncodeToString sig).
Definition beacon_msg (from : gostr) (round : Z) (sig : list Z) : MsgSubmitDrandBeacon :=
  {| mdb_Submitter := from; mdb_Round := round; mdb_RandomnessHex := EncodeToString (Sum256 sig); mdb_SignatureHex := EncodeToString sig |}.

(** Hexadecimal text of lower case stays as it is. *)
Lemma encoded_text bs : bytes bs → ToLower (EncodeToString bs) = EncodeToString bs ∧ TrimSpace (EncodeToString bs) = EncodeToString bs.
Proof.
  intros Hb. destruct (lower_encode bs Hb) as [Hl Ha]. split; [by rewrite ToLower_ascii|]. by apply hex_clean, encode_hex.
Qed.

Lemma blank_is s : blank s = empty (TrimSpace s).
Proof. done. Qed.

Lemma encoded_some bs : bs ≠ [] → empty (EncodeToString bs) = false.
Proof. by destruct bs. Qed.

Lemma signature_hash sig : length (EncodeToString (Sum256 sig)) = 64%nat ∧ empty (EncodeToString (Sum256 sig)) = false ∧
  bytes (Sum256 sig) ∧ is_hex (EncodeToString (Sum256 sig)) = true.
Proof.
  destruct (Sum256_spec sig) as [Hl Hb]. split_and!; [by rewrite encode_length, Hl| |done|by apply encode_hex].
  apply encoded_some. intros E. by rewrite E in Hl.
Qed.

(** The command makes the message of a genuine beacon. *)
Lemma beacon_command from round sig : signer from → round ≠ 0 → bytes sig → sig ≠ [] →
  registrySubmitDrandBeaconTxCmd from round (EncodeToString (Sum256 sig)) (EncodeToString sig) = Ok (beacon_msg from round sig).
Proof.
  intros [Ha Hc Hn] Hr Hb Hs. destruct (signature_hash sig) as (Hl & He & Hhb & Hx). destruct (encoded_text _ Hb) as [T1 T2], (encoded_text _ Hhb) as [T3 T4].
  unfold registrySubmitDrandBeaconTxCmd. rewrite !blank_is, T1, T2, T3, T4, He, (encoded_some _ Hs), (proj2 (Z.eqb_neq round 0) Hr). cbn [guard_err mbind result_bind].
  fold (beacon_msg from round sig). unfold Beacon_Msg_ValidateBasic, beacon_msg. cbn [mdb_Submitter mdb_Round mdb_RandomnessHex mdb_SignatureHex].
  rewrite T1, T2, T3, T4, Hc, Ha, (proj2 (Z.eqb_neq round 0) Hr), Hl, Hx, (encoded_some _ Hs), encode_hex by done. done.
Qed.

(** The parameters name a key and a chain in hexadecimal, and a scheme the chain has. *)
Lemma drand_params p : Params_Validate p = Ok tt → EffectiveDrandEnabled p = true →
  is_hex (EffectiveDrandPublicKeyHex p) = true ∧ empty (EffectiveDrandPublicKeyHex p) = false ∧
  is_hex (EffectiveDrandChainHash p) = true ∧ empty (EffectiveDrandChainHash p) = false ∧ isSupportedDrandSchemeID (EffectiveDrandSchemeID p) = true ∧
  blank (EffectiveDrandSchemeID p) = false ∧ TrimSpace (EffectiveDrandSchemeID p) = EffectiveDrandSchemeID p.
Proof.
  intros HV He. unfold Params_Validate in HV. run_ok HV. unfold drand_ok in HV. apply first_error_ok in HV. unfold EffectiveDrandEnabled in He. rewrite He in HV.
  rewrite !list.Forall_cons in HV. cbn [fst andb] in HV. destruct HV as (Hs & Hk & Hh & Hk0 & Hh0 & _). rewrite Hk0 in Hk. rewrite Hh0 in Hh. cbn [negb andb] in Hk, Hh.
  apply negb_false_iff in Hk, Hh. apply andb_true_iff in Hh as [Hh _].
  assert (isSupportedDrandSchemeID (EffectiveDrandSchemeID p) = true ∧ blank (EffectiveDrandSchemeID p) = false ∧
    TrimSpace (EffectiveDrandSchemeID p) = EffectiveDrandSchemeID p) as (? & ? & ?); [|by split_and!].
  unfold EffectiveDrandSchemeID. destruct (blank (p_DrandSchemeID p)) eqn:Eb; [by vm_compute|]. cbn [negb andb] in Hs. apply negb_false_iff in Hs.
  unfold blank in *. rewrite TrimSpace_idem. by split_and!.
Qed.

(** The chain takes a genuine beacon while its requirement is open. *)
Lemma genuine_accepted p c (s : VStore) q from sig : Params_Validate p = Ok tt → PendingDrandRequirement p c s = Ok q → dr_Pending q = true →
  dr_Submitted q = false → 0 < block_time c → signer from → genuine p (dr_RequiredDrandRound q) sig →
  ∃ b s', SubmitDrandBeacon p c (beacon_msg from (dr_RequiredDrandRound q) sig) s = Ok (b, s') ∧
    GetDrandBeacon (dr_RequiredDrandRound q) s' = Some b ∧ db_RandomnessHex b = EncodeToString (Sum256 sig).
Proof.
  intros HV HQ Hp Hsub Ht [Ha Hc Hn] [Hb Hs Hver]. destruct (pending_parts _ _ _ _ HQ Hp) as (Hen & _ & _ & Hreq & Hsub' & _). apply required_pos in Hreq.
  set (r := dr_RequiredDrandRound q) in *. rewrite Hsub in Hsub'. symmetry in Hsub'. apply bool_decide_eq_false in Hsub'.
  destruct (drand_params p HV Hen) as (Hk & Hk0 & _ & _ & Hsch & Hblank & Htrim). destruct (signature_hash sig) as (Hl & He & Hhb & Hx).
  destruct (encoded_text _ Hb) as [T1 T2], (encoded_text _ Hhb) as [T3 T4].
  assert (empty (EncodeToString sig) = false) as Hes by (by apply encoded_some).
  assert ((r =? 0) = false) as Hr0 by (apply Z.eqb_neq; lia).
  set (b := mkBeacon r (EncodeToString (Sum256 sig)) (EncodeToString sig) (block_time c) from).
  assert (Beacon_ValidateBasic b = Ok tt) as Hbv.
  { unfold Beacon_ValidateBasic, b. cbn [db_Round db_RandomnessHex db_SignatureHex db_SubmittedAtUnix db_Submitter].
    rewrite blank_is, T1, T2, T3, T4, Hc, Ha, Hr0, He, Hl, Hx, Hes, encode_hex, (proj2 (Z.leb_gt _ _) Ht) by done. by destruct from. }
  unfold GetDrandBeacon in Hsub'. rewrite Hr0 in Hsub'.
  unfold SubmitDrandBeacon. rewrite Hen, HQ. cbn [guard_err mbind result_bind negb]. rewrite Hp. cbn [negb guard_err mbind result_bind].
  cbn [mdb_Round mdb_RandomnessHex mdb_SignatureHex mdb_Submitter beacon_msg]. rewrite Z.eqb_refl, Hsub. cbn [negb guard_err mbind result_bind]. cbv zeta.
  rewrite T2, T4, T1, T3, Hl, Hx, Hes, encode_hex, Hk0 by done. cbn [negb guard_err mbind result_bind Nat.eqb andb].
  unfold verifyDrandBeaconSignature. rewrite T2, T4, !decode_encode by done. rewrite bool_decide_eq_true_2 by done. cbn [negb guard_err mbind result_bind].
  rewrite (hex_clean _ Hk). unfold DecodeString at 1. rewrite Hk, Hblank, Htrim, Hsch, Hver, Hc. cbn [negb guard_err mbind result_bind]. fold b.
  rewrite Hbv. cbn [mbind result_bind]. unfold SetDrandBeacon. rewrite Hbv. cbn [mbind result_bind]. change (db_Round b) with r.
  rewrite bool_decide_eq_false_2 by done. cbn [guard_err mbind result_bind]. eexists _, _. split; [done|]. split; [|done].
  unfold GetDrandBeacon. rewrite Hr0. cbn. apply lookup_insert_eq.
Qed.

(** The daemon's side: a daemon of the active verifier [v] that asks the chain in the state
    [s], at the latest time it waits for or after, and a drand service that answers. *)
Record relay_case (p : PublisherParams) (c : BlockCtx) (s : VStore) (q : DrandRequirement) (v : Verifier) (sig : list Z) (cfg : RelayConfig)
    (i : relay_input) : Prop := {
  rc_params : Params_Validate p = Ok tt;
  rc_asked : PendingDrandRequirement p c s = Ok q;
  rc_open : dr_Pending q = true ∧ dr_Submitted q = false;
  rc_verifier : v ∈ ListVerifiers (bond_table s) ∧ v_Status v = VerifierStatusActive;
  rc_mine : TrimSpace (rl_VerifierAddress cfg) = TrimSpace (v_Address v) ∧ TrimSpace (v_Address v) ≠ [];
  rc_enabled : rl_Disabled cfg = false;
  rc_base : TrimRightSlash (TrimSpace (rl_APIBaseURL cfg)) ≠ [];
  rc_key : signer (rl_From cfg);
  rc_delay : 0 < rl_RelayMaxDelaySec cfg ∧ 0 ≤ dr_RequiredBeaconUnix q ∧ dr_RequiredBeaconUnix q + rl_RelayMaxDelaySec cfg < 2 ^ 63;
  rc_genuine : genuine p (dr_RequiredDrandRound q) sig;
  rc_answers : ri_requirement i = PendingDrandRequirement p c s ∧ ri_verifiers i = Ok (Verifier_ToProto <$> ListVerifiers (bond_table s)) ∧
    ri_get i (drand_url (TrimRightSlash (TrimSpace (rl_APIBaseURL cfg))) (ToLower (TrimSpace (EffectiveDrandChainHash p))) (dr_RequiredDrandRound q)) =
      Ok (drand_answer (dr_RequiredDrandRound q) sig);
  rc_time : dr_RequiredBeaconUnix q + rl_RelayMaxDelaySec cfg ≤ ri_now i ≤ ri_then i }.

Lemma active_listed (l : list Verifier) v : v ∈ l → v_Status v = VerifierStatusActive → TrimSpace (v_Address v) ≠ [] →
  ∃ e, e ∈ ActiveVerifierRelayCandidates (Verifier_ToProto <$> l) ∧ TrimSpace (rc_Address e) = TrimSpace (v_Address v).
Proof.
  intros Hv Hs Hn. exists (mkCandidate (TrimSpace (v_Address v)) (TrimSpace (FormatInt (c_Amount (v_Bond v))))). split; [|apply TrimSpace_idem]. unfold ActiveVerifierRelayCandidates. rewrite merge_sort_Permutation.
  apply list_elem_of_omap. exists (Verifier_ToProto v). split; [by apply list_elem_of_fmap_2|]. cbn. rewrite Hs. cbn.
  by destruct (TrimSpace (v_Address v)).
Qed.

Lemma fetch_genuine cfg get p round sig : TrimRightSlash (TrimSpace (rl_APIBaseURL cfg)) ≠ [] → some_hex (EffectiveDrandChainHash p) → round ≠ 0 →
  bytes sig → sig ≠ [] → get (drand_url (TrimRightSlash (TrimSpace (rl_APIBaseURL cfg))) (ToLower (TrimSpace (EffectiveDrandChainHash p))) round) =
    Ok (drand_answer round sig) → fetchDrandRound cfg get (EffectiveDrandChainHash p) round = Ok (drand_answer round sig).
Proof.
  intros Hb Hh Hr Hs Hn Hg. apply some_hex_lower in Hh as [_ Hh]. unfold fetchDrandRound. cbv zeta. rewrite Hg.
  destruct (TrimRightSlash _) eqn:E1; [done|]. destruct (ToLower _) eqn:E2; [done|]. cbn [empty orb]. rewrite (proj2 (Z.eqb_neq round 0) Hr). cbn [guard_err mbind result_bind].
  destruct (signature_hash sig) as (_ & He & Hhb & _). destruct (encoded_text _ Hs) as [T1 T2], (encoded_text _ Hhb) as [T3 T4].
  cbn [dh_Round dh_Randomness dh_Signature drand_answer]. rewrite T2, T4, T1, T3, Z.eqb_refl, He, (encoded_some _ Hn). done.
Qed.

Lemma submit_sent cfg tx b m : m ∈ (submitDrandBeacon cfg tx b).2 → mdb_Round m = dh_Round b ∧ mdb_Submitter m = rl_From cfg.
Proof.
  unfold submitDrandBeacon. destruct (registrySubmitDrandBeaconTxCmd _ _ _ _) as [x|] eqn:Hc; cbn; [|by intros ?%not_elem_of_nil].
  intros ->%list_elem_of_singleton. unfold registrySubmitDrandBeaconTxCmd in Hc. run_ok Hc. by injection Hc as <-.
Qed.

Lemma send_sent cfg i q h m : m ∈ (relay_send cfg i q h).2 → mdb_Round m = dr_RequiredDrandRound q ∧ mdb_Submitter m = rl_From cfg.
Proof.
  unfold relay_send. destruct (fetchDrandRound _ _ _ _) as [b|] eqn:Hf; [|by intros ?%not_elem_of_nil].
  assert (dh_Round b = dr_RequiredDrandRound q) as <- by (unfold fetchDrandRound in Hf; run_ok Hf; guards; zb; by injection Hf as <-).
  pose proof (submit_sent cfg (ri_tx i) b m) as Hs. destruct (submitDrandBeacon cfg (ri_tx i) b) as [[e|] sent]; [|exact Hs].
  destruct (match ri_latest i with Ok _ => _ | Err _ => _ end); exact Hs.
Qed.

(** What the daemon sends is for the round that was asked for, and not sent before its time. *)
Lemma relay_sent cfg i h m : m ∈ (relayRequiredDrand cfg i h).2 →
  ∃ q resp rank total, ri_requirement i = Ok q ∧ dr_Pending q = true ∧ dr_Submitted q = false ∧ ri_verifiers i = Ok resp ∧
    drandRelayRank (dr_RequiredDrandRound q) (rl_VerifierAddress cfg) (ActiveVerifierRelayCandidates resp) = Ok (rank, total) ∧
    mdb_Round m = dr_RequiredDrandRound q ∧ mdb_Submitter m = rl_From cfg ∧ dr_RequiredBeaconUnix q ≤ ri_now i ∧
    i64 (dr_RequiredBeaconUnix q + drandRelayDelaySeconds rank (rl_RelayStaggerSec cfg) (rl_RelayMaxDelaySec cfg)) ≤ ri_then i.
Proof.
  unfold relayRequiredDrand. destruct (rl_Disabled cfg); [by intros ?%not_elem_of_nil|]. destruct (ri_requirement i) as [q|]; [|by intros ?%not_elem_of_nil].
  cbv zeta. destruct (_ || _) eqn:E1; [by intros ?%not_elem_of_nil|]. destruct (_ <? _) eqn:E2; [by intros ?%not_elem_of_nil|].
  destruct (ri_verifiers i) as [resp|]; [|by intros ?%not_elem_of_nil]. destruct (drandRelayRank _ _ _) as [[rank total]|] eqn:Hr; [|by intros ?%not_elem_of_nil].
  destruct (ri_then i <? _) eqn:E3; [by intros ?%not_elem_of_nil|]. intros Hm. zb. exists q, resp, rank, total.
  destruct (send_sent _ _ _ _ _ Hm). by split_and!.
Qed.

(** C20 (liveness).  A beacon arrives although only one daemon is left.  Whatever rank an
    active verifier has, once the longest delay has passed after the drand round was
    emitted its daemon sends the beacon, if the requirement is still open and the drand
    service answers with a signature that verifies; and every later block that still has
    this requirement accepts the message and records the beacon. *)
Theorem relay_delivers p c (s : VStore) q v sig cfg i h : relay_case p c s q v sig cfg i →
  ∃ m, (relayRequiredDrand cfg i h).2 = [m] ∧
    ∀ c' (s' : VStore), PendingDrandRequirement p c' s' = Ok q → 0 < block_time c' →
      ∃ b s'', SubmitDrandBeacon p c' m s' = Ok (b, s'') ∧ GetDrandBeacon (dr_RequiredDrandRound q) s'' = Some b ∧
        db_RandomnessHex b = EncodeToString (Sum256 sig).
Proof.
  intros [HV HQ [Hp Hs] [Hv Hst] [Hm Hne] Hd Hbase Hkey (Hmax & Hb0 & Hb1) Hg (A1 & A2 & A3) Ht]. destruct (pending_parts _ _ _ _ HQ Hp) as (Hen & Hqe & _ & Hreq & _ & Hhash).
  apply required_pos in Hreq. destruct (drand_params p HV Hen) as (_ & _ & Hh & Hh0 & _). assert (dr_RequiredDrandRound q ≠ 0) as Hr0 by lia.
  exists (beacon_msg (rl_From cfg) (dr_RequiredDrandRound q) sig). split; [|intros; by eapply genuine_accepted].
  destruct (active_listed _ v Hv Hst Hne) as (e & He & Hea).
  assert (TrimSpace (rl_VerifierAddress cfg) ∈ relay_order (dr_RequiredDrandRound q) (ActiveVerifierRelayCandidates (Verifier_ToProto <$> ListVerifiers (bond_table s)))) as Hin.
  { apply relay_order_elem. rewrite Hm. eauto. }
  apply list_elem_of_lookup in Hin as [k Hk]. apply relay_rank_at in Hk; [|done].
  unfold relayRequiredDrand. rewrite Hd, A1, HQ, A2, Hqe, Hp, Hs, Hk, (proj2 (Z.eqb_neq _ 0) Hr0). cbn [negb orb]. cbv zeta.
  rewrite (proj2 (Z.ltb_ge (ri_now i) _)) by lia. set (d := drandRelayDelaySeconds _ _ _).
  assert (- 2 ^ 63 ≤ d ≤ rl_RelayMaxDelaySec cfg) as Hdl by (split; [apply delay_range; lia|by apply delay_le]). rewrite i64_id by lia.
  rewrite (proj2 (Z.ltb_ge (ri_then i) _)) by lia. unfold relay_send. destruct Hg as [G1 G2 _].
  rewrite Hhash, (fetch_genuine cfg (ri_get i) p _ sig); try done; [|split; [done|by destruct (EffectiveDrandChainHash p)]].
  unfold submitDrandBeacon. cbn [dh_Round dh_Randomness dh_Signature drand_answer]. rewrite beacon_command by done.
  destruct (ri_tx i); [|done]. by destruct (match ri_latest i with Ok _ => _ | Err _ => _ end).
Qed.
End Delivery.

(** * Agreement *)

(** C21 (equivalence).  The daemons agree on the relay.  For each drand round the active
    verifiers stand in one order, each of them once: the rank every daemon computes is the
    place of its verifier in it, the number of ranks is the number of verifiers, and an
    address that is not listed has no rank; and the order the chain lists distinct
    verifiers in makes no difference. *)
Theorem relay_ranks round active : round ≠ 0 → ∃ order : list gostr, NoDup order ∧
  (∀ a, a ∈ order ↔ a ≠ [] ∧ ∃ e, e ∈ active ∧ TrimSpace (rc_Address e) = a) ∧
  (∀ v i, order !! i = Some (TrimSpace v) → drandRelayRank round v active = Ok (Z.of_nat i, Z.of_nat (length order))) ∧
  (∀ v, TrimSpace v ∉ order → ∃ e, drandRelayRank round v active = Err e) ∧
  (∀ v active', active' ≡ₚ active → NoDup ((λ e, TrimSpace (rc_Address e)) <$> active) →
    drandRelayRank round v active' = drandRelayRank round v active).
Proof.
  intros Hr. exists (relay_order round active). split_and!.
  - apply relay_order_nodup.
  - apply relay_order_elem.
  - intros v i. by apply relay_rank_at.
  - intros v. apply relay_rank_other.
  - intros v active' Hp Hn. unfold drandRelayRank. by rewrite (relay_pool_order active active').
Qed.

(** * Beacons that come too late *)

Lemma next_start_later p c c' : 0 < p_RoundIntervalSeconds p ≤ 9223372036 → next_start p c ≤ block_time c' →
  next_start p c + p_RoundIntervalSeconds p ≤ next_start p c'.
Proof.
  intros Hi Hb. unfold next_start in *. destruct (next_round_start (c_TimeNs c) _ Hi) as [_ M]. destruct (next_round_start (c_TimeNs c') _ Hi) as [[L _] M'].
  set (r := nextVerificationRoundStartUnix (c_TimeNs c) _) in *. set (r' := nextVerificationRoundStartUnix (c_TimeNs c') _) in *.
  assert (r < r') as Hlt.
  { unfold block_time in Hb. pose proof (Z.mul_div_le (c_TimeNs c') (10 ^ 9) ltac:(lia)). lia. }
  apply Z.mod_divide in M as [x Hx]; [|lia]. apply Z.mod_divide in M' as [y Hy]; [|lia]. assert (x < y) by (apply (Z.mul_lt_mono_pos_r (p_RoundIntervalSeconds p)); lia). nia.
Qed.

Lemma required_parts p rs n t : drand_typed p → 0 < rs < 2 ^ 62 → requiredDrandRound p rs = Ok (n, t) →
  t ≤ rs - EffectiveDrandRoundOffsetSeconds p < t + EffectiveDrandPeriodSeconds p ∧
  t = EffectiveDrandGenesisTimeUnix p + (n - 1) * EffectiveDrandPeriodSeconds p.
Proof.
  intros Hd Hr HR. destruct (Z_le_gt_dec (EffectiveDrandGenesisTimeUnix p) (rs - EffectiveDrandRoundOffsetSeconds p)) as [Hle|Hgt].
  - destruct (required_drand p rs Hd Hr Hle) as (n' & HR' & _ & Hb). rewrite HR in HR'. injection HR' as -> ->. split; [|done]. lia.
  - exfalso. destruct Hd as (Hg & _ & Ho). destruct (effective_drand_pos p) as (? & ? & ?). unfold requiredDrandRound in HR. cbv zeta in HR. run_ok HR. guards. zb.
    rewrite i64_id in * by lia. lia.
Qed.

Section Late.
Context `{GoEnv} `{DrandSuite} {B : Type}.
Abbreviation VStore := (VStore B).

(** From the start of the round on, its beacon is refused. *)
Lemma beacon_too_late p c (s : VStore) q m c' (s' : VStore) : drand_typed p → EffectiveDrandPeriodSeconds p ≤ p_RoundIntervalSeconds p ≤ 9223372036 →
  0 ≤ c_TimeNs c < 2 ^ 60 * 10 ^ 9 → 0 ≤ c_TimeNs c' < 2 ^ 60 * 10 ^ 9 → PendingDrandRequirement p c s = Ok q → dr_Pending q = true →
  mdb_Round m = dr_RequiredDrandRound q → dr_RoundStartUnix q ≤ block_time c' → ∃ e, SubmitDrandBeacon p c' m s' = Err e.
Proof.
  intros Hd Hi Ht Ht' HQ Hp Hm Hb. destruct (SubmitDrandBeacon p c' m s') as [[b s'']|e] eqn:HS; [exfalso|by eexists].
  destruct (pending_parts _ _ _ _ HQ Hp) as (_ & _ & E & Hreq & _). rewrite E in Hb. destruct (effective_drand_pos p) as (_ & Hpp & _).
  pose proof (next_start_later p c c' ltac:(lia) Hb) as Hnext.
  destruct (next_round_start (c_TimeNs c) (p_RoundIntervalSeconds p) ltac:(lia)) as [B1 _]. destruct (next_round_start (c_TimeNs c') (p_RoundIntervalSeconds p) ltac:(lia)) as [B2 _].
  fold (next_start p c) in B1. fold (next_start p c') in B2.
  destruct (required_parts p (next_start p c) _ _ Hd ltac:(lia) Hreq) as [R1 R2].
  unfold SubmitDrandBeacon in HS. run_ok HS. guards. zb.
  match goal with HE : PendingDrandRequirement p c' s' = Ok ?x |- _ => destruct (pending_parts _ _ _ _ HE ltac:(done)) as (_ & _ & _ & Hreq' & _) end.
  destruct (required_parts p (next_start p c') _ _ Hd ltac:(lia) Hreq') as [R1' R2']. rewrite Hm in *. nia.
Qed.

(** C35 (error).  With the defaults of the chain and of the daemon only the first two relays
    can succeed: the beacon of a round is emitted about sixty seconds before the round
    starts and the relay of rank two waits for two minutes, so that what a daemon of rank
    two or more sends is refused by every block whose time is not 58 seconds or more
    behind the clock of the daemon. *)
Theorem late_fallbacks_rejected p c (s : VStore) cfg i h m resp rank total q c' (s' : VStore) :
  EffectiveDrandRoundOffsetSeconds p = DefaultDrandRoundOffsetSec → EffectiveDrandPeriodSeconds p = DefaultDrandPeriodSeconds →
  drand_typed p → 3 ≤ p_RoundIntervalSeconds p ≤ 9223372036 → 0 ≤ c_TimeNs c < 2 ^ 60 * 10 ^ 9 → 0 ≤ c_TimeNs c' < 2 ^ 60 * 10 ^ 9 →
  rl_RelayStaggerSec cfg = 0 → rl_RelayMaxDelaySec cfg = 0 → PendingDrandRequirement p c s = Ok q → ri_requirement i = Ok q → ri_verifiers i = Ok resp →
  drandRelayRank (dr_RequiredDrandRound q) (rl_VerifierAddress cfg) (ActiveVerifierRelayCandidates resp) = Ok (rank, total) → 2 ≤ rank < 2 ^ 32 →
  m ∈ (relayRequiredDrand (relay_defaults cfg) i h).2 → ri_then i - 58 < block_time c' →
  dr_RoundStartUnix q + 58 ≤ ri_then i ∧ ∃ e, SubmitDrandBeacon p c' m s' = Err e.
Proof.
  intros Ho Hper Hd Hi Ht Ht' Hs0 Hm0 HQ Hq Hresp Hrank Hr Hm Hb. unfold DefaultDrandRoundOffsetSec, DefaultDrandPeriodSeconds in *.
  apply relay_sent in Hm as (q' & resp' & rank' & total' & E1 & Hp & _ & E2 & E3 & Hround & _ & _ & Hthen). rewrite Hq in E1. injection E1 as <-. rewrite Hresp in E2. injection E2 as <-.
  cbn [rl_VerifierAddress relay_defaults rl_RelayStaggerSec rl_RelayMaxDelaySec] in E3, Hthen. rewrite Hrank in E3. injection E3 as <- <-. rewrite Hs0, Hm0 in Hthen. cbn [Z.leb] in Hthen.
  change (if 0 <=? 0 then 60 else 0) with 60 in Hthen. change (if 0 <=? 0 then 180 else 0) with 180 in Hthen. rewrite delay_is in Hthen by lia.
  destruct (pending_parts _ _ _ _ HQ Hp) as (_ & _ & E & Hreq & _).
  destruct (next_round_start (c_TimeNs c) (p_RoundIntervalSeconds p) ltac:(lia)) as [B1 _]. fold (next_start p c) in B1.
  destruct (required_parts p (next_start p c) _ _ Hd ltac:(lia) Hreq) as [R1 _]. rewrite i64_id in Hthen by lia. rewrite E. split; [lia|].
  eapply (beacon_too_late p c s q m c' s'); try done; lia.
Qed.
End Late.
