(* ===== verification/Daemon.v ===== *)
(** The verifier's daemon as a whole: the check that an assignment follows the schedule
    of the chain, the poll that starts a run for each assignment it may work on, the
    keys of the runs in flight, and the runs beside each other
    ([src/offchain/verifierd/agent.go], with the files of [Agent] and the relay of
    [Relay]). *)

From stdpp Require Import sorting.
From S2P Require Import Prelude JsBase GoBase GoHash Market GoSdk Verifiers RegParams Verification Rounds Agent Relay.

(** * The schedule of an assignment *)

Definition ComputeRoundSeed (chainID : gostr) (roundStart : Z) : list Z := Sum256 (TrimSpace chainID ++ go "|" ++ FormatInt roundStart).

(** What the daemon reads of its configuration. *)
Record Config := mkConfig {
  cf_agent : AgentConfig; cf_relay : RelayConfig; cf_RoundIntervalSeconds : Z; cf_AssignmentDelayMaxSeconds : Z; cf_DisableAssignmentCheck : bool;
  cf_ChainID : gostr }.

(** The candidates with the least hashes. *)
Definition selectDeterministicAddrs (candidates : list gostr) (k : Z) (seed : list Z) : list gostr :=
  if (k <=? 0) || (match candidates with [] => true | _ => false end) then []
  else if Z.of_nat (length candidates) <=? k then candidates
  else take (Z.to_nat k) (merge_sort fallback_le ((λ addr, (addr, Sum256 (seed ++ addr))) <$> candidates)).*1.

Section Schedule.
Context `{GoEnv} (cfg : Config).

(** The seed that the record of the round holds, if it is 32 bytes. *)
Definition meta_seed (meta : RoundMeta) : option (list Z) :=
  let seedHex := TrimSpace (rm_SeedHex meta) in
  if empty seedHex then None
  else match DecodeString seedHex with Some b => if (length b =? 32)%nat then Some b else None | None => None end.

(** The seed against the block and the beacon it is said to come from; nothing is
    checked without a block, or with one that cannot be read. *)
Definition check_seed (meta : RoundMeta) (roundStart : Z) (seed : list Z) : result err unit :=
  let anchorHashHex := TrimSpace (rm_AnchorHashHex meta) in
  let chainID := TrimSpace (cf_ChainID cfg) in
  if empty anchorHashHex || empty chainID then Ok tt
  else
    match DecodeString anchorHashHex with
    | None => Ok tt
    | Some anchorHash =>
        let drandRandomnessHex := TrimSpace (rm_DrandRandomnessHex meta) in
        expectedSeed ←
          (if (0 <? rm_DrandRound meta) && negb (empty drandRandomnessHex) then
             match DecodeString drandRandomnessHex with
             | None => Err (Errorf "invalid drand_randomness_hex in round meta")
             | Some r => Ok (ComputeRoundSeedWithDrand chainID roundStart (rm_AnchorHeight meta) anchorHash (rm_DrandRound meta) r)
             end
           else Ok (ComputeRoundSeedWithAnchor chainID roundStart (rm_AnchorHeight meta) anchorHash));
        guard_err (negb (bool_decide (expectedSeed = seed))) (Errorf "round seed mismatch against anchor/drand material")
    end.

(** Whether the assignment is the one the schedule gives; [meta] is the record of its
    round, if the chain answers with one, and [active] the bonded verifiers, if it
    answers.  The result is the selection the daemon expected, where it is not the one
    of the assignment: that is only logged. *)
Definition validateAssignmentDeterministic (meta : option RoundMeta) (active : option (list (drandRelayCandidate * Z))) (a : Assignment)
    : result err (option (list gostr)) :=
  if cf_DisableAssignmentCheck cfg then Ok None
  else
    let roundStart := a_RoundStartUnix a in
    guard_err (roundStart <=? 0) (Errorf "invalid round_start_unix");;
    let interval := if cf_RoundIntervalSeconds cfg <=? 0 then 3600 else cf_RoundIntervalSeconds cfg in
    let delayMax := if cf_AssignmentDelayMaxSeconds cfg <=? 0 then interval else cf_AssignmentDelayMaxSeconds cfg in
    r ← match meta with
        | None => Ok (interval, delayMax, None)
        | Some meta =>
            let interval := if 0 <? rm_RoundIntervalSeconds meta then rm_RoundIntervalSeconds meta else interval in
            let delayMax := if 0 <? rm_AssignmentDelayMaxSeconds meta then rm_AssignmentDelayMaxSeconds meta else delayMax in
            guard_err ((0 <? rm_VerifierSetSize meta) && (rm_VerifierSetSize meta <? Z.of_nat (length (a_Verifiers a))))
              (Errorf "assignment verifier count exceeds round verifier set size");;
            match meta_seed meta with
            | None => Ok (interval, delayMax, None)
            | Some seed => check_seed meta roundStart seed;; Ok (interval, delayMax, Some seed)
            end
        end;
    let '(interval, delayMax, seed) := r in
    let delayMax := if (delayMax <=? 0) || (interval <? delayMax) then interval else delayMax in
    roundSeed ← match seed with
                | Some seed => Ok seed
                | None =>
                    let chainID := TrimSpace (cf_ChainID cfg) in
                    guard_err (empty chainID) (Errorf "submit.chain_id required for deterministic assignment validation");;
                    Ok (ComputeRoundSeed chainID roundStart)
                end;
    guard_err (negb (ComputeAssignmentStartAtUnix roundSeed (a_Domain a) roundStart interval delayMax =? a_StartAtUnix a)) (Errorf "start_at mismatch");;
    guard_err ((3600 <=? interval) && negb (Z.rem (i64 (a_StartAtUnix a - roundStart)) 60 =? 0)) (Errorf "hourly round requires minute-aligned start_at");;
    match active with
    | None => Ok None
    | Some resp =>
        let active := ActiveVerifierAddresses resp in
        let n := Z.of_nat (length (a_Verifiers a)) in
        if (match active with [] => true | _ => false end) || (n =? 0) then Ok None
        else
          let expected := SortStrings (selectDeterministicAddrs active n (roundSeed ++ TrimSpace (ToLower (a_Domain a)))) in
          if bool_decide (expected = SortStrings (a_Verifiers a)) then Ok None else Ok (Some expected)
    end.
End Schedule.

(** * The poll *)

(** A run: its key, its assignment and where it is. *)
Record agent_task := mkTask { t_key : gostr; t_assignment : Assignment; t_stage : stage }.

(** The keys in flight, the runs, and the files. *)
Record daemon := mkDaemon { d_inFlight : gset gostr; d_runs : list agent_task; d_files : gmap gostr pendingReveal }.
Definition markInFlight (key : gostr) (s : gset gostr) : gset gostr := {[key]} ∪ s.
Definition unmarkInFlight (key : gostr) (s : gset gostr) : gset gostr := s ∖ {[key]}.
Definition isInFlight (key : gostr) (s : gset gostr) : bool := bool_decide (key ∈ s).
Definition inFlightCount (d : daemon) : Z := Z.of_nat (size (d_inFlight d)).

(** What the chain lists: an assignment, which may be missing, and whether the verifier
    has submitted its result. *)
Abbreviation listed_entry := (option Assignment * bool)%type.

(** What a poll meets: the relay, the list of the chain or its error, the clock, and the
    answers the check of the schedule asks for. *)
Record poll_input := mkPoll {
  pi_relay : relay_input; pi_assignments : result err (list listed_entry); pi_now : Z; pi_meta : Z → option RoundMeta;
  pi_active : option (list (drandRelayCandidate * Z)) }.

(** ** The queries of the chain *)

Section Queries.
Context `{GoEnv} {B : Type}.
Abbreviation VStore := (VStore B).

Definition ListAssignmentsForVerifier (verifier : gostr) (includeFinalized : bool) (s : VStore) : list Assignment :=
  filter (λ a, (includeFinalized || negb (a_Finalized a)) && assignmentHasVerifier a verifier = true) (values (assignments s)).

(** By start, then by domain. *)
Definition task_le (a b : Assignment) : Prop :=
  (if a_StartAtUnix a =? a_StartAtUnix b then key_leb (a_Domain a) (a_Domain b) else a_StartAtUnix a <=? a_StartAtUnix b) = true.
#[export] Instance task_le_dec a b : Decision (task_le a b).
Proof. unfold task_le. apply _. Defined.

Definition VerifierAssignments (verifier : gostr) (s : VStore) : result err (list listed_entry) :=
  guard_err (empty verifier) ErrInvalidPublisherRequest;;
  guard_err (negb (addr_ok verifier)) (Errorf "invalid verifier address");;
  Ok ((λ a, (Some a, bool_decide (is_Some (GetSubmission (a_RoundStartUnix a) (a_Domain a) verifier s))))
        <$> merge_sort task_le (ListAssignmentsForVerifier verifier false s)).

(** The record of a round, or an error, which is [None]. *)
Definition QueryRoundMeta (round : Z) (s : VStore) : option RoundMeta := if round <=? 0 then None else GetRoundMeta round s.
End Queries.

Section Poll.
Context `{GoEnv} `{UrlHost} (cfg : Config).

(** Whether a run may start. *)
Definition may_run (i : poll_input) (d : daemon) (e : listed_entry) : option Assignment :=
  match e with
  | (None, _) => None
  | (Some a, submitted) =>
      if a_Finalized a || submitted || (a_DeadlineUnix a <? pi_now i) then None
      else
        match validateAssignmentDeterministic cfg (if a_RoundStartUnix a <=? 0 then None else pi_meta i (a_RoundStartUnix a)) (pi_active i) a with
        | Err _ => None
        | Ok _ =>
            let open := negb ((0 <? ag_CommitWindowSeconds (cf_agent cfg)) &&
                              (i64 (a_StartAtUnix a + ag_CommitWindowSeconds (cf_agent cfg)) <? pi_now i)) in
            let pending := match pendingRevealForAssignment (cf_agent cfg) a (d_files d) with Ok (Some _) => true | _ => false end in
            if (open || pending) && negb (isInFlight (agentKey a) (d_inFlight d)) then Some a else None
        end
  end.

Definition poll_entry (i : poll_input) (d : daemon) (e : listed_entry) : daemon :=
  match may_run i d e with
  | None => d
  | Some a => mkDaemon (markInFlight (agentKey a) (d_inFlight d)) (d_runs d ++ [mkTask (agentKey a) a Starting]) (d_files d)
  end.

(** The poll: the relay comes first, and what fails there is recorded and does not stop
    it. *)
Definition PollOnce (i : poll_input) (h : daemonHealth) (d : daemon) : daemonHealth * daemon * option err * list MsgSubmitDrandBeacon :=
  let '(h, e, sent) := relayRequiredDrand (cf_relay cfg) (pi_relay i) h in
  let h := match e with Some e => recordDrandSubmission 0 (Some e) h | None => h end in
  match pi_assignments i with
  | Err e => (h, d, Some e, sent)
  | Ok l => (h, foldl (poll_entry i) d l, None, sent)
  end.

(** One turn of the main loop: a poll, whose result is recorded at the time [now]. *)
Definition main_turn (now : Z) (i : poll_input) (st : daemonHealth * daemon) : daemonHealth * daemon :=
  let '(h, d, e, _) := PollOnce i st.1 st.2 in (recordPollResult now e h, d).

(** * The daemon *)

(** What happens: one entry of a poll is looked at; the run at a place of the list goes
    on until it sleeps or sends; the process is started again, with its files. *)
Inductive event := EEntry (i : poll_input) (e : listed_entry) | ERun (n : nat) (i : input) | ERestart.

(** A run that is finished takes its key out. *)
Definition daemon_step (d : daemon) (ev : event) : daemon * list (gostr * action) :=
  match ev with
  | EEntry i e => (poll_entry i d e, [])
  | ERun n i =>
      match d_runs d !! n with
      | None => (d, [])
      | Some t =>
          let '(st, fs, sent) := agent_step (cf_agent cfg) (t_assignment t) i (t_stage t) (d_files d) in
          let tagged := (λ x, (t_key t, x)) <$> sent in
          match st with
          | Finished => (mkDaemon (unmarkInFlight (t_key t) (d_inFlight d)) (delete n (d_runs d)) fs, tagged)
          | _ => (mkDaemon (d_inFlight d) (<[n := mkTask (t_key t) (t_assignment t) st]> (d_runs d)) fs, tagged)
          end
      end
  | ERestart => (mkDaemon ∅ [] (d_files d), [])
  end.

Fixpoint daemon_run (d : daemon) (l : list event) : daemon * list (gostr * action) :=
  match l with
  | [] => (d, [])
  | ev :: l =>
      let '(d, sent) := daemon_step d ev in
      let '(d, rest) := daemon_run d l in (d, sent ++ rest)
  end.
End Poll.
