(* ===== verification/DaemonProofs.v ===== *)
(** The runs of the daemon beside each other: at most one per assignment, each with a
    file of its own, so that what the daemon does for an assignment is a history of that
    assignment alone. *)

From S2P Require Import Prelude JsBase GoBase GoHash Market MarketProofs GoSdk Tokenomics Verifiers RegParams Verification VerificationProofs Rounds Agent AgentProofs Relay Daemon.

(** * One run, one file *)

Section Local.
Context `{GoEnv} `{UrlHost} (cfg : AgentConfig).
Abbreviation files := (gmap gostr pendingReveal).
Abbreviation path_of a := (pendingRevealPathForKey cfg (agentKey a)).

(** What a step does to the file at a path: nothing, remove it, or write it. *)
Definition write (path : option gostr) (eff : option (option pendingReveal)) (fs : files) : files :=
  match path, eff with
  | Some path, Some (Some x) => <[path := x]> fs
  | Some path, Some None => delete path fs
  | _, _ => fs
  end.

Lemma write_other path other eff fs : path ≠ Some other → write path eff fs !! other = fs !! other.
Proof. destruct path as [p|], eff as [[x|]|]; cbn; try done; intros Hne; [rewrite lookup_insert_ne|rewrite lookup_delete_ne]; congruence. Qed.

Lemma write_same path eff fs gs : fs !! path = gs !! path → write (Some path) eff fs !! path = write (Some path) eff gs !! path.
Proof. destruct eff as [[x|]|]; cbn; try done; intros _; [by rewrite !lookup_insert_eq|by rewrite !lookup_delete_eq]. Qed.

(** The result a run holds is of its assignment. *)
Definition key_ok (a : Assignment) (st : stage) : Prop := ∀ p, held st = Some p → pr_Key p = agentKey a.

Lemma delete_write a fs : deletePendingReveal cfg a fs = write (path_of a) (Some None) fs.
Proof. unfold deletePendingReveal. by destruct (path_of a). Qed.

Lemma save_write a io now p : pr_Key p = agentKey a →
  (∃ eff, ∀ fs, savePendingReveal cfg io now p fs = Ok (write (path_of a) eff fs)) ∨ ∃ e, ∀ fs, savePendingReveal cfg io now p fs = Err e.
Proof.
  intros Hk. unfold savePendingReveal. rewrite Hk. destruct (blank (ag_StateDir cfg)) eqn:Hb; [left; exists None; intros fs; by destruct (path_of a)|].
  destruct (path_of a) as [path|]; [|right; by eexists]. destruct io; cbn; [left; by exists (Some (Some (stamped now p)))|right; by eexists].
Qed.

(** A step reads and changes the file of its assignment only. *)
Definition local_to (a : Assignment) (o : option pendingReveal) (f : files → stage * files * list action) : Prop :=
  ∃ st eff sent, key_ok a st ∧ ∀ fs, (path ← path_of a; fs !! path) = o → f fs = (st, write (path_of a) eff fs, sent).

Lemma local_keep a o st sent : key_ok a st → local_to a o (λ fs, (st, fs, sent)).
Proof. intros Hk. exists st, None, sent. split; [done|]. intros fs _. by destruct (path_of a). Qed.

Lemma local_delete a o sent : local_to a o (λ fs, (Finished, deletePendingReveal cfg a fs, sent)).
Proof. exists Finished, (Some None), sent. split; [by intros ?|]. intros fs _. by rewrite delete_write. Qed.

Lemma local_save a o io now p st sent : pr_Key p = agentKey a → key_ok a st →
  local_to a o (λ fs, match savePendingReveal cfg io now p fs with Ok fs => (st, fs, sent) | Err _ => (Finished, fs, sent) end).
Proof.
  intros Hk Hst. destruct (save_write a io now p Hk) as [[eff Hs]|[e Hs]].
  - exists st, eff, sent. split; [done|]. intros fs _. by rewrite Hs.
  - exists Finished, None, sent. split; [by intros ?|]. intros fs _. rewrite Hs. by destruct (path_of a).
Qed.

Lemma fresh_local a i o : local_to a o (fresh_step cfg a i).
Proof.
  assert (key_ok a Finished) as Hf by by intros ?. unfold fresh_step. destruct (_ || _); [by apply local_keep|].
  destruct (if empty _ then _ else _) as [owner|]; [|by apply local_keep]. destruct (i_random i); [|by apply local_keep].
  destruct (_ || _); [by apply local_keep|]. apply local_save; [done|]. by intros p [= <-].
Qed.

Lemma load_local a i o : local_to a o (agent_step cfg a i Starting).
Proof.
  assert (key_ok a Finished) as Hf by by intros ?. unfold agent_step. cbn beta iota. destruct (_ <=? _); [by apply local_keep|]. destruct (_ <? _); [apply local_delete|].
  unfold pendingRevealForAssignment. destruct o as [q|].
  - destruct (validateForAssignment q a (ag_VerifierAddress cfg)) as [[]|] eqn:Ev.
    + exists (Ready q), None, []. split; [intros p [= <-]; by apply (valid_key cfg)|]. intros fs ->. rewrite Ev. cbn. by destruct (path_of a).
    + exists Finished, None, []. split; [done|]. intros fs ->. rewrite Ev. cbn. by destruct (path_of a).
  - exists Fresh, None, []. split; [by intros ?|]. intros fs ->. by destruct (path_of a).
Qed.

Lemma step_local a i st o : key_ok a st → local_to a o (agent_step cfg a i st).
Proof.
  intros Hk. assert (key_ok a Finished) as Hf by by intros ?. destruct st as [| |p|p|p|p|].
  - apply load_local.
  - apply fresh_local.
  - apply local_keep. by destruct (_ && _).
  - unfold agent_step. cbn beta iota. destruct (tx_done _ _); [|destruct (_ && _); by apply local_keep]. specialize (Hk p eq_refl). apply local_save; [done|]. by intros q [= <-].
  - unfold agent_step. cbn beta iota. destruct (negb _); [by apply local_keep|]. destruct (_ <? _); [apply local_delete|by apply local_keep].
  - unfold agent_step. cbn beta iota. destruct (tx_done _ _); [apply local_delete|]. destruct (_ && _ && _); [by apply local_keep|].
    destruct (negb _ || _); [apply local_delete|by apply local_keep].
  - by apply local_keep.
Qed.
End Local.

(** * The keys in flight *)

Section Flight.
Context `{GoEnv} `{UrlHost} (cfg : Config).

(** The keys in flight are those of the runs, each has one run, and a run is of the
    assignment its key names. *)
Record flight (d : daemon) : Prop := {
  fl_one : NoDup (t_key <$> d_runs d);
  fl_keys k : k ∈ d_inFlight d ↔ k ∈ t_key <$> d_runs d;
  fl_tasks t : t ∈ d_runs d → t_key t = agentKey (t_assignment t) ∧ key_ok (t_assignment t) (t_stage t) }.

Lemma flight_start fs : flight (mkDaemon ∅ [] fs).
Proof. split; cbn; [constructor|intros k; set_solver|by intros t ?%not_elem_of_nil]. Qed.

Lemma may_run_Some i d e a : may_run cfg i d e = Some a → e.1 = Some a ∧ agentKey a ∉ d_inFlight d.
Proof.
  unfold may_run. destruct e as [[b|] sub]; [|done]. destruct (_ || _ || _); [done|]. destruct (validateAssignmentDeterministic _ _ _ _); [|done].
  destruct ((_ || _) && _) eqn:E; [|done]. intros [= <-]. split; [done|]. apply andb_true_iff in E as [_ E]. unfold isInFlight in E. zb. by apply bool_decide_eq_false in E.
Qed.

Lemma flight_entry i d e : flight d → flight (poll_entry cfg i d e).
Proof.
  intros [H1 H2 H3]. unfold poll_entry. destruct (may_run cfg i d e) as [a|] eqn:E; [|done]. apply may_run_Some in E as [_ Hn]. rewrite H2 in Hn. split; cbn.
  - rewrite fmap_app. apply list.NoDup_app. split_and!; [done| |apply NoDup_singleton]. by intros k Hk ->%list_elem_of_singleton.
  - intros k. unfold markInFlight. rewrite fmap_app, elem_of_app, elem_of_union, elem_of_singleton, H2. cbn. rewrite list_elem_of_singleton. tauto.
  - intros t [Ht|Ht]%elem_of_app; [by apply H3|]. apply list_elem_of_singleton in Ht as ->. cbn. split; [done|]. by intros ?.
Qed.

Lemma delete_NoDup {A} (l : list A) n x : NoDup l → l !! n = Some x → ∀ y, y ∈ delete n l ↔ y ∈ l ∧ y ≠ x.
Proof.
  intros Hn Hx y. pose proof (delete_Permutation l n x Hx) as Hp. revert Hp. generalize (delete n l). intros k Hp.
  rewrite Hp in Hn. apply list.NoDup_cons in Hn as [Hni _]. rewrite Hp, elem_of_cons.
  split; [intros Hy; split; [by right|congruence]|]. intros [ [?|?] ?]; done.
Qed.

Lemma flight_step d ev : flight d → flight (daemon_step cfg d ev).1.
Proof.
  intros Hd. destruct ev as [i e|n i|]; cbn [daemon_step fst]; [by apply flight_entry| |apply flight_start].
  destruct (d_runs d !! n) as [t|] eqn:Hn; [|done]. pose proof Hd as [H1 H2 H3]. destruct (H3 t) as [Hk Hok]; [by eapply list_elem_of_lookup_2|].
  destruct (step_local (cf_agent cfg) (t_assignment t) i (t_stage t) (path ← pendingRevealPathForKey (cf_agent cfg) (agentKey (t_assignment t)); d_files d !! path) Hok)
    as (st & eff & sent & Hst & Hs). rewrite (Hs _ eq_refl).
  assert (flight (mkDaemon (d_inFlight d) (<[n := mkTask (t_key t) (t_assignment t) st]> (d_runs d)) (write (pendingRevealPathForKey (cf_agent cfg) (agentKey (t_assignment t))) eff (d_files d))))
    as Hmove.
  { assert (t_key <$> <[n := mkTask (t_key t) (t_assignment t) st]> (d_runs d) = t_key <$> d_runs d) as Ek.
    { rewrite list_fmap_insert. cbn. apply list_insert_id. by rewrite list_lookup_fmap, Hn. }
    split; cbn [d_runs d_inFlight]; rewrite ?Ek; try done. intros t' Ht'. apply list_elem_of_lookup in Ht' as [m Hm].
    destruct (decide (m = n)) as [->|Hne]; [|rewrite list_lookup_insert_ne in Hm by done; apply H3; by eapply list_elem_of_lookup_2].
    rewrite list_lookup_insert_eq in Hm by (by eapply lookup_lt_Some). injection Hm as <-. done. }
  destruct st; cbn [fst]; try exact Hmove. split; cbn [d_runs d_inFlight].
  - eapply sublist_NoDup; [exact H1|]. apply fmap_sublist, sublist_delete.
  - intros k. unfold unmarkInFlight. rewrite elem_of_difference, elem_of_singleton, H2. symmetry.
    assert (t_key <$> delete n (d_runs d) = delete n (t_key <$> d_runs d)) as -> by apply list_fmap_delete.
    apply delete_NoDup; [done|]. by rewrite list_lookup_fmap, Hn.
  - intros t' Ht'. apply H3. eapply elem_of_submseteq; [exact Ht'|]. apply sublist_submseteq, sublist_delete.
Qed.
End Flight.

(** * The history of one assignment *)

Section Project.
Context `{GoEnv} `{UrlHost} (cfg : Config) (a : Assignment) (path : gostr).
Hypothesis has_path : pendingRevealPathForKey (cf_agent cfg) (agentKey a) = Some path.
Abbreviation files := (gmap gostr pendingReveal).
Abbreviation path_of b := (pendingRevealPathForKey (cf_agent cfg) (agentKey b)).

(** The steps of the runs with the key of the assignment, and their starts. *)
Fixpoint project (d : daemon) (l : list event) : list (option input) :=
  match l with
  | [] => []
  | ev :: l =>
      let rest := project (daemon_step cfg d ev).1 l in
      match ev with
      | EEntry i e => match may_run cfg i d e with Some b => if decide (agentKey b = agentKey a) then None :: rest else rest | None => rest end
      | ERun n i => match d_runs d !! n with Some t => if decide (t_key t = agentKey a) then Some i :: rest else rest | None => rest end
      | ERestart => rest
      end
  end.

(** What is sent under the key of the assignment. *)
Definition sent_for (l : list (gostr * action)) : list action := snd <$> filter (λ x, x.1 = agentKey a) l.

(** No other assignment that is listed has the file of this one. *)
Definition own_file (l : list event) : Prop := ∀ i b sub, EEntry i (Some b, sub) ∈ l → path_of b = Some path → b = a.

(** The daemon next to the run of the assignment on its own: the same file, and the same
    stage while the daemon has a run. *)
Record beside (d : daemon) (st : stage) (fs : files) : Prop := {
  bs_flight : flight d;
  bs_file : d_files d !! path = fs !! path;
  bs_own t : t ∈ d_runs d → path_of (t_assignment t) = Some path → t_assignment t = a;
  bs_stage t : t ∈ d_runs d → t_key t = agentKey a → t_stage t = st }.

Lemma sent_for_app l k : sent_for (l ++ k) = sent_for l ++ sent_for k.
Proof. unfold sent_for. by rewrite list.filter_app, fmap_app. Qed.

Lemma sent_for_tagged k (l : list action) : sent_for ((λ x, (k, x)) <$> l) = if decide (k = agentKey a) then l else [].
Proof.
  unfold sent_for. induction l as [|x l IH]; [by destruct (decide _)|]. rewrite fmap_cons, filter_cons. cbn [fst].
  destruct (decide (k = agentKey a)); [|exact IH]. rewrite fmap_cons, IH. done.
Qed.

Lemma in_inserted {A} (l : list A) n x y : x ∈ <[n := y]> l → x = y ∨ x ∈ l.
Proof.
  intros [m Hm]%list_elem_of_lookup. destruct (decide (m = n)) as [->|Hne].
  - destruct (decide (n < length l)%nat); [rewrite list_lookup_insert_eq in Hm by done; left; congruence|].
    rewrite list_insert_ge in Hm by lia. right. by eapply list_elem_of_lookup_2.
  - rewrite list_lookup_insert_ne in Hm by done. right. by eapply list_elem_of_lookup_2.
Qed.

Lemma same_key d n t t' : flight d → d_runs d !! n = Some t → t' ∈ d_runs d → t_key t' = t_key t → t' = t.
Proof.
  intros Hf Hn [m Hm]%list_elem_of_lookup Hk. assert (m = n) as ->; [|congruence].
  eapply (NoDup_lookup (t_key <$> d_runs d)); [apply Hf|by rewrite list_lookup_fmap, Hm|by rewrite list_lookup_fmap, Hn; cbn; rewrite Hk].
Qed.

Lemma in_deleted (l : list agent_task) n t t' : NoDup (t_key <$> l) → l !! n = Some t → t' ∈ delete n l → t' ∈ l ∧ t_key t' ≠ t_key t.
Proof.
  intros Hn Ht Hin. split; [eapply elem_of_submseteq; [exact Hin|]; apply sublist_submseteq, sublist_delete|].
  apply (list_elem_of_fmap_2 t_key) in Hin. rewrite list_fmap_delete in Hin.
  eapply (delete_NoDup (t_key <$> l) n (t_key t)) in Hin as [_ ?]; [done..|by rewrite list_lookup_fmap, Ht].
Qed.

(** What a step of a run leaves of the runs. *)
Lemma run_step d n i t : flight d → d_runs d !! n = Some t →
  ∃ st eff sent, (∀ fs, (p ← path_of (t_assignment t); fs !! p) = (p ← path_of (t_assignment t); d_files d !! p) →
      agent_step (cf_agent cfg) (t_assignment t) i (t_stage t) fs = (st, write (path_of (t_assignment t)) eff fs, sent)) ∧
    (daemon_step cfg d (ERun n i)).2 = (λ x, (t_key t, x)) <$> sent ∧
    d_files (daemon_step cfg d (ERun n i)).1 = write (path_of (t_assignment t)) eff (d_files d) ∧
    ∀ t', t' ∈ d_runs (daemon_step cfg d (ERun n i)).1 → (t' ∈ d_runs d ∧ t_key t' ≠ t_key t) ∨ t' = mkTask (t_key t) (t_assignment t) st.
Proof.
  intros Hf Hn. pose proof (list_elem_of_lookup_2 _ _ _ Hn) as Ht. destruct (fl_tasks d Hf t Ht) as [Hkey Hok].
  destruct (step_local (cf_agent cfg) (t_assignment t) i (t_stage t) (p ← path_of (t_assignment t); d_files d !! p) Hok) as (st & eff & sent & _ & Hs).
  exists st, eff, sent. split; [exact Hs|]. pose proof (flight_step cfg d (ERun n i) Hf) as Hfl. cbn [daemon_step] in *. rewrite Hn in *. rewrite (Hs _ eq_refl) in *.
  assert (∀ t', t' ∈ <[n := mkTask (t_key t) (t_assignment t) st]> (d_runs d) → (t' ∈ d_runs d ∧ t_key t' ≠ t_key t) ∨ t' = mkTask (t_key t) (t_assignment t) st) as Hmove.
  { intros t' [m Hm]%list_elem_of_lookup. destruct (decide (m = n)) as [->|Hne].
    - rewrite list_lookup_insert_eq in Hm by (by eapply lookup_lt_Some). right. congruence.
    - rewrite list_lookup_insert_ne in Hm by done. left. split; [by eapply list_elem_of_lookup_2|]. intros Hk. apply Hne.
      eapply (NoDup_lookup (t_key <$> d_runs d)); [apply Hf|by rewrite list_lookup_fmap, Hm|by rewrite list_lookup_fmap, Hn; cbn; rewrite Hk]. }
  destruct st; cbn [fst snd d_files d_runs] in *; (split; [done|]); (split; [done|]); try exact Hmove.
  intros t' Ht'. left. eapply in_deleted; [apply Hf|exact Hn|exact Ht'].
Qed.

(** A step of a run of the assignment is a step of the run on its own. *)
Lemma beside_mine d st fs n i t : beside d st fs → d_runs d !! n = Some t → t_key t = agentKey a →
  let r := agent_step (cf_agent cfg) a i st fs in
  sent_for (daemon_step cfg d (ERun n i)).2 = r.2 ∧ beside (daemon_step cfg d (ERun n i)).1 r.1.1 r.1.2.
Proof.
  intros Hb Hn Hk. pose proof (flight_step cfg d (ERun n i) (bs_flight _ _ _ Hb)) as Hfl. destruct Hb as [Hf Hfile Hown Hst].
  pose proof (list_elem_of_lookup_2 _ _ _ Hn) as Ht. destruct (fl_tasks d Hf t Ht) as [Hkey Hok].
  assert (t_assignment t = a) as Ea by (apply Hown; [done|]; rewrite <- Hkey, Hk; done).
  destruct (run_step d n i t Hf Hn) as (st' & eff & sent & Hs & Hsent & Hfiles & Hruns). rewrite Ea, has_path in *. cbn [mbind option_bind] in Hs.
  rewrite (Hst t Ht Hk) in Hs. rewrite (Hs fs (eq_sym Hfile)). cbn [fst snd]. split; [by rewrite Hsent, sent_for_tagged, decide_True|]. split; [done|..].
  - rewrite Hfiles. by apply write_same.
  - intros t' [[Ht' _]| ->]%Hruns; [by apply Hown|done].
  - intros t' [[Ht' Hne]| ->]%Hruns Hk'; [congruence|done].
Qed.

(** A step of another run leaves it as it is. *)
Lemma beside_other d st fs n i t : beside d st fs → d_runs d !! n = Some t → t_key t ≠ agentKey a →
  sent_for (daemon_step cfg d (ERun n i)).2 = [] ∧ beside (daemon_step cfg d (ERun n i)).1 st fs.
Proof.
  intros Hb Hn Hk. pose proof (flight_step cfg d (ERun n i) (bs_flight _ _ _ Hb)) as Hfl. destruct Hb as [Hf Hfile Hown Hst].
  pose proof (list_elem_of_lookup_2 _ _ _ Hn) as Ht. destruct (fl_tasks d Hf t Ht) as [Hkey Hok].
  assert (path_of (t_assignment t) ≠ Some path) as Hp by (intros Hp; apply Hk; by rewrite Hkey, (Hown t Ht Hp)).
  destruct (run_step d n i t Hf Hn) as (st' & eff & sent & Hs & Hsent & Hfiles & Hruns).
  split; [by rewrite Hsent, sent_for_tagged, decide_False|]. split; [done|..].
  - by rewrite Hfiles, write_other.
  - intros t' [[Ht' _]| ->]%Hruns; [by apply Hown|done].
  - intros t' [[Ht' Hne]| ->]%Hruns Hk'; [by apply Hst|done].
Qed.

Lemma beside_entry d st fs i e : beside d st fs → (∀ b sub, e = (Some b, sub) → path_of b = Some path → b = a) →
  beside (poll_entry cfg i d e) (match may_run cfg i d e with Some b => if decide (agentKey b = agentKey a) then Starting else st | None => st end) fs.
Proof.
  intros Hb He. pose proof (flight_entry cfg i d e (bs_flight _ _ _ Hb)) as Hfl. unfold poll_entry in *. destruct (may_run cfg i d e) as [b|] eqn:Em; [|done].
  destruct Hb as [Hf Hfile Hown Hst]. apply may_run_Some in Em as [Eb Hn]. rewrite (fl_keys d Hf) in Hn. destruct e as [o sub]. cbn in Eb. subst o.
  split; [done|done|..]; cbn [d_runs].
  - intros t [Ht|Ht]%elem_of_app; [by apply Hown|]. apply list_elem_of_singleton in Ht as ->. cbn. by eapply He.
  - intros t [Ht|Ht]%elem_of_app Hk.
    + destruct (decide (agentKey b = agentKey a)) as [E|]; [|by apply Hst]. exfalso. apply Hn. rewrite E, <- Hk. by apply list_elem_of_fmap_2.
    + apply list_elem_of_singleton in Ht as ->. cbn in *. by rewrite decide_True.
Qed.

(** What the daemon sends for the assignment is what a run on its own sends. *)
Lemma daemon_projects l : ∀ d st fs, beside d st fs → own_file l → sent_for (daemon_run cfg d l).2 = (agent_run (cf_agent cfg) a (project d l) st fs).2.
Proof.
  induction l as [|ev l IH]; intros d st fs Hb Ho; [done|]. assert (own_file l) as Ho' by (intros i b sub Hi; apply (Ho i b sub); by right).
  cbn [daemon_run project]. destruct (daemon_step cfg d ev) as [d1 sent] eqn:Ed. destruct (daemon_run cfg d1 l) as [d2 rest] eqn:Er. cbn [fst snd].
  rewrite sent_for_app. assert (rest = (daemon_run cfg d1 l).2) as -> by (by rewrite Er). clear Er. destruct ev as [i e|n i|].
  - cbn [daemon_step] in Ed. injection Ed as <- <-. pose proof (beside_entry d st fs i e Hb) as Hb'.
    rewrite (IH _ _ _ (Hb' ltac:(intros b sub -> Hp; eapply Ho; [by left|done])) Ho'). cbn [app sent_for]. unfold sent_for at 1. cbn.
    destruct (may_run cfg i d e) as [b|]; [|done]. by destruct (decide _).
  - destruct (d_runs d !! n) as [t|] eqn:Hn.
    2:{ cbn [daemon_step] in Ed. rewrite Hn in Ed. injection Ed as <- <-. cbn. by apply IH. }
    assert (d1 = (daemon_step cfg d (ERun n i)).1 ∧ sent = (daemon_step cfg d (ERun n i)).2) as [-> ->] by (by rewrite Ed). clear Ed.
    destruct (decide (t_key t = agentKey a)) as [Hk|Hk].
    + destruct (beside_mine d st fs n i t Hb Hn Hk) as [-> Hb']. rewrite (IH _ _ _ Hb' Ho'). cbn [agent_run].
      destruct (agent_step (cf_agent cfg) a i st fs) as [[st' fs'] sent']. cbn [fst snd]. by destruct (agent_run _ _ _ st' fs') as [[? ?] ?].
    + destruct (beside_other d st fs n i t Hb Hn Hk) as [-> Hb']. cbn [app]. by apply IH.
  - cbn [daemon_step] in Ed. injection Ed as <- <-. cbn [app]. unfold sent_for at 1. cbn. apply IH; [|done].
    destruct Hb as [_ Hfile _ _]. split; [apply flight_start|done|by intros t ?%not_elem_of_nil..].
Qed.
End Project.
