(* ===== verification/ScheduleInv.v ===== *)
(** The record of a round and its assignments: along every history of the chain an
    assignment starts when the recorded seed of its round says, the seed is that of the
    block and the beacon recorded with it, and no more verifiers are assigned than the
    round had. *)

From stdpp Require Import sorting.
From S2P Require Import Prelude JsBase GoBase GoHash Market MarketProofs GoSdk Tokenomics Verifiers RegParams Verification VerificationProofs BankFrame ChainInv Rounds RoundProofs Rewards RewardProofs RoundSteps RoundInv Chain EndBlock Emission Halts ChainProps RoundProps FinalizeTotal RewardsTotal AssignTotal Liveness Agent AgentProofs AgentProps Relay RelayProofs RelayProps Daemon.

Section Tasks.
Context `{GoEnv} `{!AddrText} `{DrandSuite} {B : Type} `{BankKeeper B}.
Abbreviation VStore := (VStore B).

(** The same task: what is settled of an assignment later is not part of it. *)
Record same_task (a a' : Assignment) : Prop := {
  st_round : a_RoundStartUnix a' = a_RoundStartUnix a; st_domain : a_Domain a' = a_Domain a;
  st_start : a_StartAtUnix a' = a_StartAtUnix a; st_verifiers : a_Verifiers a' = a_Verifiers a }.

#[global] Instance same_task_preorder : PreOrder same_task.
Proof. split; [by split|]. intros a b c [? ? ? ?] [? ? ? ?]. split; congruence. Qed.

(** The tasks and the records of the rounds stay. *)
Record tasks_kept (s s' : VStore) : Prop := {
  tk_metas : roundMetas (rounds s') = roundMetas (rounds s);
  tk_last : lastRoundStart (rounds s') = lastRoundStart (rounds s);
  tk_tasks k a' : assignments s' !! k = Some a' → ∃ a, assignments s !! k = Some a ∧ same_task a a' }.

Lemma tasks_same s s' : assignments s' = assignments s → rounds s' = rounds s → tasks_kept s s'.
Proof. intros Ea Er. split; [by rewrite Er..|]. intros k a. rewrite Ea. intros Ha. by exists a. Qed.

#[global] Instance tasks_kept_preorder : PreOrder tasks_kept.
Proof.
  split; [intros s; by apply tasks_same|]. intros s1 s2 s3 [M1 L1 T1] [M2 L2 T2]. split; [congruence..|].
  intros k a (b & Hb & ?)%T2. destruct (T1 k b Hb) as (c & Hc & ?). exists c. split; [done|]. by etrans.
Qed.

Lemma settle_tasks order p r (s s' : VStore) : chain_inv s → 0 ≤ pool_funded s → settle_round order p r s = Ok s' → tasks_kept s s'.
Proof.
  intros Hi Hf HS. destruct (settle_round_Ok _ _ _ _ _ Hi Hf HS) as [[-> _]|[[-> _]|Hd]]; [done|by apply tasks_same|].
  split; [by rewrite (rd_frame _ _ _ _ Hd)..|]. intros k a. rewrite (rd_marked _ _ _ _ Hd). intros (b & Hb & ->)%fmap_Some. exists b. split; [done|]. by case_decide.
Qed.

Lemma exec_tasks order o (s s' : VStore) : registry_inv s → op_typed o → (∀ p c, o ≠ OAssign p c) → exec order o s = Ok s' → tasks_kept s s'.
Proof.
  intros [Hi Hr] Ht Ho HE. destruct o; cbn [exec op_typed] in *.
  1-4, 12: by apply on_market_Ok in HE as (x & _ & ->); apply tasks_same.
  - unfold SubmitVerificationCommit in HE. run_ok HE. injection HE as <-. by apply tasks_same.
  - run_ok HE. injection HE as <-. destruct r as [x t]. unfold RevealVerification in E. run_ok E. injection E as <- <-.
    match goal with E : SetSubmission _ _ = _ |- _ => apply SetSubmission_Ok in E as [_ ->] end. by apply tasks_same.
  - destruct (Bond_moves _ _ _ (ri_bonds _ Hr) HE) as (addr & n & _ & -> & _). by apply tasks_same.
  - destruct (Unbond_moves _ _ _ (ri_bonds _ Hr) HE) as (addr & n & _ & -> & _). by apply tasks_same.
  - apply bind_Ok_inv in HE as ([x t] & HE & [= <-]). unfold SubmitDrandBeacon in HE. run_ok HE. injection HE as <- <-.
    match goal with E : SetDrandBeacon _ _ = Ok _ |- _ => apply SetDrandBeacon_Ok in E as (_ & _ & lt & ->) end. split; [done..|]. intros k a Ha. by exists a.
  - destruct (finalize_rest _ _ _ _ _ _ (proj1 Ht) Hi HE) as (Er & _). split; [by rewrite Er..|]. intros k a' Ha'.
    pose proof (finalize_marks _ _ _ _ _ _ (proj1 Ht) Hi HE k) as Hm. destruct (assignments s !! k) as [a|]; [|congruence].
    destruct Hm as (b & Hb & Hc). exists a. split; [done|]. rewrite Ha' in Hb. injection Hb as <-. destruct (_ || _); [by subst|]. by destruct Hc as [v ->].
  - refine (proj2 (proj2 (rewards_ind order p (λ t, tasks_kept s t) s s' Hi Hr _ _ HE))); [|done]. intros r t t' _ _ Hit Hrt Ht' Hst.
    etrans; [exact Hst|]. by eapply settle_tasks; [|apply Hrt|].
  - by destruct (Ho p c).
Qed.

(** An operation adds at most one verifier. *)
Lemma exec_count order o (s s' : VStore) : registry_inv s → op_typed o → exec order o s = Ok s' →
  (size (verifiers (bond_table s')) ≤ S (size (verifiers (bond_table s))))%nat.
Proof.
  intros Hi Ht HE. destruct (is_bonding o) eqn:Eb.
  - pose proof (ri_bonds _ (rg_rounds _ Hi)) as Hb. destruct o; try done; cbn [exec] in HE.
    + destruct (Bond_moves _ _ _ Hb HE) as (addr & n & _ & _ & Hm). rewrite (bo_table _ _ _ _ _ _ Hm), map_size_insert. destruct (_ !! _); cbn; lia.
    + destruct (Unbond_moves _ _ _ Hb HE) as (addr & n & _ & _ & Hm). rewrite (ub_table _ _ _ _ _ _ Hm). cbv zeta.
      destruct (_ <? _); [rewrite map_size_delete|rewrite map_size_insert]; destruct (_ !! _); cbn; lia.
  - destruct (exec_bonds order o s s' Hi Ht Eb HE) as [-> _]. lia.
Qed.
End Tasks.

(** * The check of the daemon *)

Section Check.
Context `{GoEnv}.

(** The record of a round, with its seed, and one of its assignments. *)
Record fits (chain : gostr) (meta : RoundMeta) (seed : list Z) (a : Assignment) : Prop := {
  ft_round : 0 < a_RoundStartUnix a;
  ft_seed : rm_SeedHex meta = EncodeToString seed ∧ length seed = 32%nat ∧ bytes seed;
  ft_interval : 0 < rm_RoundIntervalSeconds meta;
  ft_delay : 0 < rm_AssignmentDelayMaxSeconds meta ≤ rm_RoundIntervalSeconds meta;
  ft_start : a_StartAtUnix a = ComputeAssignmentStartAtUnix seed (a_Domain a) (a_RoundStartUnix a) (rm_RoundIntervalSeconds meta) (rm_AssignmentDelayMaxSeconds meta);
  ft_size : 0 < rm_VerifierSetSize meta → Z.of_nat (length (a_Verifiers a)) ≤ rm_VerifierSetSize meta;
  ft_origin : ∃ hash, bytes hash ∧ rm_AnchorHashHex meta = EncodeToString hash ∧
    (rm_DrandRound meta = 0 ∧ seed = ComputeRoundSeedWithAnchor chain (a_RoundStartUnix a) (rm_AnchorHeight meta) hash ∨
     0 < rm_DrandRound meta ∧ some_hex (rm_DrandRandomnessHex meta) ∧
       seed = ComputeRoundSeedWithDrand chain (a_RoundStartUnix a) (rm_AnchorHeight meta) hash (rm_DrandRound meta) (hex_pairs (rm_DrandRandomnessHex meta))) }.

Lemma fits_same chain meta seed a a' : same_task a a' → fits chain meta seed a → fits chain meta seed a'.
Proof. intros [Er Ed Es Ev] [F1 F2 F3 F4 F5 F6 F7]. split; rewrite ?Er, ?Ed, ?Es, ?Ev; done. Qed.

(** The start of an assignment is at a whole minute of an hourly round. *)
Lemma minute_aligned seed domain rs interval delay : 3600 ≤ interval →
  Z.rem (i64 (ComputeAssignmentStartAtUnix seed domain rs interval delay - rs)) 60 = 0.
Proof.
  intros Hi. unfold ComputeAssignmentStartAtUnix. set (off := ComputeAssignmentOffsetSeconds _ _ _ _).
  assert (0 ≤ off < 3600 ∧ off mod 60 = 0) as [Hoff Hm].
  { unfold off, ComputeAssignmentOffsetSeconds. rewrite (proj2 (Z.leb_le 3600 interval) Hi). set (raw := be_val _).
    pose proof (Z.mod_pos_bound raw 60 ltac:(lia)). split; [lia|]. apply Z.mod_mul. lia. }
  assert (i64 (i64 (rs + off) - rs) = off) as ->.
  { transitivity (i64 off); [|apply i64_id; lia]. unfold i64. apply uwrap_eq_swrap_eq. unfold uwrap. rewrite Zminus_mod.
    pose proof (uwrap_swrap 64 (rs + off) ltac:(lia)) as Hu. unfold uwrap in Hu. rewrite Hu, <- Zminus_mod. f_equal. lia. }
  rewrite Z.rem_mod_nonneg by lia. done.
Qed.

Lemma check_seed_passes cfg chain meta seed a : TrimSpace (cf_ChainID cfg) = TrimSpace chain → fits chain meta seed a →
  check_seed cfg meta (a_RoundStartUnix a) seed = Ok tt.
Proof.
  intros Hc [_ _ _ _ _ _ (hash & Hb & Eh & Ho)]. unfold check_seed. cbv zeta. rewrite Eh, (hex_clean _ (encode_hex _ Hb)). destruct (_ || _); [done|].
  rewrite (decode_encode _ Hb), Hc. destruct Ho as [[Hz ->]|(Hp & [Hx Hn] & ->)].
  - rewrite Hz. cbn [Z.ltb Z.compare andb mbind result_bind]. unfold ComputeRoundSeedWithAnchor. by rewrite TrimSpace_idem, bool_decide_eq_true_2.
  - rewrite (proj2 (Z.ltb_lt 0 _) Hp), (hex_clean _ Hx). destruct (rm_DrandRandomnessHex meta) as [|x l] eqn:El; [done|]. rewrite <- El in *.
    assert (empty (rm_DrandRandomnessHex meta) = false) as -> by (by rewrite El). unfold DecodeString. rewrite Hx. cbn [andb negb mbind result_bind].
    unfold ComputeRoundSeedWithDrand. by rewrite TrimSpace_idem, bool_decide_eq_true_2.
Qed.

Lemma fits_passes cfg chain meta seed a active : TrimSpace (cf_ChainID cfg) = TrimSpace chain → fits chain meta seed a →
  ∃ o, validateAssignmentDeterministic cfg (Some meta) active a = Ok o.
Proof.
  intros Hc Hf. pose proof (check_seed_passes cfg chain meta seed a Hc Hf) as Hs. destruct Hf as [F1 (F2 & F2' & F2'') F3 F4 F5 F6 _].
  assert (meta_seed meta = Some seed) as Hm.
  { unfold meta_seed. rewrite F2, (hex_clean _ (encode_hex _ F2'')), (decode_encode _ F2''), F2'. by destruct seed. }
  unfold validateAssignmentDeterministic. destruct (cf_DisableAssignmentCheck cfg); [by eexists|]. cbv zeta. rewrite (proj2 (Z.leb_gt _ _) F1). cbn [guard_err mbind result_bind].
  assert ((0 <? rm_VerifierSetSize meta) && (rm_VerifierSetSize meta <? Z.of_nat (length (a_Verifiers a))) = false) as ->.
  { destruct (Z.ltb_spec 0 (rm_VerifierSetSize meta)) as [Hp|]; [|done]. cbn [andb]. apply Z.ltb_ge. by apply F6. }
  cbn [guard_err mbind result_bind]. rewrite Hm, Hs. cbn [mbind result_bind]. rewrite (proj2 (Z.ltb_lt 0 _) F3), (proj2 (Z.ltb_lt 0 (rm_AssignmentDelayMaxSeconds meta))) by lia.
  assert ((rm_AssignmentDelayMaxSeconds meta <=? 0) || (rm_RoundIntervalSeconds meta <? rm_AssignmentDelayMaxSeconds meta) = false) as ->.
  { apply orb_false_iff. split; [apply Z.leb_gt|apply Z.ltb_ge]; lia. }
  rewrite <- F5, Z.eqb_refl. cbn [negb guard_err mbind result_bind].
  assert ((3600 <=? rm_RoundIntervalSeconds meta) && negb (Z.rem (i64 (a_StartAtUnix a - a_RoundStartUnix a)) 60 =? 0) = false) as ->.
  { destruct (Z.leb_spec 3600 (rm_RoundIntervalSeconds meta)) as [Hi|]; [|done]. rewrite F5, minute_aligned by done. done. }
  cbn [guard_err mbind result_bind]. destruct active as [resp|]; [|by eexists]. destruct (_ || _); [by eexists|]. case_bool_decide; by eexists.
Qed.
End Check.

(** * Along a history *)

Section History.
Context `{GoEnv} `{!AddrText} `{DrandSuite} {B : Type} `{BankKeeper B}.
Abbreviation VStore := (VStore B).

(** The records of rounds are of rounds that were made, and fit their assignments. *)
Record scheduled (chain : gostr) (s : VStore) : Prop := {
  sc_made r m : in_s 64 r → 0 < r → GetRoundMeta r s = Some m → ∃ last, lastRoundStart (rounds s) = Some last ∧ r ≤ last;
  sc_fits k a : assignments s !! k = Some a → ∃ meta seed, GetRoundMeta (a_RoundStartUnix a) s = Some meta ∧ fits chain meta seed a }.

Lemma scheduled_kept chain s s' : tasks_kept s s' → scheduled chain s → scheduled chain s'.
Proof.
  intros [M L T] [S1 S2]. unfold GetRoundMeta in *. split; unfold GetRoundMeta; rewrite M, ?L; [done|].
  intros k a' Ha'. destruct (T k a' Ha') as (a & Ha & Hsame). destruct (S2 k a Ha) as (meta & seed & Hm & Hf). exists meta, seed.
  rewrite (st_round _ _ Hsame). split; [done|]. by eapply fits_same.
Qed.

Lemma roundMetaKey_inj r r' : in_s 64 r → in_s 64 r' → 0 < r → 0 < r' → roundMetaKey r = roundMetaKey r' → r = r'.
Proof.
  unfold in_s, roundMetaKey, u64. change (64 - 1) with 63. intros Hr Hr' Hp Hp' E%app_inj_2; [|by rewrite !be_bytes_length]. destruct E as [_ E]. apply be_bytes_inj in E; [|apply uwrap_range; lia..].
  rewrite !uwrap_small in E by (unfold in_u; lia). done.
Qed.

Lemma selected_count el st k seed sel : Forall (λ a, is_Some (st !! a)) el → selectDeterministicWeighted el st k seed = Ok sel → (length sel ≤ length el)%nat.
Proof.
  intros Hst Hs. destruct (Z_le_gt_dec 0 k) as [Hk|Hk].
  - destruct (select_spec el st k seed Hst Hk) as (sel' & Hs' & _ & Hl). rewrite Hs in Hs'. injection Hs' as <-. lia.
  - unfold selectDeterministicWeighted in Hs. rewrite (proj2 (Z.leb_le k 0)) in Hs by lia. cbn [orb] in Hs. injection Hs as <-. cbn. lia.
Qed.

(** The origin of the seed of a round, as its record has it. *)
Lemma seed_origin p c rs h (s : VStore) seed n r : beacons_fine s → round_seed p c rs h s = Ok (Some (seed, n, r)) →
  (∃ m, seed = Sum256 m) ∧
  (n = 0 ∧ seed = ComputeRoundSeedWithAnchor (c_ChainID c) rs h (c_LastHash c) ∨
   0 < n ∧ some_hex r ∧ seed = ComputeRoundSeedWithDrand (c_ChainID c) rs h (c_LastHash c) n (hex_pairs r)).
Proof.
  intros Hb HS. unfold round_seed in HS. destruct (EffectiveDrandEnabled p).
  - apply bind_Ok_inv in HS as ([n' t] & Hreq & HS). cbn [fst] in HS. apply required_pos in Hreq.
    destruct (GetDrandBeacon n' s) as [x|] eqn:Ex; [|done]. unfold GetDrandBeacon in Ex. destruct (n' =? 0); [done|].
    destruct (Hb _ _ Ex) as [Hx Hl]. rewrite (hex_clean _ Hx) in HS. unfold DecodeString in HS. rewrite Hx in HS. injection HS as <- <- <-.
    split; [by eexists|right]. split; [lia|]. split; [|done]. split; [done|]. intros E. by rewrite E in Hl.
  - injection HS as <- <- <-. split; [by eexists|by left].
Qed.

Lemma delay_max_range p : 0 < round_interval p ∧ 0 < delay_max p ≤ round_interval p.
Proof.
  assert (0 < round_interval p) as Hi by (unfold round_interval; destruct (Z.leb_spec (p_RoundIntervalSeconds p) 0); lia). split; [done|].
  unfold delay_max. cbv zeta. destruct (Z.leb_spec (p_AssignmentDelayMaxSeconds p) 0), (Z.ltb_spec (round_interval p) (p_AssignmentDelayMaxSeconds p)); cbn [orb]; lia.
Qed.

Lemma assign_scheduled p c (s s' : VStore) : registry_inv s → 0 ≤ c_TimeNs c < 2 ^ 62 * 10 ^ 9 → bytes (c_LastHash c) → beacons_fine s →
  Z.of_nat (size (verifiers (bond_table s))) < 2 ^ 31 → assignNewRound p c s = Ok s' → scheduled (c_ChainID c) s → scheduled (c_ChainID c) s'.
Proof.
  intros [Hi Hr] Ht Hhash Hbeacons Hcount HA [S1 S2]. unfold assignNewRound in HA. apply bind_Ok_inv in HA as (_u & _ & HA). cbv zeta in HA.
  pose proof (next_round_range (c_TimeNs c) (round_interval p) Ht) as Hrange. set (rs := nextVerificationRoundStartUnix _ _) in *.
  destruct (Z.leb_spec rs 0) as [|Hpos]; [by injection HA as <-|].
  destruct (match GetLastRoundStart s with Some last => rs <=? last | None => false end) eqn:Hlast; [by injection HA as <-|].
  destruct (eligibleVerifierAddrs (block_time c) s) as [el st] eqn:Hel. destruct (eligible_spec _ _ _ _ (ri_bonds _ Hr) Hel) as (_ & Hst & _).
  pose proof (eligible_count _ _ _ _ (ri_bonds _ Hr) Hel) as Hlen. set (h := if _ <? 0 then 0 else _) in *.
  apply bind_Ok_inv in HA as ([[[seed n] rnd]|] & Hseed & HA); [|by injection HA as <-].
  apply bind_Ok_inv in HA as (s1 & H1' & HA). apply bind_Ok_inv in HA as (s2 & H2' & HA). injection HA as <-.
  assert (GetRoundMeta rs s = None) as Hnone.
  { destruct (GetRoundMeta rs s) as [m|] eqn:E; [|done]. exfalso. destruct (S1 rs m Hrange Hpos E) as (last & Hl & Hle).
    unfold GetLastRoundStart in Hlast. rewrite Hl in Hlast. zb. lia. }
  unfold record_round in H1'. rewrite Hnone in H1'. set (meta := mkRoundMeta _ _ _ _ _ _ _ _ _ _ _) in H1'. unfold SetRoundMeta in H1'.
  apply bind_Ok_inv in H1' as (_v & _ & H1'). injection H1' as <-. change (rm_RoundStartUnix meta) with rs in *. 
  apply assign_publishers_Ok in H2'.
  2:{ apply list.Forall_forall. intros w [Hw _]%round_publishers_elem; [|apply Hi]. apply (stored_domain_normal (market s)); [apply Hi|done]. }
  destruct H2' as [Fr O N _ _]. assert (rounds s2 = mkRounds (lastRoundStart (rounds s)) (<[roundMetaKey rs := meta]> (roundMetas (rounds s)))
    (drandBeacons (rounds s)) (latestDrand (rounds s))) as Er by (by rewrite Fr). cbn [assignments set_rounds] in O, N.
  assert (∀ r, in_s 64 r → 0 < r → r ≠ rs → GetRoundMeta r (SetLastRoundStart rs s2) = GetRoundMeta r s) as Hother.
  { intros r Hr1 Hr2 Hne. unfold GetRoundMeta, SetLastRoundStart. cbn [rounds set_rounds roundMetas]. rewrite Er. cbn [roundMetas].
    rewrite lookup_insert_ne; [done|]. intros E. apply Hne. symmetry. by apply roundMetaKey_inj. }
  assert (GetRoundMeta rs (SetLastRoundStart rs s2) = Some meta) as Hnew.
  { unfold GetRoundMeta, SetLastRoundStart. cbn [rounds set_rounds roundMetas]. rewrite Er. cbn [roundMetas]. apply lookup_insert_eq. }
  split.
  - intros r m Hr1 Hr2 Hm. exists rs. split; [done|]. destruct (decide (r = rs)) as [->|Hne]; [lia|]. rewrite Hother in Hm by done.
    destruct (S1 r m Hr1 Hr2 Hm) as (last & Hl & Hle). unfold GetLastRoundStart in Hlast. rewrite Hl in Hlast. zb. lia.
  - intros k a Ha. cbn [assignments SetLastRoundStart set_rounds] in Ha. destruct (assignments s !! k) as [b|] eqn:Hb.
    + assert (a = b) as -> by (specialize (O k b Hb); congruence). destruct (S2 k b Hb) as (m & sd & Hm & Hf). exists m, sd. split; [|done].
      destruct (ci_assignments s Hi k b Hb) as (_ & Hb1 & Hb2 & _). rewrite Hother; [done..|]. intros E. rewrite E in Hm. congruence.
    + destruct (N k a Hb Ha) as (w & sel & _ & Hsel & -> & _ & _). exists meta, seed. split; [exact Hnew|].
      destruct (seed_origin p c rs h s seed n rnd Hbeacons Hseed) as [[m Em] Ho]. destruct (Sum256_spec m) as [Hl32 Hby]. destruct (delay_max_range p) as [Hiv Hdm].
      split; cbn [round_assignment a_RoundStartUnix a_Domain a_StartAtUnix a_Verifiers meta rm_SeedHex rm_RoundIntervalSeconds rm_AssignmentDelayMaxSeconds
        rm_VerifierSetSize rm_AnchorHashHex rm_DrandRound rm_DrandRandomnessHex rm_AnchorHeight]; try done.
      * subst seed. done.
      * intros _. rewrite (Permutation_length (SortStrings_perm sel)). pose proof (selected_count _ _ _ _ _ Hst Hsel).
        rewrite swrap_small; [lia|done|]. unfold in_s. change (32 - 1) with 31. lia.
      * exists (c_LastHash c). split; [done|]. split; [done|]. exact Ho.
Qed.

(** The blocks of one chain. *)
Definition on_chain (chain : gostr) (o : op) : Prop := match o with OAssign _ c => c_ChainID c = chain ∧ bytes (c_LastHash c) | _ => True end.

Lemma run_scheduled order chain ops (b : B) : Forall op_typed ops → Forall (on_chain chain) ops → Z.of_nat (length ops) < 2 ^ 31 →
  (size (verifiers (bond_table (run order ops (no_sites b)))) ≤ length ops)%nat ∧ scheduled chain (run order ops (no_sites b)).
Proof.
  intros Hops Hch Hlen. induction ops as [|o ops IH] using rev_ind.
  { split; [change (size (∅ : gmap gostr Verifier) ≤ 0)%nat; by rewrite map_size_empty|]. split; cbn; [intros r m _ _|intros k a]; unfold GetRoundMeta; cbn; by rewrite lookup_empty. }
  apply Forall_app in Hops as [Hops Ho]. apply Forall_app in Hch as [Hch Hc]. apply Forall_cons_1 in Ho as [Ho _]. apply Forall_cons_1 in Hc as [Hc _].
  rewrite length_app in Hlen |- *. cbn [length] in *. destruct (IH Hops Hch ltac:(lia)) as [IH1 IH2]. clear IH.
  destruct (run_good order ops (no_sites b) (no_sites_inv b) Hops ltac:(cbn; lia) ltac:(cbn; lia)) as [Hinv _].
  pose proof (run_beacons order ops b Hops ltac:(lia)) as Hbeacons. unfold run. rewrite foldl_app. fold (run order ops (no_sites b)). cbn [foldl].
  unfold apply_op. destruct (exec order o (run order ops (no_sites b))) as [s'|] eqn:E; [|split; [lia|done]].
  pose proof (exec_count order o _ s' Hinv Ho E) as Hcount. split; [lia|]. destruct (match o with OAssign _ _ => true | _ => false end) eqn:Eo.
  - destruct o as [| | | | | | | | | | | |p c]; try done. destruct Hc as [<- Hhash]. cbn [exec op_typed] in E, Ho. eapply assign_scheduled; [exact Hinv|exact Ho|exact Hhash|exact Hbeacons| |exact E|exact IH2]. lia.
  - eapply scheduled_kept; [|exact IH2]. eapply exec_tasks; [exact Hinv|exact Ho| |exact E]. by intros p c ->.
Qed.
End History.
