(* ===== verification/DaemonProps.v ===== *)
(** The daemon as a whole keeps to one result per assignment, and takes up the
    assignments that the chain of [src/x/registry] makes: each of them passes its check of
    the schedule. *)

From stdpp Require Import sorting.
From S2P Require Import Prelude JsBase GoBase GoHash Market MarketProofs GoSdk Tokenomics Verifiers RegParams Verification VerificationProofs BankFrame ChainInv Rounds RoundProofs Rewards RewardProofs RoundSteps RoundInv Chain EndBlock Emission Halts ChainProps RoundProps FinalizeTotal RewardsTotal AssignTotal Liveness Agent AgentProofs AgentProps Relay RelayProofs RelayProps Daemon DaemonProofs ScheduleInv.

(** * One result *)

Section Once.
Context `{GoEnv} `{UrlHost}.

Lemma daemon_flight cfg l : ∀ d, flight d → flight (daemon_run cfg d l).1.
Proof.
  induction l as [|ev l IH]; intros d Hd; [done|]. cbn [daemon_run]. pose proof (flight_step cfg d ev Hd) as Hd1.
  destruct (daemon_step cfg d ev) as [d1 sent]. specialize (IH d1 Hd1). by destruct (daemon_run cfg d1 l) as [d2 rest].
Qed.

Lemma elem_sent_for a l x : (agentKey a, x) ∈ l → x ∈ sent_for a l.
Proof. intros Hx. unfold sent_for. change x with ((agentKey a, x).2). by apply list_elem_of_fmap_2, list_elem_of_filter. Qed.

(** C16 (safety).  The daemon never commits to two results.  Whatever polls, steps of its
    runs and restarts follow each other, and whatever fails in between, no assignment has
    two runs at a time; all commit transactions sent for an assignment carry one and the
    same hash, and every result that is revealed for it, as the chain reads it from the
    reveal message, hashes to it. *)
Theorem daemon_commits_once cfg a from path clock l fs : pendingRevealPathForKey (cf_agent cfg) (agentKey a) = Some path →
  commitDeadlineUnix (cf_agent cfg) a + 6 < 2 ^ 63 → NormalizeDomain (a_Domain a) = a_Domain a → a_RoundStartUnix a ≠ 0 →
  TrimSpace from = TrimSpace (ag_VerifierAddress (cf_agent cfg)) → own_file cfg a path l →
  clocked (cf_agent cfg) a clock (project cfg a (mkDaemon ∅ [] fs) l) Starting fs →
  let sent := (daemon_run cfg (mkDaemon ∅ [] fs) l).2 in
  (∀ l', l' `prefix_of` l → NoDup (t_key <$> d_runs (daemon_run cfg (mkDaemon ∅ [] fs) l').1)) ∧
  ∃ h, (∀ x, (agentKey a, ACommit x) ∈ sent → x = h) ∧
    ∀ p, (agentKey a, AReveal p) ∈ sent → pr_CommitHash p = h ∧ ∀ m, submitReveal from a p = Ok m → expected_hash m a = Ok (ToLower (TrimSpace h)).
Proof.
  intros Hp Ht Hd Hr Hf Ho Hc sent. split; [intros l' _; apply (daemon_flight cfg l' _ (flight_start fs))|].
  destruct (agent_commits_once (cf_agent cfg) a from path clock _ fs Hp Ht Hd Hr Hf Hc) as (h & Hcommit & Hreveal).
  assert (beside cfg a path (mkDaemon ∅ [] fs) Starting fs) as Hb by (split; [apply flight_start|done|by intros t ?%not_elem_of_nil..]).
  rewrite <- (daemon_projects cfg a path Hp l _ _ _ Hb Ho) in Hcommit, Hreveal.
  exists h. split; [intros x Hx; by apply Hcommit, elem_sent_for|]. intros p Hx. by apply Hreveal, elem_sent_for.
Qed.
End Once.

(** * The assignments of the chain *)

Section Poll.
Context `{GoEnv} `{UrlHost} (cfg : Config).

Lemma poll_keeps i l : ∀ d t, t ∈ d_runs d → t ∈ d_runs (foldl (poll_entry cfg i) d l).
Proof.
  induction l as [|e l IH]; intros d t Ht; [done|]. cbn [foldl]. apply IH. unfold poll_entry. destruct (may_run cfg i d e); [|done]. cbn. apply elem_of_app. by left.
Qed.

Lemma poll_flight i l : ∀ d, flight d → flight (foldl (poll_entry cfg i) d l).
Proof. induction l as [|e l IH]; intros d Hd; [done|]. cbn [foldl]. by apply IH, flight_entry. Qed.

(** What a poll adds is of an entry of its list that passed the checks. *)
Lemma poll_adds i l : ∀ d t, t ∈ d_runs (foldl (poll_entry cfg i) d l) → t ∈ d_runs d ∨
  (t = mkTask (agentKey (t_assignment t)) (t_assignment t) Starting ∧ (Some (t_assignment t), false) ∈ l ∧ a_Finalized (t_assignment t) = false ∧
   pi_now i ≤ a_DeadlineUnix (t_assignment t)).
Proof.
  induction l as [|e l IH]; intros d t Ht; [by left|]. cbn [foldl] in Ht. apply IH in Ht as [Ht|(? & ? & ?)]; [|right; split_and!; [done|by right|tauto..]].
  unfold poll_entry in Ht. destruct (may_run cfg i d e) as [a|] eqn:Em; [|by left]. cbn in Ht. apply elem_of_app in Ht as [Ht|Ht]; [by left|right].
  apply list_elem_of_singleton in Ht as ->. cbn [t_assignment]. split; [done|]. unfold may_run in Em. destruct e as [[b|] sub]; [|done].
  destruct (_ || _ || _) eqn:E; [done|]. destruct (validateAssignmentDeterministic _ _ _ _); [|done]. destruct ((_ || _) && _); [|done]. injection Em as <-. zb.
  subst sub. split; [by left|]. split; [done|lia].
Qed.

(** An entry that passes the checks has a run. *)
Lemma poll_takes i l a : (Some a, false) ∈ l → a_Finalized a = false → pi_now i ≤ a_DeadlineUnix a →
  pi_now i ≤ i64 (a_StartAtUnix a + ag_CommitWindowSeconds (cf_agent cfg)) →
  (∃ o, validateAssignmentDeterministic cfg (if a_RoundStartUnix a <=? 0 then None else pi_meta i (a_RoundStartUnix a)) (pi_active i) a = Ok o) →
  ∀ d, flight d → agentKey a ∈ t_key <$> d_runs (foldl (poll_entry cfg i) d l).
Proof.
  intros Hin Hf Hd Hw [o Ho] d Hfl. revert d Hfl. induction l as [|e l IH]; intros d Hfl; [by apply not_elem_of_nil in Hin|].
  cbn [foldl]. apply elem_of_cons in Hin as [<-|Hin]; [clear IH|by apply IH, flight_entry].
  enough (agentKey a ∈ t_key <$> d_runs (poll_entry cfg i d (Some a, false))) as Hk.
  { apply list_elem_of_fmap in Hk as (t & -> & Ht). by apply list_elem_of_fmap_2, poll_keeps. }
  unfold poll_entry. destruct (may_run cfg i d (Some a, false)) as [b|] eqn:Em.
  - destruct (may_run_Some _ _ _ _ _ Em) as [[= <-] _]. cbn [d_runs]. rewrite fmap_app. apply elem_of_app. right. by left.
  - unfold may_run in Em. rewrite Hf, Ho, (proj2 (Z.ltb_ge _ (pi_now i))) in Em by done. cbn [orb] in Em. rewrite (proj2 (Z.ltb_ge (i64 _) (pi_now i)) Hw), andb_false_r in Em.
    cbn [negb orb andb] in Em. destruct (isInFlight (agentKey a) (d_inFlight d)) eqn:Ei; [|done]. apply bool_decide_eq_true in Ei. by apply (fl_keys d Hfl).
Qed.
End Poll.

(** * Readiness *)

Section Ready.
Context `{GoEnv} `{UrlHost} (cfg : Config).

(** A poll of a chain that waits for a beacon which is not due yet, and that lists its
    assignments. *)
Definition waits (i : poll_input) : Prop :=
  (∃ q, ri_requirement (pi_relay i) = Ok q ∧ dr_Pending q = true ∧ dr_Submitted q = false ∧ ri_now (pi_relay i) < dr_RequiredBeaconUnix q) ∧
  ∃ l, pi_assignments i = Ok l.

Lemma waiting_keeps_error i h d e : waits i → h_lastDrandError h = Some e → h_lastDrandError (PollOnce cfg i h d).1.1.1 = Some e ∧ (PollOnce cfg i h d).1.2 = None.
Proof.
  intros [(q & Hq & Hp & Hs & Ht) [l Hl]] He. unfold PollOnce, relayRequiredDrand. rewrite Hl. destruct (rl_Disabled (cf_relay cfg)); [done|]. rewrite Hq. cbv zeta.
  assert (h_lastDrandError (recordDrandRequirement q h) = Some e) as Hr by (unfold recordDrandRequirement; cbn; by rewrite Hp, Hs).
  rewrite Hp, Hs. destruct (_ || _); [done|]. rewrite (proj2 (Z.ltb_lt _ _) Ht). done.
Qed.

(** Readiness after a failed query.  A daemon that once failed to ask for the requirement
    answers that it is not ready for as long as the beacon is not due, although every poll
    since then succeeded. *)
Theorem unready_while_waiting h d i0 e turns now : rl_Disabled (cf_relay cfg) = false → ri_requirement (pi_relay i0) = Err e → Forall (λ t, waits t.2) turns →
  let st := foldl (λ st t, main_turn cfg t.1 t.2 st) ((PollOnce cfg i0 h d).1.1.1, d) turns in
  ready_status now st.1 = 503 ∧ (turns ≠ [] → h_consecutiveErrors st.1 = 0).
Proof.
  intros Hd He Ht st. assert (h_lastDrandError (PollOnce cfg i0 h d).1.1.1 = Some e) as Hstart.
  { unfold PollOnce, relayRequiredDrand. rewrite Hd, He. by destruct (pi_assignments i0). }
  assert (∀ st0 : daemonHealth * daemon, h_lastDrandError st0.1 = Some e →
    h_lastDrandError (foldl (λ st t, main_turn cfg t.1 t.2 st) st0 turns).1 = Some e ∧
    (turns ≠ [] → h_consecutiveErrors (foldl (λ st t, main_turn cfg t.1 t.2 st) st0 turns).1 = 0)) as Hall.
  { clear st Hstart. induction turns as [|[n i] turns IH] using rev_ind; intros st0 Hst0; [done|]. apply Forall_app in Ht as [Ht Hi]. apply Forall_cons_1 in Hi as [Hi _].
    rewrite foldl_app. cbn [foldl fst snd]. destruct (IH Ht st0 Hst0) as [H1 _]. destruct (foldl _ st0 turns) as [h1 d1]. unfold main_turn. cbn [fst snd] in *.
    destruct (waiting_keeps_error i h1 d1 e Hi H1) as [H2 H3]. destruct (PollOnce cfg i h1 d1) as [[[h2 d2] e2] sent]. cbn [fst snd] in *. subst e2. done. }
  destruct (Hall ((PollOnce cfg i0 h d).1.1.1, d) Hstart) as [H1 H2]. split; [|exact H2]. fold st in H1. unfold ready_status, readinessReasons. rewrite H1. rewrite !app_assoc.
  match goal with |- context [?l ++ [DrandDeliveryFailed e]] => by destruct l end.
Qed.
End Ready.

Section Chain.
Context `{GoEnv} `{!AddrText} `{DrandSuite} `{UrlHost} {B : Type} `{BankKeeper B}.

(** Every assignment of the chain passes the check of the schedule. *)
Lemma schedule_accepts order ops (b : B) chain cfg k a active : let s := run order ops (no_sites b) in
  Forall op_typed ops → Forall (on_chain chain) ops → Z.of_nat (length ops) < 2 ^ 31 → TrimSpace (cf_ChainID cfg) = TrimSpace chain →
  assignments s !! k = Some a → ∃ o, validateAssignmentDeterministic cfg (QueryRoundMeta (a_RoundStartUnix a) s) active a = Ok o.
Proof.
  intros s Hops Hch Hlen Hc Ha. destruct (run_scheduled order chain ops b Hops Hch Hlen) as [_ [_ Hs]]. destruct (Hs k a Ha) as (meta & seed & Hm & Hf).
  unfold QueryRoundMeta. rewrite (proj2 (Z.leb_gt _ _) (ft_round _ _ _ _ Hf)). fold s in Hm. rewrite Hm. by eapply fits_passes.
Qed.

(** C18 (functional).  A poll takes up the verifier's work and nothing else.  Against any
    state the chain can reach, and with the chain's own name in the configuration, every
    assignment of the verifier that is open, has no result yet and whose commit window is
    not over has a run after the poll: none is lost to the check of the schedule; and every
    run the poll has added is of an assignment of this verifier, not finalized, without a
    result, and before its deadline. *)
Theorem poll_takes_the_work order ops (b : B) chain cfg i h d : let s := run order ops (no_sites b) in
  let v := ag_VerifierAddress (cf_agent cfg) in
  Forall op_typed ops → Forall (on_chain chain) ops → Z.of_nat (length ops) < 2 ^ 31 → TrimSpace (cf_ChainID cfg) = TrimSpace chain → flight d →
  addr_ok v = true → v ≠ [] → pi_assignments i = VerifierAssignments v s → (∀ r, pi_meta i r = QueryRoundMeta r s) →
  let d' := (PollOnce cfg i h d).1.1.2 in
  let mine a := assignments s !! a_key a = Some a ∧ assignmentHasVerifier a v = true ∧ a_Finalized a = false ∧
    GetSubmission (a_RoundStartUnix a) (a_Domain a) v s = None ∧ pi_now i ≤ a_DeadlineUnix a in
  (∀ a, mine a → pi_now i ≤ i64 (a_StartAtUnix a + ag_CommitWindowSeconds (cf_agent cfg)) → agentKey a ∈ t_key <$> d_runs d') ∧
  ∀ t, t ∈ d_runs d' → t ∈ d_runs d ∨ (mine (t_assignment t) ∧ t_stage t = Starting).
Proof.
  intros s v Hops Hch Hlen Hc Hfl Hv Hne Hq Hmeta d' mine.
  destruct (run_good order ops (no_sites b) (no_sites_inv b) Hops ltac:(cbn; lia) ltac:(cbn; lia)) as [[Hi _] _]. fold s in Hi.
  set (l := (λ a, (Some a, bool_decide (is_Some (GetSubmission (a_RoundStartUnix a) (a_Domain a) v s)))) <$> merge_sort task_le (ListAssignmentsForVerifier v false s)).
  assert (d' = foldl (poll_entry cfg i) d l) as ->.
  { unfold d', PollOnce. destruct (relayRequiredDrand _ _ _) as [[h' e] sent]. rewrite Hq. unfold VerifierAssignments. rewrite Hv. by destruct v. }
  assert (∀ a, (Some a, false) ∈ l ↔ assignments s !! a_key a = Some a ∧ assignmentHasVerifier a v = true ∧ a_Finalized a = false ∧
    GetSubmission (a_RoundStartUnix a) (a_Domain a) v s = None) as Hl.
  { intros a. unfold l. rewrite list_elem_of_fmap. unfold ListAssignmentsForVerifier. setoid_rewrite merge_sort_Permutation. setoid_rewrite list_elem_of_filter. setoid_rewrite elem_of_values.
    split.
    - intros (x & [= <- Hsub] & Hx & k & Hk). symmetry in Hsub. apply bool_decide_eq_false, eq_None_not_Some in Hsub. apply andb_true_iff in Hx as [Hx1 Hx2].
      destruct (ci_assignments s Hi k a Hk) as (Ek & _). subst k. split_and!; try done. by destruct (a_Finalized a).
    - intros (Ha & Hm & Hf & Hsub). exists a. rewrite Hsub, bool_decide_eq_false_2 by (by intros [? ?]). split; [done|]. split; [|by exists (a_key a)]. by rewrite Hf, Hm. }
  split.
  - intros a (Ha & Hm & Hf & Hsub & Hd) Hw. apply poll_takes; try done; [by apply Hl|].
    destruct (schedule_accepts order ops b chain cfg (a_key a) a (pi_active i) Hops Hch Hlen Hc Ha) as [o Ho]. exists o. rewrite <- Ho. f_equal.
    unfold QueryRoundMeta at 1. destruct (a_RoundStartUnix a <=? 0) eqn:E; [done|]. rewrite Hmeta. unfold QueryRoundMeta. by rewrite E.
  - intros t [Ht|(Et & Hin & Hf & Hd)]%poll_adds; [by left|right]. apply Hl in Hin as (? & ? & ? & ?). split; [done|]. by rewrite Et.
Qed.
End Chain.
