(* ===== verification/RelayDemo.v ===== *)
(** The theorems on the relay, applied to the three verifiers of the demo history before
    the beacon of the first round is there. *)

From S2P Require Import Prelude JsBase GoBase GoHash Market MarketProofs GoSdk Tokenomics Verifiers RegParams Verification VerificationProofs BankFrame ChainInv Rounds RoundProofs Rewards RewardProofs RoundSteps RoundInv Chain DemoEnv Agent Relay RelayProofs RelayProps.

Module RelayWitness.
Import Demo.

Definition bonded : VStore ledger := Eval vm_compute in run order (take 4 assigned) (no_sites funded).
Definition needed : DrandRequirement := Eval vm_compute in match PendingDrandRequirement params ctx1 bonded with Ok q => q | Err _ => mkRequirement false false 0 0 0 false [] end.
Definition round : Z := dr_RequiredDrandRound needed.
Definition sig : list Z := Eval vm_compute in digestUnchainedRound round.
Definition resp : list (drandRelayCandidate * Z) := Verifier_ToProto <$> ListVerifiers (bond_table bonded).
Definition candidates : list drandRelayCandidate := ActiveVerifierRelayCandidates resp.

(** The verifiers in the order of the relay. *)
Example demo_order : relay_order round candidates = [go "v1"; go "v3"; go "v2"].
Proof. vm_compute. reflexivity. Qed.

(** The daemon of a verifier, with no delays set, and what it meets at a time [t] after the
    beacon was emitted. *)
Definition config (v : gostr) : RelayConfig := mkRelayConfig v false (go "https://drand.example/") 0 0 v.
Definition meets (t : Z) : relay_input :=
  mkRelayInput (PendingDrandRequirement params ctx1 bonded) (dr_RequiredBeaconUnix needed + t) (Ok resp) (dr_RequiredBeaconUnix needed + t)
    (λ _, Ok (drand_answer round sig)) None (Err Panic).

Lemma asked : PendingDrandRequirement params ctx1 bonded = Ok needed.
Proof. vm_compute. reflexivity. Qed.

(** The last of the three is on its own. *)
Lemma relay_delivers_witness : ∃ m b s', (relayRequiredDrand (relay_defaults (config (go "v2"))) (meets 180) (newDaemonHealth 15)).2 = [m] ∧
  SubmitDrandBeacon params ctx1 m bonded = Ok (b, s') ∧ GetDrandBeacon round s' = Some b.
Proof.
  assert (relay_case params ctx1 bonded needed (mkVerifier (go "v2") (mkCoin DefaultDenom 20) VerifierStatusActive) sig (relay_defaults (config (go "v2"))) (meets 180)) as Hc.
  { split.
    - vm_compute. reflexivity.
    - exact asked.
    - split; vm_compute; reflexivity.
    - split; [|reflexivity]. apply elem_of_values. exists (go "v2"). vm_compute. reflexivity.
    - split; [vm_compute; reflexivity|vm_compute; discriminate].
    - reflexivity.
    - vm_compute. discriminate.
    - split; [vm_compute; reflexivity..|vm_compute; discriminate].
    - split_and!; vm_compute; (reflexivity || discriminate).
    - split; [repeat constructor; done|discriminate|vm_compute; reflexivity].
    - split_and!; reflexivity.
    - split; vm_compute; discriminate. }
  destruct (relay_delivers params ctx1 bonded needed (mkVerifier (go "v2") (mkCoin DefaultDenom 20) VerifierStatusActive) sig
    (relay_defaults (config (go "v2"))) (meets 180) (newDaemonHealth 15) Hc) as (m & Hm & Hacc).
  destruct (Hacc ctx1 bonded asked ltac:(vm_compute; reflexivity)) as (b & s' & HS & HG & _). exists m, b, s'. split; [exact Hm|]. split; [exact HS|exact HG].
Defined.

Lemma relay_ranks_witness : round ≠ 0 ∧ drandRelayRank round (go " v3 ") candidates = Ok (1, 3) ∧
  drandRelayRank round (go "v2") (rev candidates) = drandRelayRank round (go "v2") candidates.
Proof.
  assert (round ≠ 0) as Hr by discriminate. split; [exact Hr|]. split; [vm_compute; reflexivity|].
  destruct (relay_ranks round candidates Hr) as (order & _ & _ & _ & _ & Hp). apply Hp.
  - symmetry. apply Permutation_rev.
  - apply (bool_decide_unpack _). vm_compute. exact I.
Defined.

(** It sends the beacon two minutes after it was emitted, when the round has started: the
    block of that time refuses it. *)
Definition late_block : BlockCtx := mkCtx (go "congrid-1") 6 ((dr_RequiredBeaconUnix needed + 120) * 10 ^ 9) [6].
Lemma late_fallbacks_rejected_witness : ∃ m e, (relayRequiredDrand (relay_defaults (config (go "v2"))) (meets 120) (newDaemonHealth 15)).2 = [m] ∧
  SubmitDrandBeacon params late_block m bonded = Err e.
Proof.
  set (m := beacon_msg (go "v2") round sig).
  assert ((relayRequiredDrand (relay_defaults (config (go "v2"))) (meets 120) (newDaemonHealth 15)).2 = [m]) as Hm by (vm_compute; reflexivity).
  assert (m ∈ (relayRequiredDrand (relay_defaults (config (go "v2"))) (meets 120) (newDaemonHealth 15)).2) as Hin by (rewrite Hm; by left).
  destruct (late_fallbacks_rejected params ctx1 bonded (config (go "v2")) (meets 120) (newDaemonHealth 15) m resp 2 3 needed late_block bonded
    eq_refl eq_refl ltac:(split_and!; vm_compute; reflexivity) ltac:(vm_compute; split; discriminate) ltac:(vm_compute; split; [discriminate|reflexivity])
    ltac:(vm_compute; split; [discriminate|reflexivity]) eq_refl eq_refl asked asked eq_refl ltac:(vm_compute; reflexivity)
    ltac:(vm_compute; split; [discriminate|reflexivity]) Hin ltac:(vm_compute; reflexivity)) as (_ & e & He).
  exists m, e. split; [exact Hm|exact He].
Defined.
End RelayWitness.
