(* ===== verification/AgentDemo.v ===== *)
(** The theorems on the daemon, applied to a verifier of the demo history whose
    transaction fails, which crashes between its commit and its reveal, and which then
    reveals. *)

From S2P Require Import Prelude JsBase GoBase GoHash Market MarketProofs GoSdk Tokenomics Verifiers RegParams Verification VerificationProofs BankFrame ChainInv Rounds RoundProofs Rewards RewardProofs RoundSteps RoundInv Chain DemoEnv ChainDemo Agent AgentProofs AgentProps.

Module AgentWitness.
Import Demo Witness.

(** The host is what follows the scheme, up to a slash. *)
#[local] Instance demo_host : UrlHost := {| Hostname s := head (split_on 47 (drop 8 s)) |}.

Definition config : AgentConfig := mkAgentConfig (go "v1") (go "state") (go "http://indexer") 300 15.
Definition task : Assignment := mkAssignment round1 (go "example.com") start1 (start1 + 600) [go "v1"; go "v2"; go "v3"] false 0 false false (go "alice") false.
Definition page : list html_token :=
  [StartTag (go "div") [(go "id", go "congrid-similar")]; StartTag (go "a") [(go "href", go "https://b.example/path")]; EndTag (go "div")].
Definition answer : list gostr * gostr := ([go "b.example"; go "c.example"], []).
Definition random : list Z := repeat 7 16.

Example page_domains : parseObservedSimilarDomains page = [go "b.example"].
Proof. reflexivity. Qed.

(** At a second after the start, with an error of the transaction. *)
Definition at_time (t : Z) (tx : option gostr) : input :=
  mkInput ((start1 + t) * second) ((start1 + t) * second) true true (Ok (go "alice")) true (Some page) (Some answer) (Some random) tx.
Definition history : list (option input) :=
  [Some (at_time 1 None); Some (at_time 15 None); Some (at_time 16 None); Some (at_time 17 (Some (go "account sequence mismatch"))); None;
   Some (at_time 60 None); Some (at_time 61 None); Some (at_time 62 None); None;
   Some (at_time 200 None); Some (at_time 201 None); Some (at_time 306 None); Some (at_time 307 None)].

(** The clock of a history, decided. *)
Fixpoint clockedb (a : Assignment) (clock : Z) (l : list (option input)) (st : stage) (fs : gmap gostr pendingReveal) : bool :=
  match l with
  | [] => true
  | None :: l => clockedb a clock l Starting fs
  | Some i :: l =>
      let r := agent_step config a i st fs in
      (clock <=? i_now i) && (i_now i <=? i_later i) &&
      (match st with Waiting _ => negb (i_slept i) || (i64 (commitDeadlineUnix config a + 6) * second <=? i_now i) | _ => true end) &&
      (match i_random i with Some b => (length b =? 16)%nat && forallb (λ x, (0 <=? x) && (x <? 256)) b | None => true end) &&
      clockedb a (i_later i) l r.1.1 r.1.2
  end.
Lemma clockedb_sound a l : ∀ clock st fs, clockedb a clock l st fs = true → clocked config a clock l st fs.
Proof.
  induction l as [|[i|] l IH]; intros clock st fs Hb; cbn [clockedb clocked] in *; [done| |by apply IH]. zb. split_and!; [lia|lia| | |by apply IH].
  - destruct st; try done. intros Hs. match goal with Hx : _ || _ = true |- _ => rewrite Hs in Hx; cbn [negb orb] in Hx end. by apply Z.leb_le.
  - intros b Hr. rewrite Hr in *. zb. split; [by apply Nat.eqb_eq|]. match goal with Hx : forallb _ _ = true |- _ => apply forallb_Forall in Hx as Hf end.
    eapply list.Forall_impl; [exact Hf|]. cbn. intros. zb. lia.
Qed.

Lemma agent_commits_once_witness : ∃ h, (∀ x, ACommit x ∈ (agent_run config task history Starting ∅).2 → x = h) ∧
  length (agent_run config task history Starting ∅).2 = 3%nat.
Proof.
  assert (clocked config task 0 history Starting ∅) as Hc by (apply clockedb_sound; vm_compute; reflexivity).
  destruct (agent_commits_once config task (go "v1") (EncodeToString (Sum256 (agentKey task)) ++ go ".json") 0 history ∅ ltac:(vm_compute; reflexivity)
    ltac:(vm_compute; reflexivity) ltac:(vm_compute; reflexivity) ltac:(vm_compute; discriminate) ltac:(vm_compute; reflexivity) Hc) as (h & Hh & _).
  exists h. split; [exact Hh|]. vm_compute. reflexivity.
Defined.

(** The verifier commits, and then reveals on the same store. *)
Lemma agent_messages_accepted_witness :
  let r := make_pending config task true (observe config true (Some page) (Some answer)) (EncodeToString random) in
  ∃ m s1 m' x s3, submitCommit (go "v1") task (pr_CommitHash r) = Ok m ∧
    SubmitVerificationCommit params (start1 + 100) m (after_ops assigned) = Ok s1 ∧
    submitReveal (go "v1") task r = Ok m' ∧ RevealVerification params (start1 + 400) m' s1 = Ok (x, s3) ∧ b_MatchedSimilarDomains x = 1.
Proof.
  intros r. destruct (after_inv assigned eq_refl eq_refl) as [[Hi _] _].
  assert (assignments (after_ops assigned) !! assignmentKey round1 (go "example.com") = Some task) as Ht by at_state.
  assert (GetCommit round1 (go "example.com") (go "v1") (after_ops assigned) = None) as Hnc by at_state.
  assert (GetSubmission (a_RoundStartUnix task) (a_Domain task) (go "v1") (after_ops assigned) = None) as Hns by at_state.
  assert (answers_ok (Some page) (Some answer)) as Ha.
  { split; [intros pg [= <-]; vm_compute; reflexivity|]. intros hits h [= <- <-]. split; [vm_compute; reflexivity|]. split; [|reflexivity].
    apply (bool_decide_unpack _). vm_compute. exact I. }
  destruct (agent_messages_accepted config params task (go "v1") true (Some page) (Some answer) random (start1 + 100) (after_ops assigned) Hi Ht
    ltac:(vm_compute; reflexivity) eq_refl ltac:(by left) eq_refl ltac:(vm_compute; reflexivity) ltac:(vm_compute; reflexivity) ltac:(discriminate) Ha eq_refl
    ltac:(repeat constructor; done) ltac:(vm_compute; split; discriminate) Hnc Hns) as (m & s1 & E1 & E2 & Hrev).
  destruct (commit_effect _ _ _ _ _ E2) as (_ & Has & Hsub & _).
  assert (assignments s1 !! assignmentKey (a_RoundStartUnix task) (a_Domain task) = Some task) as Ht1 by (rewrite Has; exact Ht).
  assert (GetSubmission (a_RoundStartUnix task) (a_Domain task) (go "v1") s1 = None) as Hns1.
  { rewrite <- Hns. unfold GetSubmission. rewrite Hsub. reflexivity. }
  assert (0 < start1 + 400) as Hpos by (vm_compute; reflexivity).
  assert (i64 (a_StartAtUnix task + p_CommitWindowSeconds params) < start1 + 400 ≤ a_DeadlineUnix task) as Hin by (vm_compute; split; [reflexivity|discriminate]).
  destruct (Hrev (start1 + 400) s1 Ht1 eq_refl Hns1 Hpos Hin) as (m' & x & s3 & E3 & E4 & _ & _ & _ & Hm & _).
  exists m, s1, m', x, s3. split; [exact E1|]. split; [exact E2|]. split; [exact E3|]. split; [exact E4|]. rewrite Hm. vm_compute. reflexivity.
Defined.
End AgentWitness.
