(* ===== verification/DaemonDemo.v ===== *)
(** The theorems on the whole daemon, applied to the first verifier of the demo history:
    it polls the chain after the first round was assigned, works on two assignments beside
    each other, and is started again in between. *)

From S2P Require Import Prelude JsBase GoBase GoHash Market MarketProofs GoSdk Tokenomics Verifiers RegParams Verification VerificationProofs BankFrame ChainInv Rounds RoundProofs Rewards RewardProofs RoundSteps RoundInv Chain DemoEnv ChainDemo Agent AgentProofs AgentProps AgentDemo Relay RelayProofs RelayProps RelayDemo Daemon DaemonProofs ScheduleInv DaemonProps.

Module DaemonWitness.
Import Demo Witness AgentWitness.
#[local] Existing Instance demo_host.

Definition all : Config := mkConfig AgentWitness.config (RelayWitness.config (go "v1")) 3600 3600 false (go "congrid-1").

(** The selection the daemon compares with is not that of the chain: it does not weigh the
    bonds. *)
Example selections_differ :
  let vs := [go "v1"; go "v2"; go "v3"] in
  let stakes : gmap gostr Z := {[go "v1" := 10; go "v2" := 20; go "v3" := 30]} in
  selectDeterministicWeighted vs stakes 2 [1] = Ok [go "v3"; go "v2"] ∧ selectDeterministicAddrs vs 2 [1] = [go "v3"; go "v1"].
Proof. split; vm_compute; reflexivity. Qed.

(** A poll against the chain after the assignment of the first round. *)
Definition poll_at (t : Z) (s : VStore ledger) : poll_input :=
  mkPoll (RelayWitness.meets 0) (VerifierAssignments (go "v1") s) (start1 + t) (λ r, QueryRoundMeta r s) (Some RelayWitness.resp).

Lemma poll_takes_the_work_witness :
  agentKey task ∈ t_key <$> d_runs (PollOnce all (poll_at 10 (after_ops assigned)) (newDaemonHealth 15) (mkDaemon ∅ [] ∅)).1.1.2.
Proof.
  assert (Forall (on_chain (go "congrid-1")) assigned) as Hch by (repeat constructor; done).
  assert (assignments (after_ops assigned) !! a_key task = Some task) as Ha by at_state.
  assert (addr_ok (go "v1") = true) as Hok by (vm_compute; reflexivity).
  assert (GetSubmission (a_RoundStartUnix task) (a_Domain task) (go "v1") (after_ops assigned) = None) as Hs by at_state.
  destruct (poll_takes_the_work order assigned funded (go "congrid-1") all (poll_at 10 (after_ops assigned)) (newDaemonHealth 15) (mkDaemon ∅ [] ∅)
    (typedb_typed assigned eq_refl) Hch eq_refl eq_refl (flight_start ∅) Hok ltac:(discriminate) eq_refl (λ r, eq_refl)) as [Hw _].
  apply Hw; [|vm_compute; discriminate]. split; [exact Ha|]. split; [reflexivity|]. split; [reflexivity|]. split; [exact Hs|]. vm_compute. discriminate.
Defined.

(** Two assignments, listed one after the other; the daemon is started again after the
    first commit. *)
Definition other : Assignment := mkAssignment round1 (go "other.example") start1 (start1 + 600) [go "v1"] false 0 false false (go "dave") false.
Definition lenient : Config := mkConfig AgentWitness.config (RelayWitness.config (go "v1")) 3600 3600 true (go "congrid-1").
Definition sees (t : Z) (a : Assignment) : event := EEntry (poll_at t s_assigned) (Some a, false).
Definition events : list event :=
  [sees 1 task; sees 1 other; sees 2 task; ERun 1 (at_time 2 None); ERun 0 (at_time 2 None); ERun 1 (at_time 15 None); ERun 0 (at_time 15 None);
   ERun 0 (at_time 16 None); ERun 0 (at_time 17 None); ERun 1 (at_time 16 None); ERestart;
   sees 60 other; sees 60 task; ERun 1 (at_time 61 None); ERun 1 (at_time 62 None); ERun 0 (at_time 61 None); ERun 1 (at_time 306 None); ERun 1 (at_time 307 None)].

Definition empty_daemon : daemon := mkDaemon ∅ [] ∅.

Example demo_sent : (λ x, x.1) <$> (daemon_run lenient empty_daemon events).2 = [agentKey task; agentKey task].
Proof. vm_compute. reflexivity. Qed.

Lemma daemon_commits_once_witness : ∃ h, (∀ x, (agentKey task, ACommit x) ∈ (daemon_run lenient empty_daemon events).2 → x = h) ∧
  length (daemon_run lenient empty_daemon events).2 = 2%nat.
Proof.
  assert (clocked config task 0 (project lenient task empty_daemon events) Starting ∅) as Hc by (apply clockedb_sound; vm_compute; reflexivity).
  assert (own_file lenient task (EncodeToString (Sum256 (agentKey task)) ++ go ".json") events) as Ho.
  { assert (pendingRevealPathForKey config (agentKey other) ≠ Some (EncodeToString (Sum256 (agentKey task)) ++ go ".json")) as Hne by (vm_compute; discriminate).
    assert (Forall (λ ev, match ev with EEntry _ (Some b, _) => b = task ∨ b = other | _ => True end) events) as Hall
      by (unfold events; apply Forall_cons_2; [left; reflexivity|]; apply Forall_cons_2; [right; reflexivity|]; apply Forall_cons_2; [left; reflexivity|];
          do 8 (apply Forall_cons_2; [exact I|]); apply Forall_cons_2; [right; reflexivity|]; apply Forall_cons_2; [left; reflexivity|];
          do 5 (apply Forall_cons_2; [exact I|]); apply Forall_nil_2).
    rewrite list.Forall_forall in Hall. intros i b sub Hin Hp. destruct (Hall _ Hin) as [->|Hb]; [reflexivity|]. exfalso. apply Hne. rewrite <- Hb. exact Hp. }
  destruct (daemon_commits_once lenient task (go "v1") (EncodeToString (Sum256 (agentKey task)) ++ go ".json") 0 events ∅ ltac:(vm_compute; reflexivity)
    ltac:(vm_compute; reflexivity) ltac:(vm_compute; reflexivity) ltac:(vm_compute; discriminate) ltac:(vm_compute; reflexivity) Ho Hc) as (_ & h & Hh & _).
  exists h. split; [exact Hh|]. vm_compute. reflexivity.
Defined.
End DaemonWitness.
