(* ===== verification/ScoreDemo.v ===== *)
(** The theorems on the scores and on the split of a reward, applied to the inputs of
    the repository's own tests ([src/x/registry/types_test.go]), and the theorem on the
    export of the emission, applied to the default emission. *)

From S2P Require Import Prelude JsBase GoBase Market GoSdk Tokenomics TokenDemo RegParams Scores TokenGenesis DemoEnv.

Module ScoreWitness.
Import Demo.

#[local] Existing Instance TokenWitness.half_up.

Definition split_snapshot : PublisherSnapshot := mkSnapshot (go "example.com") 10 700 720 1100 400 1000 1500 (p_VerificationTTL DefaultPublisherParams).
Definition report (worker : gostr) (checks matches expected latency height : Z) : VerifierReport :=
  mkReport worker checks matches expected latency 5000 height 0 0.
Definition reports : list VerifierReport :=
  [report (go "congrid1verifiera") 50 48 50 4000 1480; report (go "congrid1verifierb") 45 40 50 5500 1495;
   report (go "congrid1verifierc") 30 27 40 4800 1498].

(** A thousand tokens for three verifiers: the amounts add up to the reward exactly or
    exceed it by at most 16 units of [10^-18]. *)
Lemma publisher_split_conserves_witness : ∃ o, SplitPublisherRewards (LegacyNewDec 1000) split_snapshot reports DefaultPublisherParams = Ok o ∧
  o_PublisherAmount o = LegacyNewDec 700 ∧
  LegacyNewDec 1000 ≤ o_PublisherAmount o + sum_over id (o_VerifierAmounts o) + o_ProtocolAmount o + o_RolloverAmount o ≤ LegacyNewDec 1000 + 16.
Proof.
  destruct (SplitPublisherRewards (LegacyNewDec 1000) split_snapshot reports DefaultPublisherParams) as [o|e] eqn:E; [|vm_compute in E; discriminate E].
  destruct (publisher_split_conserves _ _ _ _ _ E ltac:(vm_compute; reflexivity) ltac:(repeat constructor)) as (_ & _ & _ & _ & Hb & _).
  change (LegacyNewDec 1000 + 1 + slack DefaultPublisherParams + Z.of_nat (length reports)) with (LegacyNewDec 1000 + 16) in Hb.
  exists o. split; [reflexivity|]. split; [|exact Hb].
  assert (match SplitPublisherRewards (LegacyNewDec 1000) split_snapshot reports DefaultPublisherParams with
    Ok o => o_PublisherAmount o | Err _ => 0 end = LegacyNewDec 700) as Hp by (vm_compute; reflexivity).
  rewrite E in Hp. exact Hp.
Defined.

(** The default parameters with a least score of nothing, which the code accepts. *)
Definition any_score : PublisherParams :=
  match DefaultPublisherParams with
  | mkParams bond ttl count publisher _ weights split verifier commit submit interval delay cooldown reward1 reward2 base links
      least supply reserve bps1 bps2 hours revoke penalty rounds drand strict scheme key hash genesis period offset =>
      mkParams bond ttl count publisher 0 weights split verifier commit submit interval delay cooldown reward1 reward2 base links
        least supply reserve bps1 bps2 hours revoke penalty rounds drand strict scheme key hash genesis period offset
  end.

(** A reward of three tokens holds a pool of three quarters of a token for the one
    verifier, who made one check of the [2 * 10^16] that were expected and matched
    nothing.  Its weight is one unit of [10^-18], so the product with the pool is
    rounded up to that unit, the quotient is a whole token, and the parts add up to
    three tokens and a quarter. *)
Example split_overpays :
  let s := mkSnapshot (go "example.com") 10 700 720 1100 400 1000 3000 2000 in
  let r := mkReport (go "congrid1verifiera") 1 0 (2 * 10 ^ 16) (2 * 10 ^ 18) 1 1 0 0 in
  match SplitPublisherRewards (LegacyNewDec 3) s [r] any_score with
  | Ok o => o_PublisherAmount o = hundredths 210 ∧ o_VerifierAmounts o !! go "congrid1verifiera" = Some (LegacyNewDec 1) ∧
      o_ProtocolAmount o = hundredths 15 ∧ o_RolloverAmount o = 0
  | Err _ => False
  end.
Proof. vm_compute. by split_and!. Qed.

(** Three times the expected clicks, the cap of the code, at the default weights: the
    score stays below eight tenths. *)
Lemma engagement_counts_third_witness : ∃ score,
  Snapshot_Score (mkSnapshot (go "example.com") 0 690 720 1200 400 1000 1500 2000) DefaultPublisherScoreWeights = Ok score ∧
  3 * score ≤ 3 * hundredths 70 + hundredths 30 + 3.
Proof.
  destruct (Snapshot_Score (mkSnapshot (go "example.com") 0 690 720 1200 400 1000 1500 2000) DefaultPublisherScoreWeights) as [score|e] eqn:E;
    [|vm_compute in E; discriminate E].
  destruct (engagement_counts_third _ _ _ E ltac:(vm_compute; discriminate) ltac:(vm_compute; reflexivity)) as [_ Hb].
  exists score. split; [reflexivity|exact Hb].
Defined.

(** A pool that was filled with the emission of the default parameters, and emptied. *)
Lemma export_funds_pool_again_witness : ∃ st' b', Tok_InitGenesis (Some (Some (Tok_ExportGenesis (mkTokStore None 1000000000000000)))) (mkTokStore None 0) = Ok st' ∧
  EnsureEmissionPool DefaultDenom 1000000000000000 (ts_funded st') (mkLedger ∅ ∅) = Ok (1000000000000000, b') ∧
  mod_bal b' tokenomics_module DefaultDenom = 1000000000000000.
Proof.
  destruct (export_funds_pool_again DefaultDenom 1000000000000000 (mkTokStore None 1000000000000000) (mkLedger ∅ ∅) ltac:(cbn; lia)
    ltac:(vm_compute; reflexivity) ltac:(vm_compute; reflexivity) ltac:(vm_compute; reflexivity) ltac:(vm_compute; reflexivity)
    ltac:(vm_compute; reflexivity)) as (_ & st' & E & _ & b' & Hb & Hm & _).
  exists st', b'. split; [exact E|]. split; [exact Hb|]. rewrite Hm. vm_compute. reflexivity.
Defined.
End ScoreWitness.
