(* ===== verification/Airdrop.v ===== *)
(** The airdrop of the site server: the table of claims with its transitions
    ([src/cmd/congrid-site/airdrop_store.go]), the form that makes a claim, and the worker
    that pays it and waits for the payment ([airdrop.go]).  The database is a table by
    site; a call to it may fail before or after it took effect.  The homepage, the chain and
    the clock are inputs. *)

From stdpp Require Import sorting.
From S2P Require Import Prelude JsBase GoBase GoHash Market.

(** * The table *)

Inductive claimStatus := claimStatusVerified | claimStatusSubmitting | claimStatusBroadcast | claimStatusConfirmed | claimStatusFailed
  | claimStatusNeedsReconcile.
#[export] Instance claimStatus_eq_dec : EqDecision claimStatus.
Proof. solve_decision. Defined.

(** A row, without its key: the registered part of the host.  No hash is the empty
    text, and no time is zero. *)
Record claimInfo := mkClaim {
  cl_Domain : gostr; cl_Wallet : gostr; cl_Amount : gostr; cl_Denom : gostr; cl_Status : claimStatus; cl_TxHash : gostr; cl_ClaimedAt : Z;
  cl_UpdatedAt : Z; cl_BroadcastAt : Z; cl_ConfirmedAt : Z; cl_SubmissionCount : Z; cl_LastError : gostr }.
Abbreviation claims := (gmap gostr claimInfo).

(** What a call of the database meets: nothing, a failure that left the table alone, or
    one after the change was made. *)
Inductive fault := Fine | FailedBefore | FailedAfter.

Definition exec_sql {A} (f : fault) (run : claims → claims * result err A) (t : claims) : claims * result err A :=
  match f with
  | Fine => run t
  | FailedBefore => (t, Err (Errorf "database"))
  | FailedAfter => ((run t).1, Err (Errorf "database"))
  end.

Definition truncateError (message : gostr) : gostr := take 2000 (TrimSpace message).

(** The changes of a row. *)
Definition with_status (status : claimStatus) (now : Z) (error : gostr) (c : claimInfo) : claimInfo :=
  mkClaim (cl_Domain c) (cl_Wallet c) (cl_Amount c) (cl_Denom c) status (cl_TxHash c) (cl_ClaimedAt c) now (cl_BroadcastAt c) (cl_ConfirmedAt c)
    (cl_SubmissionCount c) error.
Definition counted (c : claimInfo) : claimInfo :=
  mkClaim (cl_Domain c) (cl_Wallet c) (cl_Amount c) (cl_Denom c) (cl_Status c) (cl_TxHash c) (cl_ClaimedAt c) (cl_UpdatedAt c) (cl_BroadcastAt c)
    (cl_ConfirmedAt c) (cl_SubmissionCount c + 1) (cl_LastError c).
Definition with_times (txHash : gostr) (broadcastAt confirmedAt : Z) (c : claimInfo) : claimInfo :=
  mkClaim (cl_Domain c) (cl_Wallet c) (cl_Amount c) (cl_Denom c) (cl_Status c) (if empty txHash then cl_TxHash c else txHash) (cl_ClaimedAt c)
    (cl_UpdatedAt c) (if 0 <? broadcastAt then broadcastAt else cl_BroadcastAt c) (if 0 <? confirmedAt then confirmedAt else cl_ConfirmedAt c)
    (cl_SubmissionCount c) (cl_LastError c).

(** [UPDATE ... WHERE site_key = ? AND status = ?]: whether a row was changed. *)
Definition update_row (siteKey : gostr) (from : claimStatus) (change : claimInfo → claimInfo) (t : claims) : claims * bool :=
  match t !! siteKey with
  | Some c => if decide (cl_Status c = from) then (<[siteKey := change c]> t, true) else (t, false)
  | None => (t, false)
  end.
Definition requireOneRow (r : claims * bool) : claims * result err unit :=
  (r.1, if r.2 then Ok tt else Err (Errorf "transition affected 0 rows")).

(** Two rows with one hash break the unique index. *)
Definition hash_taken (siteKey txHash : gostr) (t : claims) : bool :=
  negb (empty txHash) && existsb (λ r, negb (bool_decide (r.1 = siteKey)) && bool_decide (cl_TxHash r.2 = txHash)) (entries t).

Section Store.
Context `{GoEnv}.

Definition Get (f : fault) (siteKey : gostr) (t : claims) : result err (option claimInfo) :=
  match f with Fine => Ok (t !! TrimSpace (ToLower siteKey)) | _ => Err (Errorf "get airdrop claim") end.

(** The oldest row of a status; [tie] chooses among rows of one second. *)
Definition Next (f : fault) (tie : nat) (status : claimStatus) (t : claims) : result err (option (gostr * claimInfo)) :=
  match f with
  | Fine =>
      let rows := filter (λ r, cl_Status r.2 = status) (entries t) in
      let oldest := filter (λ r, Forall (λ q, cl_ClaimedAt r.2 ≤ cl_ClaimedAt q.2) rows) rows in
      Ok (match oldest !! tie with Some r => Some r | None => head oldest end)
  | _ => Err (Errorf "get next airdrop claim")
  end.

(** [ON CONFLICT (site_key) DO NOTHING]: whether the row is new. *)
Definition insert_row (siteKey : gostr) (c : claimInfo) (t : claims) : claims * bool :=
  match t !! siteKey with Some _ => (t, false) | None => (<[siteKey := c]> t, true) end.

(** Whether a domain has that primary domain. *)
Definition primary_is (domain primary : gostr) : bool := match GetPrimaryDomain domain with Ok p => bool_decide (p = primary) | Err _ => false end.

(** The claim as it is stored and whether it is new; [again] is what the second look at
    the table meets. *)
Definition Reserve (f again : fault) (now : Z) (primary domain wallet amount denom : gostr) (t : claims) : claims * result err (claimInfo * bool) :=
  let primary := TrimSpace (ToLower primary) in
  let domain := TrimSpace (ToLower domain) in
  let wallet := TrimSpace wallet in
  if negb (primary_is domain primary) then (t, Err (Errorf "airdrop claim domain does not match its simplified primary key"))
  else if empty wallet || empty amount || empty denom then (t, Err (Errorf "airdrop claim wallet, amount, and denom are required"))
  else
    let claim := mkClaim domain wallet amount denom claimStatusVerified [] now now 0 0 0 [] in
    let '(t, r) := exec_sql f (λ t, let '(t, new) := insert_row primary claim t in (t, Ok new)) t in
    (t, new ← r;
        if (new : bool) then Ok (claim, true)
        else
          existing ← Get again primary t;
          match existing with
          | Some c => Ok (c, false)
          | None => Err (Errorf "airdrop reservation conflict without existing row")
          end).

Definition MarkSubmitting (f : fault) (now : Z) (siteKey : gostr) (t : claims) : claims * result err bool :=
  exec_sql f (λ t, let '(t, n) := update_row siteKey claimStatusVerified (λ c, counted (with_status claimStatusSubmitting now [] c)) t in (t, Ok n)) t.

Definition transition (f : fault) (now : Z) (siteKey : gostr) (from to : claimStatus) (txHash : gostr) (broadcastAt confirmedAt : Z) (lastError : gostr)
    (t : claims) : claims * result err unit :=
  exec_sql f (λ t,
    let r := update_row siteKey from (λ c, with_times txHash broadcastAt confirmedAt (with_status to now (truncateError lastError) c)) t in
    if r.2 && hash_taken siteKey txHash t then (t, Err (Errorf "unique index")) else requireOneRow r) t.

Definition MarkBroadcast (f : fault) (now : Z) (siteKey txHash : gostr) (at_ : Z) : claims → claims * result err unit :=
  transition f now siteKey claimStatusSubmitting claimStatusBroadcast (TrimSpace txHash) at_ 0 [].
Definition MarkConfirmed (f : fault) (now : Z) (siteKey : gostr) (at_ : Z) : claims → claims * result err unit :=
  transition f now siteKey claimStatusBroadcast claimStatusConfirmed [] 0 at_ [].
Definition MarkDeliveryFailed (f : fault) (now : Z) (siteKey message : gostr) : claims → claims * result err unit :=
  transition f now siteKey claimStatusBroadcast claimStatusFailed [] 0 0 message.
Definition MarkConfirmationUncertain (f : fault) (now : Z) (siteKey message : gostr) : claims → claims * result err unit :=
  transition f now siteKey claimStatusBroadcast claimStatusNeedsReconcile [] 0 0 message.

Definition MarkTerminal (f : fault) (now : Z) (siteKey : gostr) (status : claimStatus) (message : gostr) (t : claims) : claims * result err unit :=
  match status with
  | claimStatusFailed | claimStatusNeedsReconcile =>
      exec_sql f (λ t, requireOneRow (update_row siteKey claimStatusSubmitting (with_status status now (truncateError message)) t)) t
  | _ => (t, Err (Errorf "invalid terminal airdrop status"))
  end.

Definition interrupted : gostr := go "server stopped while transaction submission was in progress; operator reconciliation required".
Definition RecoverInterrupted (f : fault) (now : Z) (t : claims) : claims * result err unit :=
  exec_sql f (λ t, ((λ c, if decide (cl_Status c = claimStatusSubmitting) then with_status claimStatusNeedsReconcile now interrupted c else c) <$> t, Ok tt)) t.

(** ** The claims of the old format *)

Definition firstNonEmptyString (a b : gostr) : gostr := if negb (blank a) then a else if negb (blank b) then b else [].

(** One of them, with the key it had; a time that was not set is zero. *)
Definition legacy_row (now : Z) (key primary : gostr) (c : claimInfo) : result err (gostr * claimInfo) :=
  let primary := TrimSpace (ToLower (firstNonEmptyString primary key)) in
  let domain := TrimSpace (ToLower (firstNonEmptyString (cl_Domain c) primary)) in
  guard_err (empty primary || empty domain || blank (cl_Wallet c)) (Errorf "invalid legacy claim");;
  guard_err (negb (primary_is domain primary)) (Errorf "legacy claim has inconsistent domain key");;
  Ok (primary, mkClaim domain (TrimSpace (cl_Wallet c)) (if empty (cl_Amount c) then go "unknown" else cl_Amount c)
    (if empty (cl_Denom c) then go "unknown" else cl_Denom c) (if blank (cl_TxHash c) then claimStatusNeedsReconcile else claimStatusConfirmed)
    (TrimSpace (cl_TxHash c)) (if cl_ClaimedAt c =? 0 then now else cl_ClaimedAt c) now (cl_BroadcastAt c) (cl_ConfirmedAt c) (cl_SubmissionCount c) (cl_LastError c)).

(** One transaction: all of them, or none. *)
Definition importLegacy (f : fault) (now : Z) (l : list (gostr * gostr * claimInfo)) (t : claims) : claims * result err unit :=
  match each (λ x t, r ← legacy_row now x.1.1 x.1.2 x.2;
               let '(t', new) := insert_row r.1 r.2 t in
               if (new : bool) && hash_taken r.1 (cl_TxHash r.2) t then Err (Errorf "unique index") else Ok t') l t with
  | Ok t' => exec_sql f (λ _, (t', Ok tt)) t
  | Err e => (t, Err e)
  end.
End Store.

(** * The form *)

(** The check of an account address with the prefix of the chain. *)
Class Wallets := { congrid_address : gostr → bool }.

Inductive flash := Busy | InvalidForm | InvalidDomain | InvalidWallet | NoPrimary | ServerError | VerificationFailed | Already (c : claimInfo) | Queued (c : claimInfo).

Record airdropConfig := mkAirdrop { ac_Amount : gostr; ac_Denom : gostr; ac_ConfirmTimeout : Z }.

(** What a request meets: whether a slot is free, whether the form can be read and its
    fields, the answer of the first look at the table (which was made before the homepage
    was fetched, and may be out of date), whether the homepage has the badge, and the calls
    of the reservation. *)
Record post_input := mkPost {
  po_free : bool; po_parsed : bool; po_domain : gostr; po_wallet : gostr; po_found : result err (option claimInfo); po_badge : bool; po_insert : fault; po_again : fault; po_now : Z }.

Section Form.
Context `{GoEnv} `{Wallets} (cfg : airdropConfig).

Definition handleAirdropPost (i : post_input) (t : claims) : claims * flash :=
  let domain := NormalizeDomain (po_domain i) in
  let wallet := TrimSpace (po_wallet i) in
  if negb (po_free i) then (t, Busy)
  else if negb (po_parsed i) then (t, InvalidForm)
  else if negb (IsDomainFormatValid domain) then (t, InvalidDomain)
  else if negb (congrid_address (TrimSpace wallet)) then (t, InvalidWallet)
  else
    match GetPrimaryDomain domain with
    | Err _ => (t, NoPrimary)
    | Ok primary =>
        match po_found i with
        | Err _ => (t, ServerError)
        | Ok (Some c) => (t, Already c)
        | Ok None =>
            if negb (po_badge i) then (t, VerificationFailed)
            else
              let '(t, r) := Reserve (po_insert i) (po_again i) (po_now i) primary domain wallet (ac_Amount cfg) (ac_Denom cfg) t in
              (t, match r with Err _ => ServerError | Ok (c, true) => Queued c | Ok (c, false) => Already c end)
        end
    end.

(** * The worker *)

(** Where a worker is, between two calls to the outside. *)
Inductive phase := Resting | ConfirmNext | ConfirmQuery (k : gostr) (c : claimInfo) | SubmitNext | SubmitMark (k : gostr) (c : claimInfo)
  | Sending (k : gostr) (c : claimInfo) | Recording (k : gostr) (txHash : gostr) | Failing (k : gostr) (status : claimStatus) (message : gostr).

Inductive txConfirmation := txConfirmationPending | txConfirmationConfirmed | txConfirmationFailed.

(** The answer of [Broadcast]: a hash, or an error and whether it is ambiguous; and that
    of [Query]: a state with its message, or an error.  The clock is in nanoseconds. *)
Inductive broadcast_answer := Accepted (txHash : gostr) | Refused (ambiguous : bool) (message : gostr).
Record work_input := mkWork {
  wi_db : fault; wi_nanos : Z; wi_tie : nat; wi_broadcast : broadcast_answer; wi_query : result gostr (txConfirmation * gostr); wi_stopped : bool }.

(** The clock in seconds. *)
Definition wi_now (i : work_input) : Z := wi_nanos i / 10 ^ 9.

(** A payment: the site, and the claim the command was called with. *)
Abbreviation payment := (gostr * claimInfo)%type.

(** After a claim was handled, the worker takes the next one, unless it is stopped. *)
Definition again (i : work_input) : phase := if wi_stopped i then Resting else SubmitNext.

Definition work_step (i : work_input) (p : phase) (t : claims) : phase * claims * list payment :=
  match p with
  | Resting => (ConfirmNext, t, [])
  | ConfirmNext =>
      (match Next (wi_db i) (wi_tie i) claimStatusBroadcast t with Ok (Some (k, c)) => ConfirmQuery k c | _ => SubmitNext end, t, [])
  | ConfirmQuery k c =>
      let late := negb (cl_BroadcastAt c <=? 0) && (ac_ConfirmTimeout cfg <=? wi_nanos i - cl_BroadcastAt c * 10 ^ 9) in
      let t' := match wi_query i with
                | Err e => if late then (MarkConfirmationUncertain (wi_db i) (wi_now i) k (go "transaction confirmation remained unavailable: " ++ e) t).1 else t
                | Ok (txConfirmationPending, _) =>
                    if late then (MarkConfirmationUncertain (wi_db i) (wi_now i) k
                      (go "transaction was not found before the confirmation timeout; operator reconciliation required") t).1 else t
                | Ok (txConfirmationFailed, m) => (MarkDeliveryFailed (wi_db i) (wi_now i) k m t).1
                | Ok (txConfirmationConfirmed, _) => (MarkConfirmed (wi_db i) (wi_now i) k (wi_now i) t).1
                end in
      (SubmitNext, t', [])
  | SubmitNext =>
      (match Next (wi_db i) (wi_tie i) claimStatusVerified t with Ok (Some (k, c)) => SubmitMark k c | _ => Resting end, t, [])
  | SubmitMark k c =>
      let '(t', r) := MarkSubmitting (wi_db i) (wi_now i) k t in
      (match r with Ok true => Sending k c | _ => again i end, t', [])
  | Sending k c =>
      (match wi_broadcast i with
       | Accepted txHash => Recording k txHash
       | Refused ambiguous m => Failing k (if ambiguous then claimStatusNeedsReconcile else claimStatusFailed) m
       end, t, [(k, c)])
  | Recording k txHash =>
      let '(t', r) := MarkBroadcast (wi_db i) (wi_now i) k txHash (wi_now i) t in
      (match r with
       | Ok _ => again i
       | Err _ => Failing k claimStatusNeedsReconcile (go "transaction " ++ txHash ++ go " was accepted but its broadcast state could not be persisted")
       end, t', [])
  | Failing k status m => (again i, (MarkTerminal (wi_db i) (wi_now i) k status m t).1, [])
  end.

(** * The server *)

(** The table, the workers of all the processes that share it, and the payments made. *)
Record airdrop := mkState { as_table : claims; as_workers : list phase; as_paid : list payment }.

(** What happens: a request of the form, a step of a worker, the start of another
    process that has a worker, with its recovery, the end of one at any place, and the import of old claims. *)
Inductive airdrop_event := EPost (i : post_input) | EWork (n : nat) (i : work_input) | EStart (f : fault) (now : Z) | EKill (n : nat)
  | EImport (f : fault) (now : Z) (l : list (gostr * gostr * claimInfo)).

Definition airdrop_step (s : airdrop) (e : airdrop_event) : airdrop :=
  match e with
  | EPost i => mkState (handleAirdropPost i (as_table s)).1 (as_workers s) (as_paid s)
  | EWork n i =>
      match as_workers s !! n with
      | None => s
      | Some p => let '(p', t, paid) := work_step i p (as_table s) in mkState t (<[n := p']> (as_workers s)) (as_paid s ++ paid)
      end
  | EStart f now =>
      match RecoverInterrupted f now (as_table s) with
      | (t, Ok _) => mkState t (as_workers s ++ [ConfirmNext]) (as_paid s)
      | (t, Err _) => mkState t (as_workers s) (as_paid s)
      end
  | EKill n => mkState (as_table s) (delete n (as_workers s)) (as_paid s)
  | EImport f now l => mkState (importLegacy f now l (as_table s)).1 (as_workers s) (as_paid s)
  end.
Definition airdrop_run (l : list airdrop_event) : airdrop := foldl airdrop_step (mkState ∅ [] []) l.
End Form.
