(* ===== verification/AirdropProofs.v ===== *)
(** The airdrop pays each site at most once: how the rows of the table move, and that a
    payment is made for a row which can never be taken again. *)

From stdpp Require Import sorting.
From S2P Require Import Prelude JsBase GoBase GoHash Market MarketProofs Airdrop.

(** * The life of a claim *)

(** Where a status can lead. *)
Definition reaches (a b : claimStatus) : bool :=
  match a, b with
  | claimStatusVerified, _ => true
  | claimStatusSubmitting, claimStatusVerified => false
  | claimStatusSubmitting, _ => true
  | claimStatusBroadcast, (claimStatusVerified | claimStatusSubmitting) => false
  | claimStatusBroadcast, _ => true
  | _, _ => bool_decide (a = b)
  end.

Lemma reaches_refl a : reaches a a = true.
Proof. by destruct a. Qed.
Lemma reaches_trans a b c : reaches a b = true → reaches b c = true → reaches a c = true.
Proof. by destruct a, b, c. Qed.
Lemma reaches_verified a : reaches a claimStatusVerified = true → a = claimStatusVerified.
Proof. by destruct a. Qed.

(** What a claim is about, which stays. *)
Record same_claim (c c' : claimInfo) : Prop := {
  sm_domain : cl_Domain c' = cl_Domain c; sm_wallet : cl_Wallet c' = cl_Wallet c; sm_amount : cl_Amount c' = cl_Amount c; sm_denom : cl_Denom c' = cl_Denom c }.
#[export] Instance same_claim_equiv : Equivalence same_claim.
Proof. split; [by split|intros ? ? [? ? ? ?]; by split|intros ? ? ? [? ? ? ?] [? ? ? ?]; split; congruence]. Qed.

(** From one table to a later one: rows stay and move on, and new ones that are to be paid
    are of [P]. *)
Record moves (P : gostr → claimInfo → Prop) (t t' : claims) : Prop := {
  mv_old k c : t !! k = Some c → ∃ c', t' !! k = Some c' ∧ same_claim c c' ∧ reaches (cl_Status c) (cl_Status c') = true;
  mv_new k c : t !! k = None → t' !! k = Some c → cl_Status c = claimStatusVerified → P k c }.

Section Moves.
Context `{GoEnv} `{Wallets} (P : gostr → claimInfo → Prop) (stable : ∀ k c c', same_claim c c' → P k c → P k c').
Abbreviation mv := (moves P).

#[local] Instance moves_preorder : PreOrder mv.
Proof.
  split.
  - intros t. split; [|congruence]. intros k c Hc. exists c. split; [done|]. split; [done|apply reaches_refl].
  - intros t1 t2 t3 [O1 N1] [O2 N2]. split.
    + intros k c Hc. destruct (O1 k c Hc) as (c1 & H1 & S1 & R1). destruct (O2 k c1 H1) as (c2 & H2 & S2 & R2). exists c2. split; [done|].
      split; [by etrans|by eapply reaches_trans].
    + intros k c Hn Hc Hv. destruct (t2 !! k) as [c1|] eqn:E; [|by eapply N2]. destruct (O2 k c1 E) as (c2 & H2 & S2 & R2). rewrite Hc in H2. injection H2 as <-.
      rewrite Hv in R2. apply reaches_verified in R2. eapply stable; [exact S2|]. by eapply N1.
Qed.

Lemma insert_moves k c t : (cl_Status c = claimStatusVerified → P k c) → mv t (insert_row k c t).1.
Proof.
  intros HP. unfold insert_row. destruct (t !! k) eqn:E; [done|]. cbn. split.
  - intros k' c' Hc. exists c'. rewrite lookup_insert_ne by congruence. split; [done|]. split; [done|apply reaches_refl].
  - intros k' c' Hn [[<- <-]|[_ ?]]%lookup_insert_Some; [done|congruence].
Qed.

Lemma update_moves k from change t : (∀ c, same_claim c (change c)) → (∀ c, cl_Status c = from → reaches from (cl_Status (change c)) = true) →
  mv t (update_row k from change t).1.
Proof.
  intros Hs Hr. unfold update_row. destruct (t !! k) as [c|] eqn:E; [|done]. destruct (decide (cl_Status c = from)) as [Hf|]; [|done]. cbn. split.
  - intros k' c' Hc. destruct (decide (k' = k)) as [->|Hne].
    + rewrite E in Hc. injection Hc as <-. exists (change c). rewrite lookup_insert_eq. split; [done|]. split; [done|]. rewrite Hf. by apply Hr.
    + exists c'. rewrite lookup_insert_ne by done. split; [done|]. split; [done|apply reaches_refl].
  - intros k' c' Hn [[<- _]|[_ ?]]%lookup_insert_Some; congruence.
Qed.

Lemma exec_moves {A} (f : fault) (run : claims → claims * result err A) t : mv t (run t).1 → mv t (exec_sql f run t).1.
Proof. intros Hm. by destruct f. Qed.

Lemma submitting_moves (f : fault) now k t : mv t (MarkSubmitting f now k t).1.
Proof.
  apply exec_moves. pose proof (update_moves k claimStatusVerified (λ c, counted (with_status claimStatusSubmitting now [] c)) t) as Hu.
  destruct (update_row _ _ _ t) as [t' n]. apply Hu; [intros c; by split|done].
Qed.

Lemma transition_moves (f : fault) now k from to_ h b c e t : reaches from to_ = true → mv t (transition f now k from to_ h b c e t).1.
Proof.
  intros Hr. apply exec_moves. cbv zeta. destruct (_ && _); [done|]. unfold requireOneRow. apply update_moves; [intros x; by split|done].
Qed.

Lemma terminal_moves (f : fault) now k st m t : mv t (MarkTerminal f now k st m t).1.
Proof. destruct st; try done; apply exec_moves; unfold requireOneRow; (apply update_moves; [intros x; by split|done]). Qed.

Lemma recover_moves (f : fault) now t : mv t (RecoverInterrupted f now t).1.
Proof.
  apply exec_moves. cbn. split.
  - intros k c Hc. rewrite lookup_fmap, Hc. cbn. eexists. split; [done|]. case_decide as Hs; [|split; [done|apply reaches_refl]]. split; [by split|]. by rewrite Hs.
  - intros k c Hn. rewrite lookup_fmap, Hn. done.
Qed.

Lemma legacy_status now key primary c r : legacy_row now key primary c = Ok r → cl_Status r.2 ≠ claimStatusVerified.
Proof. unfold legacy_row. intros HL. run_ok HL. injection HL as <-. cbn [snd cl_Status]. by destruct (blank (cl_TxHash c)). Qed.

Lemma import_moves (f : fault) now l t : mv t (importLegacy f now l t).1.
Proof.
  unfold importLegacy. destruct (each _ l t) as [t'|] eqn:E; [|done]. apply exec_moves. cbn [fst].
  eapply (each_ind (λ u, mv t u)); [|done|exact E]. intros x u u' _ Hu Hx. etrans; [exact Hu|]. run_ok Hx.
  match goal with HL : legacy_row _ _ _ _ = Ok _ |- _ => apply legacy_status in HL as Hs end.
  injection Hx as <-. match goal with Ei : insert_row r.1 r.2 u = (?g, _) |- mv u ?g => replace g with (insert_row r.1 r.2 u).1 by (by rewrite Ei) end. by apply insert_moves.
Qed.

Lemma reserve_moves (f ag : fault) now primary domain wallet amount denom t :
  (∀ p, GetPrimaryDomain (TrimSpace (ToLower domain)) = Ok p → P p (mkClaim (TrimSpace (ToLower domain)) (TrimSpace wallet) amount denom claimStatusVerified [] now now 0 0 0 [])) →
  mv t (Reserve f ag now primary domain wallet amount denom t).1.
Proof.
  intros HP. unfold Reserve. cbv zeta. destruct (negb (primary_is _ _)) eqn:Ep; [done|]. destruct (_ || _ || _); [done|].
  set (c := mkClaim _ _ _ _ _ _ _ _ _ _ _ _) in *. set (k := TrimSpace (ToLower primary)) in *.
  assert (P k c) as Hk. { unfold primary_is in Ep. destruct (GetPrimaryDomain _) as [p|]; [|done]. apply HP. f_equal. by destruct (bool_decide_reflect (p = k)). }
  pose proof (exec_moves f (λ t, let '(t, new) := insert_row k c t in (t, Ok new)) t) as He. destruct (exec_sql _ _ t) as [t' r]. apply He.
  pose proof (insert_moves k c t ltac:(done)) as Hi. by destruct (insert_row k c t).
Qed.

Lemma post_moves cfg i t :
  (po_badge i = true → ∀ p, GetPrimaryDomain (NormalizeDomain (NormalizeDomain (po_domain i))) = Ok p → ∀ c, cl_Domain c = NormalizeDomain (NormalizeDomain (po_domain i)) →
    cl_Wallet c = TrimSpace (po_wallet i) → cl_Amount c = ac_Amount cfg → cl_Denom c = ac_Denom cfg → P p c) →
  mv t (handleAirdropPost cfg i t).1.
Proof.
  intros HP. unfold handleAirdropPost. cbv zeta. destruct (negb (po_free i)); [done|]. destruct (negb (po_parsed i)); [done|]. destruct (negb (IsDomainFormatValid _)); [done|].
  destruct (negb (congrid_address _)); [done|]. destruct (GetPrimaryDomain (NormalizeDomain (po_domain i))) as [primary|e] eqn:Eg; [|done]. destruct (po_found i) as [[c|]|e]; [reflexivity| |reflexivity].
  destruct (po_badge i) eqn:Eb; [|done]. cbn [negb].
  pose proof (reserve_moves (po_insert i) (po_again i) (po_now i) primary (NormalizeDomain (po_domain i)) (TrimSpace (po_wallet i)) (ac_Amount cfg) (ac_Denom cfg) t) as Hr.
  destruct (Reserve _ _ _ _ _ _ _ _ t) as [t' r]. apply Hr. intros p Hp. apply HP; try done. cbn. apply TrimSpace_idem.
Qed.

Lemma work_moves cfg i p t : mv t (work_step cfg i p t).1.2.
Proof.
  destruct p; cbn [work_step fst snd]; try done.
  - destruct (wi_query i) as [[[] m]|e]; try (by apply transition_moves); destruct (_ && _); try done; by apply transition_moves.
  - pose proof (submitting_moves (wi_db i) (wi_now i) k t) as Hm. by destruct (MarkSubmitting _ _ _ t).
  - pose proof (transition_moves (wi_db i) (wi_now i) k claimStatusSubmitting claimStatusBroadcast (TrimSpace txHash) (wi_now i) 0 [] t eq_refl) as Hm.
    unfold MarkBroadcast. by destruct (transition _ _ _ _ _ _ _ _ _ t).
  - apply terminal_moves.
Qed.
End Moves.

(** * Payments *)

Section Paid.
Context `{GoEnv} `{Wallets} (cfg : airdropConfig) (P : gostr → claimInfo → Prop) (stable : ∀ k c c', same_claim c c' → P k c → P k c').

(** The sites whose payment a worker is about to make. *)
Definition sending (p : phase) : option gostr := match p with Sending k _ => Some k | _ => None end.
Definition held_claim (p : phase) : option (gostr * claimInfo) := match p with SubmitMark k c | Sending k c => Some (k, c) | _ => None end.
Definition taken (s : airdrop) : list gostr := (as_paid s).*1 ++ omap sending (as_workers s).

Definition stored (t : claims) (k : gostr) (c : claimInfo) : Prop := ∃ c', t !! k = Some c' ∧ same_claim c c'.

(** Every site is taken once, a site that is taken can not be taken again, and what is
    paid is what the table has. *)
Record paid_inv (s : airdrop) : Prop := {
  pd_once : NoDup (taken s);
  pd_spent k : k ∈ taken s → ∃ c, as_table s !! k = Some c ∧ cl_Status c ≠ claimStatusVerified;
  pd_rows k c : as_table s !! k = Some c → cl_Status c = claimStatusVerified → P k c;
  pd_held p k c : p ∈ as_workers s → held_claim p = Some (k, c) → P k c ∧ stored (as_table s) k c;
  pd_paid k c : (k, c) ∈ as_paid s → P k c ∧ stored (as_table s) k c }.

Lemma stored_moves t t' k c : moves P t t' → stored t k c → stored t' k c.
Proof. intros [O _] (c' & Hc & Hs). destruct (O k c' Hc) as (c2 & H2 & S2 & _). exists c2. split; [done|]. by etrans. Qed.

Lemma spent_moves t t' k : moves P t t' → (∃ c, t !! k = Some c ∧ cl_Status c ≠ claimStatusVerified) →
  ∃ c, t' !! k = Some c ∧ cl_Status c ≠ claimStatusVerified.
Proof.
  intros [O _] (c & Hc & Hs). destruct (O k c Hc) as (c2 & H2 & _ & R2). exists c2. split; [done|]. intros E. rewrite E in R2. by apply reaches_verified in R2.
Qed.

Lemma rows_move t t' : moves P t t' → (∀ k c, t !! k = Some c → cl_Status c = claimStatusVerified → P k c) →
  ∀ k c, t' !! k = Some c → cl_Status c = claimStatusVerified → P k c.
Proof.
  intros [O N] HP k c Hc Hv. destruct (t !! k) as [c0|] eqn:E; [|by eapply N]. destruct (O k c0 E) as (c2 & H2 & S2 & R2). rewrite Hc in H2. injection H2 as <-.
  rewrite Hv in R2. apply reaches_verified in R2. eapply stable; [exact S2|]. by apply HP.
Qed.

(** A step that takes no site: the workers it leaves hold nothing new. *)
Lemma paid_same s t ws : paid_inv s → moves P (as_table s) t → omap sending ws `sublist_of` omap sending (as_workers s) →
  (∀ p, p ∈ ws → p ∈ as_workers s ∨ held_claim p = None) → paid_inv (mkState t ws (as_paid s)).
Proof.
  intros [I1 I2 I3 I4 I5] Hm Hs Hw. split; cbn [as_table as_workers as_paid].
  - eapply sublist_NoDup; [exact I1|]. unfold taken. cbn. by apply sublist_app.
  - intros k Hk. eapply spent_moves; [exact Hm|]. apply I2. unfold taken in *. cbn in Hk. apply elem_of_app in Hk as [Hk|Hk]; apply elem_of_app; [by left|right].
    eapply elem_of_submseteq; [exact Hk|]. by apply sublist_submseteq.
  - by eapply rows_move.
  - intros p k c Hp Hh. destruct (Hw p Hp) as [Hp'|Hn]; [|congruence]. destruct (I4 p k c Hp' Hh). split; [done|]. by eapply stored_moves.
  - intros k c Hc. destruct (I5 k c Hc). split; [done|]. by eapply stored_moves.
Qed.

(** Two workers at the same place of the list. *)
Lemma insert_Permutation_delete {A} (l : list A) n x y : l !! n = Some x → <[n := y]> l ≡ₚ y :: delete n l.
Proof.
  revert n. induction l as [|z l IH]; intros [|n] Hn; cbn in *; try done. rewrite (IH n Hn). apply perm_swap.
Qed.

(** The sites that others have taken. *)
Definition others (s : airdrop) (n : nat) : list gostr := (as_paid s).*1 ++ omap sending (delete n (as_workers s)).

Lemma taken_is s n p : as_workers s !! n = Some p → taken s ≡ₚ omap sending [p] ++ others s n.
Proof.
  intros Hn. unfold taken, others. rewrite Permutation_app_swap_app. f_equiv. etrans; [apply omap_Permutation, delete_Permutation; exact Hn|].
  change (p :: delete n (as_workers s)) with ([p] ++ delete n (as_workers s)). by rewrite omap_app.
Qed.

Lemma taken_put s n p p' t paid : as_workers s !! n = Some p →
  taken (mkState t (<[n := p']> (as_workers s)) (as_paid s ++ paid)) ≡ₚ (paid.*1 ++ omap sending [p']) ++ others s n.
Proof.
  intros Hn. unfold taken, others. cbn [as_paid as_workers]. rewrite fmap_app.
  assert (omap sending (<[n := p']> (as_workers s)) ≡ₚ omap sending [p'] ++ omap sending (delete n (as_workers s))) as ->.
  { etrans; [apply omap_Permutation, (insert_Permutation_delete _ _ _ p' Hn)|]. change (p' :: delete n (as_workers s)) with ([p'] ++ delete n (as_workers s)). by rewrite omap_app. }
  rewrite <- !app_assoc. rewrite Permutation_app_swap_app. f_equiv. rewrite Permutation_app_swap_app. done.
Qed.

(** A step of a worker that takes the sites [new]. *)
Lemma paid_put s n p p' t paid : paid_inv s → as_workers s !! n = Some p → moves P (as_table s) t →
  let new := paid.*1 ++ omap sending [p'] in
  (new = [] ∨ ∃ k, new = [k] ∧ (k ∉ others s n) ∧ ∃ c, t !! k = Some c ∧ cl_Status c ≠ claimStatusVerified) →
  (∀ k c, held_claim p' = Some (k, c) ∨ (k, c) ∈ paid → P k c ∧ stored t k c) →
  paid_inv (mkState t (<[n := p']> (as_workers s)) (as_paid s ++ paid)).
Proof.
  intros [I1 I2 I3 I4 I5] Hn Hm new Hnew Hok. pose proof (taken_is s n p Hn) as T0. pose proof (taken_put s n p p' t paid Hn) as T1. fold new in T1.
  assert (NoDup (others s n)) as Ho by (rewrite T0 in I1; by apply list.NoDup_app in I1 as (_ & _ & ?)).
  split; cbn [as_table as_workers as_paid].
  - rewrite T1. destruct Hnew as [->|(k & -> & Hk & _)]; [done|]. cbn. by apply list.NoDup_cons.
  - intros k. rewrite T1. intros [Hk|Hk]%elem_of_app.
    + destruct Hnew as [E|(k' & E & _ & Hc)]; rewrite E in Hk; [by apply not_elem_of_nil in Hk|]. by apply list_elem_of_singleton in Hk as ->.
    + eapply spent_moves; [exact Hm|]. apply I2. rewrite T0. apply elem_of_app. by right.
  - by eapply rows_move.
  - intros q k c Hq Hh. rewrite (insert_Permutation_delete _ _ _ p' Hn) in Hq. apply elem_of_cons in Hq as [->|Hq]; [by apply Hok; left|].
    destruct (I4 q k c) as [? ?]; [|done|split; [done|by eapply stored_moves]]. eapply elem_of_submseteq; [exact Hq|]. apply sublist_submseteq, sublist_delete.
  - intros k c [Hc|Hc]%elem_of_app; [|by apply Hok; right]. destruct (I5 k c Hc). split; [done|]. by eapply stored_moves.
Qed.

Lemma submitting_taken f now k t t' : MarkSubmitting f now k t = (t', Ok true) →
  (∃ c, t !! k = Some c ∧ cl_Status c = claimStatusVerified) ∧ ∃ c, t' !! k = Some c ∧ cl_Status c = claimStatusSubmitting.
Proof.
  unfold MarkSubmitting, exec_sql, update_row. destruct f; [|done|intros [=]]. destruct (t !! k) as [c|] eqn:E; [|intros [=]].
  destruct (decide (cl_Status c = claimStatusVerified)); [|intros [=]]. intros [= <-]. split; [by exists c|]. eexists. split; [apply lookup_insert_eq|done].
Qed.

Lemma next_stored f tie st t k c : Next f tie st t = Ok (Some (k, c)) → t !! k = Some c ∧ cl_Status c = st.
Proof.
  unfold Next. destruct f; [|done..]. set (rows := filter _ (entries t)). set (oldest := filter _ rows). intros [= Hn].
  assert ((k, c) ∈ oldest) as Hin by (destruct (oldest !! tie) eqn:E; [injection Hn as ->; by eapply list_elem_of_lookup_2|destruct oldest; [done|injection Hn as ->; by left]]).
  apply list_elem_of_filter in Hin as [_ Hin]. apply list_elem_of_filter in Hin as [Hs Hin]. by apply elem_of_entries in Hin.
Qed.

Lemma step_quiet i p t : (∀ k c, p ≠ SubmitMark k c) → (∀ k c, p ≠ Sending k c) →
  (work_step cfg i p t).2 = [] ∧ sending (work_step cfg i p t).1.1 = None ∧
  ∀ k c, held_claim (work_step cfg i p t).1.1 = Some (k, c) → (work_step cfg i p t).1.2 = t ∧ t !! k = Some c ∧ cl_Status c = claimStatusVerified.
Proof.
  intros H1 H2. assert (∀ j, sending (again j) = None ∧ held_claim (again j) = None) as Ha by (intros j; unfold again; by destruct (wi_stopped j)).
  destruct p; cbn [work_step fst snd]; try done.
  - destruct (Next _ _ _ _) as [[[k c]|]|]; done.
  - destruct (Next _ _ _ _) as [[[k c]|]|] eqn:E; try done. apply next_stored in E as [? ?]. split; [done|]. split; [done|]. by intros k' c' [= <- <-].
  - by destruct (H1 k c).
  - by destruct (H2 k c).
  - destruct (MarkBroadcast _ _ _ _ _ _) as [t' [?|]]; cbn [fst snd]; [|done]. destruct (Ha i) as [-> ->]. done.
  - destruct (Ha i) as [-> ->]. done.
Qed.

Lemma omap_sending p : omap sending [p] = match sending p with Some k => [k] | None => [] end.
Proof. cbn. by destruct (sending p). Qed.

(** A worker keeps the invariant. *)
Lemma work_paid s n i p : paid_inv s → as_workers s !! n = Some p → paid_inv (airdrop_step cfg s (EWork n i)).
Proof.
  intros Hs Hn. cbn [airdrop_step]. rewrite Hn. pose proof (work_moves P stable cfg i p (as_table s)) as Hm. pose proof (list_elem_of_lookup_2 _ _ _ Hn) as Hp.
  pose proof Hs as [I1 I2 I3 I4 I5]. pose proof (taken_is s n p Hn) as T0. assert (∀ j, sending (again j) = None ∧ held_claim (again j) = None) as Ha.
  { intros j. unfold again. by destruct (wi_stopped j). }
  assert ((∃ k c, p = SubmitMark k c) ∨ (∃ k c, p = Sending k c) ∨ ((∀ k c, p ≠ SubmitMark k c) ∧ (∀ k c, p ≠ Sending k c))) as [(k & c & ->)|[(k & c & ->)|[N1 N2]]].
  { destruct p; eauto; right; right; done. }
  - cbn [work_step fst snd] in *. destruct (MarkSubmitting (wi_db i) (wi_now i) k (as_table s)) as [t r] eqn:Em. cbn [fst snd] in Hm.
    destruct (I4 _ k c Hp eq_refl) as [HP Hst]. assert (stored t k c) as Hst' by (by eapply stored_moves).
    assert (r = Ok true ∨ (match r with Ok true => Sending k c | _ => again i end) = again i) as [->| ->] by (destruct r as [[]|]; auto).
    + apply submitting_taken in Em as [(c0 & Hc0 & Hv) (c1 & Hc1 & Hv1)]. eapply paid_put; [done|exact Hn|done| |].
      * right. exists k. split; [done|]. split; [|exists c1; split; [done|congruence]]. intros Hin.
        destruct (I2 k) as (c2 & Hc2 & Hne); [rewrite T0; apply elem_of_app; by right|congruence].
      * intros k' c' [[= <- <-]|Hx]; [done|]. by apply not_elem_of_nil in Hx.
    + eapply paid_put; [done|exact Hn|done| |].
      * left. cbn [fmap list_fmap app]. rewrite omap_sending. by destruct (Ha i) as [-> _].
      * intros k' c'. destruct (Ha i) as [_ ->]. intros [?|Hx]; [done|]. by apply not_elem_of_nil in Hx.
  - cbn [work_step fst snd] in *. destruct (I4 _ k c Hp eq_refl) as [HP Hst]. set (p' := match wi_broadcast i with Accepted _ => _ | Refused _ _ => _ end).
    assert (sending p' = None ∧ held_claim p' = None) as [S1 S2] by (unfold p'; by destruct (wi_broadcast i)). eapply paid_put; [done|exact Hn|done| |].
    + right. exists k. rewrite omap_sending, S1. split; [done|]. rewrite T0 in I1. cbn in I1. apply list.NoDup_cons in I1 as [Hni _]. split; [done|].
      apply I2. rewrite T0. by left.
    + intros k' c'. rewrite S2. intros [?|Hx]; [done|]. by apply list_elem_of_singleton in Hx as [= -> ->].
  - destruct (step_quiet i p (as_table s) N1 N2) as (Q1 & Q2 & Q3). destruct (work_step cfg i p (as_table s)) as [[p' t] paid]. cbn [fst snd] in *. subst paid.
    eapply paid_put; [done|exact Hn|done| |].
    + left. cbn [fmap list_fmap app]. by rewrite omap_sending, Q2.
    + intros k c [Hh|Hx]; [|by apply not_elem_of_nil in Hx]. destruct (Q3 k c Hh) as (-> & Hc & Hv). split; [by apply I3|by exists c].
Qed.

Lemma sending_delete n ws : omap sending (delete n ws) `sublist_of` omap sending ws.
Proof.
  revert n. induction ws as [|p ws IH]; intros n; [done|]. destruct n as [|n]; cbn.
  - destruct (sending p); [by apply sublist_cons|done].
  - destruct (sending p); [apply sublist_skip, IH|apply IH].
Qed.

(** What a request must have shown for [P]. *)
Definition badge_shown (i : post_input) : Prop :=
  po_badge i = true → ∀ p, GetPrimaryDomain (NormalizeDomain (NormalizeDomain (po_domain i))) = Ok p → ∀ c, cl_Domain c = NormalizeDomain (NormalizeDomain (po_domain i)) →
    cl_Wallet c = TrimSpace (po_wallet i) → cl_Amount c = ac_Amount cfg → cl_Denom c = ac_Denom cfg → P p c.

Lemma step_paid s e : (∀ i, e = EPost i → badge_shown i) → paid_inv s → paid_inv (airdrop_step cfg s e).
Proof.
  intros HP Hs. destruct e as [i|n i|f now|n|f now l].
  - cbn [airdrop_step]. apply paid_same; [done|by apply post_moves, HP|done|auto].
  - destruct (as_workers s !! n) as [p|] eqn:Hn; [by eapply work_paid|]. cbn [airdrop_step]. by rewrite Hn.
  - cbn [airdrop_step]. pose proof (recover_moves P stable f now (as_table s)) as Hm. destruct (RecoverInterrupted f now (as_table s)) as [t [[]|]]; cbn [fst] in Hm; apply paid_same; try done; auto.
    + by rewrite omap_app, app_nil_r.
    + intros p [Hp|Hp]%elem_of_app; [by left|right]. by apply list_elem_of_singleton in Hp as ->.
  - cbn [airdrop_step]. apply paid_same; [done|by apply (moves_preorder P stable)| |].
    + apply sending_delete.
    + intros p Hp. left. eapply elem_of_submseteq; [exact Hp|]. apply sublist_submseteq, sublist_delete.
  - cbn [airdrop_step]. apply paid_same; [done|by apply import_moves|done|auto].
Qed.

Lemma run_paid l : (∀ i, EPost i ∈ l → badge_shown i) → paid_inv (airdrop_run cfg l).
Proof.
  intros HP. unfold airdrop_run. induction l as [|e l IH] using rev_ind.
  { cbn. split; cbn; [constructor|by intros k ?%not_elem_of_nil|intros k c; by rewrite lookup_empty|by intros p k c ?%not_elem_of_nil|by intros k c ?%not_elem_of_nil]. }
  rewrite foldl_app. cbn [foldl]. apply step_paid; [intros i ->; apply HP, elem_of_app; right; by left|]. apply IH. intros i Hi. apply HP, elem_of_app. by left.
Qed.
End Paid.
