(* ===== verification/AirdropProps.v ===== *)
(** What the airdrop promises: one payment per site, to the wallet of a request whose
    homepage had the badge, and a queue that a woken worker empties, oldest claim first. *)

From stdpp Require Import sorting.
From S2P Require Import Prelude JsBase GoBase GoHash Market MarketProofs Airdrop AirdropProofs.

(** * The queue *)

(** The claims that wait for their payment. *)
Definition queue (t : claims) : claims := filter (λ r, cl_Status r.2 = claimStatusVerified) t.

Lemma queue_some t k c : queue t !! k = Some c ↔ t !! k = Some c ∧ cl_Status c = claimStatusVerified.
Proof. unfold queue. by rewrite map_lookup_filter_Some. Qed.

Lemma queue_skip t k c : (∀ c0, t !! k = Some c0 → cl_Status c0 ≠ claimStatusVerified) → cl_Status c ≠ claimStatusVerified → queue (<[k := c]> t) = queue t.
Proof.
  intros Ho Hn. apply map_eq. intros k'. apply option_eq. intros c'. rewrite !queue_some, lookup_insert_Some. split.
  - intros [[[<- <-]|[_ ?]] ?]; done.
  - intros [Hc ?]. split; [right; split; [intros <-; by destruct (Ho c')|done]|done].
Qed.

Lemma queue_taken t k c : cl_Status c ≠ claimStatusVerified → queue (<[k := c]> t) = delete k (queue t).
Proof.
  intros Hn. apply map_eq. intros k'. apply option_eq. intros c'. rewrite lookup_delete_Some, !queue_some, lookup_insert_Some. split.
  - intros [[[<- <-]|[? ?]] ?]; done.
  - intros [? [? ?]]. split; [by right|done].
Qed.

Lemma update_queue k from change t : from ≠ claimStatusVerified → (∀ c, cl_Status (change c) ≠ claimStatusVerified) → queue (update_row k from change t).1 = queue t.
Proof.
  intros Hf Hc. unfold update_row. destruct (t !! k) as [c|] eqn:E; [|done]. destruct (decide (cl_Status c = from)) as [Hs|]; [|done].
  apply queue_skip; [|done]. intros c0 [= <-]%(eq_trans (eq_sym E)). congruence.
Qed.

(** A row that no other is older than. *)
Lemma least_row (rows : list (gostr * claimInfo)) x : x ∈ rows → ∃ r, r ∈ rows ∧ Forall (λ q, cl_ClaimedAt r.2 ≤ cl_ClaimedAt q.2) rows.
Proof.
  revert x. induction rows as [|y rows IH]; intros x Hx; [by apply not_elem_of_nil in Hx|]. destruct rows as [|z rows].
  { exists y. split; [by left|]. by constructor. }
  destruct (IH z) as (r & Hr & Hle); [by left|]. destruct (decide (cl_ClaimedAt r.2 ≤ cl_ClaimedAt y.2)).
  - exists r. split; [by right|]. by constructor.
  - exists y. split; [by left|]. constructor; [done|]. revert Hle. apply Forall_impl. cbn. intros q. lia.
Qed.

Section Props.
Context `{GoEnv} `{Wallets} (cfg : airdropConfig).

(** A call of the database that leaves the queue alone. *)
Lemma exec_queue {A} (f : fault) (run : claims → claims * result err A) t : queue (run t).1 = queue t → queue (exec_sql f run t).1 = queue t.
Proof. by destruct f. Qed.

Lemma transition_queue (f : fault) now k from to_ h b c e t : from ≠ claimStatusVerified → to_ ≠ claimStatusVerified →
  queue (transition f now k from to_ h b c e t).1 = queue t.
Proof. intros Hf Ht. apply exec_queue. cbv zeta. destruct (_ && _); [done|]. by apply update_queue. Qed.

Lemma terminal_queue (f : fault) now k st m t : queue (MarkTerminal f now k st m t).1 = queue t.
Proof. destruct st; try done; apply exec_queue; by apply update_queue. Qed.

(** Only taking a claim changes the queue. *)
Lemma work_queue i p t : (∀ k c, p ≠ SubmitMark k c) → queue (work_step cfg i p t).1.2 = queue t.
Proof.
  intros Hp. destruct p; cbn [work_step fst snd]; try done.
  - destruct (wi_query i) as [[[] m]|e]; try (by apply transition_queue); destruct (_ && _); try done; by apply transition_queue.
  - by destruct (Hp k c).
  - pose proof (transition_queue (wi_db i) (wi_now i) k claimStatusSubmitting claimStatusBroadcast (TrimSpace txHash) (wi_now i) 0 [] t) as Hm.
    unfold MarkBroadcast. destruct (transition _ _ _ _ _ _ _ _ _ t) as [t' r]. by apply Hm.
  - apply terminal_queue.
Qed.

Lemma submitting_ok now k c t : queue t !! k = Some c → ∃ t', MarkSubmitting Fine now k t = (t', Ok true) ∧ queue t' = delete k (queue t).
Proof.
  intros [Hc Hv]%queue_some. unfold MarkSubmitting, exec_sql, update_row. rewrite Hc, decide_True by done. eexists. split; [done|]. by apply queue_taken.
Qed.

(** The next claim is a waiting one that no other is older than. *)
Lemma next_queue tie t : match Next Fine tie claimStatusVerified t with
  | Ok (Some (k, c)) => queue t !! k = Some c ∧ ∀ k' c', queue t !! k' = Some c' → cl_ClaimedAt c ≤ cl_ClaimedAt c'
  | Ok None => queue t = ∅
  | Err _ => False
  end.
Proof.
  destruct (Next _ _ _ _) as [[[k c]|]|] eqn:En; [| |done].
  - pose proof (next_stored _ _ _ _ _ _ En) as [Hc Hs]. split; [by apply queue_some|]. intros k' c' [Hc' Hs']%queue_some. unfold Next in En. injection En as En.
    set (rows := filter _ (entries t)) in *. set (oldest := filter _ rows) in *.
    assert ((k, c) ∈ oldest) as Hin by (destruct (oldest !! tie) eqn:E; [injection En as ->; by eapply list_elem_of_lookup_2|destruct oldest; [done|injection En as ->; by left]]).
    apply list_elem_of_filter in Hin as [Hall _]. rewrite list.Forall_forall in Hall. apply (Hall (k', c')). apply list_elem_of_filter. split; [done|]. by apply elem_of_entries.
  - unfold Next in En. injection En as En. set (rows := filter _ (entries t)) in *. set (oldest := filter _ rows) in *.
    assert (oldest = []) as Eo by (destruct (oldest !! tie); [done|by destruct oldest]).
    apply map_empty. intros k. apply eq_None_not_Some. intros [c [Hc Hs]%queue_some].
    assert ((k, c) ∈ rows) as Hr by (apply list_elem_of_filter; split; [done|by apply elem_of_entries]).
    destruct (least_row rows (k, c) Hr) as (r & Hin & Hle). assert (r ∈ oldest) as Hx by (by apply list_elem_of_filter). rewrite Eo in Hx. by apply not_elem_of_nil in Hx.
Qed.

(** * A worker alone *)

(** The steps of one worker: where it is, the table, and what it paid. *)
Fixpoint work_run (ins : list work_input) (p : phase) (t : claims) : phase * claims * list (gostr * claimInfo) :=
  match ins with
  | [] => (p, t, [])
  | i :: ins => let r := work_step cfg i p t in let q := work_run ins r.1.1 r.1.2 in (q.1, r.2 ++ q.2)
  end.

Lemma foldl_work w ins s p : as_workers s !! w = Some p →
  foldl (airdrop_step cfg) s (EWork w <$> ins) =
  let r := work_run ins p (as_table s) in mkState r.1.2 (<[w := r.1.1]> (as_workers s)) (as_paid s ++ r.2).
Proof.
  revert s p. induction ins as [|i ins IH]; intros s p Hp; cbn [foldl fmap list_fmap work_run fst snd].
  - rewrite list_insert_id, app_nil_r by done. by destruct s.
  - cbn [airdrop_step]. rewrite Hp. destruct (work_step cfg i p (as_table s)) as [[p' t] l]. cbn [fst snd].
    rewrite (IH _ p') by (cbn; apply list_lookup_insert_eq; by eapply lookup_lt_Some). cbn. by rewrite list_insert_insert_eq, app_assoc.
Qed.

Lemma work_run_app ins js p t :
  work_run (ins ++ js) p t = let r := work_run ins p t in let q := work_run js r.1.1 r.1.2 in (q.1, r.2 ++ q.2).
Proof. revert p t. induction ins as [|i ins IH]; intros p t; cbn [app work_run fst snd]; [by destruct (work_run js p t)|]. rewrite IH. cbn [fst snd]. by rewrite app_assoc. Qed.

(** A call that works. *)
Definition works (i : work_input) : Prop := wi_db i = Fine ∧ wi_stopped i = false.

#[local] Ltac walk := cbn [take work_run work_step fst snd app].

(** One claim: four steps, or five when its hash is one that the table has. *)
Lemma claim_handled ins t k c : Forall works ins → (4 ≤ length ins)%nat → queue t !! k = Some c →
  ∃ n t', (n ≤ 4)%nat ∧ work_run (take n ins) (SubmitMark k c) t = (SubmitNext, t', [(k, c)]) ∧ queue t' = delete k (queue t).
Proof.
  intros Hi Hl Hc. destruct ins as [|i1 [|i2 [|i3 [|i4 ins]]]]; cbn in Hl; try lia. apply list.Forall_cons in Hi as [[F1 _] [_ [[_ S3] [[_ S4] _]%list.Forall_cons]%list.Forall_cons]%list.Forall_cons].
  destruct (submitting_ok (wi_now i1) k c t Hc) as (t1 & Em & Hq).
  destruct (wi_broadcast i2) as [h|am m] eqn:Eb.
  - pose proof (work_queue i3 (Recording k h) t1 ltac:(done)) as Q3. cbn [work_step fst snd] in Q3. destruct (MarkBroadcast (wi_db i3) (wi_now i3) k h (wi_now i3) t1) as [t3 [?|?]] eqn:E3; cbn [fst snd] in Q3.
    + exists 3%nat, t3. split; [lia|]. split; [|congruence]. walk. rewrite F1, Em. walk. rewrite Eb. walk.
      rewrite E3. walk. unfold again. by rewrite S3.
    + pose proof (work_queue i4 (Failing k claimStatusNeedsReconcile (go "transaction " ++ h ++ go " was accepted but its broadcast state could not be persisted")) t3 ltac:(done)) as Q4.
      eexists 4%nat, _. split; [lia|]. split; [|etrans; [exact Q4|congruence]]. walk. rewrite F1, Em. walk. rewrite Eb. walk.
      rewrite E3. walk. unfold again. by rewrite S4.
  - set (st := if am then claimStatusNeedsReconcile else claimStatusFailed). pose proof (work_queue i3 (Failing k st m) t1 ltac:(done)) as Q3.
    eexists 3%nat, _. split; [lia|]. split; [|etrans; [exact Q3|done]]. walk. rewrite F1, Em. walk. rewrite Eb. walk.
    unfold again. by rewrite S3.
Qed.

(** Claims by their age. *)
Definition older (a b : gostr * claimInfo) : Prop := cl_ClaimedAt a.2 ≤ cl_ClaimedAt b.2.

Lemma queue_drained m ins t : size (queue t) = m → Forall works ins → (5 * m + 1 ≤ length ins)%nat →
  ∃ n t' l, work_run (take n ins) SubmitNext t = (Resting, t', l) ∧ queue t' = ∅ ∧ l ≡ₚ map_to_list (queue t) ∧ StronglySorted older l.
Proof.
  revert ins t. induction m as [m IH] using lt_wf_ind. intros ins t Hm Hi Hl. destruct ins as [|i ins]; [cbn in Hl; lia|]. cbn in Hl. apply list.Forall_cons in Hi as [[Hf Hs] Hi].
  pose proof (next_queue (wi_tie i) t) as Hn. destruct (Next Fine (wi_tie i) claimStatusVerified t) as [[[k c]|]|] eqn:En; [| |done].
  - destruct Hn as [Hc Hle]. assert (size (delete k (queue t)) = pred m) as Hd by (rewrite map_size_delete_Some by (by exists c); by rewrite Hm).
    assert (0 < m)%nat. { rewrite <- Hm. destruct (size (queue t)) eqn:E; [|lia]. apply map_size_empty_inv in E. by rewrite E in Hc. }
    destruct (claim_handled ins t k c Hi ltac:(lia) Hc) as (n & t1 & Hn4 & Hr & Hq).
    destruct (IH (pred m) ltac:(lia) (drop n ins) t1) as (n2 & t2 & l & Hr2 & Hq2 & Hp & Hso); [by rewrite Hq|by apply Forall_drop|rewrite length_drop; lia|].
    exists (S (n + n2)), t2, ((k, c) :: l). rewrite Hq in Hp. split; [|split; [done|split]].
    + cbn [take]. rewrite <- take_take_drop. cbn [work_run work_step]. rewrite Hf, En. cbn [fst snd app]. rewrite work_run_app, Hr. cbn [fst snd]. by rewrite Hr2.
    + rewrite Hp. by apply map_to_list_delete.
    + constructor; [done|]. rewrite Hp. apply list.Forall_forall. intros [k' c'] Hx%elem_of_map_to_list. apply lookup_delete_Some in Hx as [_ Hx]. by eapply Hle.
  - exists 1%nat, t, []. cbn [take work_run work_step]. rewrite Hf, En. cbn. split; [done|]. split; [done|]. rewrite Hn, map_to_list_empty. split; [done|constructor].
Qed.

(** C29 (liveness).  A worker that is woken empties the queue: when its calls to the
    database work, then, whatever the chain answers, it comes to rest after at most five
    steps for each claim that waits and four more, no claim waits any longer, and it made
    one payment for each of them and no other, the oldest first. *)
Theorem airdrop_queue_drained s w ins : as_workers s !! w = Some Resting → Forall (λ i, wi_db i = Fine ∧ wi_stopped i = false) ins →
  (5 * size (queue (as_table s)) + 4 ≤ length ins)%nat →
  ∃ n l, let s' := foldl (airdrop_step cfg) s (EWork w <$> take n ins) in
    as_workers s' !! w = Some Resting ∧ queue (as_table s') = ∅ ∧ as_paid s' = as_paid s ++ l ∧ l ≡ₚ map_to_list (queue (as_table s)) ∧
    StronglySorted (λ a b, cl_ClaimedAt a.2 ≤ cl_ClaimedAt b.2) l.
Proof.
  intros Hw Hi Hl. assert (∃ n t, (n ≤ 3)%nat ∧ work_run (take n ins) Resting (as_table s) = (SubmitNext, t, []) ∧ queue t = queue (as_table s)) as (n & t & Hn & Hr & Hq).
  { destruct ins as [|i1 [|i2 [|i3 ins]]]; cbn in Hl; try lia. destruct (Next (wi_db i2) (wi_tie i2) claimStatusBroadcast (as_table s)) as [[[k c]|]|] eqn:En.
    - eexists 3%nat, _. split; [lia|]. split; [cbn [take work_run work_step fst snd app]; by rewrite En|]. apply (work_queue i3 (ConfirmQuery k c)). done.
    - exists 2%nat, (as_table s). cbn [take work_run work_step fst snd app]. rewrite En. auto.
    - exists 2%nat, (as_table s). cbn [take work_run work_step fst snd app]. rewrite En. auto. }
  destruct (queue_drained _ (drop n ins) t eq_refl) as (n2 & t2 & l & Hr2 & Hq2 & Hp & Hso); [by apply Forall_drop|rewrite Hq, length_drop; lia|].
  exists (n + n2)%nat, l. cbv zeta. rewrite <- take_take_drop, (foldl_work w _ s Resting Hw), work_run_app, Hr. cbn [fst snd]. rewrite Hr2. cbn.
  rewrite Hq in Hp. split_and!; try done. apply list_lookup_insert_eq. by eapply lookup_lt_Some.
Qed.

(** A failed write is tried again at once: while claims can be read and not be taken,
    the worker comes back to where it was after two calls, without rest. *)
Lemma worker_spins i j t : wi_db i = Fine → wi_db j = FailedBefore → wi_stopped j = false → queue t ≠ ∅ → work_run [i; j] SubmitNext t = (SubmitNext, t, []).
Proof.
  intros Hi Hj Hs Hq. pose proof (next_queue (wi_tie i) t) as Hn. cbn [work_run work_step]. rewrite Hi. destruct (Next Fine _ _ t) as [[[k c]|]|]; [|done..].
  walk. rewrite Hj. unfold again. walk. by rewrite Hs.
Qed.

(** * One payment per site *)

(** The request that a claim comes from. *)
Definition asked (l : list airdrop_event) (k : gostr) (c : claimInfo) : Prop :=
  GetPrimaryDomain (cl_Domain c) = Ok k ∧ cl_Amount c = ac_Amount cfg ∧ cl_Denom c = ac_Denom cfg ∧
  ∃ i, EPost i ∈ l ∧ po_badge i = true ∧ cl_Domain c = NormalizeDomain (NormalizeDomain (po_domain i)) ∧ cl_Wallet c = TrimSpace (po_wallet i).

(** C17 (safety).  In every history of the site's processes over one table (requests of
    the form, steps of any number of workers in any order, crashes at any place, restarts
    with their recovery, imports of old claims, and calls to the database that fail before
    or after they took effect) the payment of a site is sent at most once, and each is sent
    for a request whose homepage had the badge, to its wallet and with the configured
    amount, and stays in the table in a status from which it is never sent again. *)
Theorem airdrop_pays_once l : let s := airdrop_run cfg l in
  NoDup (as_paid s).*1 ∧
  ∀ k c, (k, c) ∈ as_paid s → asked l k c ∧ ∃ c', as_table s !! k = Some c' ∧ cl_Wallet c' = cl_Wallet c ∧ cl_Status c' ≠ claimStatusVerified.
Proof.
  cbv zeta. assert (paid_inv (asked l) (airdrop_run cfg l)) as [I1 I2 _ _ I5].
  { apply run_paid; [|intros i Hi Hb p Hp c D W A Dn; split; [by rewrite D|]; eauto 10]. intros k c c' [D W A Dn]. unfold asked. by rewrite D, W, A, Dn. }
  split; [by apply list.NoDup_app in I1 as [? _]|]. intros k c Hc. destruct (I5 k c Hc) as [Ha (c' & Hc' & [_ Hw _ _])]. split; [done|].
  destruct (I2 k) as (c2 & Hc2 & Hv); [apply elem_of_app; left; apply list_elem_of_fmap; by exists (k, c)|]. exists c'. split; [done|]. split; [done|]. congruence.
Qed.
End Props.
