(* ===== verification/AirdropDemo.v ===== *)
(** The theorems on the airdrop, applied to a server that two sites ask for their payment,
    is killed while it pays the first, and is started again. *)

From stdpp Require Import sorting.
From S2P Require Import Prelude JsBase GoBase GoHash Market Airdrop AirdropProofs AirdropProps DemoEnv.

Module AirdropWitness.
Import Demo.

#[local] Instance demo_wallets : Wallets := {| congrid_address w := negb (empty w) |}.

Definition config : airdropConfig := mkAirdrop (go "100") (go "ucgrid") (600 * 10 ^ 9).
Definition asks (domain wallet : string) (now : Z) : airdrop_event := EPost (mkPost true true (go domain) (go wallet) (Ok None) true Fine Fine now).
Definition at_second (n : Z) (h : string) : work_input := mkWork Fine (n * 10 ^ 9) 0 (Accepted (go h)) (Ok (txConfirmationConfirmed, [])) false.

(** Three requests, two of them of hosts of one site; the process is killed after it sent the
    first payment, and another one starts. *)
Definition events : list airdrop_event :=
  [EStart Fine 1; asks "Blog.Example.com" " w1 " 5; asks "other.org" "w2" 6; asks "example.com" "w3" 7;
   EWork 0 (at_second 8 "h"); EWork 0 (at_second 8 "h"); EWork 0 (at_second 8 "h"); EWork 0 (at_second 8 "h"); EKill 0; EStart Fine 20;
   EWork 0 (at_second 21 "h"); EWork 0 (at_second 21 "h"); EWork 0 (at_second 21 "h"); EWork 0 (at_second 22 "h"); EWork 0 (at_second 22 "h");
   EWork 0 (at_second 23 "h")].

Example paid_sites : (λ x, (x.1, cl_Wallet x.2)) <$> as_paid (airdrop_run config events) = [(go "example.com", go "w1"); (go "other.org", go "w2")] ∧
  as_workers (airdrop_run config events) = [Resting] ∧
  (cl_Status <$> as_table (airdrop_run config events) !! go "example.com") = Some claimStatusNeedsReconcile ∧
  (cl_Status <$> as_table (airdrop_run config events) !! go "other.org") = Some claimStatusBroadcast.
Proof. repeat split; vm_compute; reflexivity. Qed.

(** A worker at rest, and two claims that wait. *)
Definition waiting : airdrop :=
  airdrop_run config [EStart Fine 1; EWork 0 (at_second 2 "h"); EWork 0 (at_second 2 "h"); asks "other.org" "w2" 6; asks "example.com" "w1" 5].

Lemma airdrop_queue_drained_witness : ∃ n l, let s := foldl (airdrop_step config) waiting (EWork 0 <$> take n (replicate 14 (at_second 9 "h"))) in
  as_workers s !! 0%nat = Some Resting ∧ queue (as_table s) = ∅ ∧ as_paid s = as_paid waiting ++ l ∧ l ≡ₚ map_to_list (queue (as_table waiting)) ∧
  StronglySorted (λ a b, cl_ClaimedAt a.2 ≤ cl_ClaimedAt b.2) l.
Proof.
  apply (airdrop_queue_drained config waiting 0 (replicate 14 (at_second 9 "h"))).
  - vm_compute. reflexivity.
  - apply Forall_replicate. split; reflexivity.
  - vm_compute. repeat constructor.
Defined.
End AirdropWitness.
